(** * USPTO bulk file processor: a shallow embedding of [src/index.ts]

    The five pipeline stages of [index.ts] are embedded as Rocq functions
    over an explicit world (file system, document store, trace of external
    calls).  The JavaScript runtime pieces the stages lean on
    ([String.prototype.match] with the two regular expressions of the
    source, [String.prototype.split], [Array.prototype.slice],
    [JSON.stringify] / [JSON.parse], POSIX [path.join]) are written out as
    executable functions; the remote site, the zip library, the XML library
    and the store driver are parameters of a section.  What the XML library
    returns for a document is described by the object xml2js builds of an
    XML tree with its default options.

    A JavaScript string is modelled by a Rocq [string]: every [ascii] is one
    UTF-16 code unit below 256.  JSON texts with number or boolean literals
    and objects with array-index property names are outside the model:
    [JSON.parse] reports them as [Unmodelled].  The trace records the calls
    that move data: console lines, HTTP requests, file reads and writes,
    directory creations, zip extractions, XML parses, store connections and
    saves, each with the argument the source passes.

    The first part of the file holds the definitions, the second the facts
    about them, the statements checked against the specification and
    further properties of the code. *)

From Stdlib Require Import Bool Arith ZArith List Sorted Ascii String Lia.
From Stdlib Require Import DecimalString.
Import ListNotations.

Local Open Scope string_scope.
Local Open Scope list_scope.
Local Open Scope nat_scope.

Infix "+++" := String.append (right associativity, at level 60).

Set Implicit Arguments.

(* ================================================================== *)
(** ** Strings *)

Module Str.

Definition dquote : ascii := ascii_of_nat 34.

Definition is_space (c : ascii) : bool :=
  let n := nat_of_ascii c in
  ((9 <=? n) && (n <=? 13)) || (n =? 32) || (n =? 160).

Definition is_upper (c : ascii) : bool :=
  let n := nat_of_ascii c in (65 <=? n) && (n <=? 90).

Definition is_lower (c : ascii) : bool :=
  let n := nat_of_ascii c in (97 <=? n) && (n <=? 122).

Definition is_letter (c : ascii) : bool := is_upper c || is_lower c.

Definition is_digit (c : ascii) : bool :=
  let n := nat_of_ascii c in (48 <=? n) && (n <=? 57).

(** Case folding of the [i] flag: on code units below 256 the only pairs
    identified are the ASCII letters. *)
Definition to_upper (c : ascii) : ascii :=
  if is_lower c then ascii_of_nat (nat_of_ascii c - 32) else c.

Fixpoint chars (s : string) : list ascii :=
  match s with
  | EmptyString => []
  | String c s' => c :: chars s'
  end.

Fixpoint has (c : ascii) (s : string) : bool :=
  match s with
  | EmptyString => false
  | String d s' => Ascii.eqb d c || has c s'
  end.

Fixpoint all (p : ascii -> bool) (s : string) : bool :=
  match s with
  | EmptyString => true
  | String d s' => p d && all p s'
  end.

(** [s.split(sep)] for a one-character separator: never empty. *)
Fixpoint split (sep : ascii) (s : string) : list string :=
  match s with
  | EmptyString => [EmptyString]
  | String c s' =>
      if Ascii.eqb c sep then EmptyString :: split sep s'
      else match split sep s' with
           | h :: t => String c h :: t
           | [] => [String c EmptyString]
           end
  end.

(** [`${n}`] for an integer. *)
Definition of_Z (n : Z) : string := NilZero.string_of_int (Z.to_int n).

End Str.

(* ================================================================== *)
(** ** Regular expressions

    A backtracking matcher for the fragment the two literals of the source
    use: character classes, concatenation, greedy bounded repetition of a
    class and lazy [*?] of a class.  The continuation receives the text left
    after the part matched so far. *)

Module Re.

Inductive regex : Type :=
| Eps
| Chr (p : ascii -> bool)
| Cat (r1 r2 : regex)
| Rep (lo hi : nat) (p : ascii -> bool)
| LazyStar (p : ascii -> bool).

Definition K := string -> option string.

Fixpoint rep_req (p : ascii -> bool) (n : nat) (s : string) (k : K)
  : option string :=
  match n with
  | O => k s
  | S n' =>
      match s with
      | String c s' => if p c then rep_req p n' s' k else None
      | EmptyString => None
      end
  end.

Fixpoint rep_opt (p : ascii -> bool) (n : nat) (s : string) (k : K)
  : option string :=
  match n with
  | O => k s
  | S n' =>
      match s with
      | String c s' =>
          if p c then
            match rep_opt p n' s' k with
            | Some r => Some r
            | None => k s
            end
          else k s
      | EmptyString => k s
      end
  end.

Fixpoint lazy_star (p : ascii -> bool) (s : string) (k : K)
  : option string :=
  match k s with
  | Some r => Some r
  | None =>
      match s with
      | String c s' => if p c then lazy_star p s' k else None
      | EmptyString => None
      end
  end.

Fixpoint run (r : regex) (s : string) (k : K) : option string :=
  match r with
  | Eps => k s
  | Chr p =>
      match s with
      | String c s' => if p c then k s' else None
      | EmptyString => None
      end
  | Cat r1 r2 => run r1 s (fun s' => run r2 s' k)
  | Rep lo hi p => rep_req p lo s (fun s' => rep_opt p (hi - lo) s' k)
  | LazyStar p => lazy_star p s k
  end.

(** A match anchored at the head of [s]: the text left after it. *)
Definition exec (r : regex) (s : string) : option string := run r s Some.

(** The successive matches of a [g] regex, scanning left to right;
    [skip] characters of the last match are still to be stepped over. *)
Fixpoint match_from (r : regex) (skip : nat) (s : string) : list string :=
  match skip with
  | S n =>
      match s with
      | String _ s' => match_from r n s'
      | EmptyString => []
      end
  | O =>
      match exec r s with
      | Some rest =>
          let n := String.length s - String.length rest in
          substring 0 n s ::
            match s with
            | String _ s' => match_from r (pred n) s'
            | EmptyString => []
            end
      | None =>
          match s with
          | String _ s' => match_from r 0 s'
          | EmptyString => []
          end
      end
  end.

(** [s.match(r)] for a regex with the [g] flag: [None] is [null]. *)
Definition String_match (r : regex) (s : string) : option (list string) :=
  match match_from r 0 s with
  | [] => None
  | l => Some l
  end.

(** Building blocks for the literals. *)
Definition ci (c : ascii) : ascii -> bool :=
  fun x => Ascii.eqb (Str.to_upper x) (Str.to_upper c).

Definition any : ascii -> bool := fun _ => true.

Definition seq (l : list regex) : regex := fold_right Cat Eps l.

Definition lit (s : string) : regex :=
  seq (map (fun c => Chr (ci c)) (Str.chars s)).

(** Denotation: [lang r w] when the regex can consume exactly [w]. *)
Fixpoint lang (r : regex) (w : string) : Prop :=
  match r with
  | Eps => w = EmptyString
  | Chr p => exists c, w = String c EmptyString /\ p c = true
  | Cat r1 r2 => exists w1 w2, w = w1 +++ w2 /\ lang r1 w1 /\ lang r2 w2
  | Rep lo hi p =>
      Str.all p w = true /\ lo <= String.length w /\
      String.length w <= lo + (hi - lo)
  | LazyStar p => Str.all p w = true
  end.

(** [f], a matcher in continuation style, consumes only words of [L]. *)
Definition sound_on (f : string -> K -> option string) (L : string -> Prop)
  : Prop :=
  forall s k rest, f s k = Some rest ->
    exists w s', s = w +++ s' /\ L w /\ k s' = Some rest.

End Re.

(* ================================================================== *)
(** ** JavaScript values, exceptions *)

Module Js.

Inductive error : Type :=
| TypeError          (* property of null/undefined, not a function, not iterable *)
| SyntaxError        (* JSON.parse *)
| NetworkError       (* a rejected axios request *)
| FsError (code : string)
| ZipError
| XmlError
| StoreError
| Unmodelled         (* input outside the fragment modelled here *)
| OutOfFuel.         (* a parser out of fuel; [JSON_parse] never is *)

Inductive result (A : Type) : Type :=
| Ok (a : A)
| Err (e : error).
Arguments Ok {A} a.
Arguments Err {A} e.

Definition rbind {A B} (r : result A) (f : A -> result B) : result B :=
  match r with
  | Ok a => f a
  | Err e => Err e
  end.

Fixpoint rmap {A B} (f : A -> result B) (l : list A) : result (list B) :=
  match l with
  | [] => Ok []
  | x :: t =>
      rbind (f x) (fun y => rbind (rmap f t) (fun ys => Ok (y :: ys)))
  end.

(** The values that reach this program: what xml2js builds and what
    [JSON.parse] returns on texts without number or boolean literals. *)
Unset Elimination Schemes.
Inductive value : Type :=
| Undefined
| Null
| Str (s : string)
| Arr (l : list value)
| Obj (l : list (string * value)).
Set Elimination Schemes.

(** Induction through the nested lists. *)
Section ValueInd.
Variable P : value -> Prop.
Hypothesis HU : P Undefined.
Hypothesis HN : P Null.
Hypothesis HS : forall s, P (Str s).
Hypothesis HA : forall l, Forall P l -> P (Arr l).
Hypothesis HO : forall l, Forall (fun kv => P (snd kv)) l -> P (Obj l).

Fixpoint value_ind (v : value) : P v :=
  match v with
  | Undefined => HU
  | Null => HN
  | Str s => HS s
  | Arr l =>
      HA ((fix go (l : list value) : Forall P l :=
             match l with
             | [] => Forall_nil _
             | x :: t => Forall_cons _ (value_ind x) (go t)
             end) l)
  | Obj l =>
      HO ((fix go (l : list (string * value))
             : Forall (fun kv => P (snd kv)) l :=
             match l with
             | [] => Forall_nil _
             | kv :: t => Forall_cons _ (value_ind (snd kv)) (go t)
             end) l)
  end.
End ValueInd.

Fixpoint assoc {A} (k : string) (l : list (string * A)) : option A :=
  match l with
  | [] => None
  | (k', v) :: t => if String.eqb k' k then Some v else assoc k t
  end.

(** [v[k]] for a property name [k] that arrays and strings do not have
    (every name the source uses is of that kind). *)
Definition get (k : string) (v : value) : result value :=
  match v with
  | Undefined | Null => Err TypeError
  | Obj l => Ok (match assoc k l with Some x => x | None => Undefined end)
  | Arr _ | Str _ => Ok Undefined
  end.

(** [v[0]]. *)
Definition get0 (v : value) : result value :=
  match v with
  | Undefined | Null => Err TypeError
  | Arr l => Ok (match l with x :: _ => x | [] => Undefined end)
  | Str s =>
      Ok (match s with
          | String c _ => Str (String c EmptyString)
          | EmptyString => Undefined
          end)
  | Obj l => Ok (match assoc "0" l with Some x => x | None => Undefined end)
  end.

(** [v.map(f)]: only an array has [map]. *)
Definition map_ (f : value -> result value) (v : value) : result value :=
  match v with
  | Arr l => rbind (rmap f l) (fun l' => Ok (Arr l'))
  | _ => Err TypeError
  end.

(** [a.slice(0, e)]. *)
Definition slice0 {A} (e : Z) (l : list A) : list A :=
  let len := Z.of_nat (List.length l) in
  let final := if (e <? 0)%Z then Z.max (len + e) 0 else Z.min e len in
  firstn (Z.to_nat final) l.

(** [a.includes(x)] on an array of strings. *)
Definition includes (x : string) (l : list string) : bool :=
  existsb (String.eqb x) l.

End Js.

(* ================================================================== *)
(** ** JSON.stringify and JSON.parse *)

Module Json.
Import Js.

Definition backslash : ascii := ascii_of_nat 92.

Definition hex_digit (n : nat) : ascii :=
  if n <? 10 then ascii_of_nat (48 + n) else ascii_of_nat (87 + n).

(** QuoteJSONString, one code unit. *)
Definition quote_char (c : ascii) : string :=
  let n := nat_of_ascii c in
  let esc (e : ascii) := String backslash (String e EmptyString) in
  if n =? 8 then esc "b"%char
  else if n =? 9 then esc "t"%char
  else if n =? 10 then esc "n"%char
  else if n =? 12 then esc "f"%char
  else if n =? 13 then esc "r"%char
  else if n =? 34 then esc Str.dquote
  else if n =? 92 then esc backslash
  else if n <? 32 then
    String backslash
      (String "u" (String "0" (String "0"
         (String (hex_digit (n / 16))
            (String (hex_digit (n mod 16)) EmptyString)))))
  else String c EmptyString.

Fixpoint quote_body (s : string) : string :=
  match s with
  | EmptyString => EmptyString
  | String c s' => quote_char c +++ quote_body s'
  end.

Definition quote (s : string) : string :=
  String Str.dquote (quote_body s +++ String Str.dquote EmptyString).

(** SerializeJSONProperty without indentation: [None] is [undefined]. *)
Fixpoint ser (v : value) : option string :=
  match v with
  | Undefined => None
  | Null => Some "null"
  | Str s => Some (quote s)
  | Arr l =>
      Some ("[" +++
            String.concat ","
              (map (fun x => match ser x with
                             | Some t => t
                             | None => "null"
                             end) l) +++ "]")
  | Obj l =>
      Some ("{" +++
            String.concat ","
              (flat_map (fun kv => match ser (snd kv) with
                                   | Some t => [quote (fst kv) +++ ":" +++ t]
                                   | None => []
                                   end) l) +++ "}")
  end.

(** [JSON.stringify(v)]. *)
Definition JSON_stringify (v : value) : value :=
  match ser v with
  | Some t => Str t
  | None => Undefined
  end.

Definition is_ws (c : ascii) : bool :=
  let n := nat_of_ascii c in
  (n =? 32) || (n =? 9) || (n =? 10) || (n =? 13).

Fixpoint skip_ws (s : string) : string :=
  match s with
  | String c s' => if is_ws c then skip_ws s' else s
  | EmptyString => s
  end.

Definition hex_val (c : ascii) : option nat :=
  let n := nat_of_ascii c in
  if (48 <=? n) && (n <=? 57) then Some (n - 48)
  else if (97 <=? n) && (n <=? 102) then Some (n - 87)
  else if (65 <=? n) && (n <=? 70) then Some (n - 55)
  else None.

Definition hex4 (a b c d : ascii) : option nat :=
  match hex_val a, hex_val b, hex_val c, hex_val d with
  | Some x, Some y, Some z, Some w => Some (((x * 16 + y) * 16 + z) * 16 + w)
  | _, _, _, _ => None
  end.

Definition cons_to (c : ascii) (r : result (string * string))
  : result (string * string) :=
  rbind r (fun p => Ok (String c (fst p), snd p)).

(** A JSON string after its opening quote: the decoded text and the input
    after the closing quote. *)
Fixpoint parse_string (s : string) : result (string * string) :=
  match s with
  | EmptyString => Err SyntaxError
  | String c r =>
      if Ascii.eqb c Str.dquote then Ok (EmptyString, r)
      else if Ascii.eqb c backslash then
        match r with
        | EmptyString => Err SyntaxError
        | String e r' =>
            if Ascii.eqb e Str.dquote then cons_to Str.dquote (parse_string r')
            else if Ascii.eqb e backslash then cons_to backslash (parse_string r')
            else if Ascii.eqb e "/" then cons_to "/" (parse_string r')
            else if Ascii.eqb e "b" then cons_to (ascii_of_nat 8) (parse_string r')
            else if Ascii.eqb e "f" then cons_to (ascii_of_nat 12) (parse_string r')
            else if Ascii.eqb e "n" then cons_to (ascii_of_nat 10) (parse_string r')
            else if Ascii.eqb e "r" then cons_to (ascii_of_nat 13) (parse_string r')
            else if Ascii.eqb e "t" then cons_to (ascii_of_nat 9) (parse_string r')
            else if Ascii.eqb e "u" then
              match r' with
              | String h1 (String h2 (String h3 (String h4 r''))) =>
                  match hex4 h1 h2 h3 h4 with
                  | Some n =>
                      if n <? 256
                      then cons_to (ascii_of_nat n) (parse_string r'')
                      else Err Unmodelled
                  | None => Err SyntaxError
                  end
              | _ => Err SyntaxError
              end
            else Err SyntaxError
        end
      else if nat_of_ascii c <? 32 then Err SyntaxError
      else cons_to c (parse_string r)
  end.

(** A property name that is an array index is ordered before the other
    names by JavaScript objects; such objects are outside the model. *)
Definition is_index (k : string) : bool :=
  match k with
  | EmptyString => false
  | String c r =>
      Str.all Str.is_digit k &&
      (negb (Ascii.eqb c "0") || match r with EmptyString => true | _ => false end)
  end.

(** Defining a property: a repeated name keeps its place and takes the
    new value. *)
Fixpoint obj_set (k : string) (v : value) (l : list (string * value))
  : list (string * value) :=
  match l with
  | [] => [(k, v)]
  | (k', v') :: t =>
      if String.eqb k' k then (k', v) :: t else (k', v') :: obj_set k v t
  end.

Definition mk_obj (members : list (string * value)) : result value :=
  if existsb (fun kv => is_index (fst kv)) members then Err Unmodelled
  else Ok (Obj (fold_left (fun acc kv => obj_set (fst kv) (snd kv) acc)
                  members [])).

Fixpoint parse_val (fuel : nat) (s : string) : result (value * string) :=
  match fuel with
  | O => Err OutOfFuel
  | S f =>
      match skip_ws s with
      | EmptyString => Err SyntaxError
      | String c r =>
          if Ascii.eqb c Str.dquote then
            rbind (parse_string r) (fun p => Ok (Str (fst p), snd p))
          else if Ascii.eqb c "[" then
            match skip_ws r with
            | String "]" r' => Ok (Arr [], r')
            | _ => rbind (parse_elems f r) (fun p => Ok (Arr (fst p), snd p))
            end
          else if Ascii.eqb c "{" then
            match skip_ws r with
            | String "}" r' => Ok (Obj [], r')
            | _ =>
                rbind (parse_members f r) (fun p =>
                rbind (mk_obj (fst p)) (fun o => Ok (o, snd p)))
            end
          else if Ascii.eqb c "n" then
            match r with
            | String "u" (String "l" (String "l" r')) => Ok (Null, r')
            | _ => Err SyntaxError
            end
          else if Ascii.eqb c "t" || Ascii.eqb c "f" || Ascii.eqb c "-"
                  || Str.is_digit c
          then Err Unmodelled
          else Err SyntaxError
      end
  end

with parse_elems (fuel : nat) (s : string)
  : result (list value * string) :=
  match fuel with
  | O => Err OutOfFuel
  | S f =>
      rbind (parse_val f s) (fun p =>
        match skip_ws (snd p) with
        | String "," r =>
            rbind (parse_elems f r) (fun q => Ok (fst p :: fst q, snd q))
        | String "]" r => Ok ([fst p], r)
        | _ => Err SyntaxError
        end)
  end

with parse_members (fuel : nat) (s : string)
  : result (list (string * value) * string) :=
  match fuel with
  | O => Err OutOfFuel
  | S f =>
      match skip_ws s with
      | String c r =>
          if Ascii.eqb c Str.dquote then
            rbind (parse_string r) (fun k =>
              match skip_ws (snd k) with
              | String ":" r1 =>
                  rbind (parse_val f r1) (fun p =>
                    match skip_ws (snd p) with
                    | String "," r2 =>
                        rbind (parse_members f r2) (fun q =>
                          Ok ((fst k, fst p) :: fst q, snd q))
                    | String "}" r2 => Ok ([(fst k, fst p)], r2)
                    | _ => Err SyntaxError
                    end)
              | _ => Err SyntaxError
              end)
          else Err SyntaxError
      | EmptyString => Err SyntaxError
      end
  end.

(** [JSON.parse(s)]: one value, then only white space.  The fuel is more
    than the parser can use on [s]. *)
Definition JSON_parse (s : string) : result value :=
  rbind (parse_val (2 * String.length s + 1) s) (fun p =>
    match skip_ws (snd p) with
    | EmptyString => Ok (fst p)
    | _ => Err SyntaxError
    end).

(** The text of a value inside an array. *)
Definition enc (v : value) : string :=
  match ser v with Some t => t | None => "null" end.

Definition member (kv : string * value) : list string :=
  match ser (snd kv) with
  | Some t => [quote (fst kv) +++ ":" +++ t]
  | None => []
  end.

(** Values without [undefined]: what a JSON text denotes. *)
Fixpoint plain (v : value) : bool :=
  match v with
  | Undefined => false
  | Null | Str _ => true
  | Arr l => forallb plain l
  | Obj l => forallb (fun kv => plain (snd kv)) l
  end.

Fixpoint distinct (ks : list string) : bool :=
  match ks with
  | [] => true
  | k :: t => negb (includes k t) && distinct t
  end.

(** Objects as [JSON.parse] builds them: distinct names, none an index. *)
Fixpoint tidy (v : value) : bool :=
  match v with
  | Undefined | Null | Str _ => true
  | Arr l => forallb tidy l
  | Obj l =>
      forallb (fun kv => tidy (snd kv)) l &&
      distinct (map fst l) &&
      negb (existsb (fun kv => is_index (fst kv)) l)
  end.

(** The characters a serialized value can start with. *)
Definition opener (c : ascii) : Prop :=
  c = Str.dquote \/ c = "["%char \/ c = "{"%char \/ c = "n"%char.

(** One member of a serialized object. *)
Definition entry (kv : string * value) : string :=
  quote (fst kv) +++ ":" +++ enc (snd kv).

(** Parsing the text of [v], whatever follows it, gives [v] and what
    follows, with less fuel than the text has characters. *)
Definition rt (v : value) : Prop :=
  plain v = true -> tidy v = true ->
  exists n, n < String.length (enc v) /\
    forall fuel rest, n <= fuel ->
      parse_val fuel (enc v +++ rest) = Ok (v, rest).

(** The result is not a fuel failure, and what is left is shorter than [s]. *)
Definition within_fuel {A} (res : result (A * string)) (s : string) : Prop :=
  res <> Err OutOfFuel /\
  forall v r, res = Ok (v, r) -> String.length r < String.length s.

End Json.

(* ================================================================== *)
(** ** POSIX [path] *)

Module Path.

(** normalizeString: empty and [.] segments vanish, [..] removes the
    segment before it, or stays when there is none to remove and the path
    is relative.  [acc] is the result so far, last segment first. *)
Fixpoint normalize_segs (allowAboveRoot : bool) (segs acc : list string)
  : list string :=
  match segs with
  | [] => rev acc
  | seg :: rest =>
      if String.eqb seg "" || String.eqb seg "." then
        normalize_segs allowAboveRoot rest acc
      else if String.eqb seg ".." then
        match acc with
        | top :: acc' =>
            if String.eqb top ".."
            then normalize_segs allowAboveRoot rest
                   (if allowAboveRoot then ".." :: acc else acc)
            else normalize_segs allowAboveRoot rest acc'
        | [] =>
            normalize_segs allowAboveRoot rest
              (if allowAboveRoot then [".."] else [])
        end
      else normalize_segs allowAboveRoot rest (seg :: acc)
  end.

Fixpoint ends_with_slash (p : string) : bool :=
  match p with
  | EmptyString => false
  | String c EmptyString => Ascii.eqb c "/"
  | String _ r => ends_with_slash r
  end.

(** [path.normalize]. *)
Definition normalize (p : string) : string :=
  match p with
  | EmptyString => "."
  | String c _ =>
      let isAbsolute := Ascii.eqb c "/" in
      let trailingSeparator := ends_with_slash p in
      let body :=
        String.concat "/"
          (normalize_segs (negb isAbsolute) (Str.split "/" p) []) in
      match body with
      | EmptyString =>
          if isAbsolute then "/"
          else if trailingSeparator then "./" else "."
      | _ =>
          (if isAbsolute then "/" else "") +++ body +++
          (if trailingSeparator then "/" else "")
      end
  end.

(** [path.join(a, b)]. *)
Definition join (a b : string) : string :=
  match a, b with
  | EmptyString, EmptyString => "."
  | EmptyString, _ => normalize b
  | _, EmptyString => normalize a
  | _, _ => normalize (a +++ "/" +++ b)
  end.

(** The text before and after the last [/]. *)
Fixpoint rsplit (p : string) : option (string * string) :=
  match p with
  | EmptyString => None
  | String c r =>
      match rsplit r with
      | Some (a, b) => Some (String c a, b)
      | None => if Ascii.eqb c "/" then Some (EmptyString, r) else None
      end
  end.

Definition dirname (p : string) : string :=
  match rsplit p with
  | None => "."
  | Some (EmptyString, _) => "/"
  | Some (a, _) => a
  end.

Definition basename (p : string) : string :=
  match rsplit p with
  | None => p
  | Some (_, b) => b
  end.

End Path.

(* ================================================================== *)
(** ** The world: files, store, trace of external calls *)

Module World.
Import Js.

Inductive node : Type :=
| File (data : string)
| Dir.

(** The file system: one entry for each file and directory that exists,
    keyed by its normalized path, in listing order.  The working directory
    [.] and the root [/] always exist; the empty path names nothing. *)
Definition fsys := list (string * node).

(** The document handed to the store by [new UsptoData({...})]. *)
Record UsptoData : Type := mkUsptoData {
  doc_language : value;
  doc_country : value;
  doc_dateProduced : value;
  doc_datePublished : value;
  doc_dtdVersion : value;
  doc_xmlFile : value;
  doc_patentStatus : value;
  doc_patentAbstract : value;
  doc_patentClaims : value;
  doc_patentHeadings : value;
  doc_inventionTitle : value;
  doc_inventionId : value;
  doc_documentNumber : value
}.

Inductive event : Type :=
| ConsoleLog (msg : string)
| HttpGet (url : string)
| FsRead (path : string)
| FsWrite (path : string)
| FsMkdir (path : string)
| ZipExtract (zipPath target : string)
| XmlParse (text : string)
| StoreConnect (uri : option string)
| StoreSave (doc : UsptoData).

Record world : Type := mkWorld {
  files : fsys;
  store : list UsptoData;
  trace : list event
}.

(** A computation: the world after it, and its value or the exception that
    stopped it.  What was done before an exception stays done. *)
Definition M (A : Type) : Type := world -> world * result A.

Definition ret {A} (a : A) : M A := fun w => (w, Ok a).

Definition throw {A} (e : error) : M A := fun w => (w, Err e).

Definition bind {A B} (m : M A) (k : A -> M B) : M B :=
  fun w =>
    match m w with
    | (w', Ok a) => k a w'
    | (w', Err e) => (w', Err e)
    end.

Definition lift {A} (r : result A) : M A := fun w => (w, r).

Definition emit (e : event) : M unit :=
  fun w => (mkWorld (files w) (store w) (trace w ++ [e]), Ok tt).

Definition set_files (fs : fsys) : M unit :=
  fun w => (mkWorld fs (store w) (trace w), Ok tt).

Definition get_files : M fsys := fun w => (w, Ok (files w)).

(** [for (let x of l) { body }]. *)
Fixpoint for_of {A} (l : list A) (body : A -> M unit) : M unit :=
  match l with
  | [] => ret tt
  | x :: t => bind (body x) (fun _ => for_of t body)
  end.

(** A loop that pushes one result per element. *)
Fixpoint for_push {A B} (l : list A) (body : A -> M B) : M (list B) :=
  match l with
  | [] => ret []
  | x :: t =>
      bind (body x) (fun y => bind (for_push t body) (fun ys => ret (y :: ys)))
  end.

(** *** [fs] *)

Definition strip_slash (p : string) : string :=
  match Path.rsplit p with
  | Some (String c a, EmptyString) => String c a
  | _ => p
  end.

(** [fs] does not normalize the empty path to [.]: it names nothing. *)
Definition key (p : string) : string :=
  match p with
  | EmptyString => EmptyString
  | _ => strip_slash (Path.normalize p)
  end.

Definition is_root (k : string) : bool := String.eqb k "." || String.eqb k "/".

Definition is_dir (fs : fsys) (k : string) : bool :=
  is_root k ||
  match assoc k fs with
  | Some Dir => true
  | _ => false
  end.

Definition exists_in (fs : fsys) (k : string) : bool :=
  is_root k ||
  match assoc k fs with
  | Some _ => true
  | None => false
  end.

Definition children (fs : fsys) (d : string) : list string :=
  map (fun e => Path.basename (fst e))
    (filter (fun e => String.eqb (Path.dirname (fst e)) d
                      && negb (is_root (fst e))) fs).

Fixpoint replace (k : string) (n : node) (fs : fsys) : fsys :=
  match fs with
  | [] => []
  | (k', n') :: t =>
      if String.eqb k' k then (k', n) :: t else (k', n') :: replace k n t
  end.

(** The directories on the way to [k], innermost first: [a/b], [a] for
    [a/b/c]. *)
Fixpoint way_up (n : nat) (k : string) : list string :=
  match n with
  | 0 => []
  | S n' =>
      let d := Path.dirname k in
      if is_root d then [] else d :: way_up n' d
  end.

(** The same, outermost first, as the path is resolved. *)
Definition way (k : string) : list string := rev (way_up (String.length k) k).

(** Resolving a path that has no entry stops at the first name on the way
    that is not a directory: [ENOTDIR] when it is a regular file, [ENOENT]
    when it is missing, or when only the last name is. *)
Fixpoint way_error (fs : fsys) (l : list string) : error :=
  match l with
  | [] => FsError "ENOENT"
  | d :: t =>
      match assoc d fs with
      | Some Dir => way_error fs t
      | Some (File _) => FsError "ENOTDIR"
      | None => FsError "ENOENT"
      end
  end.

Definition missing_error (fs : fsys) (k : string) : error :=
  way_error fs (way k).

(** A new entry needs a name and a directory to hold it. *)
Definition can_create (fs : fsys) (k : string) : bool :=
  negb (String.eqb k "") && is_dir fs (Path.dirname k).

Definition existsSync (p : string) : M bool :=
  fun w => (w, Ok (exists_in (files w) (key p))).

Definition mkdirSync (p : string) : M unit :=
  bind get_files (fun fs =>
    let k := key p in
    if exists_in fs k then throw (FsError "EEXIST")
    else if can_create fs k then
      bind (set_files (fs ++ [(k, Dir)])) (fun _ => emit (FsMkdir p))
    else throw (missing_error fs k)).

Definition readdirSync (p : string) : M (list string) :=
  bind get_files (fun fs =>
    let k := key p in
    if is_dir fs k then ret (children fs k)
    else if exists_in fs k then throw (FsError "ENOTDIR")
    else throw (missing_error fs k)).

Definition readFileSync (p : string) : M string :=
  bind get_files (fun fs =>
    let k := key p in
    match assoc k fs with
    | Some (File data) => bind (emit (FsRead p)) (fun _ => ret data)
    | Some Dir => throw (FsError "EISDIR")
    | None =>
        if is_root k then throw (FsError "EISDIR")
        else throw (missing_error fs k)
    end).

Definition writeFileSync (p data : string) : M unit :=
  bind get_files (fun fs =>
    let k := key p in
    match assoc k fs with
    | Some (File _) =>
        bind (set_files (replace k (File data) fs)) (fun _ => emit (FsWrite p))
    | Some Dir => throw (FsError "EISDIR")
    | None =>
        if is_root k then throw (FsError "EISDIR")
        else if can_create fs k then
          bind (set_files (fs ++ [(k, File data)])) (fun _ => emit (FsWrite p))
        else throw (missing_error fs k)
    end).

Definition console_log (msg : string) : M unit := emit (ConsoleLog msg).

End World.

Notation "x <- m ;; k" := (World.bind m (fun x => k))
  (at level 61, m at next level, right associativity).
Notation "m ;;; k" := (World.bind m (fun _ => k))
  (at level 61, right associativity).

(* ================================================================== *)
(** ** [index.ts] *)

Import Js World.

Record UsptoZipFileInfo : Type := mkUsptoZipFileInfo {
  name : string;
  url : string
}.

(** [UsptoPatentData]; a field holds whatever the lookups in the parsed
    document gave. *)
Record UsptoPatentData : Type := mkUsptoPatentData {
  language : value;
  country : value;
  dateProduced : value;
  datePublished : value;
  dtdVersion : value;
  xmlFile : value;
  patentStatus : value;
  patentAbstract : value;
  patentClaims : value;
  patentHeadings : value;
  inventionTitle : value;
  inventionId : value;
  documentNumber : value
}.

(** [UsptoPatentSchemaData]: the same thirteen properties, the three nested
    ones replaced by their JSON text. *)
Record UsptoPatentSchemaData : Type := mkUsptoPatentSchemaData {
  s_language : value;
  s_country : value;
  s_dateProduced : value;
  s_datePublished : value;
  s_dtdVersion : value;
  s_xmlFile : value;
  s_patentStatus : value;
  s_patentAbstract : value;
  s_patentClaims : value;
  s_patentHeadings : value;
  s_inventionTitle : value;
  s_inventionId : value;
  s_documentNumber : value
}.

(** The object a [UsptoPatentSchemaData] is, properties in creation order. *)
Definition schema_object (d : UsptoPatentSchemaData) : value :=
  Obj [ ("language", s_language d);
        ("country", s_country d);
        ("dateProduced", s_dateProduced d);
        ("datePublished", s_datePublished d);
        ("dtdVersion", s_dtdVersion d);
        ("xmlFile", s_xmlFile d);
        ("patentStatus", s_patentStatus d);
        ("patentAbstract", s_patentAbstract d);
        ("patentClaims", s_patentClaims d);
        ("patentHeadings", s_patentHeadings d);
        ("inventionTitle", s_inventionTitle d);
        ("inventionId", s_inventionId d);
        ("documentNumber", s_documentNumber d) ].

(** [/a\shref[=]["][a-zA-Z]{1,5}[0-9]{1,11}[.]zip["][>]/gmis] *)
Definition linkRegularExpression : Re.regex :=
  Re.seq [ Re.lit "a"; Re.Chr Str.is_space; Re.lit "href"; Re.lit "=";
           Re.Chr (Re.ci Str.dquote);
           Re.Rep 1 5 Str.is_letter; Re.Rep 1 11 Str.is_digit;
           Re.lit "."; Re.lit "zip";
           Re.Chr (Re.ci Str.dquote); Re.lit ">" ].

(** [/[<]us-patent-application\s.*?[<][/]us-patent-application[>]/gmis] *)
Definition patentXmlSectionRegularExpression : Re.regex :=
  Re.seq [ Re.lit "<"; Re.lit "us-patent-application"; Re.Chr Str.is_space;
           Re.LazyStar Re.any;
           Re.lit "<"; Re.lit "/"; Re.lit "us-patent-application";
           Re.lit ">" ].

(** [linkText.split('"')[1].split('"')[0]] *)
Definition link_target (linkText : string) : result string :=
  match nth_error (Str.split Str.dquote linkText) 1 with
  | None => Err TypeError
  | Some t =>
      match Str.split Str.dquote t with
      | h :: _ => Ok h
      | [] => Err TypeError
      end
  end.

(** One step of a chain of property reads: [v[k]] or [v[0]]. *)
Inductive step : Type :=
| K (k : string)
| I0.

Fixpoint nav (steps : list step) (v : value) : result value :=
  match steps with
  | [] => Ok v
  | K k :: rest => rbind (get k v) (nav rest)
  | I0 :: rest => rbind (get0 v) (nav rest)
  end.

Definition upa : step := K "us-patent-application".
Definition biblio : step := K "us-bibliographic-data-application".

(** The object literal [processedPatentData] of [processUsptoXmlFile]. *)
Definition processedPatentData (parsedPatentData : value)
  : result UsptoPatentData :=
  rbind (nav [upa; K "$"; K "lang"] parsedPatentData) (fun language =>
  rbind (nav [upa; K "$"; K "country"] parsedPatentData) (fun country =>
  rbind (nav [upa; K "$"; K "date-produced"] parsedPatentData) (fun dateProduced =>
  rbind (nav [upa; K "$"; K "date-publ"] parsedPatentData) (fun datePublished =>
  rbind (nav [upa; K "$"; K "dtd-version"] parsedPatentData) (fun dtdVersion =>
  rbind (nav [upa; K "$"; K "file"] parsedPatentData) (fun xmlFile =>
  rbind (nav [upa; K "$"; K "status"] parsedPatentData) (fun patentStatus =>
  rbind (rbind (nav [upa; K "abstract"; I0; K "p"] parsedPatentData)
           (map_ (fun abstract => get "_" abstract))) (fun patentAbstract =>
  rbind (rbind (rbind (nav [upa; K "claims"; I0; K "claim"] parsedPatentData)
           (map_ (fun claim => nav [K "claim-text"; I0] claim)))
           (map_ (fun claim =>
              rbind (get "_" claim) (fun genericClaim =>
              rbind (get "claim-text" claim) (fun individualClaims =>
              Ok (Obj [ ("genericClaim", genericClaim);
                        ("individualClaims", individualClaims) ]))))))
    (fun patentClaims =>
  rbind (rbind (nav [upa; K "description"; I0; K "heading"] parsedPatentData)
           (map_ (fun heading => get "_" heading))) (fun patentHeadings =>
  rbind (nav [upa; biblio; I0; K "invention-title"; I0; K "_"]
           parsedPatentData) (fun inventionTitle =>
  rbind (nav [upa; biblio; I0; K "invention-title"; I0; K "$"; K "id"]
           parsedPatentData) (fun inventionId =>
  rbind (nav [upa; biblio; I0; K "publication-reference"; I0;
              K "document-id"; I0; K "doc-number"; I0]
           parsedPatentData) (fun documentNumber =>
  Ok (mkUsptoPatentData language country dateProduced datePublished
        dtdVersion xmlFile patentStatus patentAbstract patentClaims
        patentHeadings inventionTitle inventionId documentNumber)
  ))))))))))))).

(** The object literal [processedPatentSchemaData]: the spread, then the
    three properties overwritten with their JSON text. *)
Definition processedPatentSchemaData (p : UsptoPatentData)
  : UsptoPatentSchemaData :=
  mkUsptoPatentSchemaData
    (language p) (country p) (dateProduced p) (datePublished p)
    (dtdVersion p) (xmlFile p) (patentStatus p)
    (Json.JSON_stringify (patentAbstract p))
    (Json.JSON_stringify (patentClaims p))
    (Json.JSON_stringify (patentHeadings p))
    (inventionTitle p) (inventionId p) (documentNumber p).

(** [synchronizedFileNames.includes(fileName)] on whatever [JSON.parse]
    returned: membership for an array, substring for a string, no such
    method otherwise. *)
Definition value_includes (x : string) (v : value) : result bool :=
  match v with
  | Arr l =>
      Ok (existsb (fun e => match e with
                            | Str s => String.eqb s x
                            | _ => false
                            end) l)
  | Str s => Ok (match String.index 0 x s with Some _ => true | None => false end)
  | _ => Err TypeError
  end.

Fixpoint filter_out_included (ledger : value) (names : list string)
  : result (list string) :=
  match names with
  | [] => Ok []
  | n :: t =>
      rbind (value_includes n ledger) (fun b =>
      rbind (filter_out_included ledger t) (fun t' =>
      Ok (if negb b then n :: t' else t')))
  end.

(** The elements a [for ... of] visits. *)
Definition iterate (v : value) : result (list value) :=
  match v with
  | Arr l => Ok l
  | Str s => Ok (map (fun c => Str (String c EmptyString)) (Str.chars s))
  | _ => Err TypeError
  end.

(** The argument of [new UsptoData({...})]. *)
Definition usptoData (processedUsptoSchemaData : value) : result UsptoData :=
  let d := processedUsptoSchemaData in
  rbind (get "language" d) (fun language =>
  rbind (get "country" d) (fun country =>
  rbind (get "dateProduced" d) (fun dateProduced =>
  rbind (get "datePublished" d) (fun datePublished =>
  rbind (get "dtdVersion" d) (fun dtdVersion =>
  rbind (get "xmlFile" d) (fun xmlFile =>
  rbind (get "patentStatus" d) (fun patentStatus =>
  rbind (get "patentAbstract" d) (fun patentAbstract =>
  rbind (get "patentClaims" d) (fun patentClaims =>
  rbind (get "patentHeadings" d) (fun patentHeadings =>
  rbind (get "inventionTitle" d) (fun inventionTitle =>
  rbind (get "inventionId" d) (fun inventionId =>
  rbind (get "documentNumber" d) (fun documentNumber =>
  Ok (mkUsptoData language country dateProduced datePublished dtdVersion
        xmlFile patentStatus
        (Json.JSON_stringify patentAbstract)
        (Json.JSON_stringify patentClaims)
        (Json.JSON_stringify patentHeadings)
        inventionTitle inventionId documentNumber)))))))))))))).

Definition redbook : string :=
  "https://bulkdata.uspto.gov/data/patent/application/redbook/fulltext/".

(** The years [startYear, startYear + 1, ...] up to [endYear]. *)
Definition years (startYear endYear : Z) : list Z :=
  map (fun i => (startYear + Z.of_nat i)%Z)
    (List.seq 0 (Z.to_nat (endYear - startYear + 1))).

Record AxiosResponse : Type := mkAxiosResponse {
  config_url : string;
  data : string
}.

(** The second loop of [fetchUsptoZipFileInfos] on one response. *)
Definition response_infos (usptoYearResponse : AxiosResponse)
  : result (list UsptoZipFileInfo) :=
  let usptoBulkDataYearUrl := config_url usptoYearResponse in
  let htmlPageContents := data usptoYearResponse in
  match Re.String_match linkRegularExpression htmlPageContents with
  | None => Err TypeError
  | Some links =>
      rbind (rmap link_target links) (fun usptoBulkDataLinks =>
      Ok (map (fun ipaZipFileName =>
                 mkUsptoZipFileInfo ipaZipFileName
                   (usptoBulkDataYearUrl +++ ipaZipFileName))
            usptoBulkDataLinks))
  end.

Section Pipeline.

(** The collaborators outside the repository. *)
Variable axios_get : string -> option string.
Variable xml2js_parseString : string -> result value.
Variable AdmZip_extractAllTo : string -> string -> fsys -> result fsys.
Variable mongoose_createConnection : option string -> bool.
Variable model_save : UsptoData -> bool.
Variable currentYear : Z.
Variable env_CONNECTION_STRING : option string.
Variable dirname__ : string.

Definition axios (u : string) : M AxiosResponse :=
  emit (HttpGet u) ;;;
  match axios_get u with
  | Some body => ret (mkAxiosResponse u body)
  | None => throw NetworkError
  end.

Definition or_default {A} (d : A) (o : option A) : A :=
  match o with
  | Some a => a
  | None => d
  end.

Definition fetchUsptoZipFileInfos (fileLimit startYear endYear : option Z)
  : M (list UsptoZipFileInfo) :=
  let fileLimit := or_default 1%Z fileLimit in
  let startYear := or_default 2005%Z startYear in
  let endYear := or_default currentYear endYear in
  usptoYearResolvedPromises <-
    for_push (years startYear endYear) (fun year =>
      let usptoBulkDataYearUrl := redbook +++ Str.of_Z year +++ "/" in
      usptoYearResponse <- axios usptoBulkDataYearUrl ;;
      console_log ("Successfully fetched " +++ usptoBulkDataYearUrl +++ ".") ;;;
      ret usptoYearResponse) ;;
  perYear <- lift (rmap response_infos usptoYearResolvedPromises) ;;
  ret (slice0 fileLimit (List.concat perYear)).

Definition synchronizeUsptoZipFiles
    (usptoZipFileInfos : list UsptoZipFileInfo)
    (zipFileCacheDir : option string) : M unit :=
  let zipFileCacheDir :=
    or_default (Path.join dirname__ "uspto_zip_file_cache") zipFileCacheDir in
  present <- existsSync zipFileCacheDir ;;
  (if negb present then mkdirSync zipFileCacheDir else ret tt) ;;;
  cachedZipFilePaths <- readdirSync zipFileCacheDir ;;
  for_of usptoZipFileInfos (fun usptoZipFileInfo =>
    if negb (includes (name usptoZipFileInfo) cachedZipFilePaths) then
      console_log ("Fetching USPTO file at: " +++ url usptoZipFileInfo) ;;;
      let usptoZipFileName := name usptoZipFileInfo in
      usptoZipFileResponse <- axios (url usptoZipFileInfo) ;;
      let usptoZipFileCachePath := Path.join zipFileCacheDir usptoZipFileName in
      writeFileSync usptoZipFileCachePath (data usptoZipFileResponse)
    else ret tt).

Definition extractAllTo (zipPath target : string) : M unit :=
  emit (ZipExtract zipPath target) ;;;
  fs <- get_files ;;
  match AdmZip_extractAllTo zipPath target fs with
  | Ok fs' => set_files fs'
  | Err e => throw e
  end.

Definition processCachedUsptoZipFiles
    (zipFileCacheDir processedZipFileCacheDir : option string) : M unit :=
  let zipFileCacheDir :=
    or_default (Path.join dirname__ "uspto_zip_file_cache") zipFileCacheDir in
  let processedZipFileCacheDir :=
    or_default (Path.join dirname__ "uspto_xml_file_cache")
      processedZipFileCacheDir in
  present <- existsSync processedZipFileCacheDir ;;
  (if negb present then mkdirSync processedZipFileCacheDir else ret tt) ;;;
  names <- readdirSync zipFileCacheDir ;;
  let cachedZipFilePaths :=
    map (fun zipFileName => Path.join zipFileCacheDir zipFileName) names in
  for_of cachedZipFilePaths (fun cachedZipFilePath =>
    extractAllTo cachedZipFilePath processedZipFileCacheDir).

Definition parseStringPromise (text : string) : M value :=
  emit (XmlParse text) ;;;
  lift (xml2js_parseString text).

Definition processUsptoXmlFile (bulkXmlFilePath : string)
  : M (list UsptoPatentSchemaData) :=
  xmlData <- readFileSync bulkXmlFilePath ;;
  match Re.String_match patentXmlSectionRegularExpression xmlData with
  | None => throw TypeError
  | Some patentXmlSections =>
      for_push patentXmlSections (fun patentXmlSection =>
        parsedPatentData <- parseStringPromise patentXmlSection ;;
        p <- lift (processedPatentData parsedPatentData) ;;
        ret (processedPatentSchemaData p))
  end.

(** [usptoXmlFilePath.split(".")[0] + '.json'] *)
Definition json_name (usptoXmlFilePath : string) : string :=
  match Str.split "." usptoXmlFilePath with
  | h :: _ => h +++ ".json"
  | [] => "undefined.json"
  end.

Definition write_json (p : string) (v : value) : M unit :=
  match Json.JSON_stringify v with
  | Str t => writeFileSync p t
  | _ => throw TypeError
  end.

Definition processCachedUsptoXmlData
    (usptoXmlFileCacheDir usptoJsonFileCacheDir : option string) : M unit :=
  let usptoXmlFileCacheDir :=
    or_default (Path.join dirname__ "uspto_xml_file_cache")
      usptoXmlFileCacheDir in
  let usptoJsonFileCacheDir :=
    or_default (Path.join dirname__ "uspto_json_file_cache")
      usptoJsonFileCacheDir in
  names <- readdirSync usptoXmlFileCacheDir ;;
  let usptoXmlFilePaths :=
    map (fun fileName => Path.join usptoXmlFileCacheDir fileName) names in
  for_of usptoXmlFilePaths (fun usptoXmlFilePath =>
    usptoSchemaData <- processUsptoXmlFile usptoXmlFilePath ;;
    let usptoJsonSchemaDataFilePath :=
      Path.join usptoJsonFileCacheDir (json_name usptoXmlFilePath) in
    write_json usptoJsonSchemaDataFilePath
      (Arr (map schema_object usptoSchemaData))).

Definition createConnection (connectionString : option string) : M unit :=
  emit (StoreConnect connectionString) ;;;
  if mongoose_createConnection connectionString then ret tt
  else throw StoreError.

Definition save (doc : UsptoData) : M unit :=
  emit (StoreSave doc) ;;;
  if model_save doc
  then fun w => (mkWorld (files w) (store w ++ [doc]) (trace w), Ok tt)
  else throw StoreError.

Definition synchronizeProcessedDataToMongoDB
    (connectionString : option string)
    (processedJsonFileCacheDir synchronizeFilePath : option string)
  : M unit :=
  let processedJsonFileCacheDir :=
    or_default (Path.join dirname__ "uspto_json_file_cache")
      processedJsonFileCacheDir in
  let synchronizeFilePath :=
    or_default (Path.join dirname__ "sync.json") synchronizeFilePath in
  let connectionString :=
    match connectionString with
    | None => env_CONNECTION_STRING
    | Some s => Some s
    end in
  present <- existsSync synchronizeFilePath ;;
  synchronizedFileNames <-
    (if present then
       text <- readFileSync synchronizeFilePath ;;
       lift (Json.JSON_parse text)
     else
       writeFileSync synchronizeFilePath "[]" ;;;
       ret (Arr [])) ;;
  names <- readdirSync processedJsonFileCacheDir ;;
  processedJsonCachedFiles <-
    lift (filter_out_included synchronizedFileNames names) ;;
  createConnection connectionString ;;;
  for_of processedJsonCachedFiles (fun processedJsonCachedFile =>
    let processedXmlCachedPath :=
      Path.join processedJsonFileCacheDir processedJsonCachedFile in
    text <- readFileSync processedXmlCachedPath ;;
    parsed <- lift (Json.JSON_parse text) ;;
    processedXmlUsptoSchemaDataArray <- lift (iterate parsed) ;;
    for_of processedXmlUsptoSchemaDataArray (fun processedUsptoSchemaData =>
      doc <- lift (usptoData processedUsptoSchemaData) ;;
      save doc)).

Definition synchronize : M unit :=
  usptoZipFileInfos <- fetchUsptoZipFileInfos None None None ;;
  synchronizeUsptoZipFiles usptoZipFileInfos None ;;;
  processCachedUsptoZipFiles None None ;;;
  processCachedUsptoXmlData None None ;;;
  synchronizeProcessedDataToMongoDB None None None.

End Pipeline.

(* ================================================================== *)
(** ** Notions the statements use *)

(** The hyperlink target inside a matched link text. *)
Definition link_name (linkText : string) : string :=
  nth 1 (Str.split Str.dquote linkText) EmptyString.

(** The targets of the zip links of a page, in page order. *)
Definition zip_links (page : string) : list string :=
  map link_name (Re.match_from linkRegularExpression 0 page).

(** 1-5 letters, 1-11 digits, then [.zip] in either case. *)
Definition is_zip_name (n : string) : Prop :=
  exists ls ds ext,
    n = ls +++ ds +++ ext /\
    Str.all Str.is_letter ls = true /\ 1 <= String.length ls <= 5 /\
    Str.all Str.is_digit ds = true /\ 1 <= String.length ds <= 11 /\
    map Str.to_upper (Str.chars ext) = Str.chars ".ZIP".

(** The index page of a year. *)
Definition year_url (year : Z) : string := redbook +++ Str.of_Z year +++ "/".

(** The references one year contributes: its zip links in page order. *)
Definition year_refs (axios_get : string -> option string) (year : Z)
  : list UsptoZipFileInfo :=
  match axios_get (year_url year) with
  | Some page =>
      map (fun n => mkUsptoZipFileInfo n (year_url year +++ n)) (zip_links page)
  | None => []
  end.

(** All the references of the years [startYear..endYear], year by year. *)
Definition discovered (axios_get : string -> option string)
    (startYear endYear : Z) : list UsptoZipFileInfo :=
  List.concat (map (year_refs axios_get) (years startYear endYear)).

(** The body of the first loop of [fetchUsptoZipFileInfos]. *)
Definition year_body (axios_get : string -> option string) (year : Z)
  : M AxiosResponse :=
  let usptoBulkDataYearUrl := redbook +++ Str.of_Z year +++ "/" in
  usptoYearResponse <- axios axios_get usptoBulkDataYearUrl ;;
  console_log ("Successfully fetched " +++ usptoBulkDataYearUrl +++ ".") ;;;
  ret usptoYearResponse.

(** A response of the first loop belongs to its year. *)
Definition response_of (axios_get : string -> option string)
    (year : Z) (r : AxiosResponse) : Prop :=
  config_url r = year_url year /\ axios_get (year_url year) = Some (data r).

(** The urls requested, in order. *)
Definition fetches (t : list event) : list string :=
  flat_map (fun e => match e with HttpGet u => [u] | _ => [] end) t.

(** The files written, in order. *)
Definition writes (t : list event) : list string :=
  flat_map (fun e => match e with FsWrite p => [p] | _ => [] end) t.

(** The references whose name the listing lacks. *)
Definition missing (cached : list string) (refs : list UsptoZipFileInfo)
  : list UsptoZipFileInfo :=
  filter (fun r => negb (includes (name r) cached)) refs.

(** Make one directory when it is not there, then list another. *)
Definition ensure_then_list (made listed : string) : M (list string) :=
  present <- existsSync made ;;
  (if negb present then mkdirSync made else ret tt) ;;;
  readdirSync listed.

(** The statements of [synchronizeUsptoZipFiles] before its loop: make the
    directory when it is not there, then list it. *)
Definition ensure_and_list (dir : string) : M (list string) :=
  ensure_then_list dir dir.

(** The body of the loop of [synchronizeUsptoZipFiles]. *)
Definition sync_body (axios_get : string -> option string)
    (zipFileCacheDir : string) (cachedZipFilePaths : list string)
    (usptoZipFileInfo : UsptoZipFileInfo) : M unit :=
  if negb (includes (name usptoZipFileInfo) cachedZipFilePaths) then
    console_log ("Fetching USPTO file at: " +++ url usptoZipFileInfo) ;;;
    let usptoZipFileName := name usptoZipFileInfo in
    usptoZipFileResponse <- axios axios_get (url usptoZipFileInfo) ;;
    let usptoZipFileCachePath := Path.join zipFileCacheDir usptoZipFileName in
    writeFileSync usptoZipFileCachePath (data usptoZipFileResponse)
  else ret tt.

(** The cache directory of the zip files: the argument, or its default. *)
Definition zip_cache_dir (dirname__ : string) (zipFileCacheDir : option string)
  : string :=
  or_default (Path.join dirname__ "uspto_zip_file_cache") zipFileCacheDir.

Definition is_file (fs : fsys) (k : string) : Prop :=
  exists data, assoc k fs = Some (File data).

(** The extractions asked of the zip library: archive and target. *)
Definition extractions (t : list event) : list (string * string) :=
  flat_map (fun e => match e with ZipExtract z o => [(z, o)] | _ => [] end) t.

(** The file system after the zip library extracted the archives into
    [target], one after the other; the error of the first that fails. *)
Fixpoint extracted (lib : string -> string -> fsys -> result fsys)
    (target : string) (archives : list string) (fs : fsys) : result fsys :=
  match archives with
  | [] => Ok fs
  | z :: rest => rbind (lib z target fs) (extracted lib target rest)
  end.

Definition xml_cache_dir (dirname__ : string) (dir : option string) : string :=
  or_default (Path.join dirname__ "uspto_xml_file_cache") dir.

(** A path segment that normalization keeps: not empty, no [/], neither
    [.] nor [..]. *)
Definition seg_ok (s : string) : bool :=
  negb (Str.has "/" s) && negb (String.eqb s "") &&
  negb (String.eqb s ".") && negb (String.eqb s "..").

(** A segment without any [.]. *)
Definition seg_plain (s : string) : bool := seg_ok s && negb (Str.has "." s).

(** The path made of the segments, from the root when [absolute]. *)
Definition path_of (absolute : bool) (segs : list string) : string :=
  (if absolute then "/" else "") +++ String.concat "/" segs.

(** The empty segment a leading [/] makes. *)
Definition lead (absolute : bool) : list string :=
  if absolute then [EmptyString] else [].

Definition nonempty (s : string) : bool := negb (String.eqb s "").

(** Where [processCachedUsptoXmlData] writes the records of a raw file. *)
Definition out_path (usptoXmlFileCacheDir usptoJsonFileCacheDir fileName : string)
  : string :=
  Path.join usptoJsonFileCacheDir
    (json_name (Path.join usptoXmlFileCacheDir fileName)).

(** The files read, in order. *)
Definition reads (t : list event) : list string :=
  flat_map (fun e => match e with FsRead p => [p] | _ => [] end) t.

(** The texts handed to the XML parser, in order. *)
Definition parses (t : list event) : list string :=
  flat_map (fun e => match e with XmlParse x => [x] | _ => [] end) t.

Definition json_cache_dir (dirname__ : string) (dir : option string) : string :=
  or_default (Path.join dirname__ "uspto_json_file_cache") dir.

(** The body of the loop of [processCachedUsptoXmlData]. *)
Definition materialize_body (xml2js_parseString : string -> result value)
    (usptoJsonFileCacheDir usptoXmlFilePath : string) : M unit :=
  usptoSchemaData <- processUsptoXmlFile xml2js_parseString usptoXmlFilePath ;;
  let usptoJsonSchemaDataFilePath :=
    Path.join usptoJsonFileCacheDir (json_name usptoXmlFilePath) in
  write_json usptoJsonSchemaDataFilePath
    (Arr (map schema_object usptoSchemaData)).

(** The body of the loop of [processUsptoXmlFile]. *)
Definition section_body (xml2js_parseString : string -> result value)
    (patentXmlSection : string) : M UsptoPatentSchemaData :=
  parsedPatentData <- parseStringPromise xml2js_parseString patentXmlSection ;;
  p <- lift (processedPatentData parsedPatentData) ;;
  ret (processedPatentSchemaData p).

(** One claim of a regular document: its own text and the texts nested in
    it. *)
Record PatentClaim : Type := mkPatentClaim {
  genericClaim : string;
  individualClaims : list string
}.

(** A document of the regular kind, nodes in source order: all the
    attributes on the root, every paragraph and heading with attributes and
    text, every claim a text with texts nested in it. *)
Record Document : Type := mkDocument {
  d_lang : string;
  d_country : string;
  d_date_produced : string;
  d_date_publ : string;
  d_dtd_version : string;
  d_file : string;
  d_status : string;
  d_abstract : list string;
  d_claims : list PatentClaim;
  d_headings : list string;
  d_title : string;
  d_title_id : string;
  d_doc_number : string
}.

(** The object of an element with attributes and text. *)
Definition text_node (t : string) : value :=
  Obj [ ("_", Str t); ("$", Obj [("id", Str "n")]) ].


Definition claim_value (c : PatentClaim) : value :=
  Obj [ ("genericClaim", Str (genericClaim c));
        ("individualClaims", Arr (map Str (individualClaims c))) ].

(** The [UsptoPatentData] of such a document. *)
Definition patent_data (d : Document) : UsptoPatentData :=
  mkUsptoPatentData
    (Str (d_lang d)) (Str (d_country d)) (Str (d_date_produced d))
    (Str (d_date_publ d)) (Str (d_dtd_version d)) (Str (d_file d))
    (Str (d_status d))
    (Arr (map Str (d_abstract d)))
    (Arr (map claim_value (d_claims d)))
    (Arr (map Str (d_headings d)))
    (Str (d_title d)) (Str (d_title_id d)) (Str (d_doc_number d)).

(** The matches lie in the text one after the other, in list order. *)
Fixpoint in_order (ms : list string) (s : string) : Prop :=
  match ms with
  | [] => True
  | m :: t => exists pre post, s = pre +++ m +++ post /\ in_order t post
  end.

Fixpoint drop (n : nat) (s : string) : string :=
  match n, s with
  | S n', String _ s' => drop n' s'
  | _, _ => s
  end.

(** A computation that leaves every file as it was. *)
Definition keeps_files {A} (m : M A) : Prop :=
  forall w w' out, m w = (w', out) -> files w' = files w.


(* ================================================================== *)
(** ** XML documents and the objects xml2js builds of them *)

(** An XML document as the parser reports it: text, and elements with
    their attributes and their content, in document order. *)
Unset Elimination Schemes.
Inductive xml : Type :=
| Text (s : string)
| Elem (tag : string) (attrs : list (string * string)) (content : list xml).
Set Elimination Schemes.

(** Induction through the content. *)
Section XmlInd.
Variable P : xml -> Prop.
Hypothesis HT : forall s, P (Text s).
Hypothesis HE : forall tag attrs content,
  Forall P content -> P (Elem tag attrs content).

Fixpoint xml_ind (t : xml) : P t :=
  match t with
  | Text s => HT s
  | Elem tag attrs content =>
      HE tag attrs
        ((fix go (l : list xml) : Forall P l :=
            match l with
            | [] => Forall_nil _
            | x :: r => Forall_cons _ (xml_ind x) (go r)
            end) content)
  end.
End XmlInd.

Definition xml_attrs (t : xml) : list (string * string) :=
  match t with
  | Elem _ attrs _ => attrs
  | Text _ => []
  end.

Definition xml_content (t : xml) : list xml :=
  match t with
  | Elem _ _ content => content
  | Text _ => []
  end.

Definition is_elem (t : xml) : bool :=
  match t with
  | Elem _ _ _ => true
  | Text _ => false
  end.

Definition is_named (n : string) (t : xml) : bool :=
  match t with
  | Elem tag _ _ => String.eqb tag n
  | Text _ => false
  end.

(** The child elements named [n], in document order. *)
Definition elements (n : string) (t : xml) : list xml :=
  filter (is_named n) (xml_content t).

(** The first of them; a text without content when there is none. *)
Definition child (n : string) (t : xml) : xml :=
  hd (Text "") (elements n t).

(** The text directly inside an element, piece after piece. *)
Fixpoint chardata (l : list xml) : string :=
  match l with
  | [] => ""
  | Text s :: rest => s +++ chardata rest
  | Elem _ _ _ :: rest => chardata rest
  end.

(** assignOrPush with explicitArray: the first child of a name becomes an
    array of one, the last member of the object so far; a later child of
    that name is pushed onto the array. *)
Fixpoint assign_or_push (k : string) (v : value) (obj : list (string * value))
  : list (string * value) :=
  match obj with
  | [] => [(k, Arr [v])]
  | (k', x) :: rest =>
      if String.eqb k' k
      then (k', match x with
                | Arr l => Arr (l ++ [v])
                | y => Arr [y; v]
                end) :: rest
      else (k', x) :: assign_or_push k v rest
  end.

Section Fill.
Variable node : xml -> value.

(** The children are assigned as their closing tags come. *)
Fixpoint fill (l : list xml) (obj : list (string * value))
  : list (string * value) :=
  match l with
  | [] => obj
  | Text _ :: rest => fill rest obj
  | (Elem n _ _ as c) :: rest => fill rest (assign_or_push n (node c) obj)
  end.

End Fill.

(** The attributes under [$], when the element has any. *)
Definition attr_members (attrs : list (string * string))
  : list (string * value) :=
  match attrs with
  | [] => []
  | _ => [("$", Obj (map (fun a => (fst a, Str (snd a))) attrs))]
  end.

(** The closing tag.  Text matching [/^\s*$/] is dropped; an element with
    nothing but text becomes that text, and one with nothing at all the
    blank text it held. *)
Definition close_tag (text : string) (members : list (string * value))
  : value :=
  match members with
  | [] => Str text
  | _ =>
      if Str.all Str.is_space text then Obj members
      else Obj (("_", Str text) :: members)
  end.

(** What xml2js makes of an element with its default options (attributes
    under [$], text under [_], explicitArray, no trimming): the members are
    the text, the attributes and then one array for each name of a child
    element, in the order in which the names first come.  Names the builder
    does not treat as plain property names are outside the model, see
    [name_ok]. *)
Fixpoint xml2js_node (t : xml) : value :=
  match t with
  | Text s => Str s
  | Elem _ attrs content =>
      close_tag (chardata content)
        (fill xml2js_node content (attr_members attrs))
  end.

(** The result of parsing a document, explicitRoot being on: the root
    under its name. *)
Definition xml2js_value (t : xml) : value :=
  match t with
  | Elem tag _ _ => Obj [(tag, xml2js_node t)]
  | Text s => Str s
  end.

(** The property names every object inherits. *)
Definition inherited : list string :=
  [ "constructor"; "hasOwnProperty"; "isPrototypeOf"; "propertyIsEnumerable";
    "toLocaleString"; "toString"; "valueOf" ].

(** A name that is a plain property name for the object builder: it starts
    with a letter, so that it is none of [_], [$], [__proto__] and no array
    index, and no object inherits it. *)
Definition name_ok (n : string) : bool :=
  match n with
  | String c _ => Str.is_letter c && negb (includes n inherited)
  | EmptyString => false
  end.

(** Every element and attribute name of the document is such a name, and
    no element has an attribute twice. *)
Fixpoint clean (t : xml) : bool :=
  match t with
  | Text _ => true
  | Elem tag attrs content =>
      name_ok tag && forallb (fun a => name_ok (fst a)) attrs &&
      Json.distinct (map fst attrs) && forallb clean content
  end.

(** [x['_']] on the object of an element: its text, when that is not blank
    and the element has attributes or child elements.  An element without
    either is its bare text, which has no such property. *)
Definition own_text (t : xml) : value :=
  match t with
  | Text _ => Undefined
  | Elem _ attrs content =>
      if Str.all Str.is_space (chardata content) then Undefined
      else
        match attrs, filter is_elem content with
        | [], [] => Undefined
        | _, _ => Str (chardata content)
        end
  end.

(** [x['$'][k]] on the object of an element with attributes. *)
Definition attribute (k : string) (t : xml) : value :=
  match assoc k (xml_attrs t) with
  | Some v => Str v
  | None => Undefined
  end.

(** [x[n]] on the object of an element: the objects of its children named
    [n], in document order, when it has any. *)
Definition sub_nodes (n : string) (t : xml) : value :=
  match elements n t with
  | [] => Undefined
  | l => Arr (map xml2js_node l)
  end.

Definition present {A} (l : list A) : bool :=
  match l with
  | [] => false
  | _ => true
  end.

(** The paragraphs of the abstract, the claims, the headings, the title and
    the document number that [processUsptoXmlFile] reads: those of the first
    [abstract], [claims], [description] and bibliographic element. *)
Definition paragraphs (t : xml) : list xml :=
  elements "p" (child "abstract" t).

Definition claims (t : xml) : list xml :=
  elements "claim" (child "claims" t).

Definition headings (t : xml) : list xml :=
  elements "heading" (child "description" t).

Definition title (t : xml) : xml :=
  child "invention-title" (child "us-bibliographic-data-application" t).

Definition doc_numbers (t : xml) : list xml :=
  elements "doc-number"
    (child "document-id"
       (child "publication-reference"
          (child "us-bibliographic-data-application" t))).

(** A well-formed document: the root is [us-patent-application] and has
    attributes, the abstract has a paragraph, there is a claim and every
    claim has a [claim-text], the description has a heading, the title has
    attributes, and there is a document number. *)
Definition application (t : xml) : bool :=
  is_named "us-patent-application" t && present (xml_attrs t) && clean t &&
  present (paragraphs t) &&
  present (claims t) &&
  forallb (fun cl => present (elements "claim-text" cl)) (claims t) &&
  present (headings t) &&
  present (xml_attrs (title t)) &&
  present (doc_numbers t).

(** What the code makes of the first [claim-text] of a claim: its own text
    and the nested [claim-text] elements, in document order. *)
Definition claim_of (claimText : xml) : value :=
  Obj [ ("genericClaim", own_text claimText);
        ("individualClaims", sub_nodes "claim-text" claimText) ].

(** The [UsptoPatentData] of a document, node by node. *)
Definition application_data (t : xml) : UsptoPatentData :=
  mkUsptoPatentData
    (attribute "lang" t) (attribute "country" t)
    (attribute "date-produced" t) (attribute "date-publ" t)
    (attribute "dtd-version" t) (attribute "file" t) (attribute "status" t)
    (Arr (map own_text (paragraphs t)))
    (Arr (map (fun cl => claim_of (child "claim-text" cl)) (claims t)))
    (Arr (map own_text (headings t)))
    (own_text (title t)) (attribute "id" (title t))
    (xml2js_node (hd (Text "") (doc_numbers t))).

(** What the JSON text of a value denotes: [undefined] is [null] in an
    array and leaves no member in an object. *)
Fixpoint denoted (v : value) : value :=
  match v with
  | Undefined | Null => Null
  | Str s => Str s
  | Arr l => Arr (map denoted l)
  | Obj l =>
      Obj (flat_map (fun kv => match snd kv with
                               | Undefined => []
                               | _ => [(fst kv, denoted (snd kv))]
                               end) l)
  end.

(** The text of a document whose names, attribute values and texts hold no
    markup character. *)
Fixpoint render (t : xml) : string :=
  match t with
  | Text s => s
  | Elem tag attrs content =>
      "<" +++ tag +++
      String.concat ""
        (map (fun a => " " +++ fst a +++ "=" +++ String Str.dquote (snd a)
                       +++ String Str.dquote "") attrs)
      +++ ">" +++ String.concat "" (map render content)
      +++ "</" +++ tag +++ ">"
  end.
(* ================================================================== *)
(** ** Concrete inputs *)

Module Demo.

Definition q : string := String Str.dquote EmptyString.

Definition link (n : string) : string :=
  "<a href=" +++ q +++ n +++ q +++ ">" +++ n +++ "</a>".

Definition page_2005 : string :=
  "<html>" +++ link "ipa050106.zip" +++ link "ipa050113.zip" +++ "</html>".

Definition page_2006 : string :=
  "<html>" +++ link "ipa060105.zip" +++ "</html>".

(** An index page without any zip link. *)
Definition page_empty : string := "<html><body>No files.</body></html>".

Definition site (u : string) : option string :=
  if String.eqb u (year_url 2005) then Some page_2005
  else if String.eqb u (year_url 2006) then Some page_2006
  else None.

(** The same site, the page of 2005 listing nothing. *)
Definition site_gap (u : string) : option string :=
  if String.eqb u (year_url 2005) then Some page_empty
  else if String.eqb u (year_url 2006) then Some page_2006
  else None.

Definition w0 : world := mkWorld [] [] [].

Definition ref_a : UsptoZipFileInfo :=
  mkUsptoZipFileInfo "ipa050106.zip" (year_url 2005 +++ "ipa050106.zip").
Definition ref_b : UsptoZipFileInfo :=
  mkUsptoZipFileInfo "ipa050113.zip" (year_url 2005 +++ "ipa050113.zip").
Definition ref_c : UsptoZipFileInfo :=
  mkUsptoZipFileInfo "ipa060105.zip" (year_url 2006 +++ "ipa060105.zip").

(** A cache directory that already holds the first two archives. *)
Definition w_cached : world :=
  mkWorld [ ("cache", Dir);
            ("cache/ipa050106.zip", File "PK-a");
            ("cache/ipa050113.zip", File "PK-b") ] [] [].

(** An empty cache directory. *)
Definition w_fresh : world := mkWorld [ ("cache", Dir) ] [] [].

(** A remote that serves the first archive only. *)
Definition remote_a (u : string) : option string :=
  if String.eqb u (url ref_a) then Some "PK-a" else None.

(** A zip library in the manner of adm-zip.  The archive [stem.zip] holds
    one file, [stem.xml], with the data of the archive.  Extracting makes
    that file in the target unless the name is taken there, overwriting
    being off by default.  It fails on a path that is no regular file; the
    target is to be a directory, as the pipeline has made it. *)
Definition unzip (zipPath target : string) (fs : fsys) : result fsys :=
  match assoc (key zipPath) fs with
  | Some (File data) =>
      let entryName :=
        match Str.split "." (Path.basename zipPath) with
        | stem :: _ => stem +++ ".xml"
        | [] => ".xml"
        end in
      let k := key (Path.join target entryName) in
      if negb (is_dir fs (key target)) then Err ZipError
      else if exists_in fs k then Ok fs
      else Ok (fs ++ [(k, File data)])
  | _ => Err ZipError
  end.

(** Two archives in the cache, the file of the first extracted before. *)
Definition w_extracted : world :=
  mkWorld [ ("zips", Dir);
            ("zips/ipa050106.zip", File "PK-a");
            ("zips/ipa050113.zip", File "PK-b");
            ("xml", Dir);
            ("xml/ipa050106.xml", File "PK-old") ] [] [].

Definition nl : string := String (ascii_of_nat 10) EmptyString.

Definition doc1 : Document :=
  mkDocument "EN" "US" "20050101" "20050106" "v4.0" "US001.XML" "PRODUCTION"
    ["A widget."; "It turns."]
    [ mkPatentClaim "1. A widget comprising:" ["a wheel;"; "an axle."];
      mkPatentClaim "2. The widget of claim 1, wherein:"
        ["the wheel is round."] ]
    ["BACKGROUND"; "SUMMARY"]
    "Widget" "d0e1" "US001".

Definition doc2 : Document :=
  mkDocument "EN" "US" "20050101" "20050106" "v4.0" "US002.XML" "PRODUCTION"
    ["A gadget."]
    [ mkPatentClaim "1. A gadget comprising:" ["a spring."] ]
    ["FIELD"]
    "Gadget" "d0e2" "US002".

(** The XML of such a document, laid out as the applications of the bulk
    files are: every paragraph and heading with attributes, every claim one
    [claim-text] that holds the text of the claim and the nested ones. *)
Definition tree_of (d : Document) : xml :=
  Elem "us-patent-application"
    [ ("lang", d_lang d); ("dtd-version", d_dtd_version d);
      ("file", d_file d); ("status", d_status d);
      ("id", "us-patent-application"); ("country", d_country d);
      ("date-produced", d_date_produced d); ("date-publ", d_date_publ d) ]
    [ Elem "us-bibliographic-data-application"
        [ ("lang", d_lang d); ("country", d_country d) ]
        [ Elem "publication-reference" []
            [ Elem "document-id" []
                [ Elem "country" [] [Text (d_country d)];
                  Elem "doc-number" [] [Text (d_doc_number d)];
                  Elem "kind" [] [Text "A1"];
                  Elem "date" [] [Text (d_date_publ d)] ] ];
          Elem "invention-title" [("id", d_title_id d)] [Text (d_title d)] ];
      Elem "abstract" [("id", "abstract")]
        (map (fun t => Elem "p" [("id", "p-0001"); ("num", "0000")] [Text t])
           (d_abstract d));
      Elem "description" [("id", "description")]
        (flat_map (fun t =>
                     [ Elem "heading" [("id", "h-0001"); ("level", "1")]
                         [Text t];
                       Elem "p" [("id", "p-0002"); ("num", "0001")]
                         [Text "The text of this part."] ])
           (d_headings d));
      Elem "us-claim-statement" [] [Text "What is claimed is:"];
      Elem "claims" [("id", "claims")]
        (map (fun c =>
                Elem "claim" [("id", "CLM-00001"); ("num", "00001")]
                  [ Elem "claim-text" []
                      (Text (genericClaim c)
                       :: map (fun t => Elem "claim-text" [] [Text t])
                            (individualClaims c)) ])
           (d_claims d)) ].

(** A document as they come: it lacks the [status] attribute, its second
    claim has no nested text and refers to the first, and white space stands
    between its elements. *)
Definition tree_plain : xml :=
  Elem "us-patent-application"
    [ ("lang", "EN"); ("dtd-version", "v4.0"); ("file", "US004.XML");
      ("country", "US"); ("date-produced", "20050101");
      ("date-publ", "20050106") ]
    [ Text nl;
      Elem "us-bibliographic-data-application" [("lang", "EN")]
        [ Text nl;
          Elem "publication-reference" []
            [ Elem "document-id" []
                [ Elem "country" [] [Text "US"];
                  Elem "doc-number" [] [Text "US004"] ] ];
          Text nl;
          Elem "invention-title" [("id", "d0e4")] [Text "Gizmo"];
          Text nl ];
      Text nl;
      Elem "abstract" [("id", "abstract")]
        [ Text nl;
          Elem "p" [("id", "p-0001"); ("num", "0000")]
            [ Text "A gizmo with a "; Elem "b" [] [Text "lever"]; Text "." ];
          Text nl ];
      Text nl;
      Elem "description" [("id", "description")]
        [ Elem "heading" [("id", "h-0001"); ("level", "1")] [Text "FIELD"] ];
      Text nl;
      Elem "claims" [("id", "claims")]
        [ Text nl;
          Elem "claim" [("id", "CLM-00001"); ("num", "00001")]
            [ Elem "claim-text" []
                [ Text "1. A gizmo comprising:";
                  Elem "claim-text" [] [Text "a lever; and"];
                  Elem "claim-text" [] [Text "a spring."] ] ];
          Text nl;
          Elem "claim" [("id", "CLM-00002"); ("num", "00002")]
            [ Elem "claim-text" []
                [ Text "2. The gizmo of ";
                  Elem "claim-ref" [("idref", "CLM-00001")] [Text "claim 1"];
                  Text ", wherein the lever is bent." ] ];
          Text nl;
          Elem "claim" [("id", "CLM-00003"); ("num", "00003")]
            [ Elem "claim-text" [] [Text "3. A gizmo as shown."] ];
          Text nl ];
      Text nl ].

Definition section1 : string := render (tree_of doc1).

Definition section2 : string := render (tree_of doc2).

(** What stands before each document of a bulk file. *)
Definition prolog : string :=
  "<?xml version=" +++ q +++ "1.0" +++ q +++ " encoding=" +++ q +++ "UTF-8"
  +++ q +++ "?>" +++ nl +++
  "<!DOCTYPE us-patent-application SYSTEM " +++ q
  +++ "us-patent-application-v40-2004-12-02.dtd" +++ q +++ " [ ]>" +++ nl.

(** A raw batch file with two documents. *)
Definition batch : string :=
  prolog +++ section1 +++ nl +++ prolog +++ section2 +++ nl.

(** An XML library that knows the two documents. *)
Definition xml2js (text : string) : result value :=
  if String.eqb text section1 then Ok (xml2js_value (tree_of doc1))
  else if String.eqb text section2 then Ok (xml2js_value (tree_of doc2))
  else Err XmlError.

Definition w_batch : world :=
  mkWorld [ ("xml", Dir); ("xml/ipa050106.xml", File batch) ] [] [].

(** The raw directory with the batch, and its output already written, both
    directly in the output directory and where the code puts it. *)
Definition w_materialized : world :=
  mkWorld [ ("xml", Dir); ("xml/ipa050106.xml", File batch);
            ("json", Dir); ("json/ipa050106.json", File "[]");
            ("json/xml", Dir); ("json/xml/ipa050106.json", File "[]") ] [] [].

Definition doc3 : Document :=
  mkDocument "EN" "US" "20050101" "20050106" "v4.0" "US003.XML" "PRODUCTION"
    ["A gizmo."]
    [ mkPatentClaim "1. A gizmo comprising:" ["a lever."] ]
    ["CLAIMS"]
    "Gizmo" "d0e3" "US003".

(** The three records [processUsptoXmlFile] makes of the documents. *)
Definition records : list UsptoPatentSchemaData :=
  map (fun d => processedPatentSchemaData (patent_data d))
    [doc1; doc2; doc3].

(** The text of their processed file. *)
Definition records_text : string := Json.enc (Arr (map schema_object records)).

(** A record directory with that one file and no ledger yet. *)
Definition w_records : world :=
  mkWorld [ ("records", Dir); ("records/ipa050106.json", File records_text) ]
    [] [].

Definition connect (uri : option string) : bool := true.
Definition accept (doc : UsptoData) : bool := true.

Definition syncToStore : M unit :=
  synchronizeProcessedDataToMongoDB connect accept None "/app"
    (Some "mongodb://localhost/uspto") (Some "records") (Some "sync.json").

End Demo.

(* ================================================================== *)
(** ** Further notions and inputs *)

(** The kinds of external calls. *)
Inductive kind : Type :=
| KLog | KHttp | KRead | KWrite | KMkdir | KZip | KXml | KConnect | KSave.

Definition kind_of (e : event) : kind :=
  match e with
  | ConsoleLog _ => KLog
  | HttpGet _ => KHttp
  | FsRead _ => KRead
  | FsWrite _ => KWrite
  | FsMkdir _ => KMkdir
  | ZipExtract _ _ => KZip
  | XmlParse _ => KXml
  | StoreConnect _ => KConnect
  | StoreSave _ => KSave
  end.

(** A computation that only adds calls of the kinds [ks] to the trace. *)
Definition emits_only {A} (ks : list kind) (m : M A) : Prop :=
  forall w w' out, m w = (w', out) ->
    exists new, trace w' = trace w ++ new /\
                Forall (fun e => In (kind_of e) ks) new.

(** A computation that leaves the store as it was. *)
Definition keeps_store {A} (m : M A) : Prop :=
  forall w w' out, m w = (w', out) -> store w' = store w.

(** Whether the index page of a year is served. *)
Definition served (axios_get : string -> option string) (year : Z) : bool :=
  match axios_get (year_url year) with
  | Some _ => true
  | None => false
  end.

(** The index pages asked for: year after year, up to and including the
    first one that is not served. *)
Fixpoint requested (axios_get : string -> option string) (ys : list Z)
  : list string :=
  match ys with
  | [] => []
  | y :: t =>
      year_url y :: (if served axios_get y then requested axios_get t else [])
  end.

(** A reference as [fetchUsptoZipFileInfos] builds it from a page of one of
    the years [ys]. *)
Definition ref_of_years (ys : list Z) (r : UsptoZipFileInfo) : Prop :=
  is_zip_name (name r) /\
  exists y, In y ys /\ url r = year_url y +++ name r.

Module DemoFetch.

(** A site whose page of 2006 is not served. *)
Definition site_down (u : string) : option string :=
  if String.eqb u (year_url 2005) then Some Demo.page_2005 else None.

End DemoFetch.

(** Every entry of the file system lies in a directory that is there. *)
Definition fs_wf (fs : fsys) : bool :=
  forallb (fun e => is_root (fst e) || is_dir fs (Path.dirname (fst e))) fs.

(** The nonempty proper prefixes of a list of segments, shortest first:
    the directories on the way to the path of the segments. *)
Definition prefixes {A} (l : list A) : list (list A) :=
  map (fun m => firstn m l) (seq 1 (List.length l - 1)).

(** No name on the way to the path of [D] is a regular file. *)
Definition no_file_on_way (fs : fsys) (a : bool) (D : list string) : Prop :=
  Forall (fun P => forall data, assoc (path_of a P) fs <> Some (File data))
    (prefixes D).

(** The way to the path of [D] is stopped by a regular file: the names
    before it are directories. *)
Definition stopped_by_file (fs : fsys) (a : bool) (D : list string) : Prop :=
  exists pre P post data,
    prefixes D = pre ++ P :: post /\
    Forall (fun Q => assoc (path_of a Q) fs = Some Dir) pre /\
    assoc (path_of a P) fs = Some (File data).

(** The second file system has the directories and the listings of the
    first, and maybe more. *)
Definition grows (fs fs' : fsys) : Prop :=
  (forall k, is_dir fs k = true -> is_dir fs' k = true) /\
  (forall d n, In n (children fs d) -> In n (children fs' d)).

Module DemoSync.

(** A remote that serves every archive. *)
Definition remote (u : string) : option string := Some "PK".

(** Only the parent of the cache directory is there. *)
Definition w_parent : world := mkWorld [ ("data", Dir) ] [] [].

(** A regular file where the directory [data] should be. *)
Definition w_blocked : world := mkWorld [ ("data", File "notes") ] [] [].

End DemoSync.

Module DemoExtract.

(** A zip library that cannot read the second archive. *)
Definition unzip_b (zipPath target : string) (fs : fsys) : result fsys :=
  if String.eqb zipPath "zips/ipa050113.zip" then Err ZipError
  else Demo.unzip zipPath target fs.

(** Three archives in the cache, the output directory empty. *)
Definition w_zips : world :=
  mkWorld [ ("zips", Dir);
            ("zips/ipa050106.zip", File "PK-a");
            ("zips/ipa050113.zip", File "PK-b");
            ("zips/ipa060105.zip", File "PK-c");
            ("xml", Dir) ] [] [].

(** A regular file where the directory [data] should be, and the parent
    of the output directory. *)
Definition w_blocked : world :=
  mkWorld [ ("data", File "notes"); ("out", Dir) ] [] [].

End DemoExtract.

(** The elements a loop visits before it stops: up to and including the
    first one [f] fails on. *)
Fixpoint upto_error {A B} (f : A -> result B) (l : list A) : list A :=
  match l with
  | [] => []
  | x :: t =>
      x :: match f x with
           | Ok _ => upto_error f t
           | Err _ => []
           end
  end.

(** The record of one section, or the error that stops the loop of
    [processUsptoXmlFile]. *)
Definition section_record (xml2js_parseString : string -> result value)
    (patentXmlSection : string) : result UsptoPatentSchemaData :=
  rbind (xml2js_parseString patentXmlSection) (fun parsedPatentData =>
  rbind (processedPatentData parsedPatentData) (fun p =>
  Ok (processedPatentSchemaData p))).


(** The title element, with its text and its [id]. *)
Definition title_node (t i : string) : value :=
  Obj [ ("_", Str t); ("$", Obj [("id", Str i)]) ].

(** A claim whose [claim-text] holds text only: xml2js gives an element
    without attributes and children as its text. *)
Definition text_only_claim (t : string) : value :=
  Obj [ ("$", Obj [("id", Str "CLM")]); ("claim-text", Arr [Str t]) ].

(** The object of a document with the attributes [attrs] on its root and the
    given children, every child element an array in source order. *)
Definition xml2js_application (attrs : list (string * value))
    (paragraphs claims headings : list value) (title docNumber : value)
  : value :=
  Obj [ ("us-patent-application",
    Obj [ ("$", Obj attrs);
          ("us-bibliographic-data-application",
           Arr [ Obj [
             ("publication-reference",
              Arr [ Obj [ ("document-id",
                Arr [ Obj [ ("doc-number", Arr [docNumber]) ] ]) ] ]);
             ("invention-title", Arr [title]) ] ]);
          ("abstract", Arr [ Obj [ ("p", Arr paragraphs) ] ]);
          ("description", Arr [ Obj [ ("heading", Arr headings) ] ]);
          ("claims", Arr [ Obj [ ("claim", Arr claims) ] ])
        ]) ].

(** The children of the root element that [processUsptoXmlFile] reads. *)
Definition root_children : list string :=
  [ "$"; "abstract"; "claims"; "description";
    "us-bibliographic-data-application" ].

(** A result that fails with a [TypeError], when it fails. *)
Definition type_error_only {A} (r : result A) : Prop :=
  forall e, r = Err e -> e = TypeError.

Module DemoParse.

(** An XML library that knows the first document only. *)
Definition xml2js_1 (text : string) : result value :=
  if String.eqb text Demo.section1
  then Ok (xml2js_value (Demo.tree_of Demo.doc1))
  else Err XmlError.

(** A file that holds no document. *)
Definition w_html : world :=
  mkWorld [ ("xml", Dir); ("xml/index.html", File "<html></html>") ] [] [].

End DemoParse.

(** The record [processUsptoXmlFile] makes of a well-formed document. *)
Definition record_of (d : Document) : UsptoPatentSchemaData :=
  processedPatentSchemaData (patent_data d).

(** The row [synchronizeProcessedDataToMongoDB] makes of that record once it
    is read back from the processed file: the texts of the three lists
    encoded once more. *)
Definition row_of (d : Document) : UsptoData :=
  mkUsptoData
    (Str (d_lang d)) (Str (d_country d)) (Str (d_date_produced d))
    (Str (d_date_publ d)) (Str (d_dtd_version d)) (Str (d_file d))
    (Str (d_status d))
    (Json.JSON_stringify (s_patentAbstract (record_of d)))
    (Json.JSON_stringify (s_patentClaims (record_of d)))
    (Json.JSON_stringify (s_patentHeadings (record_of d)))
    (Str (d_title d)) (Str (d_title_id d)) (Str (d_doc_number d)).

(** The rows of the records of a processed file, or the error that stops
    their making. *)
Definition file_rows (text : string) : result (list UsptoData) :=
  rbind (Json.JSON_parse text) (fun parsed =>
  rbind (iterate parsed) (fun processedXmlUsptoSchemaDataArray =>
  rmap usptoData processedXmlUsptoSchemaDataArray)).

Module DemoMaterialize.

(** A first installation under [/app]: the raw directory with one batch and
    the output directory made by hand. *)
Definition w_app : world :=
  mkWorld [ ("/app", Dir);
            ("/app/uspto_xml_file_cache", Dir);
            ("/app/uspto_xml_file_cache/ipa050106.xml", File Demo.batch);
            ("/app/uspto_json_file_cache", Dir) ] [] [].

(** The raw directory with one batch, and a regular file where the output
    directory should be. *)
Definition w_blocked : world :=
  mkWorld [ ("xml", Dir); ("xml/ipa050106.xml", File Demo.batch);
            ("json", File "notes") ] [] [].

End DemoMaterialize.

Definition ledger_path (dirname__ : string) (synchronizeFilePath : option string)
  : string :=
  or_default (Path.join dirname__ "sync.json") synchronizeFilePath.

(** The connection string used: the argument, or the environment's when the
    argument is [null]. *)
Definition connection_uri (env_CONNECTION_STRING connectionString : option string)
  : option string :=
  match connectionString with
  | None => env_CONNECTION_STRING
  | Some s => Some s
  end.

(** The statements of [synchronizeProcessedDataToMongoDB] on the ledger:
    read it when it is there, make it empty when it is not. *)
Definition read_ledger (synchronizeFilePath : string) : M value :=
  present <- existsSync synchronizeFilePath ;;
  if present then
    text <- readFileSync synchronizeFilePath ;;
    lift (Json.JSON_parse text)
  else
    writeFileSync synchronizeFilePath "[]" ;;;
    ret (Arr []).

(** The body of the inner loop of [synchronizeProcessedDataToMongoDB]. *)
Definition push_record (model_save : UsptoData -> bool)
    (processedUsptoSchemaData : value) : M unit :=
  doc <- lift (usptoData processedUsptoSchemaData) ;;
  save model_save doc.

(** The body of its outer loop. *)
Definition push_file (model_save : UsptoData -> bool)
    (processedJsonFileCacheDir processedJsonCachedFile : string) : M unit :=
  let processedXmlCachedPath :=
    Path.join processedJsonFileCacheDir processedJsonCachedFile in
  text <- readFileSync processedXmlCachedPath ;;
  parsed <- lift (Json.JSON_parse text) ;;
  processedXmlUsptoSchemaDataArray <- lift (iterate parsed) ;;
  for_of processedXmlUsptoSchemaDataArray (push_record model_save).

(** The rows the store takes: those before the first one it rejects. *)
Fixpoint accepted (model_save : UsptoData -> bool) (rows : list UsptoData)
  : list UsptoData :=
  match rows with
  | [] => []
  | r :: t => if model_save r then r :: accepted model_save t else []
  end.

(** The inserts asked of the store, in order. *)
Definition saves (t : list event) : list UsptoData :=
  flat_map (fun e => match e with StoreSave d => [d] | _ => [] end) t.

Module DemoStore.

(** The record directory, and a ledger that lists its file. *)
Definition w_listed : world :=
  mkWorld [ ("records", Dir);
            ("records/ipa050106.json", File Demo.records_text);
            ("sync.json",
             File ("[" +++ Demo.q +++ "ipa050106.json" +++ Demo.q +++ "]")) ]
    [] [].

(** A store that rejects the second document. *)
Definition reject_2 (doc : UsptoData) : bool :=
  negb (match doc_documentNumber doc with
        | Str n => String.eqb n "US002"
        | _ => false
        end).

End DemoStore.

(** The opening of a section: [<us-patent-application] and one white-space
    character. *)
Definition section_open : Re.regex :=
  Re.seq [ Re.lit "<"; Re.lit "us-patent-application"; Re.Chr Str.is_space ].

(** The closing tag of a section. *)
Definition section_close : Re.regex :=
  Re.seq [ Re.lit "<"; Re.lit "/"; Re.lit "us-patent-application";
           Re.lit ">" ].

(** A section that ends at the first closing tag after its opening: no
    closing tag starts inside its body. *)
Definition minimal_section (m : string) : Prop :=
  exists opening body closing,
    m = opening +++ body +++ closing /\
    Re.lang section_open opening /\
    Re.lang section_close closing /\
    forall b1 b2, body = b1 +++ b2 -> b2 <> "" ->
      Re.exec section_close (b2 +++ closing) = None.

(** A regular expression without repetition. *)
Fixpoint no_repetition (r : Re.regex) : bool :=
  match r with
  | Re.Eps | Re.Chr _ => true
  | Re.Cat r1 r2 => no_repetition r1 && no_repetition r2
  | Re.Rep _ _ _ | Re.LazyStar _ => false
  end.

Module DemoPipeline.

(** An installation under [/app] in which the directories of the output
    path of [processCachedUsptoXmlData] were made by hand. *)
Definition w_nested : world :=
  mkWorld [ ("/app", Dir);
            ("/app/uspto_xml_file_cache", Dir);
            ("/app/uspto_xml_file_cache/ipa050106.xml", File Demo.batch);
            ("/app/uspto_json_file_cache", Dir);
            ("/app/uspto_json_file_cache/app", Dir);
            ("/app/uspto_json_file_cache/app/uspto_xml_file_cache", Dir) ]
    [] [].

(** The world after [processCachedUsptoXmlData] ran there. *)
Definition w_written : world :=
  fst (processCachedUsptoXmlData Demo.xml2js "/app" None None w_nested).

End DemoPipeline.


(* ================================================================== *)
(** ** The text of a batch file *)

(** Members as [JSON.parse] makes them, and none under [_]. *)
Definition members_ok (obj : list (string * value)) : Prop :=
  forallb (fun kv => Json.tidy (snd kv)) obj = true /\
  Json.distinct (map fst obj) = true /\
  existsb (fun kv => Json.is_index (fst kv)) obj = false /\
  includes "_" (map fst obj) = false.

(** The character classes of a regular expression without repetition, one
    for each character of a match. *)
Fixpoint flat (r : Re.regex) : list (ascii -> bool) :=
  match r with
  | Re.Eps => []
  | Re.Chr p => [p]
  | Re.Cat r1 r2 => flat r1 ++ flat r2
  | Re.Rep _ _ _ | Re.LazyStar _ => []
  end.

(** An opening of a section stands at the head of the text. *)
Definition opens (s : string) : bool :=
  match Re.exec section_open s with
  | Some _ => true
  | None => false
  end.

(** No opening of a section stands anywhere in the text. *)
Fixpoint no_opening (g : string) : bool :=
  match g with
  | EmptyString => true
  | String _ g' => negb (opens g) && no_opening g'
  end.

(** One document of a batch file: the text of its section, the document
    that text holds, and the text that follows the section up to the next
    one. *)
Record Segment : Type := mkSegment {
  seg_text : string;
  seg_tree : xml;
  seg_gap : string
}.

(** The sections of a file with what follows each. *)
Fixpoint weave (l : list Segment) : string :=
  match l with
  | [] => ""
  | d :: rest => seg_text d +++ seg_gap d +++ weave rest
  end.
(* ================================================================== *)
(** * Facts *)

Unset Implicit Arguments.

(** ** Strings *)

Module StrFacts.
Import Str.

Lemma append_nil_r (s : string) : s +++ "" = s.
Proof. induction s; simpl; congruence. Qed.

Lemma append_assoc (a b c : string) : (a +++ b) +++ c = a +++ (b +++ c).
Proof. induction a; simpl; congruence. Qed.

Lemma length_append (a b : string) :
  String.length (a +++ b) = String.length a + String.length b.
Proof. induction a; simpl; congruence. Qed.

Lemma substring_append (a b : string) :
  substring 0 (String.length a) (a +++ b) = a.
Proof. induction a; simpl; [destruct b; reflexivity | congruence]. Qed.

Lemma append_inv_head (a b c : string) : a +++ b = a +++ c -> b = c.
Proof. induction a; simpl; intros H; [assumption | injection H; auto]. Qed.

Lemma has_append (c : ascii) (a b : string) :
  has c (a +++ b) = has c a || has c b.
Proof. induction a; simpl; [reflexivity | rewrite IHa, orb_assoc; reflexivity]. Qed.

Lemma split_none (sep : ascii) (s : string) :
  has sep s = false -> split sep s = [s].
Proof.
  induction s as [|c s IH]; simpl; [reflexivity|].
  intros H. apply orb_false_iff in H. destruct H as [Hc Hs].
  rewrite Hc, (IH Hs). reflexivity.
Qed.

Lemma split_at (sep : ascii) (a b : string) :
  has sep a = false ->
  split sep (a +++ String sep b) = a :: split sep b.
Proof.
  induction a as [|c a IH]; simpl; intros H.
  - rewrite Ascii.eqb_refl. reflexivity.
  - apply orb_false_iff in H. destruct H as [Hc Ha].
    rewrite Hc, (IH Ha). reflexivity.
Qed.

End StrFacts.

(** ** Soundness of the regular-expression matcher *)

Module ReFacts.
Import Re.

Lemma rep_req_sound (p : ascii -> bool) (n : nat) :
  sound_on (rep_req p n)
    (fun w => Str.all p w = true /\ String.length w = n).
Proof.
  induction n as [|n IH]; intros s k rest H; simpl in H.
  - exists EmptyString, s. simpl. auto.
  - destruct s as [|c s]; [discriminate|].
    destruct (p c) eqn:Hc; [|discriminate].
    destruct (IH _ _ _ H) as (w & s' & -> & [Hw Hl] & Hk).
    exists (String c w), s'. simpl. rewrite Hc, Hw, Hl. auto.
Qed.

Lemma rep_opt_sound (p : ascii -> bool) (n : nat) :
  sound_on (rep_opt p n)
    (fun w => Str.all p w = true /\ String.length w <= n).
Proof.
  induction n as [|n IH]; intros s k rest H; simpl in H.
  - exists EmptyString, s. simpl. auto.
  - assert (Hnil : k s = Some rest ->
      exists w s', s = w +++ s' /\
        (Str.all p w = true /\ String.length w <= S n) /\
        k s' = Some rest).
    { intros Hk. exists EmptyString, s. simpl. repeat split; auto; lia. }
    destruct s as [|c s]; [auto|].
    destruct (p c) eqn:Hc; [|auto].
    destruct (rep_opt p n s k) eqn:Hr; [|auto].
    injection H as ->.
    destruct (IH _ _ _ Hr) as (w & s' & -> & [Hw Hl] & Hk).
    exists (String c w), s'. simpl. rewrite Hc, Hw.
    repeat split; auto; lia.
Qed.

Lemma lazy_star_sound (p : ascii -> bool) :
  sound_on (lazy_star p) (fun w => Str.all p w = true).
Proof.
  intros s. induction s as [|c s IH]; intros k rest H; simpl in H.
  - destruct (k EmptyString) eqn:Hk; [|discriminate].
    exists EmptyString, EmptyString. simpl. rewrite Hk. auto.
  - destruct (k (String c s)) eqn:Hk.
    + exists EmptyString, (String c s). simpl. rewrite Hk. auto.
    + destruct (p c) eqn:Hc; [|discriminate].
      destruct (IH _ _ H) as (w & s' & -> & Hw & Hk').
      exists (String c w), s'. simpl. rewrite Hc, Hw. auto.
Qed.

Lemma run_sound (r : regex) : sound_on (run r) (lang r).
Proof.
  induction r as [|p|r1 IH1 r2 IH2|lo hi p|p]; intros s k rest H;
    simpl in H.
  - exists EmptyString, s. simpl. auto.
  - destruct s as [|c s]; [discriminate|].
    destruct (p c) eqn:Hc; [|discriminate].
    exists (String c EmptyString), s. simpl. eauto.
  - destruct (IH1 _ _ _ H) as (w1 & s1 & -> & L1 & H1).
    destruct (IH2 _ _ _ H1) as (w2 & s2 & -> & L2 & H2).
    exists (w1 +++ w2), s2. rewrite StrFacts.append_assoc.
    simpl. eauto 8.
  - destruct (rep_req_sound p lo _ _ _ H) as (w1 & s1 & -> & [A1 E1] & H1).
    destruct (rep_opt_sound p (hi - lo) _ _ _ H1) as (w2 & s2 & -> & [A2 E2] & H2).
    exists (w1 +++ w2), s2. rewrite StrFacts.append_assoc.
    simpl. rewrite StrFacts.length_append.
    assert (Str.all p (w1 +++ w2) = true).
    { clear - A1 A2. induction w1 as [|c w1 IHw]; simpl in *; auto.
      apply andb_true_iff in A1. destruct A1 as [-> A1]. simpl. auto. }
    repeat split; auto; lia.
  - exact (lazy_star_sound p _ _ _ H).
Qed.

Lemma exec_sound (r : regex) (s rest : string) :
  exec r s = Some rest -> exists w, s = w +++ rest /\ lang r w.
Proof.
  intros H. destruct (run_sound r _ _ _ H) as (w & s' & -> & L & E).
  injection E as ->. eauto.
Qed.

Lemma match_from_sound (r : regex) (s : string) :
  forall skip, Forall (lang r) (match_from r skip s).
Proof.
  induction s as [|c s IH]; intros [|n]; cbn [match_from]; auto.
  - destruct (exec r EmptyString) as [rest|] eqn:E; auto.
    destruct (exec_sound _ _ _ E) as (w & Hw & L).
    destruct w; [|discriminate]. simpl in Hw. subst rest.
    constructor; auto.
  - destruct (exec r (String c s)) as [rest|] eqn:E; auto.
    destruct (exec_sound _ _ _ E) as (w & Hw & L).
    constructor; auto.
    rewrite Hw, StrFacts.length_append, Nat.add_sub, StrFacts.substring_append.
    exact L.
Qed.

Lemma String_match_sound (r : regex) (s : string) (l : list string) :
  String_match r s = Some l -> l <> [] /\ Forall (lang r) l.
Proof.
  unfold String_match. intros H.
  pose proof (match_from_sound r s 0) as F.
  destruct (match_from r 0 s); [discriminate|].
  injection H as <-. split; [discriminate | exact F].
Qed.

End ReFacts.


(** ** Arrays *)

Module JsFacts.
Import Js.

Lemma includes_In (x : string) (l : list string) :
  includes x l = true <-> In x l.
Proof.
  unfold includes. rewrite existsb_exists. split.
  - intros (y & Hy & E). apply String.eqb_eq in E. subst. exact Hy.
  - intros H. exists x. split; [exact H | apply String.eqb_refl].
Qed.

End JsFacts.

(** ** JSON: parsing a serialized value gives the value back *)

Module JsonFacts.
Import Js Json.

Lemma parse_string_char (c : ascii) (t : string) :
  parse_string (quote_char c +++ t) = cons_to c (parse_string t).
Proof.
  destruct c as [[] [] [] [] [] [] [] []]; reflexivity.
Qed.

Lemma parse_string_quote (s rest : string) :
  parse_string (quote_body s +++ String Str.dquote rest) = Ok (s, rest).
Proof.
  induction s as [|c s IH]; simpl.
  - reflexivity.
  - rewrite StrFacts.append_assoc, parse_string_char, IH. reflexivity.
Qed.

Lemma enc_head (v : value) :
  plain v = true -> exists c t, enc v = String c t /\ opener c.
Proof.
  unfold enc, opener. destruct v; simpl; try discriminate; intros _;
    eexists; eexists; (split; [reflexivity|]); auto.
Qed.

Lemma obj_set_fresh (k : string) (v : value) (l : list (string * value)) :
  includes k (map fst l) = false -> obj_set k v l = l ++ [(k, v)].
Proof.
  induction l as [|[k' v'] l IH]; simpl; [reflexivity|].
  intros H. apply orb_false_iff in H. destruct H as [Hk Hl].
  rewrite String.eqb_sym, Hk, (IH Hl). reflexivity.
Qed.

Lemma includes_app (k : string) (a b : list string) :
  includes k (a ++ b) = includes k a || includes k b.
Proof. unfold includes. apply existsb_app. Qed.

Lemma fold_obj_set (l acc : list (string * value)) :
  distinct (map fst (acc ++ l)) = true ->
  fold_left (fun a kv => obj_set (fst kv) (snd kv) a) l acc = acc ++ l.
Proof.
  revert acc. induction l as [|[k v] l IH]; intros acc H; simpl.
  - rewrite app_nil_r. reflexivity.
  - assert (F : includes k (map fst acc) = false).
    { clear IH. induction acc as [|[k' v'] acc IHa]; simpl in *; [reflexivity|].
      apply andb_true_iff in H. destruct H as [H1 H2].
      rewrite (IHa H2), orb_false_r.
      rewrite map_app, includes_app in H1. simpl in H1.
      apply negb_true_iff in H1. apply orb_false_iff in H1.
      destruct H1 as [_ H1]. apply orb_false_iff in H1. destruct H1 as [H1 _].
      rewrite String.eqb_sym. exact H1. }
    rewrite (@obj_set_fresh _ _ _ F), IH, <- app_assoc; [reflexivity|].
    rewrite <- app_assoc. exact H.
Qed.

Lemma mk_obj_tidy (l : list (string * value)) :
  distinct (map fst l) = true ->
  existsb (fun kv => is_index (fst kv)) l = false ->
  mk_obj l = Ok (Obj l).
Proof.
  intros D I. unfold mk_obj. rewrite I.
  rewrite (fold_obj_set l []); auto.
Qed.

Lemma skip_ws_opener (c : ascii) (t : string) :
  opener c -> skip_ws (String c t) = String c t.
Proof. intros [-> | [-> | [-> | ->]]]; reflexivity. Qed.

Lemma skip_ws_nws (c : ascii) (t : string) :
  is_ws c = false -> skip_ws (String c t) = String c t.
Proof. intros H. simpl. rewrite H. reflexivity. Qed.

Lemma rt_elems (l : list value) :
  l <> [] -> Forall rt l ->
  forallb plain l = true -> forallb tidy l = true ->
  exists n, n <= String.length (String.concat "," (map enc l)) /\
    forall fuel rest, n <= fuel ->
      parse_elems fuel (String.concat "," (map enc l) +++ String "]" rest)
      = Ok (l, rest).
Proof.
  induction l as [|v l IH]; [congruence|]. intros _ F P T.
  inversion F as [|? ? Fv Fl]; subst.
  simpl in P, T. apply andb_true_iff in P. destruct P as [Pv Pl].
  apply andb_true_iff in T. destruct T as [Tv Tl].
  destruct (Fv Pv Tv) as (nv & Lv & Hv).
  destruct l as [|v2 l].
  - exists (S nv).
    change (String.concat "," (map enc [v])) with (enc v).
    split; [lia|].
    intros [|f] rest Hf; [lia|]. cbn [parse_elems].
    rewrite Hv by lia. reflexivity.
  - destruct (IH ltac:(discriminate) Fl Pl Tl) as (n' & L' & H').
    exists (S (Nat.max nv n')).
    change (String.concat "," (map enc (v :: v2 :: l)))
      with (enc v +++ "," +++ String.concat "," (map enc (v2 :: l))).
    split.
    + rewrite StrFacts.length_append. cbn [String.length String.append]. lia.
    + intros [|f] rest Hf; [lia|].
      rewrite StrFacts.append_assoc. cbn [parse_elems].
      rewrite Hv by lia. cbn [rbind snd fst].
      change (("," +++ String.concat "," (map enc (v2 :: l))) +++ String "]" rest)
        with (String ","
                (String.concat "," (map enc (v2 :: l)) +++ String "]" rest)).
      rewrite (@skip_ws_nws ","%char _ eq_refl).
      cbv iota. rewrite H' by lia. reflexivity.
Qed.

Lemma entry_append (kv : string * value) (x : string) :
  entry kv +++ x =
  String Str.dquote
    (quote_body (fst kv) +++
     String Str.dquote (String ":" (enc (snd kv) +++ x))).
Proof.
  unfold entry, quote.
  repeat first [rewrite StrFacts.append_assoc | progress cbn [String.append]].
  reflexivity.
Qed.

Lemma length_entry (kv : string * value) :
  String.length (enc (snd kv)) < String.length (entry kv).
Proof.
  unfold entry, quote.
  repeat first [rewrite StrFacts.length_append
                 | progress cbn [String.length String.append]].
  lia.
Qed.

Lemma flat_member_plain (l : list (string * value)) :
  forallb (fun kv => plain (snd kv)) l = true ->
  flat_map member l = map entry l.
Proof.
  induction l as [|[k v] l IH]; simpl; [reflexivity|].
  intros H. apply andb_true_iff in H. destruct H as [Hv Hl].
  rewrite (IH Hl). unfold member, entry, enc. simpl.
  destruct v; simpl in *; try discriminate; reflexivity.
Qed.

Lemma rt_members (l : list (string * value)) :
  l <> [] -> Forall (fun kv => rt (snd kv)) l ->
  forallb (fun kv => plain (snd kv)) l = true ->
  forallb (fun kv => tidy (snd kv)) l = true ->
  exists n, n <= String.length (String.concat "," (map entry l)) /\
    forall fuel rest, n <= fuel ->
      parse_members fuel (String.concat "," (map entry l) +++ String "}" rest)
      = Ok (l, rest).
Proof.
  induction l as [|kv l IH]; [congruence|]. intros _ F P T.
  inversion F as [|? ? Fv Fl]; subst.
  simpl in P, T. apply andb_true_iff in P. destruct P as [Pv Pl].
  apply andb_true_iff in T. destruct T as [Tv Tl].
  destruct (Fv Pv Tv) as (nv & Lv & Hv).
  pose proof (length_entry kv) as Le.
  destruct l as [|kv2 l].
  - exists (S nv).
    change (String.concat "," (map entry [kv])) with (entry kv).
    split; [lia|].
    intros [|f] rest Hf; [lia|]. rewrite entry_append. cbn [parse_members].
    rewrite (@skip_ws_nws Str.dquote _ eq_refl), Ascii.eqb_refl.
    rewrite parse_string_quote. cbn [rbind fst snd].
    rewrite (@skip_ws_nws ":"%char _ eq_refl). cbv iota.
    rewrite Hv by lia. destruct kv. reflexivity.
  - destruct (IH ltac:(discriminate) Fl Pl Tl) as (n' & L' & H').
    exists (S (Nat.max nv n')).
    change (String.concat "," (map entry (kv :: kv2 :: l)))
      with (entry kv +++ "," +++ String.concat "," (map entry (kv2 :: l))).
    split.
    + rewrite StrFacts.length_append. cbn [String.length String.append]. lia.
    + intros [|f] rest Hf; [lia|].
      rewrite StrFacts.append_assoc, entry_append. cbn [parse_members].
      rewrite (@skip_ws_nws Str.dquote _ eq_refl), Ascii.eqb_refl.
      rewrite parse_string_quote. cbn [rbind fst snd].
      rewrite (@skip_ws_nws ":"%char _ eq_refl). cbv iota.
      rewrite Hv by lia. cbn [rbind fst snd].
      change (("," +++ String.concat "," (map entry (kv2 :: l))) +++ String "}" rest)
        with (String ","
                (String.concat "," (map entry (kv2 :: l)) +++ String "}" rest)).
      rewrite (@skip_ws_nws ","%char _ eq_refl).
      cbv iota. rewrite H' by lia. destruct kv. reflexivity.
Qed.

Theorem roundtrip (v : value) : rt v.
Proof.
  induction v as [| |s|l IH|l IH] using value_ind; intros P T.
  - discriminate.
  - exists 1. split; [simpl; lia|]. intros [|f] rest Hf; [lia|]. reflexivity.
  - exists 1. unfold enc. cbn [ser]. unfold quote. split.
    + cbn [String.length]. rewrite StrFacts.length_append.
      cbn [String.length]. lia.
    + intros [|f] rest Hf; [lia|].
      cbn [String.append]. rewrite StrFacts.append_assoc.
      cbn [String.append parse_val].
      rewrite (@skip_ws_nws Str.dquote _ eq_refl), Ascii.eqb_refl.
      rewrite parse_string_quote. reflexivity.
  - destruct l as [|v0 l].
    + exists 1. split; [simpl; lia|]. intros [|f] rest Hf; [lia|]. reflexivity.
    + simpl in P, T.
      destruct (@rt_elems (v0 :: l) ltac:(discriminate) IH P T)
        as (n & Ln & Hn).
      assert (E : enc (Arr (v0 :: l)) =
                  String "[" (String.concat "," (map enc (v0 :: l)) +++ "]"))
        by reflexivity.
      exists (S n). rewrite E. split.
      * cbn [String.length]. rewrite StrFacts.length_append.
        simpl String.length at 2. lia.
      * intros [|f] rest Hf; [lia|].
        cbn [String.append]. rewrite StrFacts.append_assoc.
        change ("]" +++ rest) with (String "]" rest).
        cbn [parse_val]. rewrite (@skip_ws_nws "["%char _ eq_refl).
        change (Ascii.eqb "[" Str.dquote) with false.
        change (Ascii.eqb "[" "[") with true. cbv iota.
        apply andb_true_iff in P. destruct P as [P0 Pl].
        destruct (@enc_head v0 P0) as (c & t & Ec & Oc).
        change (String.concat "," (map enc (v0 :: l)))
          with (String.concat "," (enc v0 :: map enc l)) in *.
        assert (Hhd : exists t', String.concat "," (enc v0 :: map enc l)
                                 +++ String "]" rest = String c t').
        { destruct (map enc l); cbn [String.concat]; rewrite Ec;
            cbn [String.append]; eauto. }
        destruct Hhd as (t' & Et'). rewrite Hn by lia.
        rewrite Et', (@skip_ws_opener c _ Oc).
        destruct Oc as [-> | [-> | [-> | ->]]]; reflexivity.
  - destruct l as [|kv0 l].
    + exists 1. split; [simpl; lia|]. intros [|f] rest Hf; [lia|]. reflexivity.
    + simpl in P. cbn [tidy] in T.
      apply andb_true_iff in T. destruct T as [T I].
      apply andb_true_iff in T. destruct T as [T D].
      apply negb_true_iff in I.
      destruct (@rt_members (kv0 :: l) ltac:(discriminate) IH P T)
        as (n & Ln & Hn).
      assert (E : enc (Obj (kv0 :: l)) =
                  String "{" (String.concat "," (map entry (kv0 :: l)) +++ "}")).
      { unfold enc. cbn [ser].
        change (flat_map _ (kv0 :: l)) with (flat_map member (kv0 :: l)).
        rewrite (@flat_member_plain (kv0 :: l) P). reflexivity. }
      exists (S n). rewrite E. split.
      * cbn [String.length]. rewrite StrFacts.length_append.
        simpl String.length at 2. lia.
      * intros [|f] rest Hf; [lia|].
        cbn [String.append]. rewrite StrFacts.append_assoc.
        change ("}" +++ rest) with (String "}" rest).
        cbn [parse_val]. rewrite (@skip_ws_nws "{"%char _ eq_refl).
        change (Ascii.eqb "{" Str.dquote) with false.
        change (Ascii.eqb "{" "[") with false.
        change (Ascii.eqb "{" "{") with true. cbv iota.
        rewrite Hn by lia.
        assert (Hhd : exists t', String.concat "," (map entry (kv0 :: l))
                                 +++ String "}" rest = String Str.dquote t').
        { cbn [map]. destruct (map entry l); cbn [String.concat];
            unfold entry, quote; cbn [String.append]; eauto. }
        destruct Hhd as (t' & Et').
        rewrite Et', (@skip_ws_nws Str.dquote _ eq_refl).
        cbn [rbind fst snd]. rewrite (@mk_obj_tidy _ D I). reflexivity.
Qed.

End JsonFacts.

(** ** The fuel of [JSON.parse] suffices *)

Module FuelFacts.
Import Js Json.

Lemma skip_ws_length (s : string) :
  String.length (skip_ws s) <= String.length s.
Proof.
  induction s as [|c s IH]; cbn [skip_ws]; [lia|].
  destruct (is_ws c); cbn [String.length]; lia.
Qed.

Lemma within_weaken {A} (res : result (A * string)) (s s' : string) :
  String.length s <= String.length s' -> within_fuel res s -> within_fuel res s'.
Proof.
  intros L [H1 H2]. split; [exact H1|].
  intros v r E. specialize (H2 v r E). lia.
Qed.

Lemma within_err {A} (e : error) (s : string) :
  e <> OutOfFuel -> within_fuel (@Err (A * string) e) s.
Proof. intros H. split; [congruence | discriminate]. Qed.

Lemma within_ok {A} (v : A) (r s : string) :
  String.length r < String.length s -> within_fuel (Ok (v, r)) s.
Proof.
  intros H. split; [discriminate|]. intros v' r' E. injection E as _ <-. exact H.
Qed.

Lemma within_cons_to (c : ascii) (res : result (string * string)) (s s' : string) :
  String.length s <= String.length s' ->
  within_fuel res s -> within_fuel (cons_to c res) s'.
Proof.
  intros L [H1 H2]. unfold cons_to. destruct res as [[t r]|e]; cbn [rbind].
  - apply within_ok. cbn [snd]. specialize (H2 t r eq_refl). lia.
  - apply within_err. congruence.
Qed.

Lemma parse_string_within (n : nat) :
  forall s, String.length s <= n -> within_fuel (parse_string s) s.
Proof.
  induction n as [|n IH]; intros s L.
  - destruct s; [|cbn in L; lia]. apply within_err. discriminate.
  - destruct s as [|c r]; [apply within_err; discriminate|].
    cbn [String.length] in L. cbn [parse_string].
    destruct (Ascii.eqb c Str.dquote); [apply within_ok; cbn; lia|].
    destruct (Ascii.eqb c backslash).
    + destruct r as [|e r']; [apply within_err; discriminate|].
      cbn [String.length] in L.
      repeat match goal with
        | |- within_fuel (if ?b then _ else _) _ => destruct b
        | |- within_fuel (cons_to _ (parse_string r')) _ =>
            apply (within_cons_to _ _ r'); [cbn; lia | apply IH; lia]
        end; try (apply within_err; discriminate).
      destruct r' as [|h1 [|h2 [|h3 [|h4 r'']]]];
        try (apply within_err; discriminate).
      destruct (hex4 h1 h2 h3 h4) as [k|]; [|apply within_err; discriminate].
      destruct (k <? 256); [|apply within_err; discriminate].
      apply (within_cons_to _ _ r''); [cbn; lia | apply IH; cbn in L; lia].
    + destruct (nat_of_ascii c <? 32); [apply within_err; discriminate|].
      apply (within_cons_to _ _ r); [cbn; lia | apply IH; lia].
Qed.

Lemma within_rbind {A B} (res : result (A * string)) (s s' : string)
    (k : A * string -> result (B * string)) :
  within_fuel res s -> String.length s <= String.length s' ->
  (forall v r, String.length r < String.length s -> within_fuel (k (v, r)) s') ->
  within_fuel (rbind res k) s'.
Proof.
  intros [H1 H2] L Hk. destruct res as [[v r]|e]; cbn [rbind].
  - apply Hk. apply (H2 v r eq_refl).
  - apply within_err. congruence.
Qed.

Ltac split_char c :=
  destruct c as [[] [] [] [] [] [] [] []].

Lemma parse_fuel (f : nat) :
  (forall s, 2 * String.length s + 1 <= f -> within_fuel (parse_val f s) s) /\
  (forall s, 2 * String.length s + 2 <= f -> within_fuel (parse_elems f s) s) /\
  (forall s, 2 * String.length s + 2 <= f -> within_fuel (parse_members f s) s).
Proof.
  induction f as [|f (IHv & IHe & IHm)]; [repeat split; intros; lia|].
  split; [|split]; intros s L.
  - cbn [parse_val]. pose proof (skip_ws_length s) as Ls.
    destruct (skip_ws s) as [|c r]; [apply within_err; discriminate|].
    cbn [String.length] in Ls.
    destruct (Ascii.eqb c Str.dquote).
    { apply (within_rbind _ r); [apply (parse_string_within _ r (le_n _))|lia|].
      intros v r0 H. apply within_ok. cbn [snd]. lia. }
    destruct (Ascii.eqb c "[").
    { pose proof (skip_ws_length r) as Lr.
      assert (He : within_fuel
                (rbind (parse_elems f r)
                   (fun p => Ok (Arr (fst p), snd p))) s).
      { apply (within_rbind _ r); [apply IHe; lia | lia |].
        intros v r0 H. apply within_ok. cbn [snd]. lia. }
      destruct (skip_ws r) as [|c' r']; [exact He|].
      cbn [String.length] in Lr.
      split_char c'; try exact He. apply within_ok. lia. }
    destruct (Ascii.eqb c "{").
    { pose proof (skip_ws_length r) as Lr.
      assert (He : within_fuel
                (rbind (parse_members f r) (fun p =>
                 rbind (mk_obj (fst p)) (fun o => Ok (o, snd p)))) s).
      { apply (within_rbind _ r); [apply IHm; lia | lia |].
        intros v r0 H. cbn [fst snd]. unfold mk_obj.
        destruct (existsb _ v); cbn [rbind];
          [apply within_err; discriminate | apply within_ok; lia]. }
      destruct (skip_ws r) as [|c' r']; [exact He|].
      cbn [String.length] in Lr.
      split_char c'; try exact He. apply within_ok. lia. }
    destruct (Ascii.eqb c "n").
    { destruct r as [|a r1]; [apply within_err; discriminate|].
      split_char a; try (lazy beta iota; apply within_err; discriminate).
      destruct r1 as [|b r2]; [apply within_err; discriminate|].
      split_char b; try (lazy beta iota; apply within_err; discriminate).
      destruct r2 as [|d r3]; [apply within_err; discriminate|].
      split_char d; try (lazy beta iota; apply within_err; discriminate).
      apply within_ok. cbn [String.length] in *. lia. }
    destruct (_ || _); apply within_err; discriminate.
  - cbn [parse_elems].
    apply (within_rbind _ s); [apply IHv; lia | lia |].
    intros v r H. cbn [fst snd].
    pose proof (skip_ws_length r) as Lr.
    destruct (skip_ws r) as [|c r']; [apply within_err; discriminate|].
    cbn [String.length] in Lr.
    split_char c;
      try (lazy beta iota; apply within_err; discriminate);
      try (apply within_ok; lia).
    apply (within_rbind _ r'); [apply IHe; lia | lia |].
    intros v' r0 H'. apply within_ok. cbn [snd]. lia.
  - cbn [parse_members]. pose proof (skip_ws_length s) as Ls.
    destruct (skip_ws s) as [|c r]; [apply within_err; discriminate|].
    cbn [String.length] in Ls.
    destruct (Ascii.eqb c Str.dquote); [|apply within_err; discriminate].
    apply (within_rbind _ r); [apply (parse_string_within _ r (le_n _))|lia|].
    intros k r1 H1. cbn [fst snd].
    pose proof (skip_ws_length r1) as L1.
    destruct (skip_ws r1) as [|c1 r2]; [apply within_err; discriminate|].
    cbn [String.length] in L1.
    split_char c1; try (lazy beta iota; apply within_err; discriminate).
    apply (within_rbind _ r2); [apply IHv; lia | lia |].
    intros v r3 H3. cbn [fst snd].
    pose proof (skip_ws_length r3) as L3.
    destruct (skip_ws r3) as [|c3 r4]; [apply within_err; discriminate|].
    cbn [String.length] in L3.
    split_char c3;
      try (lazy beta iota; apply within_err; discriminate);
      try (apply within_ok; lia).
    apply (within_rbind _ r4); [apply IHm; lia | lia |].
    intros v' r0 H'. apply within_ok. cbn [snd]. lia.
Qed.

(** [JSON_parse] never stops for want of fuel. *)
Lemma JSON_parse_fuel (s : string) : JSON_parse s <> Err OutOfFuel.
Proof.
  unfold JSON_parse.
  destruct (proj1 (parse_fuel (2 * String.length s + 1)) s (le_n _)) as [H _].
  destruct (parse_val _ s) as [[v r]|e]; cbn [rbind].
  - cbn [snd fst]. destruct (skip_ws r); discriminate.
  - congruence.
Qed.

End FuelFacts.

(** ** The link pattern *)

Module LinkFacts.
Import Str Re StrFacts ReFacts.

Lemma upper_dquote (c : ascii) :
  Ascii.eqb (to_upper c) dquote = Ascii.eqb c dquote.
Proof. destruct c as [[] [] [] [] [] [] [] []]; reflexivity. Qed.

Lemma ci_dquote (x c : ascii) :
  ci x c = true -> Ascii.eqb c dquote = Ascii.eqb x dquote.
Proof.
  unfold ci. intros H. apply Ascii.eqb_eq in H.
  rewrite <- (upper_dquote c), <- (upper_dquote x), H. reflexivity.
Qed.

Lemma space_dquote (c : ascii) :
  is_space c = true -> Ascii.eqb c dquote = false.
Proof. destruct c as [[] [] [] [] [] [] [] []]; cbv; congruence. Qed.

Lemma letter_dquote (c : ascii) :
  is_letter c = true -> Ascii.eqb c dquote = false.
Proof. destruct c as [[] [] [] [] [] [] [] []]; cbv; congruence. Qed.

Lemma digit_dquote (c : ascii) :
  is_digit c = true -> Ascii.eqb c dquote = false.
Proof. destruct c as [[] [] [] [] [] [] [] []]; cbv; congruence. Qed.

Lemma all_no_dquote (p : ascii -> bool) (w : string) :
  (forall c, p c = true -> Ascii.eqb c dquote = false) ->
  all p w = true -> has dquote w = false.
Proof.
  intros Hp. induction w as [|c w IH]; simpl; [reflexivity|].
  intros H. apply andb_true_iff in H. destruct H as [Hc Hw].
  rewrite (Hp c Hc), (IH Hw). reflexivity.
Qed.

Lemma ci_upper (x c : ascii) : ci x c = true -> to_upper c = to_upper x.
Proof. unfold ci. intros H. apply Ascii.eqb_eq in H. exact H. Qed.

Lemma ci_is_dquote (c : ascii) : ci dquote c = true -> c = dquote.
Proof. destruct c as [[] [] [] [] [] [] [] []]; cbv; congruence. Qed.

Lemma ci_is_gt (c : ascii) : ci ">" c = true -> c = ">"%char.
Proof. destruct c as [[] [] [] [] [] [] [] []]; cbv; congruence. Qed.

Ltac open_lang :=
  repeat match goal with
    | H : exists _, _ |- _ => destruct H
    | H : _ /\ _ |- _ => destruct H
    end; subst.

Ltac flatten :=
  repeat first [ rewrite append_assoc
               | rewrite append_nil_r
               | progress cbn [String.append] ].

Lemma lang_link (w : string) :
  lang linkRegularExpression w ->
  exists pre n,
    w = pre +++ String dquote (n +++ String dquote ">") /\
    has dquote pre = false /\ has dquote n = false /\ is_zip_name n.
Proof.
  intros H. cbn in H. open_lang. flatten.
  repeat match goal with
    | H : ci _ ?c = true |- _ =>
        first [apply ci_is_dquote in H | apply ci_is_gt in H]; subst c
    end.
  change (String (ascii_of_nat 34)) with (String dquote).
  match goal with
  | |- exists pre n,
        String ?a (String ?b (String ?c (String ?d (String ?e (String ?f
          (String ?g (String dquote (?ls +++ ?ds +++
             String ?p1 (String ?p2 (String ?p3 (String ?p4
               (String dquote ">")))))))))))) = _ /\ _ =>
      exists (String a (String b (String c (String d (String e (String f
                (String g EmptyString))))))),
             (ls +++ ds +++
              String p1 (String p2 (String p3 (String p4 EmptyString))))
  end.
  split; [flatten; reflexivity|].
  repeat match goal with
    | H : ci _ _ = true |- _ =>
        pose proof (@ci_dquote _ _ H); apply ci_upper in H
    | H : is_space _ = true |- _ => apply space_dquote in H
    end.
  repeat match goal with
    | H : Ascii.eqb _ dquote = Ascii.eqb ?x dquote |- _ =>
        change (Ascii.eqb x dquote) with false in H
    end.
  split; [|split].
  - cbn [has].
    repeat match goal with
      | H : Ascii.eqb ?c _ = false |- context [Ascii.eqb ?c _] => rewrite H
      end.
    reflexivity.
  - rewrite !has_append. cbn [has].
    repeat match goal with
      | H : all is_letter ?w = true |- context [has dquote ?w] =>
          rewrite (@all_no_dquote _ _ letter_dquote H)
      | H : all is_digit ?w = true |- context [has dquote ?w] =>
          rewrite (@all_no_dquote _ _ digit_dquote H)
      | H : Ascii.eqb ?c _ = false |- context [Ascii.eqb ?c _] => rewrite H
      end.
    reflexivity.
  - eexists _, _, _. split; [reflexivity|].
    repeat split; try assumption; try lia.
    cbn [chars map].
    repeat match goal with
      | H : to_upper ?c = _ |- context [to_upper ?c] => rewrite H
      end.
    reflexivity.
Qed.

Lemma link_target_name (w : string) :
  lang linkRegularExpression w ->
  link_target w = Ok (link_name w) /\ is_zip_name (link_name w).
Proof.
  intros H. destruct (@lang_link _ H) as (pre & n & -> & Hp & Hn & Z).
  unfold link_target, link_name.
  rewrite (@split_at _ _ _ Hp), (@split_at _ _ _ Hn). cbn [nth_error nth].
  rewrite (@split_none _ _ Hn). auto.
Qed.

Lemma rmap_link_target (l : list string) :
  Forall (lang linkRegularExpression) l ->
  rmap link_target l = Ok (map link_name l).
Proof.
  induction 1 as [|w l Hw _ IH]; [reflexivity|].
  cbn [rmap map]. destruct (@link_target_name _ Hw) as [-> _].
  cbn [rbind]. rewrite IH. reflexivity.
Qed.

Lemma zip_links_names (page : string) :
  Forall is_zip_name (zip_links page).
Proof.
  unfold zip_links. apply Forall_map.
  eapply Forall_impl; [|apply match_from_sound].
  intros w Hw. apply (@link_target_name _ Hw).
Qed.

(** What the body of the second loop does with one response. *)
Lemma response_infos_eq (r : AxiosResponse) :
  response_infos r =
  match zip_links (data r) with
  | [] => Err TypeError
  | names =>
      Ok (map (fun n => mkUsptoZipFileInfo n (config_url r +++ n)) names)
  end.
Proof.
  unfold response_infos, zip_links, String_match.
  pose proof (match_from_sound linkRegularExpression (data r) 0) as F.
  destruct (match_from linkRegularExpression 0 (data r)) as [|w l];
    [reflexivity|].
  rewrite (@rmap_link_target _ F). reflexivity.
Qed.

End LinkFacts.

(** ** The two loops of [fetchUsptoZipFileInfos] *)

Module DiscoverFacts.
Import LinkFacts.

Section Discover.
Variable axios_get : string -> option string.

Lemma year_body_ok (year : Z) (w w' : world) (r : AxiosResponse) :
  year_body axios_get year w = (w', Ok r) -> response_of axios_get year r.
Proof.
  unfold year_body, axios, bind, emit, console_log, emit, ret, throw.
  fold (year_url year).
  destruct (axios_get (year_url year)) as [body|] eqn:E; [|discriminate].
  intros H. injection H as _ <-. split; [reflexivity | exact E].
Qed.

Lemma year_body_total (year : Z) (w : world) (page : string) :
  axios_get (year_url year) = Some page ->
  exists w',
    year_body axios_get year w
    = (w', Ok (mkAxiosResponse (year_url year) page)).
Proof.
  intros E. unfold year_body, axios, bind, emit, console_log, emit, ret.
  fold (year_url year). rewrite E. eauto.
Qed.

Lemma first_loop_ok (ys : list Z) :
  forall w w' rs,
    for_push ys (year_body axios_get) w = (w', Ok rs) ->
    Forall2 (response_of axios_get) ys rs.
Proof.
  induction ys as [|y ys IH]; intros w w' rs H; cbn [for_push] in H.
  - injection H as _ <-. constructor.
  - unfold bind at 1 in H.
    destruct (year_body axios_get y w) as [w1 [r|e]] eqn:E1; [|discriminate].
    unfold bind at 1 in H.
    destruct (for_push ys (year_body axios_get) w1) as [w2 [rs'|e]] eqn:E2;
      [|discriminate].
    injection H as _ <-.
    constructor; [exact (year_body_ok _ _ _ _ E1) | exact (IH _ _ _ E2)].
Qed.

Lemma first_loop_total (ys : list Z) :
  (forall y, In y ys -> exists page, axios_get (year_url y) = Some page) ->
  forall w, exists w' rs, for_push ys (year_body axios_get) w = (w', Ok rs).
Proof.
  induction ys as [|y ys IH]; intros Hall w; cbn [for_push].
  - unfold ret. eauto.
  - destruct (Hall y (or_introl eq_refl)) as (page & E).
    destruct (year_body_total y w page E) as (w1 & E1).
    destruct (IH (fun y' Hy => Hall y' (or_intror Hy)) w1) as (w2 & rs & E2).
    unfold bind at 1. rewrite E1. unfold bind at 1. rewrite E2.
    unfold ret. eauto.
Qed.

Lemma second_loop_ok (ys : list Z) (rs : list AxiosResponse) :
  Forall2 (response_of axios_get) ys rs ->
  forall per, rmap response_infos rs = Ok per ->
    List.concat per = List.concat (map (year_refs axios_get) ys).
Proof.
  induction 1 as [|y r ys rs [Hu Hd] _ IH]; intros per H; cbn [rmap] in H.
  - injection H as <-. reflexivity.
  - rewrite response_infos_eq in H.
    destruct (zip_links (data r)) as [|n ns] eqn:Z; [discriminate|].
    cbn [rbind] in H.
    destruct (rmap response_infos rs) as [per'|] eqn:E; [|discriminate].
    cbn [rbind] in H. injection H as <-.
    cbn [map List.concat]. rewrite (IH _ eq_refl).
    unfold year_refs at 2. rewrite Hd, Z, Hu. reflexivity.
Qed.

Lemma second_loop_total (ys : list Z) (rs : list AxiosResponse) :
  Forall2 (response_of axios_get) ys rs ->
  (forall y, In y ys ->
     exists page, axios_get (year_url y) = Some page /\ zip_links page <> []) ->
  exists per, rmap response_infos rs = Ok per.
Proof.
  induction 1 as [|y r ys rs [Hu Hd] _ IH]; intros Hall; cbn [rmap].
  - eauto.
  - destruct (Hall y (or_introl eq_refl)) as (page & E & Hne).
    rewrite Hd in E. injection E as <-.
    rewrite response_infos_eq.
    destruct (zip_links (data r)) as [|n ns]; [congruence|].
    destruct (IH (fun y' Hy => Hall y' (or_intror Hy))) as (per & ->).
    cbn [rbind]. eauto.
Qed.

Lemma second_loop_none (ys : list Z) (rs : list AxiosResponse) :
  Forall2 (response_of axios_get) ys rs ->
  (exists y page, In y ys /\ axios_get (year_url y) = Some page
                  /\ zip_links page = []) ->
  rmap response_infos rs = Err TypeError.
Proof.
  induction 1 as [|y r ys rs [Hu Hd] _ IH]; intros (y0 & page & Hin & E & Z).
  - destruct Hin.
  - cbn [rmap]. rewrite response_infos_eq.
    destruct Hin as [<- | Hin].
    + rewrite Hd in E. injection E as <-. rewrite Z. reflexivity.
    + destruct (zip_links (data r)); [reflexivity|].
      cbn [rbind]. rewrite IH by eauto. reflexivity.
Qed.

Lemma slice0_firstn {A} (e : Z) (l : list A) :
  (0 <= e)%Z ->
  slice0 e l = firstn (Z.to_nat e) l /\
  (Z.of_nat (List.length (slice0 e l)) <= e)%Z.
Proof.
  intros He. unfold slice0.
  destruct (e <? 0)%Z eqn:Hneg; [apply Z.ltb_lt in Hneg; lia|].
  assert (E : firstn (Z.to_nat (Z.min e (Z.of_nat (List.length l)))) l
              = firstn (Z.to_nat e) l).
  { destruct (Z.le_ge_cases e (Z.of_nat (List.length l))) as [H|H].
    - rewrite Z.min_l by exact H. reflexivity.
    - rewrite Z.min_r by exact H. rewrite Nat2Z.id.
      rewrite firstn_all, firstn_all2 by lia. reflexivity. }
  rewrite E. split; [reflexivity|].
  pose proof (firstn_le_length (Z.to_nat e) l). lia.
Qed.

Variable currentYear : Z.

Lemma fetch_unfold (fileLimit startYear endYear : option Z) :
  fetchUsptoZipFileInfos axios_get currentYear fileLimit startYear endYear =
  (rs <- for_push (years (or_default 2005%Z startYear)
                     (or_default currentYear endYear)) (year_body axios_get) ;;
   perYear <- lift (rmap response_infos rs) ;;
   ret (slice0 (or_default 1%Z fileLimit) (List.concat perYear))).
Proof. reflexivity. Qed.

End Discover.
End DiscoverFacts.

(** ** The loop of [synchronizeUsptoZipFiles] *)

Module SyncFacts.

Lemma fetches_app (a b : list event) : fetches (a ++ b) = fetches a ++ fetches b.
Proof. unfold fetches. apply flat_map_app. Qed.

Lemma writes_app (a b : list event) : writes (a ++ b) = writes a ++ writes b.
Proof. unfold writes. apply flat_map_app. Qed.

Lemma assoc_replace (k k' : string) (n : node) (fs : fsys) :
  assoc k' (replace k n fs) =
  if String.eqb k k' then (match assoc k fs with Some _ => Some n | None => None end)
  else assoc k' fs.
Proof.
  induction fs as [|[k0 n0] fs IH]; simpl.
  - destruct (String.eqb k k'); reflexivity.
  - destruct (String.eqb k0 k) eqn:E0; simpl.
    + apply String.eqb_eq in E0. subst k0.
      destruct (String.eqb k k'); reflexivity.
    + destruct (String.eqb k0 k') eqn:E1.
      * apply String.eqb_eq in E1. subst k0.
        rewrite (String.eqb_sym k k'), E0. reflexivity.
      * rewrite IH. reflexivity.
Qed.

Lemma assoc_app {A} (k : string) (a b : list (string * A)) :
  assoc k (a ++ b) = match assoc k a with Some x => Some x | None => assoc k b end.
Proof.
  induction a as [|[k0 x] a IH]; simpl; [reflexivity|].
  destruct (String.eqb k0 k); [reflexivity | exact IH].
Qed.

(** A successful write leaves a file at the path and keeps every other
    file a file. *)
Lemma writeFileSync_ok (p d : string) (w w' : world) :
  writeFileSync p d w = (w', Ok tt) ->
  trace w' = trace w ++ [FsWrite p] /\
  store w' = store w /\
  is_file (files w') (key p) /\
  forall k, is_file (files w) k -> is_file (files w') k.
Proof.
  unfold writeFileSync, bind, get_files, set_files, emit, throw.
  cbv beta zeta.
  destruct (assoc (key p) (files w)) as [[old|]|] eqn:E.
  - intros H. injection H as <-. cbn [files trace store]. repeat split.
    + exists d. rewrite assoc_replace, String.eqb_refl, E. reflexivity.
    + intros k [x Hx]. unfold is_file. rewrite assoc_replace.
      destruct (String.eqb (key p) k) eqn:Ek.
      * apply String.eqb_eq in Ek. subst k. rewrite E. exists d. reflexivity.
      * exists x. exact Hx.
  - discriminate.
  - destruct (is_root (key p)); [discriminate|].
    destruct (can_create (files w) (key p)); [|discriminate].
    intros H. injection H as <-. cbn [files trace store]. repeat split.
    + exists d. rewrite assoc_app, E. cbn [assoc].
      rewrite String.eqb_refl. reflexivity.
    + intros k [x Hx]. exists x. rewrite assoc_app, Hx. reflexivity.
Qed.

Section Sync.
Variable axios_get : string -> option string.
Variable dir : string.
Variable cached : list string.

Lemma body_present (r : UsptoZipFileInfo) (w : world) :
  includes (name r) cached = true -> sync_body axios_get dir cached r w = (w, Ok tt).
Proof. intros H. unfold sync_body. rewrite H. reflexivity. Qed.

(** One iteration on a reference the listing lacks. *)
Lemma body_missing (r : UsptoZipFileInfo) (w : world) :
  includes (name r) cached = false ->
  sync_body axios_get dir cached r w =
  match axios_get (url r) with
  | Some payload =>
      writeFileSync (Path.join dir (name r)) payload
        (mkWorld (files w) (store w)
           ((trace w ++ [ConsoleLog ("Fetching USPTO file at: " +++ url r)])
            ++ [HttpGet (url r)]))
  | None =>
      (mkWorld (files w) (store w)
         ((trace w ++ [ConsoleLog ("Fetching USPTO file at: " +++ url r)])
          ++ [HttpGet (url r)]), Err NetworkError)
  end.
Proof.
  intros H. unfold sync_body. rewrite H. simpl negb. cbv iota.
  unfold console_log, axios, bind, emit, ret, throw. simpl.
  destruct (axios_get (url r)); reflexivity.
Qed.

Lemma body_ok (r : UsptoZipFileInfo) (w w' : world) :
  sync_body axios_get dir cached r w = (w', Ok tt) ->
  fetches (trace w') = fetches (trace w) ++ map url (missing cached [r]) /\
  writes (trace w') = writes (trace w)
     ++ map (fun r => Path.join dir (name r)) (missing cached [r]) /\
  (forall k, is_file (files w) k -> is_file (files w') k) /\
  (includes (name r) cached = false ->
   is_file (files w') (key (Path.join dir (name r)))).
Proof.
  unfold missing. simpl filter.
  destruct (includes (name r) cached) eqn:E; simpl negb; cbv iota.
  - rewrite (body_present r w E). intros H. injection H as <-.
    simpl. rewrite !app_nil_r. repeat split; auto; discriminate.
  - rewrite (body_missing r w E).
    destruct (axios_get (url r)) as [payload|]; [|discriminate].
    intros H. apply writeFileSync_ok in H. simpl in H.
    destruct H as (Ht & _ & Hf & Hk).
    rewrite Ht, !fetches_app, !writes_app. simpl.
    rewrite !app_nil_r. repeat split; auto.
Qed.

(** A loop that completes fetched and wrote exactly the missing ones. *)
Lemma loop_ok (refs : list UsptoZipFileInfo) :
  forall w w', for_of refs (sync_body axios_get dir cached) w = (w', Ok tt) ->
    fetches (trace w') = fetches (trace w) ++ map url (missing cached refs) /\
    writes (trace w') = writes (trace w)
      ++ map (fun r => Path.join dir (name r)) (missing cached refs) /\
    (forall k, is_file (files w) k -> is_file (files w') k) /\
    (forall r, In r (missing cached refs) ->
       is_file (files w') (key (Path.join dir (name r)))).
Proof.
  induction refs as [|r refs IH]; intros w w' H; cbn [for_of] in H.
  - injection H as <-. simpl. rewrite !app_nil_r. repeat split; auto.
    intros r [].
  - unfold bind in H.
    destruct (sync_body axios_get dir cached r w) as [w1 [[]|e]] eqn:E1;
      [|discriminate].
    destruct (body_ok r w w1 E1) as (F1 & W1 & K1 & N1).
    destruct (IH w1 w' H) as (F2 & W2 & K2 & N2).
    assert (M : missing cached (r :: refs)
                = missing cached [r] ++ missing cached refs).
    { unfold missing. simpl. destruct (negb (includes (name r) cached));
        reflexivity. }
    rewrite M, !map_app, F2, F1, W2, W1, !app_assoc.
    repeat split; auto.
    intros r' Hr'. apply in_app_or in Hr'. destruct Hr' as [Hr'|Hr'].
    + apply K2. unfold missing in Hr'. simpl in Hr'.
      destruct (includes (name r) cached) eqn:E; simpl in Hr'; [destruct Hr'|].
      destruct Hr' as [<-|[]]. apply N1. reflexivity.
    + apply N2. exact Hr'.
Qed.

(** Whatever the outcome, the urls requested are those of the first
    missing references, in order. *)
Lemma loop_prefix (refs : list UsptoZipFileInfo) :
  forall w w' out, for_of refs (sync_body axios_get dir cached) w = (w', out) ->
    exists done rest,
      missing cached refs = done ++ rest /\
      fetches (trace w') = fetches (trace w) ++ map url done.
Proof.
  induction refs as [|r refs IH]; intros w w' out H; cbn [for_of] in H.
  - injection H as <- _. exists [], []. simpl. rewrite app_nil_r. auto.
  - assert (M : missing cached (r :: refs)
                = missing cached [r] ++ missing cached refs).
    { unfold missing. simpl. destruct (negb (includes (name r) cached));
        reflexivity. }
    unfold bind in H.
    destruct (sync_body axios_get dir cached r w) as [w1 [[]|e]] eqn:E1.
    + destruct (body_ok r w w1 E1) as (F1 & _).
      destruct (IH w1 w' out H) as (done & rest & Hm & F2).
      exists (missing cached [r] ++ done), rest.
      rewrite M, Hm, F2, F1, map_app, !app_assoc. auto.
    + injection H as <- _.
      unfold missing in *. simpl filter in *.
      destruct (includes (name r) cached) eqn:E; simpl negb in *; cbv iota in *.
      * rewrite (body_present r w E) in E1. discriminate.
      * rewrite (body_missing r w E) in E1.
        destruct (axios_get (url r)) as [payload|].
        -- exists [r], (filter (fun r => negb (includes (name r) cached)) refs).
           split; [reflexivity|].
           unfold writeFileSync, bind, get_files, set_files, emit, throw in E1.
           simpl in E1.
           destruct (assoc _ (files w)) as [[|]|];
             [discriminate| |
              destruct (is_root _); [|destruct (can_create _ _); [discriminate|]]];
             injection E1 as <- _; simpl;
             rewrite !fetches_app; simpl; rewrite !app_nil_r; reflexivity.
        -- injection E1 as <- _.
           exists [r], (filter (fun r => negb (includes (name r) cached)) refs).
           split; [reflexivity|]. simpl.
           rewrite !fetches_app. simpl. rewrite !app_nil_r. reflexivity.
Qed.

Lemma loop_all_present (refs : list UsptoZipFileInfo) (w : world) :
  Forall (fun r => In (name r) cached) refs ->
  for_of refs (sync_body axios_get dir cached) w = (w, Ok tt).
Proof.
  induction 1 as [|r refs Hr _ IH]; cbn [for_of]; [reflexivity|].
  unfold bind. rewrite (body_present r w); [exact IH|].
  apply JsFacts.includes_In. exact Hr.
Qed.

End Sync.

Lemma bind_assoc {A B C} (m : M A) (f : A -> M B) (g : B -> M C) (w : world) :
  bind (bind m f) g w = bind m (fun x => bind (f x) g) w.
Proof. unfold bind. destruct (m w) as [w' [a|e]]; reflexivity. Qed.

Lemma for_of_app {A} (a b : list A) (body : A -> M unit) (w : world) :
  for_of (a ++ b) body w =
  match for_of a body w with
  | (w', Ok _) => for_of b body w'
  | (w', Err e) => (w', Err e)
  end.
Proof.
  revert w. induction a as [|x a IH]; intros w; cbn [for_of app].
  - reflexivity.
  - unfold bind. destruct (body x w) as [w1 [[]|e]]; [apply IH|reflexivity].
Qed.

(** Listing the cache directory requests nothing and writes no file. *)
Lemma ensure_and_list_quiet (dir : string) (w w1 : world)
    (out : result (list string)) :
  ensure_and_list dir w = (w1, out) ->
  fetches (trace w1) = fetches (trace w) /\
  writes (trace w1) = writes (trace w) /\
  forall k, is_file (files w) k -> is_file (files w1) k.
Proof.
  unfold ensure_and_list, ensure_then_list, existsSync, mkdirSync,
    readdirSync, bind, get_files,
    set_files, emit, ret, throw. cbv beta zeta.
  repeat first
    [ progress cbn [negb files trace store]
    | match goal with
      | |- context [if ?b then _ else _] => destruct b
      end ];
    intros H; injection H as <- _; cbn [files trace store];
    rewrite ?fetches_app, ?writes_app; cbn [fetches writes flat_map];
    rewrite ?app_nil_r;
    (repeat split; auto; intros k [x Hx]; exists x;
     rewrite assoc_app, Hx; reflexivity).
Qed.

Lemma sync_unfold (axios_get : string -> option string) (dirname__ : string)
    (refs : list UsptoZipFileInfo) (zipFileCacheDir : option string)
    (w : world) :
  synchronizeUsptoZipFiles axios_get dirname__ refs zipFileCacheDir w =
  (cached <- ensure_and_list (zip_cache_dir dirname__ zipFileCacheDir) ;;
   for_of refs
     (sync_body axios_get (zip_cache_dir dirname__ zipFileCacheDir) cached)) w.
Proof.
  unfold synchronizeUsptoZipFiles, ensure_and_list, ensure_then_list,
    zip_cache_dir.
  rewrite !bind_assoc. unfold bind.
  destruct (existsSync _ w) as [w1 [present|e]]; [|reflexivity].
  destruct ((if negb present then mkdirSync _ else ret tt) w1) as [w2 [[]|e]];
    reflexivity.
Qed.

End SyncFacts.

(** ** The loop of [processCachedUsptoZipFiles] *)

Module ExtractFacts.
Import SyncFacts.

Lemma extractions_app (a b : list event) :
  extractions (a ++ b) = extractions a ++ extractions b.
Proof. unfold extractions. apply flat_map_app. Qed.

Lemma ensure_then_list_quiet (made listed : string) (w w1 : world)
    (out : result (list string)) :
  ensure_then_list made listed w = (w1, out) ->
  extractions (trace w1) = extractions (trace w).
Proof.
  unfold ensure_then_list, existsSync, mkdirSync, readdirSync, bind, get_files,
    set_files, emit, ret, throw. cbv beta zeta.
  repeat first
    [ progress cbn [negb files trace store]
    | match goal with
      | |- context [if ?b then _ else _] => destruct b
      end ];
    intros H; injection H as <- _; cbn [files trace store];
    rewrite ?extractions_app; cbn [extractions flat_map];
    rewrite ?app_nil_r; reflexivity.
Qed.

Section Extract.
Variable AdmZip_extractAllTo : string -> string -> fsys -> result fsys.
Variable target : string.

Lemma extractAllTo_trace (zipPath : string) (w w' : world) (out : result unit) :
  extractAllTo AdmZip_extractAllTo zipPath target w = (w', out) ->
  extractions (trace w') = extractions (trace w) ++ [(zipPath, target)].
Proof.
  unfold extractAllTo, bind, emit, get_files, set_files, throw.
  cbn [files trace store].
  destruct (AdmZip_extractAllTo zipPath target (files w));
    intros H; injection H as <- _; cbn [trace];
    rewrite extractions_app; reflexivity.
Qed.

Lemma extractAllTo_total (zipPath : string) (w : world) :
  (forall z fs, exists fs', AdmZip_extractAllTo z target fs = Ok fs') ->
  exists w', extractAllTo AdmZip_extractAllTo zipPath target w = (w', Ok tt).
Proof.
  intros Hall. unfold extractAllTo, bind, emit, get_files, set_files, throw.
  cbn [files trace store].
  destruct (Hall zipPath (files w)) as (fs' & ->). eauto.
Qed.

Lemma extract_loop_ok (paths : list string) :
  forall w w',
    for_of paths (fun p => extractAllTo AdmZip_extractAllTo p target) w
      = (w', Ok tt) ->
    extractions (trace w') =
    extractions (trace w) ++ map (fun p => (p, target)) paths.
Proof.
  induction paths as [|p paths IH]; intros w w' H; cbn [for_of] in H.
  - injection H as <-. cbn. rewrite app_nil_r. reflexivity.
  - unfold bind in H.
    destruct (extractAllTo AdmZip_extractAllTo p target w) as [w1 [[]|e]] eqn:E;
      [|discriminate].
    rewrite (IH w1 w' H), (extractAllTo_trace p w w1 _ E), <- app_assoc.
    reflexivity.
Qed.

Lemma extract_loop_prefix (paths : list string) :
  forall w w' out,
    for_of paths (fun p => extractAllTo AdmZip_extractAllTo p target) w
      = (w', out) ->
    exists done rest,
      paths = done ++ rest /\
      extractions (trace w') =
      extractions (trace w) ++ map (fun p => (p, target)) done.
Proof.
  induction paths as [|p paths IH]; intros w w' out H; cbn [for_of] in H.
  - injection H as <- _. exists [], []. cbn. rewrite app_nil_r. auto.
  - unfold bind in H.
    destruct (extractAllTo AdmZip_extractAllTo p target w) as [w1 [[]|e]] eqn:E.
    + destruct (IH w1 w' out H) as (done & rest & -> & Hx).
      exists (p :: done), rest. split; [reflexivity|].
      rewrite Hx, (extractAllTo_trace p w w1 _ E), <- app_assoc. reflexivity.
    + injection H as <- _. exists [p], paths. split; [reflexivity|].
      exact (extractAllTo_trace p w w1 _ E).
Qed.

Lemma extract_loop_total (paths : list string) :
  (forall z fs, exists fs', AdmZip_extractAllTo z target fs = Ok fs') ->
  forall w, exists w',
    for_of paths (fun p => extractAllTo AdmZip_extractAllTo p target) w
      = (w', Ok tt).
Proof.
  intros Hall. induction paths as [|p paths IH]; intros w; cbn [for_of].
  - unfold ret. eauto.
  - destruct (extractAllTo_total p w Hall) as (w1 & E).
    destruct (IH w1) as (w2 & E2).
    exists w2. unfold bind. rewrite E. exact E2.
Qed.

(** The files after the loop are those the library leaves, archive after
    archive. *)
Lemma extract_loop_files (paths : list string) :
  forall w w',
    for_of paths (fun p => extractAllTo AdmZip_extractAllTo p target) w
      = (w', Ok tt) ->
    extracted AdmZip_extractAllTo target paths (files w) = Ok (files w').
Proof.
  induction paths as [|p paths IH]; intros w w' H; cbn [for_of extracted] in *.
  - injection H as <-. reflexivity.
  - unfold bind at 1 in H. unfold extractAllTo at 1 in H.
    unfold bind, emit, get_files, set_files, throw in H.
    cbn [files trace store] in H.
    destruct (AdmZip_extractAllTo p target (files w)) as [fs'|e];
      [|discriminate].
    cbn [rbind]. apply IH in H. exact H.
Qed.

Lemma extract_loop_complete (paths : list string) :
  forall w fs',
    extracted AdmZip_extractAllTo target paths (files w) = Ok fs' ->
    exists w',
      for_of paths (fun p => extractAllTo AdmZip_extractAllTo p target) w
        = (w', Ok tt) /\ files w' = fs'.
Proof.
  induction paths as [|p paths IH]; intros w fs' H; cbn [for_of extracted] in *.
  - injection H as <-. exists w. auto.
  - unfold bind at 1. unfold extractAllTo at 1.
    unfold bind, emit, get_files, set_files, throw.
    cbn [files trace store].
    destruct (AdmZip_extractAllTo p target (files w)) as [fs1|e];
      [|discriminate].
    cbn [rbind] in H.
    apply (IH (mkWorld fs1 (store w) (trace w ++ [ZipExtract p target]))).
    exact H.
Qed.

(** With a library that keeps the files it finds and leaves the entries of
    an archive as files, the entries of every archive are files in the
    end. *)
Lemma extracted_contents (contents : string -> list string)
    (paths : list string) :
  (forall z fs fs', AdmZip_extractAllTo z target fs = Ok fs' ->
     (forall k, is_file fs k -> is_file fs' k) /\
     (forall k, In k (contents z) -> is_file fs' k)) ->
  forall fs fs',
    extracted AdmZip_extractAllTo target paths fs = Ok fs' ->
    (forall k, is_file fs k -> is_file fs' k) /\
    (forall z k, In z paths -> In k (contents z) -> is_file fs' k).
Proof.
  intros Hlib. induction paths as [|p paths IH]; intros fs fs' H;
    cbn [extracted] in H.
  - injection H as <-. split; [auto | intros z k []].
  - destruct (AdmZip_extractAllTo p target fs) as [fs1|e] eqn:E;
      [|discriminate].
    cbn [rbind] in H. destruct (Hlib p fs fs1 E) as [K1 C1].
    destruct (IH fs1 fs' H) as [K2 C2]. split.
    + intros k Hk. apply K2, K1, Hk.
    + intros z k [<-|Hz] Hk.
      * apply K2, C1, Hk.
      * apply (C2 z k Hz Hk).
Qed.

End Extract.

Lemma extract_unfold (AdmZip_extractAllTo : string -> string -> fsys -> result fsys)
    (dirname__ : string) (zipFileCacheDir processedZipFileCacheDir : option string)
    (w : world) :
  processCachedUsptoZipFiles AdmZip_extractAllTo dirname__ zipFileCacheDir
    processedZipFileCacheDir w =
  (names <- ensure_then_list
              (xml_cache_dir dirname__ processedZipFileCacheDir)
              (zip_cache_dir dirname__ zipFileCacheDir) ;;
   for_of (map (fun zipFileName =>
                  Path.join (zip_cache_dir dirname__ zipFileCacheDir) zipFileName)
             names)
     (fun p => extractAllTo AdmZip_extractAllTo p
                 (xml_cache_dir dirname__ processedZipFileCacheDir))) w.
Proof.
  unfold processCachedUsptoZipFiles, ensure_then_list, zip_cache_dir,
    xml_cache_dir.
  rewrite !bind_assoc. unfold bind.
  destruct (existsSync _ w) as [w1 [present|e]]; [|reflexivity].
  destruct ((if negb present then mkdirSync _ else ret tt) w1) as [w2 [[]|e]];
    reflexivity.
Qed.

End ExtractFacts.

(** ** [path.join] on paths of plain segments *)

Module PathFacts.
Import Str StrFacts Path.

Lemma path_of_concat (a : bool) (L : list string) :
  L <> [] -> path_of a L = String.concat "/" (lead a ++ L).
Proof. destruct a, L as [|x L]; try congruence; reflexivity. Qed.

Lemma concat_cons (x : string) (L : list string) :
  L <> [] -> String.concat "/" (x :: L) = x +++ "/" +++ String.concat "/" L.
Proof. destruct L; [congruence | reflexivity]. Qed.

Lemma concat_app (X Y : list string) :
  X <> [] -> Y <> [] ->
  String.concat "/" (X ++ Y)
  = String.concat "/" X +++ "/" +++ String.concat "/" Y.
Proof.
  induction X as [|x X IH]; [congruence|]. intros _ HY.
  destruct X as [|x2 X].
  - cbn [app]. rewrite concat_cons by exact HY. reflexivity.
  - change ((x :: x2 :: X) ++ Y) with (x :: ((x2 :: X) ++ Y)).
    rewrite concat_cons by discriminate.
    rewrite IH by (discriminate || exact HY).
    rewrite (concat_cons x (x2 :: X)) by discriminate.
    rewrite !append_assoc. reflexivity.
Qed.

Lemma split_concat (L : list string) :
  L <> [] -> Forall (fun s => has "/" s = false) L ->
  split "/" (String.concat "/" L) = L.
Proof.
  induction L as [|x L IH]; [congruence|]. intros _ F.
  inversion F as [|? ? Hx HL]; subst.
  destruct L as [|y L].
  - cbn [String.concat]. apply split_none. exact Hx.
  - rewrite concat_cons by discriminate.
    change ("/" +++ String.concat "/" (y :: L))
      with (String "/" (String.concat "/" (y :: L))).
    rewrite (split_at "/" x _ Hx), IH by (discriminate || exact HL).
    reflexivity.
Qed.

Lemma seg_ok_parts (s : string) :
  seg_ok s = true ->
  has "/" s = false /\ s <> "" /\ s <> "." /\ s <> "..".
Proof.
  unfold seg_ok. intros H.
  repeat (apply andb_true_iff in H; destruct H as [H ?]).
  repeat match goal with
    | H : negb _ = true |- _ => apply negb_true_iff in H
    end.
  repeat split; try assumption; apply String.eqb_neq; assumption.
Qed.

Lemma normalize_segs_clean (allow : bool) (L : list string) :
  Forall (fun s => seg_ok s = true \/ s = "") L ->
  forall acc, normalize_segs allow L acc = rev acc ++ filter nonempty L.
Proof.
  induction 1 as [|s L Hs _ IH]; intros acc; cbn [normalize_segs filter].
  - rewrite app_nil_r. reflexivity.
  - destruct Hs as [Hs | ->].
    + destruct (seg_ok_parts s Hs) as (_ & H1 & H2 & H3).
      apply String.eqb_neq in H1, H2, H3.
      unfold nonempty. rewrite H1, H2, H3. cbn [orb negb].
      rewrite IH. cbn [rev]. rewrite <- app_assoc. reflexivity.
    + cbn. apply IH.
Qed.

Lemma ends_with_slash_app (x y : string) :
  y <> "" -> ends_with_slash (x +++ y) = ends_with_slash y.
Proof.
  intros Hy. induction x as [|c x IH]; [reflexivity|].
  cbn [String.append ends_with_slash].
  destruct (x +++ y) eqn:E; [|exact IH].
  destruct x; [cbn in E; congruence | discriminate].
Qed.

Lemma ends_with_slash_has (s : string) :
  ends_with_slash s = true -> has "/" s = true.
Proof.
  induction s as [|c s IH]; [discriminate|]. cbn [ends_with_slash has].
  destruct s as [|d s].
  - intros ->. reflexivity.
  - intros H. rewrite (IH H). apply orb_true_r.
Qed.

Lemma concat_last_ok (L : list string) :
  seg_ok (last L "") = true ->
  String.concat "/" L <> "" /\ ends_with_slash (String.concat "/" L) = false.
Proof.
  induction L as [|x L IH]; [discriminate|]. intros H.
  destruct L as [|y L].
  - cbn [last] in H. cbn [String.concat].
    destruct (seg_ok_parts x H) as (Hs & Hne & _). split; [exact Hne|].
    destruct (ends_with_slash x) eqn:E; [|reflexivity].
    apply ends_with_slash_has in E. congruence.
  - change (last (x :: y :: L) "") with (last (y :: L) "") in H.
    destruct (IH H) as (Hne & He).
    rewrite concat_cons by discriminate. split.
    + destruct x; discriminate.
    + rewrite ends_with_slash_app; [|discriminate].
      change ("/" +++ String.concat "/" (y :: L))
        with (String "/" (String.concat "/" (y :: L))).
      cbn [ends_with_slash].
      destruct (String.concat "/" (y :: L)); [congruence | exact He].
Qed.

Lemma normalize_eq (p : string) (c : ascii) (r : string) :
  p = String c r ->
  normalize p =
  match String.concat "/"
          (normalize_segs (negb (Ascii.eqb c "/")) (split "/" p) []) with
  | EmptyString =>
      if Ascii.eqb c "/" then "/"
      else if ends_with_slash p then "./" else "."
  | body =>
      (if Ascii.eqb c "/" then "/" else "") +++ body +++
      (if ends_with_slash p then "/" else "")
  end.
Proof.
  intros ->. unfold normalize. cbv zeta.
  destruct (String.concat "/" _); reflexivity.
Qed.

Lemma last_app_ne {A} (X Y : list A) (d : A) :
  Y <> [] -> last (X ++ Y) d = last Y d.
Proof.
  intros HY. induction X as [|x X IH]; [reflexivity|].
  cbn [app last]. destruct (X ++ Y) eqn:E; [|exact IH].
  apply app_eq_nil in E. destruct E. congruence.
Qed.

(** Normalizing a path of kept segments, with or without empty ones in
    front: the empty ones go, the rest stays. *)
Lemma normalize_lead (a : bool) (X Y : list string) :
  Y <> [] -> Forall (fun s => seg_ok s = true) Y ->
  Forall (fun s => seg_ok s = true \/ s = "") X ->
  (a = false -> exists x X', X = x :: X' /\ seg_ok x = true) ->
  normalize (String.concat "/" (lead a ++ X ++ Y))
  = path_of a (filter nonempty X ++ Y).
Proof.
  intros HY FY FX Hhead.
  set (L := lead a ++ X ++ Y).
  assert (HL : L <> []).
  { unfold L. destruct (lead a); [|discriminate].
    destruct X; [|discriminate]. simpl. exact HY. }
  assert (FL : Forall (fun s => seg_ok s = true \/ s = "") L).
  { unfold L. apply Forall_app. split.
    - destruct a; cbn; auto.
    - apply Forall_app. split; [exact FX|].
      eapply Forall_impl; [|exact FY]. cbn. auto. }
  assert (SL : Forall (fun s => has "/" s = false) L).
  { eapply Forall_impl; [|exact FL]. cbn. intros s [Hs | ->]; [|reflexivity].
    apply (seg_ok_parts s Hs). }
  assert (Hlast : seg_ok (last L "") = true).
  { unfold L. rewrite app_assoc, last_app_ne by exact HY.
    clear - HY FY. induction FY as [|y Y Hy FY IH]; [congruence|].
    destruct Y; [exact Hy | apply IH; discriminate]. }
  destruct (concat_last_ok L Hlast) as (Hne & Hend).
  assert (Hfilter : filter nonempty L = filter nonempty X ++ Y).
  { unfold L. rewrite !filter_app. destruct a; cbn [lead filter nonempty];
      cbn; f_equal;
      clear - FY; induction FY as [|y Y Hy _ IH]; cbn [filter]; auto;
      destruct (seg_ok_parts y Hy) as (_ & H1 & _);
      apply String.eqb_neq in H1; unfold nonempty at 1; rewrite H1;
      cbn; f_equal; exact IH. }
  assert (Hhd : exists c r, String.concat "/" L = String c r
                            /\ Ascii.eqb c "/" = a).
  { unfold L. destruct a.
    - cbn [lead app]. rewrite concat_cons.
      + cbn. eauto.
      + destruct X; [cbn; exact HY | discriminate].
    - destruct (Hhead eq_refl) as (x & X' & -> & Hx).
      cbn [lead app].
      destruct (seg_ok_parts x Hx) as (Hs & Hxne & _).
      destruct x as [|c x]; [congruence|].
      cbn [has] in Hs. apply orb_false_iff in Hs. destruct Hs as [Hc _].
      destruct (X' ++ Y) eqn:E.
      + cbn [String.concat]. eauto.
      + rewrite concat_cons by discriminate. cbn [String.append]. eauto. }
  destruct Hhd as (c & r & Ec & Ea).
  rewrite (normalize_eq _ c r Ec), Ea, (split_concat L HL SL),
    (normalize_segs_clean _ L FL), Hfilter, Hend.
  cbn [rev app]. unfold path_of.
  assert (Hb : String.concat "/" (filter nonempty X ++ Y) <> "").
  { apply concat_last_ok. rewrite last_app_ne by exact HY.
    clear - HY FY. induction FY as [|y Y Hy FY IH]; [congruence|].
    destruct Y; [exact Hy | apply IH; discriminate]. }
  destruct (String.concat "/" (filter nonempty X ++ Y)) eqn:Eb; [congruence|].
  rewrite append_nil_r. reflexivity.
Qed.

Lemma filter_ok (A : list string) :
  Forall (fun s => seg_ok s = true) A -> filter nonempty A = A.
Proof.
  induction 1 as [|y Y Hy _ IH]; [reflexivity|]. cbn [filter].
  destruct (seg_ok_parts y Hy) as (_ & H1 & _).
  apply String.eqb_neq in H1. unfold nonempty at 1. rewrite H1.
  cbn. f_equal. exact IH.
Qed.

Lemma join_nonempty (a b : string) :
  a <> "" -> b <> "" -> join a b = normalize (a +++ "/" +++ b).
Proof. destruct a, b; try congruence; reflexivity. Qed.

Lemma path_of_nonempty (a : bool) (A : list string) :
  A <> [] -> Forall (fun s => seg_ok s = true) A -> path_of a A <> "".
Proof.
  intros HA FA. unfold path_of. destruct a; [discriminate|].
  cbn [String.append]. destruct A as [|x A]; [congruence|].
  inversion FA as [|? ? Hx _]; subst.
  destruct (seg_ok_parts x Hx) as (_ & Hne & _).
  destruct A; [exact Hne|]. rewrite concat_cons by discriminate.
  destruct x; [congruence | discriminate].
Qed.

(** Joining two paths of kept segments appends the segments; a leading [/]
    of the second path is lost. *)
Lemma join_paths (a1 a2 : bool) (A B : list string) :
  A <> [] -> B <> [] ->
  Forall (fun s => seg_ok s = true) A -> Forall (fun s => seg_ok s = true) B ->
  join (path_of a1 A) (path_of a2 B) = path_of a1 (A ++ B).
Proof.
  intros HA HB FA FB.
  rewrite join_nonempty by (apply path_of_nonempty; assumption).
  rewrite !path_of_concat by assumption.
  rewrite <- concat_app.
  2:{ destruct (lead a1); [exact HA | discriminate]. }
  2:{ destruct (lead a2); [exact HB | discriminate]. }
  replace ((lead a1 ++ A) ++ lead a2 ++ B)
    with (lead a1 ++ (A ++ lead a2) ++ B)
    by (rewrite <- !app_assoc; reflexivity).
  rewrite normalize_lead; try assumption.
  - rewrite filter_app, (filter_ok A FA). destruct a2; cbn [lead filter];
      cbn; rewrite ?app_nil_r; unfold path_of;
      rewrite <- ?app_assoc; reflexivity.
  - apply Forall_app. split.
    + eapply Forall_impl; [|exact FA]. cbn. auto.
    + destruct a2; cbn; auto.
  - intros _. destruct A as [|x A]; [congruence|].
    inversion FA; subst. cbn [app]. eauto.
Qed.

Lemma path_of_inj (a : bool) (A B : list string) :
  A <> [] -> B <> [] ->
  Forall (fun s => seg_ok s = true) A -> Forall (fun s => seg_ok s = true) B ->
  path_of a A = path_of a B -> A = B.
Proof.
  intros HA HB FA FB E.
  rewrite !path_of_concat in E by assumption.
  apply (f_equal (split "/")) in E.
  rewrite !split_concat in E.
  - apply app_inv_head in E. exact E.
  - destruct (lead a); [exact HB | discriminate].
  - apply Forall_app. split; [destruct a; cbn; auto|].
    eapply Forall_impl; [|exact FB]. intros s Hs. apply (seg_ok_parts s Hs).
  - destruct (lead a); [exact HA | discriminate].
  - apply Forall_app. split; [destruct a; cbn; auto|].
    eapply Forall_impl; [|exact FA]. intros s Hs. apply (seg_ok_parts s Hs).
Qed.

(** *** [split(".")[0] + '.json'] *)

Lemma json_name_cut (a b : string) :
  has "." a = false -> json_name (a +++ "." +++ b) = a +++ ".json".
Proof.
  intros H. unfold json_name.
  change ("." +++ b) with (String "." b).
  rewrite (split_at "." a b H). reflexivity.
Qed.

Lemma json_name_whole (a : string) :
  has "." a = false -> json_name a = a +++ ".json".
Proof. intros H. unfold json_name. rewrite (split_none "." a H). reflexivity. Qed.

Lemma concat_snoc_append (D : list string) (x y : string) :
  String.concat "/" (D ++ [x +++ y]) = String.concat "/" (D ++ [x]) +++ y.
Proof.
  induction D as [|d D IH]; cbn [app String.concat]; [reflexivity|].
  destruct D as [|d2 D].
  - cbn [app String.concat]. rewrite !append_assoc. reflexivity.
  - change ((d2 :: D) ++ [x +++ y]) with (d2 :: (D ++ [x +++ y])) in *.
    change ((d2 :: D) ++ [x]) with (d2 :: (D ++ [x])) in *.
    rewrite IH, !append_assoc. reflexivity.
Qed.

Lemma path_of_snoc_append (a : bool) (D : list string) (x y : string) :
  path_of a (D ++ [x +++ y]) = path_of a (D ++ [x]) +++ y.
Proof.
  unfold path_of. rewrite concat_snoc_append, append_assoc. reflexivity.
Qed.

Lemma has_concat (c : ascii) (L : list string) :
  Ascii.eqb "/" c = false ->
  Forall (fun s => has c s = false) L -> has c (String.concat "/" L) = false.
Proof.
  intros Hc. induction 1 as [|x L Hx _ IH]; [reflexivity|].
  destruct L as [|y L]; [exact Hx|].
  rewrite concat_cons by discriminate.
  rewrite !has_append, Hx, IH. cbn [has]. rewrite Hc. reflexivity.
Qed.

Lemma seg_plain_parts (s : string) :
  seg_plain s = true -> seg_ok s = true /\ has "." s = false.
Proof.
  unfold seg_plain. intros H. apply andb_true_iff in H.
  destruct H as [H1 H2]. apply negb_true_iff in H2. auto.
Qed.

(** A file name [stem.ext] is a kept segment. *)
Lemma seg_ok_file (stem ext : string) :
  seg_plain stem = true -> has "/" ext = false ->
  seg_ok (stem +++ "." +++ ext) = true.
Proof.
  intros Hs He. destruct (seg_plain_parts stem Hs) as (Hok & Hdot).
  destruct (seg_ok_parts stem Hok) as (Hsl & Hne & _).
  destruct stem as [|c stem]; [congruence|].
  cbn [has] in Hdot.
  apply orb_false_iff in Hdot. destruct Hdot as [Hc _].
  unfold seg_ok. rewrite has_append, Hsl, has_append, He. cbn [has orb].
  change (Ascii.eqb "." "/") with false. cbn [orb negb andb].
  cbn [String.append String.eqb].
  destruct (Ascii.eqb c ".") eqn:E; [congruence|].
  reflexivity.
Qed.

End PathFacts.


(** ** The loops of [processUsptoXmlFile] and [processCachedUsptoXmlData] *)

Module MaterializeFacts.
Import Json SyncFacts.

Lemma reads_app (a b : list event) : reads (a ++ b) = reads a ++ reads b.
Proof. unfold reads. apply flat_map_app. Qed.

Lemma parses_app (a b : list event) : parses (a ++ b) = parses a ++ parses b.
Proof. unfold parses. apply flat_map_app. Qed.

Section Materialize.
Variable xml2js_parseString : string -> result value.

(** Parsing one section touches neither files nor store. *)
Lemma section_body_run (x : string) (w : world) :
  section_body xml2js_parseString x w =
  (mkWorld (files w) (store w) (trace w ++ [XmlParse x]),
   rbind (xml2js_parseString x) (fun parsed =>
   rbind (processedPatentData parsed) (fun p =>
   Ok (processedPatentSchemaData p)))).
Proof.
  unfold section_body, parseStringPromise, bind, emit, lift, ret.
  destruct (xml2js_parseString x) as [parsed|e]; [|reflexivity].
  cbn [rbind]. destruct (processedPatentData parsed); reflexivity.
Qed.

Lemma sections_run (xs : list string) :
  forall w, exists done,
    fst (for_push xs (section_body xml2js_parseString) w)
    = mkWorld (files w) (store w) (trace w ++ map XmlParse done).
Proof.
  induction xs as [|x xs IH]; intros w; cbn [for_push].
  - exists []. cbn. rewrite app_nil_r. destruct w; reflexivity.
  - unfold bind at 1. rewrite section_body_run.
    destruct (rbind (xml2js_parseString x) _) as [d|e].
    + destruct (IH (mkWorld (files w) (store w) (trace w ++ [XmlParse x])))
        as (done & Hw).
      exists (x :: done). unfold bind, ret.
      destruct (for_push xs _ _) as [w2 [l|e]]; cbn [fst] in *;
        rewrite Hw; cbn [files store trace map]; rewrite <- app_assoc;
        reflexivity.
    + exists [x]. reflexivity.
Qed.

(** What [processUsptoXmlFile] leaves in the trace: the read, then parses;
    it writes nothing. *)
Lemma processUsptoXmlFile_trace (p : string) (w w' : world)
    (out : result (list UsptoPatentSchemaData)) :
  processUsptoXmlFile xml2js_parseString p w = (w', out) ->
  files w' = files w /\ store w' = store w /\
  writes (trace w') = writes (trace w) /\
  (forall l, out = Ok l -> reads (trace w') = reads (trace w) ++ [p]).
Proof.
  unfold processUsptoXmlFile, readFileSync, bind, get_files, emit, ret, throw.
  cbv beta zeta. cbn [files store trace].
  destruct (assoc (key p) (files w)) as [[text|]|].
  - destruct (Re.String_match patentXmlSectionRegularExpression text) as [xs|].
    + fold (section_body xml2js_parseString).
      destruct (sections_run xs
                  (mkWorld (files w) (store w) (trace w ++ [FsRead p])))
        as (done & Hw).
      destruct (for_push xs _ _) as [w2 r]. cbn [fst] in Hw. subst w2.
      intros H. injection H as <- <-. cbn [files store trace].
      assert (Hp : forall l, writes (map XmlParse l) = []
                             /\ reads (map XmlParse l) = []).
      { induction l; cbn; auto. }
      rewrite !writes_app, !reads_app.
      destruct (Hp done) as [-> ->]. cbn. rewrite !app_nil_r. auto.
    + intros H. injection H as <- <-. cbn [files store trace].
      rewrite writes_app. cbn. rewrite app_nil_r.
      repeat split; auto. discriminate.
  - intros H. injection H as <- <-. repeat split; auto. discriminate.
  - destruct (is_root (key p)); intros H; injection H as <- <-;
      repeat split; auto; discriminate.
Qed.

Lemma write_json_array_trace (p : string) (l : list value) (w w' : world)
    (out : result unit) :
  write_json p (Arr l) w = (w', out) ->
  (out = Ok tt -> writes (trace w') = writes (trace w) ++ [p] /\
                  reads (trace w') = reads (trace w)) /\
  (out <> Ok tt -> w' = w).
Proof.
  unfold write_json, JSON_stringify. cbn [ser].
  unfold writeFileSync, bind, get_files, set_files, emit, throw.
  cbv beta zeta. cbn [files store trace].
  destruct (assoc (key p) (files w)) as [[old|]|];
    [ | | destruct (is_root (key p));
          [|destruct (can_create (files w) (key p))]];
    intros H; injection H as <- <-; cbn [trace];
    rewrite ?writes_app, ?reads_app; cbn; rewrite ?app_nil_r;
    split; auto; try congruence; intros; discriminate.
Qed.

Variable jsonDir : string.

Lemma materialize_body_trace (p : string) (w w' : world) (out : result unit) :
  materialize_body xml2js_parseString jsonDir p w = (w', out) ->
  (out = Ok tt ->
   writes (trace w') = writes (trace w) ++ [Path.join jsonDir (json_name p)] /\
   reads (trace w') = reads (trace w) ++ [p]) /\
  (out <> Ok tt -> writes (trace w') = writes (trace w)).
Proof.
  unfold materialize_body, bind.
  destruct (processUsptoXmlFile xml2js_parseString p w) as [w1 [l|e]] eqn:E1.
  - destruct (processUsptoXmlFile_trace p w w1 _ E1) as (_ & _ & W1 & R1).
    intros H. destruct (write_json_array_trace _ _ _ _ _ H) as (Hok & Hno).
    split.
    + intros Ho. destruct (Hok Ho) as (W & R).
      rewrite W, R, W1, (R1 l eq_refl). auto.
    + intros Ho. rewrite (Hno Ho). exact W1.
  - destruct (processUsptoXmlFile_trace p w w1 _ E1) as (_ & _ & W1 & _).
    intros H. injection H as <- <-. split; [discriminate|]. intros _. exact W1.
Qed.

Lemma materialize_loop (paths : list string) :
  forall w w' out,
    for_of paths (materialize_body xml2js_parseString jsonDir) w = (w', out) ->
    exists done rest,
      paths = done ++ rest /\
      writes (trace w') = writes (trace w) ++
        map (fun p => Path.join jsonDir (json_name p)) done /\
      (out = Ok tt ->
       rest = [] /\ reads (trace w') = reads (trace w) ++ paths).
Proof.
  induction paths as [|p paths IH]; intros w w' out H; cbn [for_of] in H.
  - injection H as <- <-. exists [], []. cbn. rewrite !app_nil_r. auto.
  - unfold bind in H.
    destruct (materialize_body xml2js_parseString jsonDir p w)
      as [w1 [[]|e]] eqn:E1.
    + destruct (materialize_body_trace p w w1 _ E1) as (Hok & _).
      destruct (Hok eq_refl) as (W1 & R1).
      destruct (IH w1 w' out H) as (done & rest & -> & W & Hout).
      exists (p :: done), rest. split; [reflexivity|]. split.
      * rewrite W, W1, <- app_assoc. reflexivity.
      * intros Ho. destruct (Hout Ho) as (-> & R). split; [reflexivity|].
        rewrite R, R1, <- app_assoc. reflexivity.
    + destruct (materialize_body_trace p w w1 _ E1) as (_ & Hno).
      injection H as <- <-. exists [], (p :: paths).
      split; [reflexivity|]. split.
      * cbn. rewrite app_nil_r. apply Hno. discriminate.
      * discriminate.
Qed.

End Materialize.

Lemma materialize_unfold (xml2js_parseString : string -> result value)
    (dirname__ : string) (usptoXmlFileCacheDir usptoJsonFileCacheDir : option string)
    (w : world) :
  processCachedUsptoXmlData xml2js_parseString dirname__ usptoXmlFileCacheDir
    usptoJsonFileCacheDir w =
  (names <- readdirSync (xml_cache_dir dirname__ usptoXmlFileCacheDir) ;;
   for_of (map (fun fileName =>
                  Path.join (xml_cache_dir dirname__ usptoXmlFileCacheDir)
                    fileName) names)
     (materialize_body xml2js_parseString
        (json_cache_dir dirname__ usptoJsonFileCacheDir))) w.
Proof. reflexivity. Qed.

End MaterializeFacts.


(** ** The lookups of [processUsptoXmlFile] *)

Module ParseFacts.

Lemma rmap_text (l : list string) :
  rmap (fun n => get "_" n) (map text_node l) = Ok (map Str l).
Proof.
  induction l as [|t l IH]; [reflexivity|].
  cbn [map rmap]. rewrite IH. reflexivity.
Qed.



End ParseFacts.


(** ** Matches come in text order *)

Module OrderFacts.
Import Re StrFacts ReFacts.

Lemma drop_append (a b : string) : drop (String.length a) (a +++ b) = b.
Proof. induction a as [|c a IH]; [destruct b; reflexivity | exact IH]. Qed.

Lemma in_order_later (ms : list string) (x s : string) :
  in_order ms s -> in_order ms (x +++ s).
Proof.
  destruct ms as [|m ms]; [auto|].
  intros (pre & post & -> & H). exists (x +++ pre), post.
  rewrite append_assoc. auto.
Qed.

Lemma match_from_in_order (r : regex) (s : string) :
  forall skip, in_order (match_from r skip s) (drop skip s).
Proof.
  induction s as [|c s IH]; intros [|n]; cbn [match_from drop].
  - destruct (exec r EmptyString) as [rest|] eqn:E; [|exact I].
    destruct (exec_sound _ _ _ E) as (w & Hw & _).
    destruct w; [|discriminate]. cbn in Hw. subst rest.
    exists EmptyString, EmptyString. split; [reflexivity | exact I].
  - exact I.
  - destruct (exec r (String c s)) as [rest|] eqn:E.
    + destruct (exec_sound _ _ _ E) as (w & Hw & _).
      assert (N : String.length (String c s) - String.length rest
                  = String.length w)
        by (rewrite Hw, length_append; lia).
      rewrite N.
      replace (substring 0 (String.length w) (String c s)) with w
        by (rewrite Hw; symmetry; apply substring_append).
      exists EmptyString, rest. split; [exact Hw|].
      destruct w as [|c' w].
      * cbn [String.length pred].
        cbn [String.append] in Hw. subst rest.
        apply (in_order_later _ (String c EmptyString) s). apply (IH 0).
      * cbn [String.append] in Hw. injection Hw as -> ->.
        cbn [String.length pred]. specialize (IH (String.length w)).
        rewrite drop_append in IH. exact IH.
    + apply (in_order_later _ (String c EmptyString) s). apply (IH 0).
  - apply IH.
Qed.

Lemma String_match_in_order (r : regex) (s : string) (l : list string) :
  String_match r s = Some l -> in_order l s.
Proof.
  unfold String_match. intros H.
  pose proof (match_from_in_order r s 0) as O. cbn [drop] in O.
  destruct (match_from r 0 s); [discriminate|].
  injection H as <-. destruct s; exact O.
Qed.

End OrderFacts.

(** ** The JSON texts of a record *)

Module BlobFacts.
Import Json StrFacts JsonFacts.

(** [JSON.parse(JSON.stringify(v))] is [v] for a value without [undefined]
    whose objects have distinct, non-index property names. *)
Lemma JSON_roundtrip (v : value) :
  plain v = true -> tidy v = true ->
  exists t, JSON_stringify v = Str t /\ JSON_parse t = Ok v.
Proof.
  intros P T. destruct (roundtrip v P T) as (n & Ln & Hn).
  unfold JSON_stringify, enc in *.
  destruct (ser v) as [t|] eqn:E.
  - exists t. split; [reflexivity|]. unfold JSON_parse.
    specialize (Hn (2 * String.length t + 1) EmptyString ltac:(lia)).
    rewrite append_nil_r in Hn. rewrite Hn. reflexivity.
  - destruct v; simpl in *; discriminate.
Qed.

Lemma strings_plain (l : list string) :
  plain (Arr (map Str l)) = true /\ tidy (Arr (map Str l)) = true.
Proof. cbn [plain tidy]. induction l; cbn; auto. Qed.

Lemma claim_plain (c : PatentClaim) :
  plain (claim_value c) = true /\ tidy (claim_value c) = true.
Proof.
  destruct (strings_plain (individualClaims c)) as [P T].
  unfold claim_value. cbn [plain tidy forallb snd fst map] in *.
  rewrite P, T. auto.
Qed.

Lemma claims_plain (l : list PatentClaim) :
  plain (Arr (map claim_value l)) = true /\
  tidy (Arr (map claim_value l)) = true.
Proof.
  cbn [plain tidy]. induction l as [|c l [IH1 IH2]]; [auto|].
  cbn [map forallb]. rewrite IH1, IH2.
  destruct (claim_plain c) as [-> ->]. auto.
Qed.

End BlobFacts.

(** ** Where the records of a raw file go *)

Module OutPathFacts.
Import Str Path StrFacts PathFacts.

Lemma has_path_of (c : ascii) (a : bool) (L : list string) :
  Ascii.eqb "/" c = false ->
  Forall (fun s => has c s = false) L -> has c (path_of a L) = false.
Proof.
  intros Hc F. unfold path_of. rewrite has_append, (has_concat c L Hc F).
  destruct a; cbn [has]; rewrite ?Hc; reflexivity.
Qed.

(** With directories of plain segments the records of [stem.ext] go below
    the JSON directory, under the segments of the XML directory. *)
Lemma out_path_plain (a1 a2 : bool) (D J : list string) (stem ext : string) :
  D <> [] -> J <> [] ->
  Forall (fun s => seg_plain s = true) D ->
  Forall (fun s => seg_ok s = true) J ->
  seg_plain stem = true -> has "/" ext = false ->
  out_path (path_of a1 D) (path_of a2 J) (stem +++ "." +++ ext)
  = path_of a2 (J ++ D ++ [stem +++ ".json"]) /\
  path_of a2 (J ++ D ++ [stem +++ ".json"])
  <> path_of a2 (J ++ [stem +++ ".json"]).
Proof.
  intros HD HJ FD FJ Hstem Hext.
  assert (FDok : Forall (fun s => seg_ok s = true) D).
  { eapply Forall_impl; [|exact FD]. intros s Hs.
    apply (seg_plain_parts s Hs). }
  assert (FDdot : Forall (fun s => has "." s = false) (D ++ [stem])).
  { apply Forall_app. split.
    - eapply Forall_impl; [|exact FD]. intros s Hs.
      apply (seg_plain_parts s Hs).
    - constructor; [apply (seg_plain_parts stem Hstem) | constructor]. }
  assert (Hfile : seg_ok (stem +++ "." +++ ext) = true)
    by (apply seg_ok_file; assumption).
  assert (Hjson : seg_ok (stem +++ ".json") = true)
    by (apply (seg_ok_file stem "json"); [assumption | reflexivity]).
  assert (FDj : Forall (fun s => seg_ok s = true) (D ++ [stem +++ ".json"])).
  { apply Forall_app. split; [exact FDok | constructor; [exact Hjson|constructor]]. }
  split.
  - unfold out_path.
    change (stem +++ "." +++ ext) with (path_of false [stem +++ "." +++ ext]) at 1.
    rewrite (join_paths a1 false D [stem +++ "." +++ ext] HD);
      [| discriminate | exact FDok | constructor; [exact Hfile | constructor]].
    rewrite path_of_snoc_append, json_name_cut
      by (apply has_path_of; [reflexivity | exact FDdot]).
    rewrite <- path_of_snoc_append.
    rewrite (join_paths a2 a1 J (D ++ [stem +++ ".json"]) HJ);
      [reflexivity | | exact FJ | exact FDj].
    destruct D; discriminate.
  - intros E. apply path_of_inj in E.
    + apply app_inv_head in E.
      change [stem +++ ".json"] with ([] ++ [stem +++ ".json"]) in E at 2.
      apply app_inv_tail in E. contradiction.
    + destruct J; [contradiction | discriminate].
    + destruct J; [contradiction | discriminate].
    + apply Forall_app. split; [exact FJ | exact FDj].
    + apply Forall_app. split; [exact FJ|].
      constructor; [exact Hjson | constructor].
Qed.

End OutPathFacts.

(** ** The years of the first loop *)

Module YearFacts.

Lemma In_years (startYear endYear y : Z) :
  In y (years startYear endYear) <-> (startYear <= y <= endYear)%Z.
Proof.
  unfold years. rewrite in_map_iff. split.
  - intros (i & <- & Hi). apply in_seq in Hi. lia.
  - intros H. exists (Z.to_nat (y - startYear)). split; [lia|].
    apply in_seq. lia.
Qed.

Lemma years_ascending (startYear endYear : Z) :
  StronglySorted Z.lt (years startYear endYear).
Proof.
  unfold years. generalize (Z.to_nat (endYear - startYear + 1)) as n.
  generalize 0 as a. intros a n. revert a.
  induction n as [|n IH]; intros a; cbn [seq map]; constructor.
  - apply IH.
  - apply Forall_forall. intros x Hx. apply in_map_iff in Hx.
    destruct Hx as (i & <- & Hi). apply in_seq in Hi. lia.
Qed.

End YearFacts.

(** ** [synchronizeProcessedDataToMongoDB] and the files *)

Module StoreFacts.

Lemma keeps_bind {A B} (m : M A) (k : A -> M B) :
  keeps_files m -> (forall a, keeps_files (k a)) -> keeps_files (bind m k).
Proof.
  intros Hm Hk w w' out H. unfold bind in H.
  destruct (m w) as [w1 [a|e]] eqn:E.
  - rewrite (Hk a _ _ _ H). exact (Hm _ _ _ E).
  - injection H as <- _. exact (Hm _ _ _ E).
Qed.

Lemma keeps_ret {A} (a : A) : keeps_files (ret a).
Proof. intros w w' out H. injection H as <- _. reflexivity. Qed.

Lemma keeps_throw {A} (e : error) : keeps_files (@throw A e).
Proof. intros w w' out H. injection H as <- _. reflexivity. Qed.

Lemma keeps_lift {A} (r : result A) : keeps_files (lift r).
Proof. intros w w' out H. injection H as <- _. reflexivity. Qed.

Lemma keeps_emit (e : event) : keeps_files (emit e).
Proof. intros w w' out H. injection H as <- _. reflexivity. Qed.

Lemma keeps_get_files : keeps_files get_files.
Proof. intros w w' out H. injection H as <- _. reflexivity. Qed.

Lemma keeps_for_of {A} (l : list A) (body : A -> M unit) :
  (forall a, keeps_files (body a)) -> keeps_files (for_of l body).
Proof.
  intros Hb. induction l as [|x l IH]; cbn [for_of].
  - apply keeps_ret.
  - apply keeps_bind; [apply Hb | intros _; exact IH].
Qed.

Lemma keeps_readFileSync (p : string) : keeps_files (readFileSync p).
Proof.
  unfold readFileSync. apply keeps_bind; [apply keeps_get_files|].
  intros fs. cbv zeta. destruct (assoc (key p) fs) as [[d|]|].
  - apply keeps_bind; [apply keeps_emit | intros _; apply keeps_ret].
  - apply keeps_throw.
  - destruct (is_root (key p)); apply keeps_throw.
Qed.

Lemma keeps_readdirSync (p : string) : keeps_files (readdirSync p).
Proof.
  unfold readdirSync. apply keeps_bind; [apply keeps_get_files|].
  intros fs. cbv zeta.
  destruct (is_dir fs (key p)); [apply keeps_ret|].
  destruct (exists_in fs (key p)); apply keeps_throw.
Qed.

Lemma keeps_save (model_save : UsptoData -> bool) (doc : UsptoData) :
  keeps_files (save model_save doc).
Proof.
  unfold save. apply keeps_bind; [apply keeps_emit|]. intros _.
  destruct (model_save doc); [|apply keeps_throw].
  intros w w' out H. injection H as <- _. reflexivity.
Qed.

Lemma keeps_createConnection (connect : option string -> bool)
    (uri : option string) :
  keeps_files (createConnection connect uri).
Proof.
  unfold createConnection. apply keeps_bind; [apply keeps_emit|]. intros _.
  destruct (connect uri); [apply keeps_ret | apply keeps_throw].
Qed.

(** With its ledger file in place [synchronizeProcessedDataToMongoDB] writes
    no file at all, however the run ends: the ledger stays as it was. *)
Lemma syncToStore_keeps_ledger
    (connect : option string -> bool) (model_save : UsptoData -> bool)
    (env : option string) (dirname__ : string)
    (connectionString dir ledger : option string) (w w' : world)
    (out : result unit) :
  exists_in (files w)
    (key (or_default (Path.join dirname__ "sync.json") ledger)) = true ->
  synchronizeProcessedDataToMongoDB connect model_save env dirname__
    connectionString dir ledger w = (w', out) ->
  files w' = files w.
Proof.
  intros Hex H. revert H.
  unfold synchronizeProcessedDataToMongoDB. cbv zeta.
  unfold bind at 1. unfold existsSync at 1. rewrite Hex.
  revert w' out.
  match goal with
  | |- forall w' out, ?m w = (w', out) -> _ =>
      assert (Hk : keeps_files m); [|exact (Hk w)]
  end.
  apply keeps_bind.
  - apply keeps_bind; [apply keeps_readFileSync | intros text; apply keeps_lift].
  - intros names0. apply keeps_bind; [apply keeps_readdirSync|].
    intros names. apply keeps_bind; [apply keeps_lift|].
    intros todo. apply keeps_bind; [apply keeps_createConnection|].
    intros _. apply keeps_for_of. intros f.
    apply keeps_bind; [apply keeps_readFileSync|]. intros text.
    apply keeps_bind; [apply keeps_lift|]. intros parsed.
    apply keeps_bind; [apply keeps_lift|]. intros arr.
    apply keeps_for_of. intros x.
    apply keeps_bind; [apply keeps_lift|]. intros doc. apply keeps_save.
Qed.

End StoreFacts.

(** ** The runtime pieces on small inputs *)

Module Examples.
Import Json.

Example join_absolute : Path.join "/a/b" "c.xml" = "/a/b/c.xml".
Proof. reflexivity. Qed.

Example join_dot_slash : Path.join "./cache" "f.xml" = "cache/f.xml".
Proof. reflexivity. Qed.

Example join_collapses : Path.join "a//b/" "./c/.." = "a/b".
Proof. reflexivity. Qed.

Example join_above : Path.join "a/../.." "f.xml" = "../f.xml".
Proof. reflexivity. Qed.

Example join_empty : Path.join "" "" = ".".
Proof. reflexivity. Qed.

Example json_name_first_dot : json_name "/a/b.c/d.xml" = "/a/b.json".
Proof. reflexivity. Qed.

Example json_name_default_dirs :
  out_path "/app/uspto_xml_file_cache" "/app/uspto_json_file_cache"
    "ipa050106.xml"
  = "/app/uspto_json_file_cache/app/uspto_xml_file_cache/ipa050106.json".
Proof. reflexivity. Qed.

Example slice_limit : slice0 2 [1; 2; 3] = [1; 2].
Proof. reflexivity. Qed.

Example slice_beyond : slice0 5 [1; 2; 3] = [1; 2; 3].
Proof. reflexivity. Qed.

Example slice_negative : slice0 (-1) [1; 2; 3] = [1; 2].
Proof. reflexivity. Qed.

Example years_inclusive : years 2005 2007 = [2005%Z; 2006%Z; 2007%Z].
Proof. reflexivity. Qed.

Example years_none : years 2005 2004 = [].
Proof. reflexivity. Qed.

Example year_url_2005 :
  year_url 2005
  = "https://bulkdata.uspto.gov/data/patent/application/redbook/fulltext/2005/".
Proof. reflexivity. Qed.

Example links_of_page :
  zip_links Demo.page_2005 = ["ipa050106.zip"; "ipa050113.zip"].
Proof. vm_compute. reflexivity. Qed.

Example link_needs_digits :
  Re.String_match linkRegularExpression (Demo.link "readme.zip") = None.
Proof. vm_compute. reflexivity. Qed.

Example link_six_letters :
  Re.String_match linkRegularExpression (Demo.link "toolong123.zip") = None.
Proof. vm_compute. reflexivity. Qed.

Example link_any_case :
  zip_links ("<A HREF=" +++ Demo.q +++ "pa2.ZIP" +++ Demo.q +++ ">")
  = ["pa2.ZIP"].
Proof. vm_compute. reflexivity. Qed.

Example sections_of_batch :
  Re.String_match patentXmlSectionRegularExpression Demo.batch
  = Some [Demo.section1; Demo.section2].
Proof. vm_compute. reflexivity. Qed.

Example stringify_array :
  JSON_stringify (Arr [Str "a"; Undefined; Obj [("k", Null); ("u", Undefined)]])
  = Str ("[" +++ Demo.q +++ "a" +++ Demo.q +++ ",null,{" +++ Demo.q +++ "k"
         +++ Demo.q +++ ":null}]").
Proof. vm_compute. reflexivity. Qed.

Example stringify_undefined : JSON_stringify Undefined = Undefined.
Proof. reflexivity. Qed.

Example parse_white_space_and_repeated_name :
  JSON_parse ("[ null , {" +++ Demo.q +++ "k" +++ Demo.q +++ " : [], "
              +++ Demo.q +++ "k" +++ Demo.q +++ ":null } ] ")
  = Ok (Arr [Null; Obj [("k", Null)]]).
Proof. vm_compute. reflexivity. Qed.

Example parse_trailing_comma : JSON_parse "[null,]" = Err SyntaxError.
Proof. vm_compute. reflexivity. Qed.

Example parse_number : JSON_parse "[1]" = Err Unmodelled.
Proof. vm_compute. reflexivity. Qed.

Example parse_empty_ledger : JSON_parse "[]" = Ok (Arr []).
Proof. vm_compute. reflexivity. Qed.

End Examples.

(* ================================================================== *)
(** ** Further facts *)

Module FootprintFacts.
Import Json.
Import StrFacts ReFacts LinkFacts DiscoverFacts SyncFacts ExtractFacts.
Import MaterializeFacts ParseFacts OrderFacts BlobFacts PathFacts.
Import OutPathFacts YearFacts StoreFacts.

Lemma emits_weaken {A} (ks ks' : list kind) (m : M A) :
  incl ks ks' -> emits_only ks m -> emits_only ks' m.
Proof.
  intros I H w w' out E. destruct (H w w' out E) as (new & T & F).
  exists new. split; [exact T|].
  eapply Forall_impl; [|exact F]. intros e He. apply I. exact He.
Qed.

Lemma emits_bind {A B} (ks : list kind) (m : M A) (k : A -> M B) :
  emits_only ks m -> (forall a, emits_only ks (k a)) -> emits_only ks (bind m k).
Proof.
  intros Hm Hk w w' out H. unfold bind in H.
  destruct (m w) as [w1 [a|e]] eqn:E.
  - destruct (Hm _ _ _ E) as (n1 & T1 & F1).
    destruct (Hk a _ _ _ H) as (n2 & T2 & F2).
    exists (n1 ++ n2). rewrite T2, T1, app_assoc. split; [reflexivity|].
    apply Forall_app. auto.
  - injection H as <- _. exact (Hm _ _ _ E).
Qed.

Lemma emits_pure {A} (ks : list kind) (m : M A) :
  (forall w, fst (m w) = w) -> emits_only ks m.
Proof.
  intros H w w' out E. exists []. rewrite app_nil_r.
  specialize (H w). rewrite E in H. cbn in H. subst. auto.
Qed.

Lemma emits_ret {A} (ks : list kind) (a : A) : emits_only ks (ret a).
Proof. apply emits_pure. reflexivity. Qed.

Lemma emits_throw {A} (ks : list kind) (e : error) : emits_only ks (@throw A e).
Proof. apply emits_pure. reflexivity. Qed.

Lemma emits_lift {A} (ks : list kind) (r : result A) : emits_only ks (lift r).
Proof. apply emits_pure. reflexivity. Qed.

Lemma emits_get_files (ks : list kind) : emits_only ks get_files.
Proof. apply emits_pure. reflexivity. Qed.

Lemma emits_set_files (ks : list kind) (fs : fsys) : emits_only ks (set_files fs).
Proof.
  intros w w' out E. injection E as <- _. exists []. cbn.
  rewrite app_nil_r. auto.
Qed.

Lemma emits_emit (ks : list kind) (e : event) :
  In (kind_of e) ks -> emits_only ks (emit e).
Proof.
  intros H w w' out E. injection E as <- _. exists [e]. cbn. auto.
Qed.

Lemma emits_for_of {A} (ks : list kind) (l : list A) (body : A -> M unit) :
  (forall a, emits_only ks (body a)) -> emits_only ks (for_of l body).
Proof.
  intros Hb. induction l as [|x l IH]; cbn [for_of].
  - apply emits_ret.
  - apply emits_bind; [apply Hb | intros _; exact IH].
Qed.

Lemma emits_for_push {A B} (ks : list kind) (l : list A) (body : A -> M B) :
  (forall a, emits_only ks (body a)) -> emits_only ks (for_push l body).
Proof.
  intros Hb. induction l as [|x l IH]; cbn [for_push].
  - apply emits_ret.
  - apply emits_bind; [apply Hb|]. intros y.
    apply emits_bind; [exact IH|]. intros ys. apply emits_ret.
Qed.

Lemma emits_existsSync (ks : list kind) (p : string) : emits_only ks (existsSync p).
Proof. apply emits_pure. reflexivity. Qed.

Lemma emits_readdirSync (ks : list kind) (p : string) :
  emits_only ks (readdirSync p).
Proof.
  unfold readdirSync. apply emits_bind; [apply emits_get_files|].
  intros fs. cbv zeta. destruct (is_dir fs (key p)); [apply emits_ret|].
  destruct (exists_in fs (key p)); apply emits_throw.
Qed.

Lemma emits_readFileSync (ks : list kind) (p : string) :
  In KRead ks -> emits_only ks (readFileSync p).
Proof.
  intros H. unfold readFileSync. apply emits_bind; [apply emits_get_files|].
  intros fs. cbv zeta. destruct (assoc (key p) fs) as [[d|]|].
  - apply emits_bind; [apply emits_emit; exact H | intros _; apply emits_ret].
  - apply emits_throw.
  - destruct (is_root (key p)); apply emits_throw.
Qed.

Lemma emits_writeFileSync (ks : list kind) (p d : string) :
  In KWrite ks -> emits_only ks (writeFileSync p d).
Proof.
  intros H. unfold writeFileSync. apply emits_bind; [apply emits_get_files|].
  intros fs. cbv zeta. destruct (assoc (key p) fs) as [[old|]|].
  - apply emits_bind; [apply emits_set_files|]. intros _.
    apply emits_emit. exact H.
  - apply emits_throw.
  - destruct (is_root (key p)); [apply emits_throw|].
    destruct (can_create fs (key p)); [|apply emits_throw].
    apply emits_bind; [apply emits_set_files|]. intros _.
    apply emits_emit. exact H.
Qed.

Lemma emits_mkdirSync (ks : list kind) (p : string) :
  In KMkdir ks -> emits_only ks (mkdirSync p).
Proof.
  intros H. unfold mkdirSync. apply emits_bind; [apply emits_get_files|].
  intros fs. cbv zeta. destruct (exists_in fs (key p)); [apply emits_throw|].
  destruct (can_create fs (key p)); [|apply emits_throw].
  apply emits_bind; [apply emits_set_files|]. intros _.
  apply emits_emit. exact H.
Qed.

(** *** The store *)

Lemma store_bind {A B} (m : M A) (k : A -> M B) :
  keeps_store m -> (forall a, keeps_store (k a)) -> keeps_store (bind m k).
Proof.
  intros Hm Hk w w' out H. unfold bind in H.
  destruct (m w) as [w1 [a|e]] eqn:E.
  - rewrite (Hk a _ _ _ H). exact (Hm _ _ _ E).
  - injection H as <- _. exact (Hm _ _ _ E).
Qed.

Lemma store_same {A} (m : M A) :
  (forall w, store (fst (m w)) = store w) -> keeps_store m.
Proof.
  intros H w w' out E. specialize (H w). rewrite E in H. exact H.
Qed.

Lemma store_for_of {A} (l : list A) (body : A -> M unit) :
  (forall a, keeps_store (body a)) -> keeps_store (for_of l body).
Proof.
  intros Hb. induction l as [|x l IH]; cbn [for_of].
  - apply store_same. reflexivity.
  - apply store_bind; [apply Hb | intros _; exact IH].
Qed.

Lemma store_for_push {A B} (l : list A) (body : A -> M B) :
  (forall a, keeps_store (body a)) -> keeps_store (for_push l body).
Proof.
  intros Hb. induction l as [|x l IH]; cbn [for_push].
  - apply store_same. reflexivity.
  - apply store_bind; [apply Hb|]. intros y.
    apply store_bind; [exact IH|]. intros ys. apply store_same. reflexivity.
Qed.

Lemma store_readFileSync (p : string) : keeps_store (readFileSync p).
Proof.
  apply store_same. intros w. unfold readFileSync, bind, get_files, emit, ret, throw.
  cbv zeta. destruct (assoc (key p) (files w)) as [[d|]|]; try reflexivity.
  destruct (is_root (key p)); reflexivity.
Qed.

Lemma store_writeFileSync (p d : string) : keeps_store (writeFileSync p d).
Proof.
  apply store_same. intros w.
  unfold writeFileSync, bind, get_files, set_files, emit, throw.
  cbv zeta. destruct (assoc (key p) (files w)) as [[old|]|]; try reflexivity.
  destruct (is_root (key p)); [reflexivity|].
  destruct (can_create (files w) (key p)); reflexivity.
Qed.

Lemma store_mkdirSync (p : string) : keeps_store (mkdirSync p).
Proof.
  apply store_same. intros w.
  unfold mkdirSync, bind, get_files, set_files, emit, throw.
  cbv zeta. destruct (exists_in (files w) (key p)); [reflexivity|].
  destruct (can_create (files w) (key p)); reflexivity.
Qed.

Lemma store_readdirSync (p : string) : keeps_store (readdirSync p).
Proof.
  apply store_same. intros w. unfold readdirSync, bind, get_files, ret, throw.
  cbv zeta. destruct (is_dir (files w) (key p)); [reflexivity|].
  destruct (exists_in (files w) (key p)); reflexivity.
Qed.

(** Calls of other kinds are no requests. *)
Lemma no_http_fetches (new : list event) :
  Forall (fun e => kind_of e <> KHttp) new -> fetches new = [].
Proof.
  induction 1 as [|e new He _ IH]; [reflexivity|].
  unfold fetches in *. cbn [flat_map]. rewrite IH.
  destruct e; cbn in *; congruence.
Qed.

End FootprintFacts.

Module FetchFacts.
Import Json.
Import StrFacts ReFacts LinkFacts DiscoverFacts SyncFacts ExtractFacts.
Import MaterializeFacts ParseFacts OrderFacts BlobFacts PathFacts.
Import OutPathFacts YearFacts StoreFacts FootprintFacts.

Section Fetch.
Variable axios_get : string -> option string.

Lemma year_body_run (year : Z) (w : world) :
  year_body axios_get year w =
  match axios_get (year_url year) with
  | Some page =>
      (mkWorld (files w) (store w)
         ((trace w ++ [HttpGet (year_url year)])
          ++ [ConsoleLog ("Successfully fetched " +++ year_url year +++ ".")]),
       Ok (mkAxiosResponse (year_url year) page))
  | None =>
      (mkWorld (files w) (store w) (trace w ++ [HttpGet (year_url year)]),
       Err NetworkError)
  end.
Proof.
  unfold year_body, axios, console_log, bind, emit, ret, throw, year_url.
  destruct (axios_get _); reflexivity.
Qed.

Lemma fetches_snoc_http (t : list event) (u : string) :
  fetches (t ++ [HttpGet u]) = fetches t ++ [u].
Proof. rewrite fetches_app. reflexivity. Qed.

Lemma fetches_snoc_log (t : list event) (m : string) :
  fetches (t ++ [ConsoleLog m]) = fetches t.
Proof. rewrite fetches_app. apply app_nil_r. Qed.

(** The first loop: what it asks for and when it fails. *)
Lemma first_loop_run (ys : list Z) :
  forall w w' out,
    for_push ys (year_body axios_get) w = (w', out) ->
    files w' = files w /\ store w' = store w /\
    fetches (trace w') = fetches (trace w) ++ requested axios_get ys /\
    (forallb (served axios_get) ys = true -> exists rs, out = Ok rs) /\
    (forallb (served axios_get) ys = false -> out = Err NetworkError).
Proof.
  induction ys as [|y ys IH]; intros w w' out H.
  - injection H as <- <-. cbn. rewrite app_nil_r.
    repeat split; [eauto | discriminate].
  - cbn [for_push requested forallb] in *. unfold bind at 1 in H.
    rewrite year_body_run in H.
    assert (Hs : served axios_get y
                 = match axios_get (year_url y) with
                   | Some _ => true | None => false end) by reflexivity.
    rewrite Hs. clear Hs.
    destruct (axios_get (year_url y)) as [page|].
    + unfold bind at 1 in H.
      destruct (for_push ys (year_body axios_get) _) as [w2 out2] eqn:E.
      destruct (IH _ _ _ E) as (F & S & T & Hok & Herr).
      cbn [files store trace] in F, S, T.
      rewrite fetches_snoc_log, fetches_snoc_http in T.
      cbn [andb].
      destruct out2 as [rs|e]; injection H as <- <-;
        rewrite F, S, T, <- app_assoc; repeat split; eauto;
        intros Hall;
        first [ specialize (Herr Hall); discriminate
              | destruct (Hok Hall) as (rs' & Hrs); discriminate ].
    + injection H as <- <-. cbn [files store trace andb].
      rewrite fetches_snoc_http. repeat split; discriminate.
Qed.

(** The call leaves the world as its first loop leaves it. *)
Lemma fetch_world (currentYear : Z) (fileLimit startYear endYear : option Z)
    (w : world) :
  fst (fetchUsptoZipFileInfos axios_get currentYear fileLimit startYear
         endYear w)
  = fst (for_push (years (or_default 2005%Z startYear)
                     (or_default currentYear endYear))
           (year_body axios_get) w).
Proof.
  rewrite fetch_unfold. unfold bind at 1.
  destruct (for_push _ _ w) as [w1 [rs|e]]; [|reflexivity].
  unfold bind, lift, ret. destruct (rmap response_infos rs); reflexivity.
Qed.

(** What a call that returns, returns. *)
Lemma fetch_result (currentYear : Z) (fileLimit startYear endYear : option Z)
    (w w' : world) (infos : list UsptoZipFileInfo) :
  fetchUsptoZipFileInfos axios_get currentYear fileLimit startYear endYear w
  = (w', Ok infos) ->
  infos = slice0 (or_default 1%Z fileLimit)
            (discovered axios_get (or_default 2005%Z startYear)
               (or_default currentYear endYear)) /\
  forallb (served axios_get)
    (years (or_default 2005%Z startYear) (or_default currentYear endYear))
  = true.
Proof.
  rewrite fetch_unfold. intros H. unfold bind at 1 in H.
  set (ys := years _ _) in *.
  destruct (for_push ys (year_body axios_get) w) as [w1 [rs|e]] eqn:E1;
    [|discriminate].
  destruct (first_loop_run ys w w1 (Ok rs) E1) as (_ & _ & _ & _ & Herr).
  unfold bind, lift, ret in H.
  destruct (rmap response_infos rs) as [per|e] eqn:E2; [|discriminate].
  injection H as _ <-. split.
  - unfold discovered. fold ys.
    rewrite (second_loop_ok axios_get ys rs
               (first_loop_ok axios_get ys w w1 rs E1) per E2).
    reflexivity.
  - destruct (forallb (served axios_get) ys); [reflexivity|].
    specialize (Herr eq_refl). discriminate.
Qed.

(** Every reference of a year names a zip file under the page of the
    year. *)
Lemma year_refs_wf (ys : list Z) (y : Z) :
  In y ys -> Forall (ref_of_years ys) (year_refs axios_get y).
Proof.
  intros Hy. unfold year_refs. destruct (axios_get (year_url y)) as [page|];
    [|constructor].
  apply Forall_forall. intros r Hr. apply in_map_iff in Hr.
  destruct Hr as (n & <- & Hn). split; cbn.
  - exact (proj1 (Forall_forall _ _) (zip_links_names page) n Hn).
  - exists y. auto.
Qed.

Lemma discovered_wf (startYear endYear : Z) :
  Forall (ref_of_years (years startYear endYear))
    (discovered axios_get startYear endYear).
Proof.
  unfold discovered. apply Forall_concat. apply Forall_map.
  apply Forall_forall. intros y Hy. apply year_refs_wf. exact Hy.
Qed.

Lemma Forall_slice0 {A} (P : A -> Prop) (e : Z) (l : list A) :
  Forall P l -> Forall P (slice0 e l).
Proof.
  intros H. unfold slice0. cbv zeta.
  match goal with |- Forall P (firstn ?n l) =>
    rewrite <- (firstn_skipn n l) in H; apply Forall_app in H; exact (proj1 H)
  end.
Qed.

Lemma requested_stop (pre : list Z) (y : Z) (post : list Z) :
  forallb (served axios_get) pre = true -> served axios_get y = false ->
  requested axios_get (pre ++ y :: post) = map year_url (pre ++ [y]) /\
  forallb (served axios_get) (pre ++ y :: post) = false.
Proof.
  intros Hpre Hy. induction pre as [|x pre IH]; cbn in *.
  - rewrite Hy. auto.
  - apply andb_prop in Hpre. destruct Hpre as [Hx Hpre]. rewrite Hx.
    destruct (IH Hpre) as [-> ->]. auto.
Qed.

Lemma requested_all (ys : list Z) :
  forallb (served axios_get) ys = true ->
  requested axios_get ys = map year_url ys.
Proof.
  induction ys as [|y ys IH]; cbn; [reflexivity|]. intros H.
  apply andb_prop in H. destruct H as [-> H]. rewrite (IH H). reflexivity.
Qed.

End Fetch.

Lemma years_empty (startYear endYear : Z) :
  (endYear < startYear)%Z -> years startYear endYear = [].
Proof.
  intros H. unfold years.
  replace (Z.to_nat (endYear - startYear + 1)) with 0 by lia. reflexivity.
Qed.

End FetchFacts.

Module KeyFacts.
Import Json.
Import StrFacts ReFacts LinkFacts DiscoverFacts SyncFacts ExtractFacts.
Import MaterializeFacts ParseFacts OrderFacts BlobFacts PathFacts.
Import OutPathFacts YearFacts StoreFacts FootprintFacts FetchFacts.
Import Str Path.

Lemma rsplit_none (s : string) : has "/" s = false -> rsplit s = None.
Proof.
  induction s as [|c s IH]; cbn [has rsplit]; [reflexivity|].
  intros H. apply orb_false_iff in H. destruct H as [Hc Hs].
  rewrite (IH Hs), Hc. reflexivity.
Qed.

Lemma rsplit_snoc (x n : string) :
  has "/" n = false -> rsplit (x +++ String "/" n) = Some (x, n).
Proof.
  intros H. induction x as [|c x IH]; cbn [String.append rsplit].
  - rewrite (rsplit_none n H). reflexivity.
  - rewrite IH. reflexivity.
Qed.

Lemma rsplit_empty_ends (p a : string) :
  rsplit p = Some (a, EmptyString) -> ends_with_slash p = true.
Proof.
  revert a. induction p as [|c p IH]; intros a; cbn [rsplit]; [discriminate|].
  destruct (rsplit p) as [[x y]|] eqn:E.
  - intros H. injection H as _ ->. specialize (IH x eq_refl).
    cbn [ends_with_slash]. destruct p; [discriminate | exact IH].
  - destruct (Ascii.eqb c "/") eqn:Ec; [|discriminate].
    intros H. injection H as _ ->. cbn. exact Ec.
Qed.

Lemma strip_slash_keep (p : string) :
  ends_with_slash p = false -> strip_slash p = p.
Proof.
  intros H. unfold strip_slash.
  destruct (rsplit p) as [[[|c a] [|d b]]|] eqn:E; try reflexivity.
  rewrite (rsplit_empty_ends p _ E) in H. discriminate.
Qed.

Lemma last_ok (L : list string) :
  L <> [] -> Forall (fun s => seg_ok s = true) L -> seg_ok (last L "") = true.
Proof.
  intros HL F. induction F as [|y Y Hy FY IH]; [congruence|].
  destruct Y; [exact Hy | apply IH; discriminate].
Qed.

Lemma normalize_path_of (a : bool) (L : list string) :
  L <> [] -> Forall (fun s => seg_ok s = true) L ->
  normalize (path_of a L) = path_of a L.
Proof.
  intros HL F. rewrite (path_of_concat a L HL) at 1.
  destruct L as [|x rest]; [congruence|].
  inversion F as [|? ? Hx Frest]; subst.
  destruct rest as [|y rest].
  - destruct a.
    + apply (normalize_lead true [] [x]); auto; discriminate.
    + cbn [lead app String.concat]. unfold path_of. cbn [String.append String.concat].
      destruct (seg_ok_parts x Hx) as (Hs & Hne & _).
      destruct x as [|c r]; [congruence|].
      rewrite (normalize_eq _ c r eq_refl), (split_none _ _ Hs).
      rewrite (normalize_segs_clean _ [String c r]) by (constructor; auto).
      cbn [rev app filter]. unfold nonempty. cbn [String.eqb negb String.concat].
      assert (Hc : Ascii.eqb c "/" = false).
      { cbn [has] in Hs. apply orb_false_iff in Hs. apply Hs. }
      assert (He : ends_with_slash (String c r) = false).
      { destruct (ends_with_slash (String c r)) eqn:E; [|reflexivity].
        apply ends_with_slash_has in E. congruence. }
      rewrite Hc, He. cbn [String.append]. rewrite append_nil_r. reflexivity.
  - change (lead a ++ x :: y :: rest) with (lead a ++ [x] ++ (y :: rest)).
    rewrite (normalize_lead a [x] (y :: rest)).
    + cbn [filter]. unfold nonempty at 1.
      destruct (seg_ok_parts x Hx) as (_ & Hne & _).
      apply String.eqb_neq in Hne. rewrite Hne. reflexivity.
    + discriminate.
    + exact Frest.
    + constructor; auto.
    + intros _. eauto.
Qed.

Lemma path_of_ends (a : bool) (L : list string) :
  L <> [] -> Forall (fun s => seg_ok s = true) L ->
  ends_with_slash (path_of a L) = false.
Proof.
  intros HL F. unfold path_of.
  destruct (concat_last_ok L (last_ok L HL F)) as (Hne & He).
  rewrite ends_with_slash_app by exact Hne. exact He.
Qed.

(** A path of clean segments is its own key. *)
Lemma key_path_of (a : bool) (L : list string) :
  L <> [] -> Forall (fun s => seg_ok s = true) L ->
  key (path_of a L) = path_of a L.
Proof.
  intros HL F. pose proof (normalize_path_of a L HL F) as N. unfold key.
  destruct (path_of a L) as [|c s] eqn:E; [reflexivity|].
  rewrite N. apply strip_slash_keep. rewrite <- E.
  apply path_of_ends; assumption.
Qed.

Lemma path_of_snoc (a : bool) (D : list string) (n : string) :
  D <> [] -> path_of a (D ++ [n]) = path_of a D +++ String "/" n.
Proof.
  intros HD. unfold path_of. rewrite concat_app by (auto; discriminate).
  cbn [String.concat]. rewrite <- append_assoc. reflexivity.
Qed.

Lemma dirname_path_of (a : bool) (D : list string) (n : string) :
  D <> [] -> Forall (fun s => seg_ok s = true) D -> seg_ok n = true ->
  dirname (path_of a (D ++ [n])) = path_of a D /\
  basename (path_of a (D ++ [n])) = n /\
  is_root (path_of a (D ++ [n])) = false.
Proof.
  intros HD F Hn. destruct (seg_ok_parts n Hn) as (Hs & Hne & Hdot & _).
  rewrite (path_of_snoc a D n HD). unfold dirname, basename.
  rewrite (rsplit_snoc _ n Hs).
  pose proof (path_of_nonempty a D HD F) as Hp.
  repeat split.
  - destruct (path_of a D); [congruence | reflexivity].
  - unfold is_root. apply orb_false_iff. split; apply String.eqb_neq; intros E.
    + assert (H : rsplit (path_of a D +++ String "/" n) = rsplit ".")
        by (rewrite E; reflexivity).
      rewrite (rsplit_snoc _ n Hs) in H. discriminate.
    + assert (H : rsplit (path_of a D +++ String "/" n) = rsplit "/")
        by (rewrite E; reflexivity).
      rewrite (rsplit_snoc _ n Hs) in H. cbn in H. congruence.
Qed.

(** Where a file of a directory lies. *)
Lemma key_join (a : bool) (D : list string) (n : string) :
  D <> [] -> Forall (fun s => seg_ok s = true) D -> seg_ok n = true ->
  key (join (path_of a D) n) = path_of a (D ++ [n]).
Proof.
  intros HD F Hn.
  change n with (path_of false [n]) at 1.
  rewrite (join_paths a false D [n]); auto; try discriminate.
  apply key_path_of.
  - destruct D; discriminate.
  - apply Forall_app. auto.
Qed.

End KeyFacts.

Module FsFacts.
Import Json.
Import StrFacts ReFacts LinkFacts DiscoverFacts SyncFacts ExtractFacts.
Import MaterializeFacts ParseFacts OrderFacts BlobFacts PathFacts.
Import OutPathFacts YearFacts StoreFacts FootprintFacts FetchFacts KeyFacts.
Import Str Path KeyFacts.

Lemma assoc_In {A} (k : string) (l : list (string * A)) (v : A) :
  assoc k l = Some v -> In (k, v) l.
Proof.
  induction l as [|[k' v'] l IH]; cbn [assoc]; [discriminate|].
  destruct (String.eqb k' k) eqn:E.
  - apply String.eqb_eq in E. subst. intros H. injection H as ->. left. reflexivity.
  - intros H. right. exact (IH H).
Qed.

Lemma is_dir_exists (fs : fsys) (k : string) :
  is_dir fs k = true -> exists_in fs k = true.
Proof.
  unfold is_dir, exists_in. destruct (is_root k); [reflexivity|].
  destruct (assoc k fs) as [[|]|]; cbn; congruence.
Qed.

Lemma not_exists_not_dir (fs : fsys) (k : string) :
  exists_in fs k = false -> is_dir fs k = false.
Proof.
  intros E. destruct (is_dir fs k) eqn:D; [|reflexivity].
  apply is_dir_exists in D. congruence.
Qed.

(** A file that is there is listed in its directory. *)
Lemma children_In (fs : fsys) (k : string) (n : node) :
  assoc k fs = Some n -> is_root k = false ->
  In (basename k) (children fs (dirname k)).
Proof.
  intros H R. unfold children. apply in_map_iff. exists (k, n).
  split; [reflexivity|]. apply filter_In. split; [exact (assoc_In _ _ _ H)|].
  cbn [fst]. rewrite String.eqb_refl, R. reflexivity.
Qed.

(** Nothing is listed in a directory that is not there. *)
Lemma children_absent (fs : fsys) (d : string) :
  fs_wf fs = true -> exists_in fs d = false -> children fs d = [].
Proof.
  intros W E. unfold children.
  replace (filter _ fs) with (@nil (string * node)); [reflexivity|].
  symmetry. unfold fs_wf in W. rewrite forallb_forall in W.
  assert (G : forall l, (forall e, In e l -> In e fs) ->
            filter (fun e => String.eqb (dirname (fst e)) d
                             && negb (is_root (fst e))) l = []).
  { induction l as [|e l IH]; intros Hl; [reflexivity|].
    cbn [filter]. rewrite IH by (intros; apply Hl; right; assumption).
    specialize (W e (Hl e (or_introl eq_refl))).
    destruct (String.eqb (dirname (fst e)) d) eqn:Ed; [|reflexivity].
    apply String.eqb_eq in Ed. rewrite Ed in W.
    destruct (is_root (fst e)); [reflexivity|]. cbn in W.
    apply is_dir_exists in W. congruence. }
  apply G. auto.
Qed.

Lemma children_app (a b : fsys) (d : string) :
  children (a ++ b) d = children a d ++ children b d.
Proof. unfold children. rewrite filter_app, map_app. reflexivity. Qed.

Lemma children_replace (k : string) (n : node) (fs : fsys) (d : string) :
  children (replace k n fs) d = children fs d.
Proof.
  unfold children. induction fs as [|[k' n'] fs IH]; [reflexivity|].
  cbn [replace]. destruct (String.eqb k' k).
  - cbn [filter fst]. destruct (_ && _); reflexivity.
  - cbn [filter fst]. destruct (_ && _); cbn [map]; rewrite IH; reflexivity.
Qed.

Lemma grows_refl (fs : fsys) : grows fs fs.
Proof. split; auto. Qed.

Lemma grows_trans (a b c : fsys) : grows a b -> grows b c -> grows a c.
Proof. intros [D1 C1] [D2 C2]. split; auto. Qed.

Lemma grows_app (fs : fsys) (k : string) (n : node) :
  assoc k fs = None -> grows fs (fs ++ [(k, n)]).
Proof.
  intros H. split.
  - intros k' D. unfold is_dir in *. destruct (is_root k'); [reflexivity|].
    cbn [orb] in *. rewrite assoc_app.
    destruct (assoc k' fs) as [[|]|]; congruence.
  - intros d x Hx. rewrite children_app. apply in_or_app. left. exact Hx.
Qed.

Lemma grows_replace (fs : fsys) (k : string) (old data : string) :
  assoc k fs = Some (File old) -> grows fs (replace k (File data) fs).
Proof.
  intros H. split.
  - intros k' D. unfold is_dir in *. destruct (is_root k'); [reflexivity|].
    cbn [orb] in *. rewrite assoc_replace.
    destruct (String.eqb k k') eqn:E; [|exact D].
    apply String.eqb_eq in E. subst k'. rewrite H in D. discriminate.
  - intros d x Hx. rewrite children_replace. exact Hx.
Qed.

Lemma writeFileSync_grows (p d : string) (w w' : world) (out : result unit) :
  writeFileSync p d w = (w', out) -> grows (files w) (files w').
Proof.
  unfold writeFileSync, bind, get_files, set_files, emit, throw. cbv zeta.
  destruct (assoc (key p) (files w)) as [[old|]|] eqn:E.
  - intros H. injection H as <- _. cbn [files]. eapply grows_replace. exact E.
  - intros H. injection H as <- _. apply grows_refl.
  - destruct (is_root (key p)).
    + intros H. injection H as <- _. apply grows_refl.
    + destruct (can_create (files w) (key p)).
      * intros H. injection H as <- _. cbn [files]. apply grows_app. exact E.
      * intros H. injection H as <- _. apply grows_refl.
Qed.

Section Sync.
Variable axios_get : string -> option string.
Variable dir : string.
Variable cached : list string.

Lemma sync_body_grows (r : UsptoZipFileInfo) (w w' : world) (out : result unit) :
  sync_body axios_get dir cached r w = (w', out) -> grows (files w) (files w').
Proof.
  destruct (includes (name r) cached) eqn:I.
  - rewrite (body_present axios_get dir cached r w I).
    intros H. injection H as <- _. apply grows_refl.
  - rewrite (body_missing axios_get dir cached r w I).
    destruct (axios_get (url r)) as [payload|].
    + intros H. apply writeFileSync_grows in H. exact H.
    + intros H. injection H as <- _. apply grows_refl.
Qed.

Lemma sync_loop_grows (refs : list UsptoZipFileInfo) :
  forall w w' out,
    for_of refs (sync_body axios_get dir cached) w = (w', out) ->
    grows (files w) (files w').
Proof.
  induction refs as [|r refs IH]; intros w w' out H; cbn [for_of] in H.
  - injection H as <- _. apply grows_refl.
  - unfold bind in H.
    destruct (sync_body axios_get dir cached r w) as [w1 [[]|e]] eqn:E.
    + eapply grows_trans; [exact (sync_body_grows _ _ _ _ E) | exact (IH _ _ _ H)].
    + injection H as <- _. exact (sync_body_grows _ _ _ _ E).
Qed.

End Sync.

(** The directory is there: nothing is made, and its listing is returned. *)
Lemma ensure_and_list_present (dir : string) (w : world) :
  is_dir (files w) (key dir) = true ->
  ensure_and_list dir w = (w, Ok (children (files w) (key dir))).
Proof.
  intros D. unfold ensure_and_list, ensure_then_list, existsSync, readdirSync,
    bind, get_files, ret.
  rewrite (is_dir_exists _ _ D). cbn [negb]. unfold ret. cbv zeta.
  rewrite D. reflexivity.
Qed.

(** The directory is not there: it is made where its parent is, and the
    call fails where it is not. *)
Lemma ensure_and_list_absent (dir : string) (w : world) :
  exists_in (files w) (key dir) = false ->
  ensure_and_list dir w =
  if can_create (files w) (key dir) then
    (mkWorld (files w ++ [(key dir, Dir)]) (store w) (trace w ++ [FsMkdir dir]),
     Ok (children (files w ++ [(key dir, Dir)]) (key dir)))
  else (w, Err (missing_error (files w) (key dir))).
Proof.
  intros E. unfold ensure_and_list, ensure_then_list, existsSync, mkdirSync,
    readdirSync, bind, get_files, set_files, emit, ret, throw.
  rewrite E. cbn [negb]. cbv zeta. rewrite E.
  destruct (can_create (files w) (key dir)); [|reflexivity].
  cbn [files store trace].
  assert (D : is_dir (files w ++ [(key dir, Dir)]) (key dir) = true).
  { unfold is_dir, exists_in in *. destruct (is_root (key dir)); [reflexivity|].
    cbn [orb] in *. rewrite assoc_app.
    destruct (assoc (key dir) (files w)); [discriminate|].
    cbn [assoc]. rewrite String.eqb_refl. reflexivity. }
  rewrite D. reflexivity.
Qed.

(** A listing that was returned is the listing of a directory. *)
Lemma ensure_and_list_ok (dir : string) (w w1 : world) (cached : list string) :
  ensure_and_list dir w = (w1, Ok cached) ->
  is_dir (files w1) (key dir) = true /\ cached = children (files w1) (key dir).
Proof.
  intros H. destruct (exists_in (files w) (key dir)) eqn:E.
  - unfold ensure_and_list, ensure_then_list, existsSync, readdirSync,
      bind, get_files, ret, throw in H.
    rewrite E in H. cbn [negb] in H. unfold ret in H. cbv zeta in H.
    destruct (is_dir (files w) (key dir)) eqn:D.
    + injection H as <- <-. auto.
    + rewrite E in H. discriminate.
  - rewrite (ensure_and_list_absent dir w E) in H.
    destruct (can_create (files w) (key dir)); [|discriminate].
    injection H as <- <-. cbn [files]. split; [|reflexivity].
    unfold is_dir, exists_in in *. destruct (is_root (key dir)); [reflexivity|].
    cbn [orb] in *. rewrite assoc_app.
    destruct (assoc (key dir) (files w)); [discriminate|].
    cbn [assoc]. rewrite String.eqb_refl. reflexivity.
Qed.

End FsFacts.

Module WayFacts.
Import Json.
Import StrFacts PathFacts KeyFacts FsFacts.
Import Str Path.

Lemma prefixes_single {A} (x : A) : prefixes [x] = [].
Proof. reflexivity. Qed.

Lemma prefixes_snoc {A} (D : list A) (n : A) :
  D <> [] -> prefixes (D ++ [n]) = prefixes D ++ [D].
Proof.
  intros HD. unfold prefixes. rewrite length_app. cbn [List.length].
  destruct (List.length D) as [|k] eqn:L.
  - destruct D; [congruence | discriminate].
  - replace (S k + 1 - 1)%nat with (S k) by lia.
    replace (S k - 1)%nat with k by lia.
    rewrite seq_S, map_app. cbn [map]. f_equal.
    + apply map_ext_in. intros m Hm. apply in_seq in Hm.
      rewrite firstn_app. replace (m - List.length D)%nat with 0%nat by lia.
      cbn [firstn]. apply app_nil_r.
    + change (1 + k)%nat with (S k). rewrite <- L.
      rewrite firstn_app, firstn_all, Nat.sub_diag. cbn [firstn].
      rewrite app_nil_r. reflexivity.
Qed.

Lemma single_root (a : bool) (n : string) :
  seg_ok n = true ->
  is_root (dirname (path_of a [n])) = true /\
  is_root (path_of a [n]) = false.
Proof.
  intros Hn. destruct (seg_ok_parts n Hn) as (Hs & Hne & Hdot & _).
  unfold path_of. cbn [String.concat]. destruct a; cbn [String.append].
  - unfold dirname. cbn [rsplit]. rewrite (rsplit_none n Hs). cbn.
    split; [reflexivity|]. destruct n; [congruence | reflexivity].
  - unfold dirname. rewrite (rsplit_none n Hs). split; [reflexivity|].
    unfold is_root. apply orb_false_iff. split; apply String.eqb_neq.
    + exact Hdot.
    + intros E. subst n. discriminate.
Qed.

Lemma path_of_not_root (a : bool) (D : list string) :
  D <> [] -> Forall (fun s => seg_ok s = true) D ->
  is_root (path_of a D) = false.
Proof.
  intros HD F. destruct (exists_last HD) as (D' & n & ->).
  apply Forall_app in F. destruct F as [F' Fn].
  inversion Fn as [|? ? Hn _]; subst.
  destruct D' as [|x D'].
  - apply single_root. exact Hn.
  - apply dirname_path_of; auto. discriminate.
Qed.

(** The directories on the way to a path of clean segments are the paths
    of the prefixes. *)
Lemma way_up_path_of (a : bool) (D : list string) :
  D <> [] -> Forall (fun s => seg_ok s = true) D ->
  forall fuel, (List.length D <= fuel)%nat ->
  way_up fuel (path_of a D) = rev (map (path_of a) (prefixes D)).
Proof.
  induction D as [|n D IH] using rev_ind; [congruence|].
  intros _ F fuel Hf. apply Forall_app in F. destruct F as [F' Fn].
  inversion Fn as [|? ? Hn _]; subst.
  rewrite length_app in Hf. cbn [List.length] in Hf.
  destruct fuel as [|fuel]; [lia|]. cbn [way_up]. cbv zeta.
  destruct D as [|x D].
  - cbn [app]. rewrite (proj1 (single_root a n Hn)). reflexivity.
  - assert (HD : x :: D <> []) by discriminate.
    destruct (dirname_path_of a (x :: D) n HD F' Hn) as (Hd & _ & _).
    rewrite Hd, (path_of_not_root a (x :: D) HD F').
    rewrite (prefixes_snoc (x :: D) n HD), map_app, rev_app_distr.
    cbn [map rev app]. f_equal. apply IH; auto. lia.
Qed.

Lemma concat_length (D : list string) :
  Forall (fun s => seg_ok s = true) D ->
  (List.length D <= String.length (String.concat "/" D) + 1)%nat.
Proof.
  induction 1 as [|x D Hx _ IH]; [cbn; lia|].
  destruct D as [|y D]; [cbn; lia|].
  rewrite concat_cons by discriminate.
  rewrite !StrFacts.length_append. cbn [List.length String.length] in *. lia.
Qed.

Lemma path_of_length (a : bool) (D : list string) :
  D <> [] -> Forall (fun s => seg_ok s = true) D ->
  (List.length D <= String.length (path_of a D))%nat.
Proof.
  intros HD F. unfold path_of. rewrite StrFacts.length_append.
  destruct D as [|x D]; [congruence|].
  inversion F as [|? ? Hx FD]; subst.
  destruct (seg_ok_parts x Hx) as (_ & Hne & _).
  destruct D as [|y D].
  - cbn [String.concat List.length]. destruct x; [congruence|].
    destruct a; cbn [String.length]; lia.
  - rewrite concat_cons by discriminate. rewrite !StrFacts.length_append.
    pose proof (concat_length (y :: D) FD) as B.
    destruct x; [congruence|].
    destruct a; cbn [List.length String.length] in *; lia.
Qed.

Lemma way_path_of (a : bool) (D : list string) :
  D <> [] -> Forall (fun s => seg_ok s = true) D ->
  way (path_of a D) = map (path_of a) (prefixes D).
Proof.
  intros HD F. unfold way.
  rewrite (way_up_path_of a D HD F _ (path_of_length a D HD F)).
  apply rev_involutive.
Qed.

Lemma way_error_enoent (fs : fsys) (l : list string) :
  Forall (fun k => forall data, assoc k fs <> Some (File data)) l ->
  way_error fs l = FsError "ENOENT".
Proof.
  induction 1 as [|k l Hk _ IH]; cbn [way_error]; [reflexivity|].
  destruct (assoc k fs) as [[data|]|] eqn:E; auto.
  exfalso. exact (Hk data eq_refl).
Qed.

Lemma way_error_enotdir (fs : fsys) (pre : list string) (k : string)
    (post : list string) (data : string) :
  Forall (fun d => assoc d fs = Some Dir) pre ->
  assoc k fs = Some (File data) ->
  way_error fs (pre ++ k :: post) = FsError "ENOTDIR".
Proof.
  intros F Hk. induction F as [|d pre Hd _ IH]; cbn [app way_error].
  - rewrite Hk. reflexivity.
  - rewrite Hd. exact IH.
Qed.

(** The error for a missing path of clean segments. *)
Lemma missing_error_cases (fs : fsys) (a : bool) (D : list string) :
  D <> [] -> Forall (fun s => seg_ok s = true) D ->
  (no_file_on_way fs a D -> missing_error fs (path_of a D) = FsError "ENOENT") /\
  (stopped_by_file fs a D -> missing_error fs (path_of a D) = FsError "ENOTDIR").
Proof.
  intros HD F. unfold missing_error. rewrite (way_path_of a D HD F). split.
  - intros N. apply way_error_enoent. apply Forall_map. exact N.
  - intros (pre & P & post & data & E & Fp & Hf). rewrite E, map_app.
    cbn [map]. apply way_error_enotdir with (data := data); auto.
    apply Forall_map. exact Fp.
Qed.

(** A new directory changes neither case. *)
Lemma no_file_on_way_app (fs : fsys) (k : string) (a : bool) (D : list string) :
  no_file_on_way fs a D -> no_file_on_way (fs ++ [(k, Dir)]) a D.
Proof.
  unfold no_file_on_way. intros N. eapply Forall_impl; [|exact N].
  intros P HP data. cbv beta in HP. rewrite SyncFacts.assoc_app.
  destruct (assoc (path_of a P) fs) as [[x|]|] eqn:E.
  - exfalso. exact (HP x eq_refl).
  - discriminate.
  - cbn [assoc]. destruct (String.eqb k (path_of a P)); discriminate.
Qed.

Lemma stopped_by_file_app (fs : fsys) (k : string) (n : node) (a : bool)
    (D : list string) :
  stopped_by_file fs a D -> stopped_by_file (fs ++ [(k, n)]) a D.
Proof.
  intros (pre & P & post & data & E & Fp & Hf).
  exists pre, P, post, data. repeat split; [exact E | |].
  - eapply Forall_impl; [|exact Fp]. intros Q HQ. cbv beta in HQ.
    rewrite SyncFacts.assoc_app, HQ. reflexivity.
  - rewrite SyncFacts.assoc_app, Hf. reflexivity.
Qed.

(** What [can_create] asks of a path of clean segments. *)
Lemma can_create_path_of (fs : fsys) (a : bool) (D : list string) :
  D <> [] -> Forall (fun s => seg_ok s = true) D ->
  can_create fs (path_of a D) = is_dir fs (dirname (path_of a D)).
Proof.
  intros HD F. unfold can_create.
  destruct (String.eqb_spec (path_of a D) ""); [|reflexivity].
  exfalso. exact (path_of_nonempty a D HD F e).
Qed.

End WayFacts.

Module NameFacts.
Import Json.
Import StrFacts ReFacts LinkFacts DiscoverFacts SyncFacts ExtractFacts.
Import MaterializeFacts ParseFacts OrderFacts BlobFacts PathFacts.
Import OutPathFacts YearFacts StoreFacts FootprintFacts FetchFacts KeyFacts.
Import FsFacts.
Import Str.

Lemma all_no_char (p : ascii -> bool) (x : ascii) (w : string) :
  (forall c, p c = true -> Ascii.eqb c x = false) ->
  all p w = true -> has x w = false.
Proof.
  intros Hp. induction w as [|c w IH]; cbn [all has]; [reflexivity|].
  intros H. apply andb_prop in H. destruct H as [Hc Hw].
  rewrite (Hp c Hc), (IH Hw). reflexivity.
Qed.

Lemma letter_no_slash (c : ascii) : is_letter c = true -> Ascii.eqb c "/" = false.
Proof.
  destruct c as [[] [] [] [] [] [] [] []]; vm_compute; congruence.
Qed.

Lemma digit_no_slash (c : ascii) : is_digit c = true -> Ascii.eqb c "/" = false.
Proof.
  destruct c as [[] [] [] [] [] [] [] []]; vm_compute; congruence.
Qed.

Lemma upper_slash (c : ascii) :
  Ascii.eqb c "/" = true -> to_upper c = "/"%char.
Proof. intros H. apply Ascii.eqb_eq in H. subst. reflexivity. Qed.

Lemma ext_no_slash (ext : string) :
  map to_upper (chars ext) = chars ".ZIP" -> has "/" ext = false.
Proof.
  destruct ext as [|c1 [|c2 [|c3 [|c4 [|c5 ext]]]]]; cbn [chars map];
    try discriminate.
  intros H. injection H as H1 H2 H3 H4. cbn [has].
  destruct (Ascii.eqb c1 "/") eqn:E1;
    [apply upper_slash in E1; congruence|].
  destruct (Ascii.eqb c2 "/") eqn:E2;
    [apply upper_slash in E2; congruence|].
  destruct (Ascii.eqb c3 "/") eqn:E3;
    [apply upper_slash in E3; congruence|].
  destruct (Ascii.eqb c4 "/") eqn:E4;
    [apply upper_slash in E4; congruence|].
  reflexivity.
Qed.

Lemma chars_length (s : string) : List.length (chars s) = String.length s.
Proof. induction s; cbn; congruence. Qed.

(** A zip name is one clean path segment. *)
Lemma zip_name_seg_ok (n : string) : is_zip_name n -> seg_ok n = true.
Proof.
  intros (ls & ds & ext & -> & Hl & Ll & Hd & Ld & He).
  assert (Le : String.length ext = 4).
  { rewrite <- chars_length, <- (length_map to_upper), He. reflexivity. }
  assert (Len : 6 <= String.length (ls +++ ds +++ ext)).
  { rewrite !length_append. lia. }
  unfold seg_ok. rewrite !has_append.
  rewrite (all_no_char _ _ _ letter_no_slash Hl),
    (all_no_char _ _ _ digit_no_slash Hd), (ext_no_slash _ He).
  cbn [orb negb andb].
  destruct (String.eqb_spec (ls +++ ds +++ ext) "") as [E|_];
    [rewrite E in Len; cbn in Len; lia|].
  destruct (String.eqb_spec (ls +++ ds +++ ext) ".") as [E|_];
    [rewrite E in Len; cbn in Len; lia|].
  destruct (String.eqb_spec (ls +++ ds +++ ext) "..") as [E|_];
    [rewrite E in Len; cbn in Len; lia|].
  reflexivity.
Qed.

End NameFacts.

Module SyncMore.
Import Json.
Import StrFacts ReFacts LinkFacts DiscoverFacts SyncFacts ExtractFacts.
Import MaterializeFacts ParseFacts OrderFacts BlobFacts PathFacts.
Import OutPathFacts YearFacts StoreFacts FootprintFacts FetchFacts KeyFacts.
Import FsFacts NameFacts.
Import Str Path KeyFacts FsFacts.

Lemma rsplit_spec (p a b : string) :
  rsplit p = Some (a, b) -> p = a +++ String "/" b.
Proof.
  revert a b. induction p as [|c p IH]; intros a b; cbn [rsplit]; [discriminate|].
  destruct (rsplit p) as [[x y]|] eqn:E.
  - intros H. injection H as <- <-. cbn. f_equal. apply IH. reflexivity.
  - destruct (Ascii.eqb_spec c "/") as [->|]; [|discriminate].
    intros H. injection H as <- <-. reflexivity.
Qed.

(** Only the roots are their own parent. *)
Lemma dirname_neq (k : string) : is_root k = false -> dirname k <> k.
Proof.
  intros R. unfold dirname. destruct (rsplit k) as [[a b]|] eqn:E.
  - apply rsplit_spec in E. subst k. destruct a as [|c a].
    + cbn. intros H. injection H as <-. discriminate.
    + intros H. apply (f_equal String.length) in H.
      rewrite length_append in H. cbn in H. lia.
  - intros <-. discriminate.
Qed.

Lemma missing_nil (refs : list UsptoZipFileInfo) : missing [] refs = refs.
Proof.
  unfold missing. induction refs as [|r refs IH]; [reflexivity|].
  cbn [filter]. change (negb (includes (name r) [])) with true.
  cbv iota. f_equal. exact IH.
Qed.

(** The directory just made lists nothing. *)
Lemma children_fresh (fs : fsys) (k : string) :
  fs_wf fs = true -> exists_in fs k = false ->
  children (fs ++ [(k, Dir)]) k = [].
Proof.
  intros W E. rewrite children_app, (children_absent fs k W E).
  unfold children. cbn [filter fst app].
  assert (R : is_root k = false).
  { unfold exists_in in E. destruct (is_root k); [discriminate | reflexivity]. }
  destruct (String.eqb_spec (dirname k) k) as [H|_]; [|reflexivity].
  destruct (dirname_neq k R H).
Qed.

End SyncMore.

Module ExtractMore.
Import Json.
Import StrFacts ReFacts LinkFacts DiscoverFacts SyncFacts ExtractFacts.
Import MaterializeFacts ParseFacts OrderFacts BlobFacts PathFacts.
Import OutPathFacts YearFacts StoreFacts FootprintFacts FetchFacts KeyFacts.
Import FsFacts NameFacts SyncMore.

Lemma extractAllTo_err
    (AdmZip_extractAllTo : string -> string -> fsys -> result fsys)
    (zipPath target : string) (w : world) (e : error) :
  AdmZip_extractAllTo zipPath target (files w) = Err e ->
  extractAllTo AdmZip_extractAllTo zipPath target w
  = (mkWorld (files w) (store w) (trace w ++ [ZipExtract zipPath target]),
     Err e).
Proof.
  intros H. unfold extractAllTo, bind, emit, get_files, set_files, throw.
  cbn [files]. rewrite H. reflexivity.
Qed.

End ExtractMore.

Module BatchFacts.
Import Json.
Import StrFacts ReFacts LinkFacts DiscoverFacts SyncFacts ExtractFacts.
Import MaterializeFacts ParseFacts OrderFacts BlobFacts PathFacts.
Import OutPathFacts YearFacts StoreFacts FootprintFacts FetchFacts KeyFacts.
Import FsFacts NameFacts SyncMore ExtractMore.

Section Batch.
Variable xml2js_parseString : string -> result value.

Lemma section_body_record (x : string) (w : world) :
  section_body xml2js_parseString x w =
  (mkWorld (files w) (store w) (trace w ++ [XmlParse x]),
   section_record xml2js_parseString x).
Proof. apply section_body_run. Qed.

(** The loop over the sections: it parses up to the first section that
    fails, and returns what the sections give one by one. *)
Lemma sections_loop (xs : list string) :
  forall w,
    for_push xs (section_body xml2js_parseString) w =
    (mkWorld (files w) (store w)
       (trace w ++ map XmlParse
                     (upto_error (section_record xml2js_parseString) xs)),
     rmap (section_record xml2js_parseString) xs).
Proof.
  induction xs as [|x xs IH]; intros w; cbn [for_push upto_error rmap map].
  - unfold ret. rewrite app_nil_r. destruct w; reflexivity.
  - unfold bind at 1. rewrite section_body_record.
    destruct (section_record xml2js_parseString x) as [r|e]; cbn [rbind].
    + unfold bind, ret. rewrite IH. cbn [files store trace map].
      rewrite <- app_assoc.
      destruct (rmap (section_record xml2js_parseString) xs); reflexivity.
    + reflexivity.
Qed.

(** [processUsptoXmlFile] on a file that is there. *)
Lemma processUsptoXmlFile_run (p xmlData : string) (w : world) :
  assoc (key p) (files w) = Some (File xmlData) ->
  processUsptoXmlFile xml2js_parseString p w =
  match Re.String_match patentXmlSectionRegularExpression xmlData with
  | None =>
      (mkWorld (files w) (store w) (trace w ++ [FsRead p]), Err TypeError)
  | Some sections =>
      (mkWorld (files w) (store w)
         (trace w ++ FsRead p ::
            map XmlParse
              (upto_error (section_record xml2js_parseString) sections)),
       rmap (section_record xml2js_parseString) sections)
  end.
Proof.
  intros H.
  unfold processUsptoXmlFile, readFileSync, bind, get_files, emit, ret, throw.
  cbv beta zeta. rewrite H. cbn [files store trace].
  destruct (Re.String_match patentXmlSectionRegularExpression xmlData)
    as [xs|]; [|reflexivity].
  fold (section_body xml2js_parseString). rewrite sections_loop.
  cbn [files store trace]. rewrite <- app_assoc. reflexivity.
Qed.

(** A call that returns has read a file. *)
Lemma processUsptoXmlFile_ok (p : string) (w w' : world)
    (l : list UsptoPatentSchemaData) :
  processUsptoXmlFile xml2js_parseString p w = (w', Ok l) ->
  exists xmlData, assoc (key p) (files w) = Some (File xmlData).
Proof.
  unfold processUsptoXmlFile, readFileSync, bind, get_files, emit, ret, throw.
  cbv beta zeta.
  destruct (assoc (key p) (files w)) as [[text|]|]; eauto; try discriminate.
  destruct (is_root (key p)); discriminate.
Qed.

Lemma upto_error_all {A B} (f : A -> result B) (l : list A) (rs : list B) :
  rmap f l = Ok rs -> upto_error f l = l /\ List.length rs = List.length l.
Proof.
  revert rs. induction l as [|x l IH]; intros rs; cbn [rmap upto_error].
  - intros H. injection H as <-. auto.
  - destruct (f x) as [y|e]; cbn [rbind]; [|discriminate].
    destruct (rmap f l) as [ys|e]; cbn [rbind]; [|discriminate].
    intros H. injection H as <-. destruct (IH ys eq_refl) as [-> Hl].
    cbn. auto.
Qed.

Lemma upto_error_stop {A B} (f : A -> result B) (pre post : list A) (x : A)
    (e : error) :
  Forall (fun y => exists r, f y = Ok r) pre -> f x = Err e ->
  upto_error f (pre ++ x :: post) = pre ++ [x] /\
  rmap f (pre ++ x :: post) = Err e.
Proof.
  intros Hpre Hx. induction Hpre as [|y pre (r & Hy) _ [IH1 IH2]];
    cbn [app upto_error rmap].
  - rewrite Hx. auto.
  - rewrite Hy, IH1, IH2. auto.
Qed.

End Batch.

(** Every failure of a property access is a [TypeError]. *)
Lemma te_ok {A} (a : A) : type_error_only (Ok a).
Proof. intros e H. discriminate. Qed.

Lemma te_rbind {A B} (r : result A) (f : A -> result B) :
  type_error_only r -> (forall a, type_error_only (f a)) ->
  type_error_only (rbind r f).
Proof.
  intros Hr Hf e. destruct r as [a|e']; cbn [rbind].
  - apply Hf.
  - intros H. injection H as <-. apply Hr. reflexivity.
Qed.

Lemma te_get (k : string) (v : value) : type_error_only (get k v).
Proof. intros e. destruct v; cbn [get]; congruence. Qed.

Lemma te_get0 (v : value) : type_error_only (get0 v).
Proof. intros e. destruct v; cbn [get0]; congruence. Qed.

Lemma te_nav (steps : list step) : forall v, type_error_only (nav steps v).
Proof.
  induction steps as [|[k|] steps IH]; intros v; cbn [nav].
  - apply te_ok.
  - apply te_rbind; [apply te_get | exact IH].
  - apply te_rbind; [apply te_get0 | exact IH].
Qed.

Lemma te_rmap {A B} (f : A -> result B) (l : list A) :
  (forall x, type_error_only (f x)) -> type_error_only (rmap f l).
Proof.
  intros Hf. induction l as [|x l IH]; cbn [rmap]; [apply te_ok|].
  apply te_rbind; [apply Hf|]. intros y.
  apply te_rbind; [exact IH|]. intros ys. apply te_ok.
Qed.

Lemma te_map_ (f : value -> result value) (v : value) :
  (forall x, type_error_only (f x)) -> type_error_only (map_ f v).
Proof.
  intros Hf. destruct v; cbn [map_]; try (intros e H; congruence).
  apply te_rbind; [apply te_rmap; exact Hf|]. intros l'. apply te_ok.
Qed.

Lemma te_processedPatentData (v : value) :
  type_error_only (processedPatentData v).
Proof.
  unfold processedPatentData.
  repeat first
    [ apply te_ok
    | apply te_nav
    | apply te_get
    | apply te_map_; intros ?
    | apply te_rbind; [|intros ?] ].
Qed.

Lemma rbind_ok {A B} (r : result A) (f : A -> result B) (b : B) :
  rbind r f = Ok b -> exists a, r = Ok a /\ f a = Ok b.
Proof. destruct r as [a|e]; cbn [rbind]; [eauto | discriminate]. Qed.

(** Reading further below a child that is not there throws. *)
Lemma nav_missing (k : string) (st : step) (rest : list step)
    (fields : list (string * value)) :
  assoc k fields = None ->
  nav (upa :: K k :: st :: rest)
    (Obj [("us-patent-application", Obj fields)]) = Err TypeError.
Proof.
  intros H. unfold upa. cbn [nav get assoc rbind].
  change (String.eqb "us-patent-application" "us-patent-application")
    with true. cbv iota. cbn [rbind get]. rewrite H.
  destruct st; reflexivity.
Qed.

Lemma rmap_text_only (ts : list string) :
  rmap (fun claim => nav [K "claim-text"; I0] claim) (map text_only_claim ts)
  = Ok (map Str ts).
Proof.
  induction ts as [|t ts IH]; [reflexivity|].
  cbn [map rmap]. rewrite IH. reflexivity.
Qed.

Lemma rmap_text_claim (ts : list string) :
  rmap (fun claim =>
          rbind (get "_" claim) (fun genericClaim =>
          rbind (get "claim-text" claim) (fun individualClaims =>
          Ok (Obj [ ("genericClaim", genericClaim);
                    ("individualClaims", individualClaims) ]))))
    (map Str ts)
  = Ok (map (fun _ => Obj [ ("genericClaim", Undefined);
                            ("individualClaims", Undefined) ]) ts).
Proof.
  induction ts as [|t ts IH]; [reflexivity|].
  cbn [map rmap]. rewrite IH. reflexivity.
Qed.

Lemma ser_empty_claims (ts : list string) :
  Json.JSON_stringify
    (Arr (map (fun _ => Obj [ ("genericClaim", Undefined);
                              ("individualClaims", Undefined) ]) ts))
  = Str ("[" +++ String.concat "," (map (fun _ => "{}") ts) +++ "]").
Proof.
  unfold Json.JSON_stringify. cbn [Json.ser]. rewrite map_map. reflexivity.
Qed.

End BatchFacts.

Module RecordFacts.
Import Json.
Import StrFacts ReFacts LinkFacts DiscoverFacts SyncFacts ExtractFacts.
Import MaterializeFacts ParseFacts OrderFacts BlobFacts PathFacts.
Import OutPathFacts YearFacts StoreFacts FootprintFacts FetchFacts KeyFacts.
Import FsFacts NameFacts SyncMore ExtractMore BatchFacts.
Import JsonFacts.

Lemma record_plain (d : Document) :
  plain (schema_object (record_of d)) = true /\
  tidy (schema_object (record_of d)) = true.
Proof. split; reflexivity. Qed.

Lemma records_plain (docs : list Document) :
  plain (Arr (map schema_object (map record_of docs))) = true /\
  tidy (Arr (map schema_object (map record_of docs))) = true.
Proof.
  induction docs as [|d docs [IH1 IH2]]; [split; reflexivity|].
  cbn [map plain tidy forallb] in *.
  destruct (record_plain d) as [-> ->]. auto.
Qed.

Lemma usptoData_record (d : Document) :
  usptoData (schema_object (record_of d)) = Ok (row_of d).
Proof. reflexivity. Qed.

Lemma rmap_usptoData (docs : list Document) :
  rmap usptoData (map schema_object (map record_of docs))
  = Ok (map row_of docs).
Proof.
  induction docs as [|d docs IH]; [reflexivity|].
  cbn [map rmap]. rewrite usptoData_record, IH. reflexivity.
Qed.

End RecordFacts.

Module PushFacts.
Import Json.
Import StrFacts ReFacts LinkFacts DiscoverFacts SyncFacts ExtractFacts.
Import MaterializeFacts ParseFacts OrderFacts BlobFacts PathFacts.
Import OutPathFacts YearFacts StoreFacts FootprintFacts FetchFacts KeyFacts.
Import FsFacts NameFacts SyncMore ExtractMore BatchFacts RecordFacts.

Lemma store_unfold
    (connect : option string -> bool) (model_save : UsptoData -> bool)
    (env : option string) (dirname__ : string)
    (connectionString dir ledger : option string) (w : world) :
  synchronizeProcessedDataToMongoDB connect model_save env dirname__
    connectionString dir ledger w =
  (synchronizedFileNames <- read_ledger (ledger_path dirname__ ledger) ;;
   names <- readdirSync (json_cache_dir dirname__ dir) ;;
   processedJsonCachedFiles <-
     lift (filter_out_included synchronizedFileNames names) ;;
   createConnection connect (connection_uri env connectionString) ;;;
   for_of processedJsonCachedFiles
     (push_file model_save (json_cache_dir dirname__ dir))) w.
Proof. reflexivity. Qed.

Lemma saves_app (a b : list event) : saves (a ++ b) = saves a ++ saves b.
Proof. unfold saves. apply flat_map_app. Qed.

Lemma accepted_app (f : UsptoData -> bool) (a b : list UsptoData) :
  accepted f (a ++ b)
  = if forallb f a then a ++ accepted f b else accepted f a.
Proof.
  induction a as [|x a IH]; cbn [app accepted forallb]; [reflexivity|].
  destruct (f x); cbn [andb]; [|reflexivity].
  rewrite IH. destruct (forallb f a); reflexivity.
Qed.

Section Push.
Variable model_save : UsptoData -> bool.

Lemma save_run (doc : UsptoData) (w : world) :
  save model_save doc w =
  if model_save doc then
    (mkWorld (files w) (store w ++ [doc]) (trace w ++ [StoreSave doc]), Ok tt)
  else
    (mkWorld (files w) (store w) (trace w ++ [StoreSave doc]), Err StoreError).
Proof.
  unfold save, bind, emit, throw. destruct (model_save doc); reflexivity.
Qed.

(** The inner loop on elements that all give a row: the rows go to the
    store one by one until one is rejected. *)
Lemma push_records_run (arr : list value) :
  forall rows w,
    rmap usptoData arr = Ok rows ->
    exists w',
      for_of arr (push_record model_save) w
      = (w', if forallb model_save rows then Ok tt else Err StoreError) /\
      files w' = files w /\
      store w' = store w ++ accepted model_save rows /\
      saves (trace w')
      = saves (trace w)
        ++ firstn (S (List.length (accepted model_save rows))) rows.
Proof.
  induction arr as [|x arr IH]; intros rows w H; cbn [rmap] in H.
  - injection H as <-. exists w. cbn. rewrite !app_nil_r. auto.
  - destruct (usptoData x) as [doc|e] eqn:Ex; cbn [rbind] in H; [|discriminate].
    destruct (rmap usptoData arr) as [rows'|e] eqn:Er; cbn [rbind] in H;
      [|discriminate].
    injection H as <-. cbn [for_of accepted forallb].
    unfold bind at 1. unfold push_record at 1. unfold bind at 1, lift at 1.
    rewrite Ex, save_run.
    destruct (model_save doc) eqn:Es; cbn [andb].
    + destruct (IH rows' (mkWorld (files w) (store w ++ [doc])
                            (trace w ++ [StoreSave doc])) eq_refl)
        as (w' & Hrun & F & S & T).
      exists w'. rewrite Hrun. cbn [files store trace] in *.
      rewrite F, S, T, saves_app, <- !app_assoc. cbn. auto.
    + eexists. split; [reflexivity|]. cbn [files store trace].
      rewrite saves_app, app_nil_r. cbn. auto.
Qed.

Variable dir : string.

Lemma saves_snoc_read (t : list event) (p : string) :
  saves (t ++ [FsRead p]) = saves t.
Proof. rewrite saves_app. apply app_nil_r. Qed.

(** One file that is there and whose rows can all be made. *)
Lemma push_file_run (f text : string) (rows : list UsptoData) (w : world) :
  assoc (key (Path.join dir f)) (files w) = Some (File text) ->
  file_rows text = Ok rows ->
  exists w',
    push_file model_save dir f w
    = (w', if forallb model_save rows then Ok tt else Err StoreError) /\
    files w' = files w /\
    store w' = store w ++ accepted model_save rows /\
    saves (trace w')
    = saves (trace w)
      ++ firstn (S (List.length (accepted model_save rows))) rows.
Proof.
  intros Hf Hr. unfold file_rows in Hr.
  destruct (Json.JSON_parse text) as [parsed|e] eqn:Ep; cbn [rbind] in Hr;
    [|discriminate].
  destruct (iterate parsed) as [arr|e] eqn:Ei; cbn [rbind] in Hr;
    [|discriminate].
  destruct (push_records_run arr rows
              (mkWorld (files w) (store w)
                 (trace w ++ [FsRead (Path.join dir f)])) Hr)
    as (w' & Hrun & F & S & T).
  cbn [files store trace] in *. rewrite saves_snoc_read in T.
  exists w'. split; [|auto].
  unfold push_file. cbv zeta. unfold bind at 1.
  unfold readFileSync, bind at 1, get_files. cbv zeta. rewrite Hf.
  unfold bind at 1, emit, ret, bind at 1, lift at 1. rewrite Ep.
  unfold bind at 1, lift. rewrite Ei. exact Hrun.
Qed.

Lemma accepted_short (rows : list UsptoData) :
  forallb model_save rows = false ->
  List.length (accepted model_save rows) < List.length rows.
Proof.
  induction rows as [|r rows IH]; cbn [forallb accepted]; [discriminate|].
  destruct (model_save r); cbn [andb List.length]; [|lia].
  intros H. specialize (IH H). lia.
Qed.

Lemma accepted_all (rows : list UsptoData) :
  forallb model_save rows = true -> accepted model_save rows = rows.
Proof.
  induction rows as [|r rows IH]; cbn [forallb accepted]; [reflexivity|].
  destruct (model_save r); cbn [andb]; [|discriminate].
  intros H. rewrite (IH H). reflexivity.
Qed.

(** The inserts asked for: the rows taken and the one rejected. *)
Lemma attempted_app (a b : list UsptoData) :
  firstn (S (List.length (accepted model_save (a ++ b)))) (a ++ b)
  = if forallb model_save a
    then a ++ firstn (S (List.length (accepted model_save b))) b
    else firstn (S (List.length (accepted model_save a))) a.
Proof.
  rewrite accepted_app. destruct (forallb model_save a) eqn:E.
  - rewrite length_app.
    replace (S (List.length a + List.length (accepted model_save b)))
      with (List.length a + S (List.length (accepted model_save b))) by lia.
    apply firstn_app_2.
  - pose proof (accepted_short a E) as L. rewrite firstn_app.
    replace (S (List.length (accepted model_save a)) - List.length a)
      with 0 by lia.
    cbn [firstn]. apply app_nil_r.
Qed.

(** The outer loop on files that are there and whose rows can be made. *)
Lemma push_files_run (todo : list string) :
  forall (rowss : list (list UsptoData)) (w : world),
    Forall2 (fun f rows => exists text,
               assoc (key (Path.join dir f)) (files w) = Some (File text) /\
               file_rows text = Ok rows) todo rowss ->
    exists w',
      for_of todo (push_file model_save dir) w
      = (w', if forallb model_save (List.concat rowss)
             then Ok tt else Err StoreError) /\
      files w' = files w /\
      store w' = store w ++ accepted model_save (List.concat rowss) /\
      saves (trace w')
      = saves (trace w)
        ++ firstn (S (List.length (accepted model_save (List.concat rowss))))
             (List.concat rowss).
Proof.
  induction todo as [|f todo IH]; intros rowss w H; inversion H; subst.
  - exists w. cbn. rewrite !app_nil_r. auto.
  - match goal with
    | Hx : exists text, _ |- _ => destruct Hx as (text & Hf & Hr)
    end.
    cbn [for_of List.concat]. unfold bind at 1.
    destruct (push_file_run f text _ w Hf Hr) as (w1 & Hrun & F & S & T).
    rewrite Hrun, forallb_app, attempted_app, accepted_app.
    destruct (forallb model_save _) eqn:E; cbn [andb].
    + match goal with
      | Hl : Forall2 _ todo ?l |- _ =>
          rewrite <- F in Hl; destruct (IH l w1 Hl) as (w2 & Hrun2 & F2 & S2 & T2)
      end.
      exists w2. rewrite Hrun2, F2, S2, T2, F, S, T.
      rewrite (accepted_all _ E), <- !app_assoc.
      rewrite (firstn_all2 (n := Datatypes.S (List.length y)) y) by lia.
      auto.
    + exists w1. rewrite F, S, T. auto.
Qed.

End Push.

(** Reading or making the ledger leaves the store alone and asks no
    insert. *)
Lemma read_ledger_quiet (p : string) (w w1 : world) (out : result value) :
  read_ledger p w = (w1, out) ->
  store w1 = store w /\ saves (trace w1) = saves (trace w).
Proof.
  unfold read_ledger, existsSync, bind at 1.
  destruct (exists_in (files w) (key p)).
  - unfold readFileSync, bind, get_files, emit, ret, throw, lift. cbv zeta.
    destruct (assoc (key p) (files w)) as [[text|]|].
    + intros H. injection H as <- _. cbn [store trace].
      rewrite saves_app, app_nil_r. auto.
    + intros H. injection H as <- _. auto.
    + destruct (is_root (key p)); intros H; injection H as <- _; auto.
  - unfold writeFileSync, bind, get_files, set_files, emit, ret, throw.
    cbv zeta. destruct (assoc (key p) (files w)) as [[old|]|].
    + intros H. injection H as <- _. cbn [store trace].
      rewrite saves_app, app_nil_r. auto.
    + intros H. injection H as <- _. auto.
    + destruct (is_root (key p)); [intros H; injection H as <- _; auto|].
      destruct (can_create (files w) (key p));
        intros H; injection H as <- _; cbn [store trace];
        rewrite ?saves_app, ?app_nil_r; auto.
Qed.

(** Every name is in the ledger: nothing is left to push. *)
Lemma filter_out_all (l : list value) (names : list string) :
  Forall (fun n => In (Str n) l) names ->
  filter_out_included (Arr l) names = Ok [].
Proof.
  induction 1 as [|n names Hn _ IH]; cbn [filter_out_included]; [reflexivity|].
  rewrite IH. cbn [value_includes rbind].
  replace (existsb _ l) with true; [reflexivity|].
  symmetry. apply existsb_exists. exists (Str n). split; [exact Hn|].
  apply String.eqb_refl.
Qed.

End PushFacts.

Module LedgerFacts.
Import Json.
Import StrFacts ReFacts LinkFacts DiscoverFacts SyncFacts ExtractFacts.
Import MaterializeFacts ParseFacts OrderFacts BlobFacts PathFacts.
Import OutPathFacts YearFacts StoreFacts FootprintFacts FetchFacts KeyFacts.
Import FsFacts NameFacts SyncMore ExtractMore BatchFacts RecordFacts.
Import PushFacts.
Import PushFacts.

(** What reading or making the ledger leaves in the file system. *)
Lemma read_ledger_files (p : string) (w : world) :
  files (fst (read_ledger p w)) =
  if exists_in (files w) (key p) then files w
  else if can_create (files w) (key p)
       then files w ++ [(key p, File "[]")]
       else files w.
Proof.
  unfold read_ledger, existsSync, bind at 1.
  destruct (exists_in (files w) (key p)) eqn:E.
  - unfold readFileSync, bind, get_files, emit, ret, throw, lift. cbv zeta.
    destruct (assoc (key p) (files w)) as [[text|]|]; try reflexivity.
    destruct (is_root (key p)); reflexivity.
  - unfold writeFileSync, bind, get_files, set_files, emit, ret, throw.
    cbv zeta. unfold exists_in in E.
    destruct (is_root (key p)); [discriminate|]. cbn [orb] in E.
    destruct (assoc (key p) (files w)); [discriminate|].
    destruct (can_create (files w) (key p)); reflexivity.
Qed.

(** After the ledger, the call writes no file. *)
Lemma push_keeps_files
    (connect : option string -> bool) (model_save : UsptoData -> bool)
    (uri : option string) (dir : string) (synchronizedFileNames : value) :
  keeps_files
    (names <- readdirSync dir ;;
     processedJsonCachedFiles <-
       lift (filter_out_included synchronizedFileNames names) ;;
     createConnection connect uri ;;;
     for_of processedJsonCachedFiles (push_file model_save dir)).
Proof.
  apply keeps_bind; [apply keeps_readdirSync|].
  intros names. apply keeps_bind; [apply keeps_lift|].
  intros todo. apply keeps_bind; [apply keeps_createConnection|].
  intros _. apply keeps_for_of. intros f. unfold push_file. cbv zeta.
  apply keeps_bind; [apply keeps_readFileSync|]. intros text.
  apply keeps_bind; [apply keeps_lift|]. intros parsed.
  apply keeps_bind; [apply keeps_lift|]. intros arr.
  apply keeps_for_of. intros x. unfold push_record.
  apply keeps_bind; [apply keeps_lift|]. intros doc. apply keeps_save.
Qed.

End LedgerFacts.

Module StageFacts.
Import Json.
Import StrFacts ReFacts LinkFacts DiscoverFacts SyncFacts ExtractFacts.
Import MaterializeFacts ParseFacts OrderFacts BlobFacts PathFacts.
Import OutPathFacts YearFacts StoreFacts FootprintFacts FetchFacts KeyFacts.
Import FsFacts NameFacts SyncMore ExtractMore BatchFacts RecordFacts.
Import PushFacts LedgerFacts.

Ltac emits :=
  repeat first
    [ apply emits_ret | apply emits_throw | apply emits_lift
    | apply emits_get_files | apply emits_set_files
    | apply emits_existsSync | apply emits_readdirSync
    | apply emits_readFileSync; cbn; tauto
    | apply emits_writeFileSync; cbn; tauto
    | apply emits_mkdirSync; cbn; tauto
    | apply emits_emit; cbn; tauto
    | apply emits_for_of; intros ?
    | apply emits_for_push; intros ?
    | apply emits_bind; [|intros ?]
    | match goal with
      | |- emits_only _ (if ?b then _ else _) => destruct b
      | |- emits_only _ (match ?x with _ => _ end) => destruct x
      end ].

Ltac stores :=
  repeat first
    [ apply store_readFileSync | apply store_writeFileSync
    | apply store_mkdirSync | apply store_readdirSync
    | apply store_for_of; intros ?
    | apply store_for_push; intros ?
    | apply store_bind; [|intros ?]
    | match goal with
      | |- keeps_store (if ?b then _ else _) => destruct b
      | |- keeps_store (match ?x with _ => _ end) => destruct x
      end
    | apply store_same; reflexivity ].

Lemma emits_axios (axios_get : string -> option string) (ks : list kind)
    (u : string) :
  In KHttp ks -> emits_only ks (axios axios_get u).
Proof. intros H. unfold axios. emits. Qed.

Lemma emits_fetch (axios_get : string -> option string) (currentYear : Z)
    (fileLimit startYear endYear : option Z) :
  emits_only [KLog; KHttp]
    (fetchUsptoZipFileInfos axios_get currentYear fileLimit startYear endYear).
Proof.
  unfold fetchUsptoZipFileInfos, console_log. cbv zeta.
  apply emits_bind; [apply emits_for_push; intros y|intros rs; emits].
  apply emits_bind; [apply emits_axios; cbn; tauto|]. intros r. emits.
Qed.

Lemma emits_sync (axios_get : string -> option string) (dirname__ : string)
    (refs : list UsptoZipFileInfo) (zipFileCacheDir : option string) :
  emits_only [KLog; KHttp; KWrite; KMkdir]
    (synchronizeUsptoZipFiles axios_get dirname__ refs zipFileCacheDir).
Proof.
  unfold synchronizeUsptoZipFiles, console_log. cbv zeta.
  apply emits_bind; [emits|]. intros present.
  apply emits_bind; [emits|]. intros _.
  apply emits_bind; [emits|]. intros cached.
  apply emits_for_of. intros r.
  destruct (negb _); [|emits].
  apply emits_bind; [emits|]. intros _.
  apply emits_bind; [apply emits_axios; cbn; tauto|]. intros resp. emits.
Qed.

Lemma emits_extract
    (AdmZip_extractAllTo : string -> string -> fsys -> result fsys)
    (dirname__ : string) (zipFileCacheDir processedZipFileCacheDir : option string) :
  emits_only [KMkdir; KZip]
    (processCachedUsptoZipFiles AdmZip_extractAllTo dirname__ zipFileCacheDir
       processedZipFileCacheDir).
Proof.
  unfold processCachedUsptoZipFiles, extractAllTo. cbv zeta. emits.
Qed.

Lemma emits_parse (xml2js_parseString : string -> result value) (ks : list kind)
    (p : string) :
  In KRead ks -> In KXml ks ->
  emits_only ks (processUsptoXmlFile xml2js_parseString p).
Proof.
  intros Hr Hx. unfold processUsptoXmlFile, parseStringPromise.
  apply emits_bind; [apply emits_readFileSync; exact Hr|]. intros text.
  destruct (Re.String_match _ text); [|apply emits_throw].
  apply emits_for_push. intros x.
  apply emits_bind;
    [apply emits_bind; [apply emits_emit; exact Hx | intros _; apply emits_lift]|].
  intros v. emits.
Qed.

Lemma emits_materialize (xml2js_parseString : string -> result value)
    (dirname__ : string)
    (usptoXmlFileCacheDir usptoJsonFileCacheDir : option string) :
  emits_only [KRead; KXml; KWrite]
    (processCachedUsptoXmlData xml2js_parseString dirname__
       usptoXmlFileCacheDir usptoJsonFileCacheDir).
Proof.
  unfold processCachedUsptoXmlData, write_json. cbv zeta.
  apply emits_bind; [emits|]. intros names.
  apply emits_for_of. intros p.
  apply emits_bind; [apply emits_parse; cbn; tauto|]. intros recs. emits.
Qed.

Lemma emits_save (model_save : UsptoData -> bool) (ks : list kind)
    (doc : UsptoData) :
  In KSave ks -> emits_only ks (save model_save doc).
Proof.
  intros H w w' out E. rewrite save_run in E. exists [StoreSave doc].
  destruct (model_save doc); injection E as <- _; cbn [trace]; auto.
Qed.

Lemma emits_store
    (connect : option string -> bool) (model_save : UsptoData -> bool)
    (env : option string) (dirname__ : string)
    (connectionString dir ledger : option string) :
  emits_only [KRead; KWrite; KConnect; KSave]
    (synchronizeProcessedDataToMongoDB connect model_save env dirname__
       connectionString dir ledger).
Proof.
  unfold synchronizeProcessedDataToMongoDB, createConnection. cbv zeta.
  apply emits_bind; [emits|]. intros present.
  apply emits_bind; [emits|]. intros names0.
  apply emits_bind; [emits|]. intros names.
  apply emits_bind; [emits|]. intros todo.
  apply emits_bind; [emits|]. intros _.
  apply emits_for_of. intros f.
  apply emits_bind; [emits|]. intros text.
  apply emits_bind; [emits|]. intros parsed.
  apply emits_bind; [emits|]. intros arr.
  apply emits_for_of. intros x.
  apply emits_bind; [emits|]. intros doc.
  apply emits_save. cbn. tauto.
Qed.

(** Calls of kinds that are no request add nothing to the requests. *)
Lemma emits_no_http {A} (ks : list kind) (m : M A) :
  ~ In KHttp ks -> emits_only ks m ->
  forall w w' out, m w = (w', out) -> fetches (trace w') = fetches (trace w).
Proof.
  intros Hk Hm w w' out E. destruct (Hm w w' out E) as (new & -> & F).
  rewrite fetches_app, (no_http_fetches new), app_nil_r; [reflexivity|].
  eapply Forall_impl; [|exact F]. cbn. intros e He Hc.
  rewrite Hc in He. exact (Hk He).
Qed.

Lemma store_axios (axios_get : string -> option string) (u : string) :
  keeps_store (axios axios_get u).
Proof.
  apply store_same. intros w. unfold axios, bind, emit, ret, throw.
  destruct (axios_get u); reflexivity.
Qed.

Lemma store_fetch (axios_get : string -> option string) (currentYear : Z)
    (fileLimit startYear endYear : option Z) :
  keeps_store
    (fetchUsptoZipFileInfos axios_get currentYear fileLimit startYear endYear).
Proof.
  unfold fetchUsptoZipFileInfos, console_log. cbv zeta.
  apply store_bind; [apply store_for_push; intros y|intros rs; stores].
  apply store_bind; [apply store_axios|]. intros r. stores.
Qed.

Lemma store_sync (axios_get : string -> option string) (dirname__ : string)
    (refs : list UsptoZipFileInfo) (zipFileCacheDir : option string) :
  keeps_store
    (synchronizeUsptoZipFiles axios_get dirname__ refs zipFileCacheDir).
Proof.
  unfold synchronizeUsptoZipFiles, console_log. cbv zeta.
  apply store_bind; [stores|]. intros present.
  apply store_bind; [stores|]. intros _.
  apply store_bind; [stores|]. intros cached.
  apply store_for_of. intros r.
  destruct (negb _); [|stores].
  apply store_bind; [stores|]. intros _.
  apply store_bind; [apply store_axios|]. intros resp. stores.
Qed.

Lemma store_extract
    (AdmZip_extractAllTo : string -> string -> fsys -> result fsys)
    (dirname__ : string) (zipFileCacheDir processedZipFileCacheDir : option string) :
  keeps_store
    (processCachedUsptoZipFiles AdmZip_extractAllTo dirname__ zipFileCacheDir
       processedZipFileCacheDir).
Proof.
  unfold processCachedUsptoZipFiles. cbv zeta.
  apply store_bind; [stores|]. intros present.
  apply store_bind; [stores|]. intros _.
  apply store_bind; [stores|]. intros names.
  apply store_for_of. intros p. apply store_same. intros w.
  unfold extractAllTo, bind, emit, get_files, set_files, throw.
  cbn [files]. destruct (AdmZip_extractAllTo _ _ _); reflexivity.
Qed.

Lemma store_materialize (xml2js_parseString : string -> result value)
    (dirname__ : string)
    (usptoXmlFileCacheDir usptoJsonFileCacheDir : option string) :
  keeps_store
    (processCachedUsptoXmlData xml2js_parseString dirname__
       usptoXmlFileCacheDir usptoJsonFileCacheDir).
Proof.
  unfold processCachedUsptoXmlData, write_json. cbv zeta.
  apply store_bind; [stores|]. intros names.
  apply store_for_of. intros p.
  apply store_bind; [|intros recs; stores].
  intros w w' out E.
  exact (proj1 (proj2 (processUsptoXmlFile_trace _ _ _ _ _ E))).
Qed.

(** A call of [synchronizeUsptoZipFiles] fetches at most one archive per
    reference. *)
Lemma sync_fetches_bound (axios_get : string -> option string)
    (dirname__ : string) (refs : list UsptoZipFileInfo)
    (zipFileCacheDir : option string) (w w' : world) (out : result unit) :
  synchronizeUsptoZipFiles axios_get dirname__ refs zipFileCacheDir w
  = (w', out) ->
  exists archives,
    fetches (trace w') = fetches (trace w) ++ archives /\
    List.length archives <= List.length refs.
Proof.
  rewrite sync_unfold. unfold bind at 1.
  set (dir := zip_cache_dir dirname__ zipFileCacheDir).
  destruct (ensure_and_list dir w) as [w1 [cached|e]] eqn:E.
  - destruct (ensure_and_list_quiet dir w w1 _ E) as (F1 & _).
    intros H.
    destruct (loop_prefix axios_get dir cached refs w1 w' out H)
      as (done & rest & Hm & F).
    exists (map url done). rewrite F, F1. split; [reflexivity|].
    rewrite length_map.
    assert (L : List.length (missing cached refs) <= List.length refs)
      by apply filter_length_le.
    rewrite Hm, length_app in L. lia.
  - destruct (ensure_and_list_quiet dir w w1 _ E) as (F1 & _).
    intros H. injection H as <- _. exists []. rewrite app_nil_r.
    split; [exact F1 | cbn; lia].
Qed.

End StageFacts.

Module SectionFacts.
Import Json.
Import StrFacts ReFacts LinkFacts DiscoverFacts SyncFacts ExtractFacts.
Import MaterializeFacts ParseFacts OrderFacts BlobFacts PathFacts.
Import OutPathFacts YearFacts StoreFacts FootprintFacts FetchFacts KeyFacts.
Import FsFacts NameFacts SyncMore ExtractMore BatchFacts RecordFacts.
Import PushFacts LedgerFacts StageFacts.
Import Re.

(** The lazy star stops at the first place where what follows matches. *)
Lemma lazy_star_first (p : ascii -> bool) (s : string) :
  forall k rest,
    lazy_star p s k = Some rest ->
    exists w s',
      s = w +++ s' /\ k s' = Some rest /\
      forall w1 w2, w = w1 +++ w2 -> w2 <> "" -> k (w2 +++ s') = None.
Proof.
  induction s as [|c s IH]; intros k rest H; cbn [lazy_star] in H.
  - destruct (k EmptyString) eqn:Hk; [|discriminate].
    exists EmptyString, EmptyString. split; [reflexivity|]. split; [congruence|].
    intros [|] w2 E; cbn in E; [|discriminate]. congruence.
  - destruct (k (String c s)) eqn:Hk.
    + exists EmptyString, (String c s). split; [reflexivity|].
      split; [congruence|].
      intros [|] w2 E; cbn in E; [|discriminate]. congruence.
    + destruct (p c); [|discriminate].
      destruct (IH _ _ H) as (w & s' & -> & Hk' & Hfirst).
      exists (String c w), s'. split; [reflexivity|]. split; [exact Hk'|].
      intros [|d w1] w2 E Hne; cbn in E.
      * subst w2. exact Hk.
      * injection E as _ E. exact (Hfirst w1 w2 E Hne).
Qed.

(** A match of a regular expression without repetition is still one when
    the text goes on. *)
Lemma run_simple_ext (r : regex) :
  no_repetition r = true ->
  forall s t k k' rest,
    (forall s1 r1, k s1 = Some r1 -> k' (s1 +++ t) = Some (r1 +++ t)) ->
    run r s k = Some rest -> run r (s +++ t) k' = Some (rest +++ t).
Proof.
  induction r as [|p|r1 IH1 r2 IH2|lo hi p|p]; cbn [no_repetition];
    try discriminate; intros S s t k k' rest Hk H; cbn [run] in *.
  - apply Hk. exact H.
  - destruct s as [|c s]; [discriminate|]. cbn [String.append].
    destruct (p c); [|discriminate]. apply Hk. exact H.
  - apply andb_prop in S. destruct S as [S1 S2].
    apply (IH1 S1 s t (fun s' => run r2 s' k)); [|exact H].
    intros s1 r1' H1. exact (IH2 S2 s1 t k k' r1' Hk H1).
Qed.

Lemma exec_simple_ext (r : regex) (s t rest : string) :
  no_repetition r = true -> exec r s = Some rest ->
  exec r (s +++ t) = Some (rest +++ t).
Proof.
  intros S H. apply (run_simple_ext r S s t Some Some); [|exact H].
  intros s1 r1 E. injection E as ->. reflexivity.
Qed.

Lemma section_run (s : string) (k : K) :
  run patentXmlSectionRegularExpression s k
  = run section_open s (fun s3 =>
      lazy_star any s3 (fun s4 => run section_close s4 k)).
Proof. reflexivity. Qed.

(** A match of the section pattern at the head of a text. *)
Lemma exec_section (s rest : string) :
  exec patentXmlSectionRegularExpression s = Some rest ->
  exists m, s = m +++ rest /\ minimal_section m.
Proof.
  unfold exec. rewrite section_run. intros H.
  destruct (run_sound section_open _ _ _ H) as (o & s3 & -> & Lo & H3).
  destruct (lazy_star_first _ _ _ _ H3) as (w & s' & -> & Hc & Hfirst).
  destruct (exec_sound section_close _ _ Hc) as (c & -> & Lc).
  exists (o +++ w +++ c). split.
  - rewrite !StrFacts.append_assoc. reflexivity.
  - exists o, w, c. repeat split; auto.
    intros b1 b2 E Hne.
    destruct (exec section_close (b2 +++ c)) as [r|] eqn:Ex; [|reflexivity].
    apply (exec_simple_ext section_close _ rest r eq_refl) in Ex.
    rewrite StrFacts.append_assoc in Ex.
    unfold exec in Ex. rewrite (Hfirst b1 b2 E Hne) in Ex. discriminate.
Qed.

(** What holds of every match at the head of a text holds of every match
    of the scan. *)
Lemma match_from_all (P : string -> Prop) (r : regex) :
  (forall s rest, exec r s = Some rest -> exists m, s = m +++ rest /\ P m) ->
  forall s skip, Forall P (match_from r skip s).
Proof.
  intros Hall. induction s as [|c s IH]; intros [|n]; cbn [match_from]; auto.
  - destruct (exec r EmptyString) as [rest|] eqn:E; auto.
    destruct (Hall _ _ E) as (m & Hm & Pm).
    destruct m; [|discriminate]. cbn in Hm. subst rest.
    constructor; auto.
  - destruct (exec r (String c s)) as [rest|] eqn:E; auto.
    destruct (Hall _ _ E) as (m & Hm & Pm).
    constructor; auto.
    rewrite Hm, StrFacts.length_append, Nat.add_sub, StrFacts.substring_append.
    exact Pm.
Qed.

End SectionFacts.

Module CollisionFacts.
Import Json.
Import StrFacts ReFacts LinkFacts DiscoverFacts SyncFacts ExtractFacts.
Import MaterializeFacts ParseFacts OrderFacts BlobFacts PathFacts.
Import OutPathFacts YearFacts StoreFacts FootprintFacts FetchFacts KeyFacts.
Import FsFacts NameFacts SyncMore ExtractMore BatchFacts RecordFacts.
Import PushFacts LedgerFacts StageFacts SectionFacts.
Import Str Path.

Lemma path_of_app (a : bool) (X Y : list string) :
  X <> [] -> Y <> [] ->
  path_of a (X ++ Y) = path_of a X +++ String "/" (String.concat "/" Y).
Proof.
  intros HX HY. unfold path_of. rewrite (concat_app X Y HX HY).
  rewrite <- append_assoc. reflexivity.
Qed.

(** The raw path of a file below a directory with a dotted segment, cut
    before its first dot. *)
Lemma json_name_dotted (a : bool) (D1 D2 : list string) (p q f : string) :
  Forall (fun s => seg_plain s = true) D1 -> seg_plain p = true ->
  has "/" q = false ->
  Forall (fun s => seg_ok s = true) D2 -> seg_ok f = true ->
  json_name (join (path_of a (D1 ++ [p +++ "." +++ q] ++ D2)) f)
  = path_of a (D1 ++ [p]) +++ ".json".
Proof.
  intros F1 Hp Hq F2 Hf.
  assert (F1ok : Forall (fun s => seg_ok s = true) D1).
  { eapply Forall_impl; [|exact F1]. intros s Hs. apply (seg_plain_parts s Hs). }
  assert (Hpq : seg_ok (p +++ "." +++ q) = true) by (apply seg_ok_file; assumption).
  assert (FD : Forall (fun s => seg_ok s = true) (D1 ++ [p +++ "." +++ q] ++ D2)).
  { apply Forall_app. split; [exact F1ok|]. constructor; assumption. }
  change f with (path_of false [f]) at 1.
  rewrite (join_paths a false (D1 ++ [p +++ "." +++ q] ++ D2) [f]);
    [| destruct D1; discriminate | discriminate | exact FD
     | constructor; [exact Hf | constructor] ].
  replace ((D1 ++ [p +++ "." +++ q] ++ D2) ++ [f])
    with ((D1 ++ [p +++ "." +++ q]) ++ (D2 ++ [f]))
    by (rewrite <- !app_assoc; reflexivity).
  rewrite path_of_app;
    [| destruct D1; discriminate | destruct D2; discriminate].
  rewrite path_of_snoc_append, !append_assoc.
  apply json_name_cut. apply has_path_of; [reflexivity|].
  apply Forall_app. split.
  - eapply Forall_impl; [|exact F1]. intros s Hs. apply (seg_plain_parts s Hs).
  - constructor; [apply (seg_plain_parts p Hp) | constructor].
Qed.

End CollisionFacts.


(** ** The objects of XML documents *)

Module XmlFacts.
Import Json StrFacts JsonFacts BlobFacts.

Lemma assoc_push_same (k : string) (v : value) (obj : list (string * value)) :
  assoc k (assign_or_push k v obj)
  = Some (match assoc k obj with
          | Some (Arr l) => Arr (l ++ [v])
          | Some y => Arr [y; v]
          | None => Arr [v]
          end).
Proof.
  induction obj as [|[k' x] obj IH]; cbn [assign_or_push assoc].
  - rewrite String.eqb_refl. reflexivity.
  - destruct (String.eqb k' k) eqn:E; cbn [assoc]; rewrite E; [|exact IH].
    destruct x; reflexivity.
Qed.

Lemma assoc_push_other (k k' : string) (v : value)
    (obj : list (string * value)) :
  String.eqb k k' = false ->
  assoc k' (assign_or_push k v obj) = assoc k' obj.
Proof.
  intros N. induction obj as [|[k0 x] obj IH]; cbn [assign_or_push assoc].
  - rewrite N. reflexivity.
  - destruct (String.eqb k0 k) eqn:E; cbn [assoc].
    + apply String.eqb_eq in E. subst k0. rewrite N. reflexivity.
    + destruct (String.eqb k0 k'); [reflexivity | exact IH].
Qed.

Lemma push_not_nil (k : string) (v : value) (obj : list (string * value)) :
  assign_or_push k v obj <> [].
Proof.
  destruct obj as [|[k' x] obj]; cbn [assign_or_push]; [discriminate|].
  destruct (String.eqb k' k); discriminate.
Qed.

Section FillFacts.
Variable node : xml -> value.

Lemma assoc_fill_pushed (n : string) (l : list xml) :
  forall obj a,
    assoc n obj = Some (Arr a) ->
    assoc n (fill node l obj)
    = Some (Arr (a ++ map node (filter (is_named n) l))).
Proof.
  induction l as [|c l IH]; intros obj a H; cbn [fill filter map].
  - rewrite app_nil_r. exact H.
  - destruct c as [s|m ats ct]; cbn [is_named].
    + apply IH. exact H.
    + destruct (String.eqb m n) eqn:E.
      * apply String.eqb_eq in E. subst m. cbn [map].
        rewrite (IH _ (a ++ [node (Elem n ats ct)])).
        -- rewrite <- app_assoc. reflexivity.
        -- rewrite assoc_push_same, H. reflexivity.
      * apply IH. rewrite assoc_push_other; assumption.
Qed.

Lemma assoc_fill_fresh (n : string) (l : list xml) :
  forall obj,
    assoc n obj = None ->
    assoc n (fill node l obj)
    = match filter (is_named n) l with
      | [] => None
      | x => Some (Arr (map node x))
      end.
Proof.
  induction l as [|c l IH]; intros obj H; cbn [fill filter].
  - exact H.
  - destruct c as [s|m ats ct]; cbn [is_named].
    + apply IH. exact H.
    + destruct (String.eqb m n) eqn:E.
      * apply String.eqb_eq in E. subst m.
        rewrite (assoc_fill_pushed n l _ [node (Elem n ats ct)]).
        -- reflexivity.
        -- rewrite assoc_push_same, H. reflexivity.
      * apply IH. rewrite assoc_push_other; assumption.
Qed.

Lemma assoc_fill_other (k : string) (l : list xml) :
  filter (is_named k) l = [] ->
  forall obj, assoc k (fill node l obj) = assoc k obj.
Proof.
  induction l as [|c l IH]; intros F obj; cbn [fill]; [reflexivity|].
  cbn [filter] in F. destruct c as [s|m ats ct]; cbn [is_named] in F.
  - apply IH. exact F.
  - destruct (String.eqb m k) eqn:E; [discriminate|].
    rewrite (IH F). apply assoc_push_other. exact E.
Qed.

Lemma fill_nil (l : list xml) :
  forall obj, fill node l obj = [] -> obj = [] /\ filter is_elem l = [].
Proof.
  induction l as [|c l IH]; intros obj H; cbn [fill filter] in *; [auto|].
  destruct c as [s|m ats ct]; cbn [is_elem].
  - apply IH. exact H.
  - destruct (IH _ H) as [P _]. destruct (push_not_nil _ _ _ P).
Qed.

Lemma fill_text (l : list xml) :
  filter is_elem l = [] -> fill node l [] = [].
Proof.
  induction l as [|c l IH]; cbn [fill filter]; [reflexivity|].
  destruct c as [s|m ats ct]; cbn [is_elem]; [exact IH | discriminate].
Qed.

End FillFacts.

(** *** Names *)

Lemma letter_not_digit (c : ascii) :
  Str.is_letter c = true -> Str.is_digit c = false.
Proof.
  destruct c as [[] [] [] [] [] [] [] []]; vm_compute; intros; congruence.
Qed.

Lemma name_ok_parts (n : string) :
  name_ok n = true ->
  is_index n = false /\ String.eqb n "_" = false /\ String.eqb n "$" = false.
Proof.
  destruct n as [|c r]; cbn [name_ok]; [discriminate|].
  intros H. apply andb_true_iff in H. destruct H as [L _].
  repeat split.
  - cbn [is_index Str.all]. rewrite (letter_not_digit c L). reflexivity.
  - cbn [String.eqb]. destruct (Ascii.eqb_spec c "_"); [|reflexivity].
    subst c. discriminate.
  - cbn [String.eqb]. destruct (Ascii.eqb_spec c "$"); [|reflexivity].
    subst c. discriminate.
Qed.

Lemma clean_content (tag : string) (ats : list (string * string))
    (ct : list xml) :
  clean (Elem tag ats ct) = true ->
  name_ok tag = true /\
  forallb (fun a => name_ok (fst a)) ats = true /\
  distinct (map fst ats) = true /\
  Forall (fun c => clean c = true) ct.
Proof.
  cbn [clean]. intros H.
  apply andb_true_iff in H. destruct H as [H C].
  apply andb_true_iff in H. destruct H as [H D].
  apply andb_true_iff in H. destruct H as [N A].
  repeat split; auto. apply Forall_forall. intros c Hc.
  exact (proj1 (forallb_forall _ _) C c Hc).
Qed.

(** Only an element of a plain name is found under a name. *)
Lemma clean_named (k : string) (c : xml) :
  clean c = true -> is_named k c = true -> name_ok k = true.
Proof.
  destruct c as [s|m ats ct]; cbn [is_named]; [discriminate|].
  intros C E. apply String.eqb_eq in E. subst m.
  apply (clean_content _ _ _ C).
Qed.

Lemma no_odd_child (k : string) (l : list xml) :
  Forall (fun c => clean c = true) l -> name_ok k = false ->
  filter (is_named k) l = [].
Proof.
  intros F N. induction F as [|c l C _ IH]; cbn [filter]; [reflexivity|].
  destruct (is_named k c) eqn:E; [|exact IH].
  rewrite (clean_named k c C E) in N. discriminate.
Qed.

Lemma clean_elements (n : string) (t : xml) :
  clean t = true -> Forall (fun c => clean c = true) (elements n t).
Proof.
  intros C. unfold elements. destruct t as [s|m ats ct]; cbn [xml_content].
  - constructor.
  - destruct (clean_content _ _ _ C) as (_ & _ & _ & F).
    apply Forall_forall. intros c Hc. apply filter_In in Hc.
    exact (proj1 (Forall_forall _ _) F c (proj1 Hc)).
Qed.

Lemma clean_child (n : string) (t : xml) :
  clean t = true -> clean (child n t) = true.
Proof.
  intros C. unfold child. pose proof (clean_elements n t C) as F.
  destruct (elements n t); [reflexivity|].
  inversion F; subst. assumption.
Qed.

(** *** Property reads on the object of an element *)

Lemma attr_members_none (k : string) (ats : list (string * string)) :
  String.eqb k "$" = false -> assoc k (attr_members ats) = None.
Proof.
  intros N. destruct ats; cbn [attr_members assoc]; [reflexivity|].
  rewrite String.eqb_sym, N. reflexivity.
Qed.

Lemma get_close (n text : string) (members : list (string * value)) :
  String.eqb n "_" = false ->
  get n (close_tag text members)
  = Ok (match assoc n members with Some x => x | None => Undefined end).
Proof.
  intros N. unfold close_tag. destruct members as [|m ms]; [reflexivity|].
  destruct (Str.all Str.is_space text); cbn [get assoc]; [reflexivity|].
  rewrite String.eqb_sym, N. reflexivity.
Qed.

(** [x[n]] for a plain name. *)
Lemma get_sub (n : string) (t : xml) :
  name_ok n = true -> get n (xml2js_node t) = Ok (sub_nodes n t).
Proof.
  intros Hn. destruct (name_ok_parts n Hn) as (_ & N1 & N2).
  destruct t as [s|tag ats ct]; [reflexivity|].
  cbn [xml2js_node]. rewrite (get_close n _ _ N1).
  rewrite (assoc_fill_fresh xml2js_node n ct _ (attr_members_none n ats N2)).
  unfold sub_nodes, elements. cbn [xml_content].
  destruct (filter (is_named n) ct); reflexivity.
Qed.

(** [x['_']]. *)
Lemma get_text (t : xml) :
  clean t = true -> get "_" (xml2js_node t) = Ok (own_text t).
Proof.
  destruct t as [s|tag ats ct]; [reflexivity|]. intros C.
  destruct (clean_content _ _ _ C) as (_ & _ & _ & F).
  cbn [xml2js_node own_text].
  set (members := fill xml2js_node ct (attr_members ats)).
  assert (A : assoc "_" members = None).
  { unfold members.
    rewrite (assoc_fill_other xml2js_node "_" ct (no_odd_child "_" ct F eq_refl)).
    apply attr_members_none. reflexivity. }
  unfold close_tag. destruct members as [|m ms] eqn:M.
  - destruct (fill_nil xml2js_node ct _ M) as [A0 E0].
    destruct ats; [|discriminate]. rewrite E0.
    destruct (Str.all Str.is_space (chardata ct)); reflexivity.
  - destruct (Str.all Str.is_space (chardata ct)).
    + cbn [get]. rewrite A. reflexivity.
    + cbn [get assoc String.eqb Ascii.eqb Bool.eqb].
      destruct ats as [|a ats]; [|reflexivity].
      destruct (filter is_elem ct) eqn:E; [|reflexivity].
      unfold members in M. cbn [attr_members] in M.
      rewrite (fill_text xml2js_node ct E) in M. discriminate.
Qed.

Lemma assoc_map_str (k : string) (ats : list (string * string)) :
  assoc k (map (fun a => (fst a, Str (snd a))) ats)
  = match assoc k ats with Some v => Some (Str v) | None => None end.
Proof.
  induction ats as [|[k' v] ats IH]; cbn [map assoc fst snd]; [reflexivity|].
  destruct (String.eqb k' k); [reflexivity | exact IH].
Qed.

(** [x['$'][k]]. *)
Lemma get_attribute (k : string) (t : xml) :
  clean t = true -> present (xml_attrs t) = true ->
  rbind (get "$" (xml2js_node t)) (get k) = Ok (attribute k t).
Proof.
  destruct t as [s|tag ats ct]; [discriminate|]. intros C P.
  destruct (clean_content _ _ _ C) as (_ & _ & _ & F).
  cbn [xml_attrs] in P. cbn [xml2js_node].
  rewrite (get_close "$" _ _ eq_refl).
  rewrite (assoc_fill_other xml2js_node "$" ct (no_odd_child "$" ct F eq_refl)).
  destruct ats as [|a ats]; [discriminate|].
  cbn [attr_members assoc String.eqb Ascii.eqb Bool.eqb rbind get].
  rewrite assoc_map_str. unfold attribute. cbn [xml_attrs].
  destruct (assoc k (a :: ats)); reflexivity.
Qed.

(** [x[n][0]]. *)
Lemma get_child (n : string) (t : xml) :
  name_ok n = true -> present (elements n t) = true ->
  rbind (get n (xml2js_node t)) get0 = Ok (xml2js_node (child n t)).
Proof.
  intros Hn P. rewrite (get_sub n t Hn). unfold sub_nodes, child.
  destruct (elements n t); [discriminate | reflexivity].
Qed.

Lemma present_child (n m : string) (t : xml) :
  present (elements m (child n t)) = true -> present (elements n t) = true.
Proof.
  unfold child. destruct (elements n t); [discriminate | reflexivity].
Qed.

Lemma present_child_attrs (n : string) (t : xml) :
  present (xml_attrs (child n t)) = true -> present (elements n t) = true.
Proof.
  unfold child. destruct (elements n t); [discriminate | reflexivity].
Qed.

Lemma rmap_own_text (l : list xml) :
  Forall (fun c => clean c = true) l ->
  rmap (fun x => get "_" x) (map xml2js_node l) = Ok (map own_text l).
Proof.
  induction 1 as [|c l C _ IH]; [reflexivity|].
  cbn [map rmap]. rewrite (get_text c C), IH. reflexivity.
Qed.

Lemma nav_first (k : string) (v : value) :
  nav [K k; I0] v = rbind (get k v) get0.
Proof.
  cbn [nav]. destruct (get k v) as [x|e]; cbn [rbind]; [|reflexivity].
  destruct (get0 x); reflexivity.
Qed.

Lemma rmap_claim_texts (l : list xml) :
  forallb (fun cl => present (elements "claim-text" cl)) l = true ->
  rmap (fun claim => nav [K "claim-text"; I0] claim) (map xml2js_node l)
  = Ok (map (fun cl => xml2js_node (child "claim-text" cl)) l).
Proof.
  induction l as [|c l IH]; [reflexivity|]. cbn [forallb]. intros H.
  apply andb_true_iff in H. destruct H as [P H].
  cbn [map rmap]. rewrite (IH H), nav_first.
  rewrite (get_child "claim-text" c eq_refl P). reflexivity.
Qed.

Lemma rmap_claim_of (l : list xml) :
  Forall (fun c => clean c = true) l ->
  rmap (fun claim =>
          rbind (get "_" claim) (fun genericClaim =>
          rbind (get "claim-text" claim) (fun individualClaims =>
          Ok (Obj [ ("genericClaim", genericClaim);
                    ("individualClaims", individualClaims) ]))))
    (map (fun cl => xml2js_node (child "claim-text" cl)) l)
  = Ok (map (fun cl => claim_of (child "claim-text" cl)) l).
Proof.
  induction 1 as [|c l C _ IH]; [reflexivity|].
  cbn [map rmap].
  rewrite (get_text _ (clean_child "claim-text" c C)).
  rewrite (get_sub "claim-text" _ eq_refl). cbn [rbind]. rewrite IH.
  reflexivity.
Qed.

(** *** The chains of reads *)

Lemma rbind_Ok {A} (r : result A) : rbind r Ok = r.
Proof. destruct r; reflexivity. Qed.

Lemma nav_root (steps : list step) (ats : list (string * string))
    (ct : list xml) :
  nav (upa :: steps) (xml2js_value (Elem "us-patent-application" ats ct))
  = nav steps (xml2js_node (Elem "us-patent-application" ats ct)).
Proof. reflexivity. Qed.

Lemma nav_child (n : string) (rest : list step) (t : xml) :
  name_ok n = true -> present (elements n t) = true ->
  nav (K n :: I0 :: rest) (xml2js_node t)
  = nav rest (xml2js_node (child n t)).
Proof.
  intros Hn P. pose proof (get_child n t Hn P) as G. cbn [nav].
  destruct (get n (xml2js_node t)) as [x|e]; [|discriminate].
  cbn [rbind] in *. rewrite G. reflexivity.
Qed.

Lemma nav_attribute (k : string) (t : xml) :
  clean t = true -> present (xml_attrs t) = true ->
  nav [K "$"; K k] (xml2js_node t) = Ok (attribute k t).
Proof.
  intros C P. pose proof (get_attribute k t C P) as G. cbn [nav].
  destruct (get "$" (xml2js_node t)) as [x|e]; [|discriminate].
  cbn [rbind] in *. rewrite G. reflexivity.
Qed.

Lemma nav_sub (n : string) (t : xml) :
  name_ok n = true -> nav [K n] (xml2js_node t) = Ok (sub_nodes n t).
Proof. intros Hn. cbn [nav]. rewrite (get_sub n t Hn). reflexivity. Qed.

Lemma nav_text (t : xml) :
  clean t = true -> nav [K "_"] (xml2js_node t) = Ok (own_text t).
Proof. intros C. cbn [nav]. rewrite (get_text t C). reflexivity. Qed.

Lemma sub_nodes_present (n : string) (t : xml) :
  present (elements n t) = true ->
  sub_nodes n t = Arr (map xml2js_node (elements n t)).
Proof. unfold sub_nodes. destruct (elements n t); [discriminate | reflexivity]. Qed.

(** The reads of [processUsptoXmlFile] on the object of a well-formed
    document: every list in the order of its nodes. *)
Lemma application_value (t : xml) :
  application t = true ->
  processedPatentData (xml2js_value t) = Ok (application_data t).
Proof.
  unfold application. intros H.
  repeat match type of H with
    | (_ && _)%bool = true =>
        let H' := fresh "H" in
        apply andb_true_iff in H; destruct H as [H H']
    end.
  rename H into Hroot, H7 into Hattrs, H6 into C, H5 into Hp, H4 into Hc,
    H3 into Hct, H2 into Hh, H1 into Hti, H0 into Hdn.
  destruct t as [s|tag ats ct]; [discriminate|].
  cbn [is_named] in Hroot. apply String.eqb_eq in Hroot. subst tag.
  set (t := Elem "us-patent-application" ats ct) in *.
  unfold paragraphs in Hp. unfold claims in Hc, Hct. unfold headings in Hh.
  unfold title in Hti.
  set (bib := child "us-bibliographic-data-application" t) in *.
  assert (Pbib : present (elements "us-bibliographic-data-application" t) = true).
  { apply (present_child _ "invention-title").
    apply present_child_attrs. exact Hti. }
  assert (Cbib : clean bib = true) by (apply clean_child; exact C).
  unfold processedPatentData, biblio. unfold t at 1 2 3 4 5 6 7 8 9 10 11 12 13.
  rewrite !nav_root. fold t.
  rewrite !(nav_attribute _ t C Hattrs). cbn [rbind].
  (* the abstract *)
  rewrite (nav_child "abstract" _ t eq_refl (present_child _ _ _ Hp)).
  rewrite (nav_sub "p" _ eq_refl), (sub_nodes_present "p" _ Hp).
  cbn [rbind map_].
  rewrite (rmap_own_text _ (clean_elements "p" _ (clean_child "abstract" t C))).
  cbn [rbind].
  (* the claims *)
  rewrite (nav_child "claims" _ t eq_refl (present_child _ _ _ Hc)).
  rewrite (nav_sub "claim" _ eq_refl), (sub_nodes_present "claim" _ Hc).
  cbn [rbind map_]. rewrite (rmap_claim_texts _ Hct). cbn [rbind map_].
  rewrite (rmap_claim_of _ (clean_elements "claim" _ (clean_child "claims" t C))).
  cbn [rbind].
  (* the headings *)
  rewrite (nav_child "description" _ t eq_refl (present_child _ _ _ Hh)).
  rewrite (nav_sub "heading" _ eq_refl), (sub_nodes_present "heading" _ Hh).
  cbn [rbind map_].
  rewrite (rmap_own_text _
             (clean_elements "heading" _ (clean_child "description" t C))).
  cbn [rbind].
  (* the bibliographic data *)
  rewrite !(nav_child "us-bibliographic-data-application" _ t eq_refl Pbib).
  fold bib.
  rewrite !(nav_child "invention-title" _ bib eq_refl
              (present_child_attrs _ _ Hti)).
  rewrite (nav_text _ (clean_child "invention-title" bib Cbib)).
  rewrite (nav_attribute "id" _ (clean_child "invention-title" bib Cbib) Hti).
  cbn [rbind].
  unfold doc_numbers in Hdn. fold bib in Hdn.
  rewrite (nav_child "publication-reference" _ bib eq_refl
             (present_child _ _ _ (present_child _ _ _ Hdn))).
  rewrite (nav_child "document-id" _ _ eq_refl (present_child _ _ _ Hdn)).
  rewrite (nav_child "doc-number" _ _ eq_refl Hdn).
  cbn [nav rbind]. reflexivity.
Qed.

(** *** The objects are those JSON texts denote *)

Lemma includes_push (x k : string) (v : value) (obj : list (string * value)) :
  includes x (map fst (assign_or_push k v obj))
  = (includes x (map fst obj) || String.eqb x k)%bool.
Proof.
  unfold includes.
  induction obj as [|[k' y] obj IH]; cbn [assign_or_push map fst existsb].
  - apply orb_comm.
  - destruct (String.eqb k' k) eqn:E; cbn [map fst existsb].
    + apply String.eqb_eq in E. subst k'.
      destruct (String.eqb x k); cbn [orb]; [reflexivity|].
      rewrite orb_false_r. reflexivity.
    + rewrite IH, orb_assoc. reflexivity.
Qed.

Lemma tidy_arr (l : list value) : tidy (Arr l) = forallb tidy l.
Proof. reflexivity. Qed.

Lemma pushed_tidy (y v : value) :
  tidy y = true -> tidy v = true ->
  tidy (match y with
        | Arr l => Arr (l ++ [v])
        | _ => Arr [y; v]
        end) = true.
Proof.
  intros Ty Tv. destruct y; rewrite tidy_arr;
    try (cbn [forallb]; rewrite Ty, Tv; reflexivity).
  rewrite tidy_arr in Ty. rewrite forallb_app, Ty. cbn [forallb].
  rewrite Tv. reflexivity.
Qed.

Lemma push_ok (k : string) (v : value) (obj : list (string * value)) :
  members_ok obj -> tidy v = true -> name_ok k = true ->
  members_ok (assign_or_push k v obj).
Proof.
  intros (T & D & I & U) Tv Hk.
  destruct (name_ok_parts k Hk) as (Ik & Uk & _).
  repeat split.
  - clear D I U. induction obj as [|[k' y] obj IH];
      cbn [assign_or_push forallb snd].
    + rewrite tidy_arr. cbn [forallb]. rewrite Tv. reflexivity.
    + cbn [forallb snd] in T. apply andb_true_iff in T. destruct T as [Ty T].
      destruct (String.eqb k' k); cbn [forallb snd].
      * rewrite T, andb_true_r. apply pushed_tidy; assumption.
      * rewrite Ty, (IH T). reflexivity.
  - clear T I U. induction obj as [|[k' y] obj IH];
      cbn [assign_or_push map fst distinct]; [reflexivity|].
    cbn [map fst distinct] in D. apply andb_true_iff in D.
    destruct D as [N D].
    destruct (String.eqb k' k) eqn:E; cbn [map fst distinct].
    + rewrite N, D. reflexivity.
    + rewrite includes_push, E, orb_false_r, N, (IH D). reflexivity.
  - clear T D U. induction obj as [|[k' y] obj IH];
      cbn [assign_or_push existsb fst].
    + rewrite Ik. reflexivity.
    + cbn [existsb fst] in I. apply orb_false_iff in I. destruct I as [I0 I].
      destruct (String.eqb k' k); cbn [existsb fst].
      * rewrite I0, I. reflexivity.
      * rewrite I0, (IH I). reflexivity.
  - rewrite includes_push, U, String.eqb_sym, Uk. reflexivity.
Qed.

Lemma fill_ok (node : xml -> value) (l : list xml) :
  Forall (fun c => clean c = true -> tidy (node c) = true) l ->
  Forall (fun c => clean c = true) l ->
  forall obj, members_ok obj -> members_ok (fill node l obj).
Proof.
  intros F. induction F as [|c l Hc _ IH]; intros C obj M; cbn [fill];
    [exact M|].
  inversion C as [|? ? Cc Cl]; subst.
  destruct c as [s|m ats ct]; [exact (IH Cl obj M)|].
  apply (IH Cl). apply push_ok; [exact M | exact (Hc Cc) |].
  apply (clean_content _ _ _ Cc).
Qed.

Lemma attrs_tidy (l : list (string * string)) :
  forallb (fun a => name_ok (fst a)) l = true ->
  distinct (map fst l) = true ->
  tidy (Obj (map (fun a => (fst a, Str (snd a))) l)) = true.
Proof.
  intros N D. cbn [tidy]. rewrite map_map. cbn [fst].
  replace (map (fun x : string * string => fst x) l) with (map fst l)
    by reflexivity.
  rewrite D, andb_true_r.
  assert (T : forallb (fun kv : string * value => tidy (snd kv))
                (map (fun a : string * string => (fst a, Str (snd a))) l)
              = true).
  { clear. induction l; cbn; auto. }
  assert (I : existsb (fun kv : string * value => is_index (fst kv))
                (map (fun a : string * string => (fst a, Str (snd a))) l)
              = false).
  { clear - N. induction l as [|b l IH]; cbn [map existsb fst]; [reflexivity|].
    cbn [forallb] in N. apply andb_true_iff in N. destruct N as [Nb N].
    rewrite (proj1 (name_ok_parts _ Nb)), (IH N). reflexivity. }
  rewrite T, I. reflexivity.
Qed.

Lemma attr_members_ok (ats : list (string * string)) :
  forallb (fun a => name_ok (fst a)) ats = true ->
  distinct (map fst ats) = true ->
  members_ok (attr_members ats).
Proof.
  intros N D. destruct ats as [|a ats]; [repeat split|].
  set (l := a :: ats) in *. unfold attr_members, l at 1.
  repeat split; cbn [forallb snd]; try reflexivity.
  rewrite (attrs_tidy l N D). reflexivity.
Qed.

Lemma close_tag_tidy (text : string) (members : list (string * value)) :
  members_ok members -> tidy (close_tag text members) = true.
Proof.
  intros (T & D & I & U). unfold close_tag.
  destruct members as [|m ms]; [reflexivity|].
  destruct (Str.all Str.is_space text).
  - cbn [tidy]. rewrite T, D, I. reflexivity.
  - set (l := m :: ms) in *. cbn [tidy forallb snd map fst distinct existsb].
    rewrite T, D, I, U. reflexivity.
Qed.

(** The object of a clean document has distinct, non-index names. *)
Lemma node_tidy (t : xml) : clean t = true -> tidy (xml2js_node t) = true.
Proof.
  induction t as [s|tag ats ct IH] using xml_ind; [reflexivity|].
  intros C. destruct (clean_content _ _ _ C) as (_ & N & D & F).
  cbn [xml2js_node]. apply close_tag_tidy.
  apply fill_ok; [exact IH | exact F | apply attr_members_ok; assumption].
Qed.

Lemma ser_some (v : value) : v <> Undefined -> ser v = Some (enc v).
Proof. unfold enc. destruct v; cbn [ser]; congruence. Qed.

Lemma denoted_defined (v : value) : denoted v <> Undefined.
Proof. destruct v; discriminate. Qed.

(** The text of a value is the text of what it denotes. *)
Lemma enc_denoted (v : value) : enc (denoted v) = enc v.
Proof.
  induction v as [| |s|l IH|l IH] using value_ind; try reflexivity.
  - unfold enc. cbn [denoted ser]. do 2 f_equal. f_equal.
    rewrite map_map. apply map_ext_in. intros x Hx.
    exact (proj1 (Forall_forall _ _) IH x Hx).
  - unfold enc. cbn [denoted ser]. do 2 f_equal. f_equal.
    induction IH as [|[k x] l Hx _ IHl]; [reflexivity|].
    cbn [flat_map]. rewrite flat_map_app, IHl. f_equal.
    cbn [snd fst] in *.
    destruct x as [| |s|a|o] eqn:X; [reflexivity| | | |]; rewrite <- X in *;
      (assert (D : x <> Undefined) by (rewrite X; discriminate));
      (replace (match x with
                | Undefined => []
                | _ => [(k, denoted x)]
                end) with [(k, denoted x)] by (rewrite X; reflexivity));
      cbn [flat_map snd fst];
      rewrite (ser_some _ (denoted_defined x)), Hx, (ser_some x D);
      reflexivity.
Qed.

Lemma plain_denoted (v : value) : plain (denoted v) = true.
Proof.
  induction v as [| |s|l IH|l IH] using value_ind; try reflexivity.
  - cbn [denoted plain]. induction IH as [|x l Hx _ IHl]; [reflexivity|].
    cbn [map forallb]. rewrite Hx, IHl. reflexivity.
  - cbn [denoted plain]. induction IH as [|[k x] l Hx _ IHl]; [reflexivity|].
    cbn [flat_map snd fst]. cbn [snd] in Hx.
    destruct x; cbn [app forallb snd]; rewrite ?Hx, ?IHl; try reflexivity;
      exact IHl.
Qed.

Lemma includes_kept (k : string) (l : list (string * value)) :
  includes k (map fst l) = false ->
  includes k
    (map fst (flat_map (fun kv => match snd kv with
                                  | Undefined => []
                                  | _ => [(fst kv, denoted (snd kv))]
                                  end) l)) = false.
Proof.
  unfold includes. induction l as [|[k' x] l IH]; [reflexivity|].
  cbn [map fst existsb flat_map snd]. intros H.
  apply orb_false_iff in H. destruct H as [E H].
  destruct x; cbn [app map fst existsb]; rewrite ?E, ?(IH H); auto.
Qed.

Lemma tidy_denoted (v : value) : tidy v = true -> tidy (denoted v) = true.
Proof.
  induction v as [| |s|l IH|l IH] using value_ind; try reflexivity.
  - cbn [denoted tidy]. induction IH as [|x l Hx _ IHl]; [reflexivity|].
    cbn [map forallb]. intros T. apply andb_true_iff in T.
    destruct T as [Tx T]. rewrite (Hx Tx), (IHl T). reflexivity.
  - cbn [denoted tidy]. intros T.
    apply andb_true_iff in T. destruct T as [T I].
    apply andb_true_iff in T. destruct T as [T D].
    apply negb_true_iff in I.
    induction IH as [|[k x] l Hx _ IHl]; [reflexivity|].
    cbn [forallb snd] in T. apply andb_true_iff in T. destruct T as [Tx T].
    cbn [map fst distinct] in D. apply andb_true_iff in D.
    destruct D as [N D]. apply negb_true_iff in N.
    cbn [existsb fst] in I. apply orb_false_iff in I. destruct I as [Ik I].
    specialize (IHl T D I).
    apply andb_true_iff in IHl. destruct IHl as [IHl I'].
    apply andb_true_iff in IHl. destruct IHl as [T' D'].
    apply negb_true_iff in I'.
    cbn [flat_map snd fst]. cbn [snd] in Hx.
    destruct x; cbn [app forallb snd map fst distinct existsb];
      rewrite ?(Hx Tx), ?T', ?D', ?I', ?Ik, ?(includes_kept k l N);
      reflexivity.
Qed.

(** [JSON.parse(JSON.stringify(v))] for a value with [undefined] inside.  *)
Lemma stringify_denoted (v : value) :
  v <> Undefined -> tidy v = true ->
  exists text, JSON_stringify v = Str text /\ JSON_parse text = Ok (denoted v).
Proof.
  intros Hv T.
  destruct (JSON_roundtrip (denoted v) (plain_denoted v) (tidy_denoted v T))
    as (text & Hs & Hp).
  exists text. split; [|exact Hp].
  unfold JSON_stringify in *.
  rewrite (ser_some _ (denoted_defined v)), enc_denoted in Hs.
  rewrite (ser_some v Hv). exact Hs.
Qed.

Lemma own_text_tidy (l : list xml) : tidy (Arr (map own_text l)) = true.
Proof.
  cbn [tidy]. induction l as [|t l IH]; [reflexivity|].
  cbn [map forallb]. rewrite IH, andb_true_r.
  destruct t as [s|tag ats ct]; [reflexivity|]. cbn [own_text].
  destruct (Str.all Str.is_space (chardata ct)); [reflexivity|].
  destruct ats; [destruct (filter is_elem ct)|]; reflexivity.
Qed.

Lemma sub_nodes_tidy (n : string) (t : xml) :
  clean t = true -> tidy (sub_nodes n t) = true.
Proof.
  intros C. unfold sub_nodes. pose proof (clean_elements n t C) as F.
  destruct (elements n t) as [|x l]; [reflexivity|].
  cbn [tidy]. induction F as [|c r Cc _ IH]; [reflexivity|].
  cbn [map forallb]. rewrite (node_tidy c Cc), IH. reflexivity.
Qed.

Lemma claims_tidy (l : list xml) :
  Forall (fun c => clean c = true) l ->
  tidy (Arr (map (fun cl => claim_of (child "claim-text" cl)) l)) = true.
Proof.
  cbn [tidy]. induction 1 as [|c l C _ IH]; [reflexivity|].
  cbn [map forallb]. rewrite IH, andb_true_r.
  unfold claim_of. cbn [tidy forallb snd map fst distinct existsb].
  rewrite (sub_nodes_tidy "claim-text" _ (clean_child "claim-text" c C)).
  pose proof (own_text_tidy [child "claim-text" c]) as O.
  cbn [tidy map forallb] in O. rewrite andb_true_r in O. rewrite O.
  reflexivity.
Qed.

End XmlFacts.

(** ** The sections of a batch file *)

Module ScanFacts.
Import StrFacts ReFacts NameFacts SectionFacts.
Import Re.

Lemma chars_append (a b : string) :
  Str.chars (a +++ b) = Str.chars a ++ Str.chars b.
Proof. induction a as [|c a IH]; cbn; [reflexivity | rewrite IH; reflexivity]. Qed.

(** A match of a regular expression without repetition has one character
    for each of its classes. *)
Lemma lang_flat (r : regex) :
  no_repetition r = true ->
  forall w, lang r w ->
    Forall2 (fun p c => p c = true) (flat r) (Str.chars w).
Proof.
  induction r as [|p|r1 IH1 r2 IH2|lo hi p|p]; cbn [no_repetition];
    try discriminate; intros S w L; cbn [lang flat] in *.
  - subst w. constructor.
  - destruct L as (c & -> & Hc). repeat constructor. exact Hc.
  - apply andb_prop in S. destruct S as [S1 S2].
    destruct L as (w1 & w2 & -> & L1 & L2).
    rewrite chars_append. apply Forall2_app; auto.
Qed.

Lemma lang_width (r : regex) (w : string) :
  no_repetition r = true -> lang r w ->
  String.length w = List.length (flat r).
Proof.
  intros S L. rewrite <- chars_length.
  symmetry. exact (Forall2_length (lang_flat r S w L)).
Qed.

(** Such a match is found wherever it stands. *)
Lemma run_simple_complete (r : regex) :
  no_repetition r = true ->
  forall w s k, lang r w -> run r (w +++ s) k = k s.
Proof.
  induction r as [|p|r1 IH1 r2 IH2|lo hi p|p]; cbn [no_repetition];
    try discriminate; intros S w s k L; cbn [lang run] in *.
  - subst w. reflexivity.
  - destruct L as (c & -> & Hc). cbn [String.append]. rewrite Hc. reflexivity.
  - apply andb_prop in S. destruct S as [S1 S2].
    destruct L as (w1 & w2 & -> & L1 & L2).
    rewrite append_assoc, (IH1 S1 w1 _ _ L1). apply IH2; assumption.
Qed.

Lemma append_split (x1 : string) :
  forall x2 y1 y2, x1 +++ y1 = x2 +++ y2 ->
    (exists z, x1 = x2 +++ z /\ y2 = z +++ y1) \/
    (exists z, x2 = x1 +++ z /\ y1 = z +++ y2).
Proof.
  induction x1 as [|c x1 IH]; intros x2 y1 y2 E; cbn [String.append] in E.
  - right. exists x2. auto.
  - destruct x2 as [|d x2]; cbn [String.append] in E.
    + left. exists (String c x1). auto.
    + injection E as <- E. destruct (IH _ _ _ E) as [(z & -> & ->)|(z & -> & ->)];
        [left | right]; exists z; auto.
Qed.

Lemma append_prefix (x t w y : string) :
  x +++ t = w +++ y -> String.length w <= String.length x ->
  exists x', x = w +++ x'.
Proof.
  intros E L. destruct (append_split x w t y E) as [(z & -> & _)|(z & -> & _)].
  - eauto.
  - rewrite length_append in L. destruct z; [|cbn in L; lia].
    exists EmptyString. rewrite !append_nil_r. reflexivity.
Qed.

(** Where it is not found in a text that is long enough, it is not found
    when the text goes on. *)
Lemma exec_simple_none (r : regex) (x t : string) :
  no_repetition r = true -> exec r x = None ->
  List.length (flat r) <= String.length x ->
  exec r (x +++ t) = None.
Proof.
  intros S N W. destruct (exec r (x +++ t)) as [y|] eqn:E; [|reflexivity].
  destruct (exec_sound r _ _ E) as (w & Hw & L).
  destruct (append_prefix x t w y Hw) as (x' & ->).
  - rewrite (lang_width r w S L). exact W.
  - unfold exec in N. rewrite (run_simple_complete r S w x' Some L) in N.
    discriminate.
Qed.

Lemma run_simple_head (r : regex) (s : string) (k : K) (rest : string) :
  run r s k = Some rest -> exists w s', s = w +++ s' /\ lang r w.
Proof.
  intros H. destruct (run_sound r _ _ _ H) as (w & s' & -> & L & _). eauto.
Qed.

(** The lazy star passes over a text in which the rest does not match. *)
Lemma lazy_star_skip (b : string) :
  forall tail k r,
    (forall b1 b2, b = b1 +++ b2 -> b2 <> "" -> k (b2 +++ tail) = None) ->
    k tail = Some r ->
    lazy_star any (b +++ tail) k = Some r.
Proof.
  induction b as [|c b IH]; intros tail k r Hskip Hk; cbn [String.append].
  - destruct tail; cbn [lazy_star]; rewrite Hk; reflexivity.
  - cbn [lazy_star].
    pose proof (Hskip EmptyString (String c b) eq_refl ltac:(discriminate))
      as N.
    cbn [String.append] in N. rewrite N.
    cbn [any]. apply IH; [|exact Hk].
    intros b1 b2 E Hne. apply (Hskip (String c b1) b2); [|exact Hne].
    cbn [String.append]. rewrite E. reflexivity.
Qed.

(** *** The opening *)

Lemma ci_lt (x : ascii) : ci "<" x = true -> x = "<"%char.
Proof.
  destruct x as [[] [] [] [] [] [] [] []]; vm_compute; intros; congruence.
Qed.

Lemma classes_exclude (c : ascii) (ps : list (ascii -> bool)) :
  forall w,
    Forall2 (fun p x => p x = true) ps (Str.chars w) ->
    Forall (fun p => p c = false) ps ->
    Str.has c w = false.
Proof.
  induction ps as [|p ps IH]; intros w F T.
  - destruct w; [reflexivity | inversion F].
  - destruct w as [|d w]; [inversion F|]. cbn [Str.chars] in F.
    inversion F as [|? ? ? ? Hd Hr]; subst.
    inversion T as [|? ? Tp Tr]; subst. cbn [Str.has].
    rewrite (IH w Hr Tr), orb_false_r.
    destruct (Ascii.eqb_spec d c); [|reflexivity].
    subst d. congruence.
Qed.

(** An opening starts with [<] and has no other. *)
Lemma opening_shape (w : string) :
  lang section_open w ->
  exists w', w = String "<" w' /\ Str.has "<" w' = false.
Proof.
  intros L. pose proof (lang_flat section_open eq_refl w L) as F.
  destruct w as [|c w]; [inversion F|]. cbn [Str.chars] in F.
  change (flat section_open)
    with (ci "<" :: tl (flat section_open)) in F.
  inversion F as [|p c' ps cs Hc Hrest]; subst.
  apply ci_lt in Hc. subst c. exists w. split; [reflexivity|].
  apply (classes_exclude "<" (tl (flat section_open)) w Hrest).
  repeat constructor.
Qed.

Lemma minimal_section_head (m : string) :
  minimal_section m -> exists m', m = String "<" m'.
Proof.
  intros (o & b & c & -> & Lo & _).
  destruct (opening_shape o Lo) as (o' & -> & _).
  cbn [String.append]. eauto.
Qed.

Lemma no_opening_suffix (g1 : string) :
  forall g2, no_opening (g1 +++ g2) = true -> g2 <> "" -> opens g2 = false.
Proof.
  induction g1 as [|c g1 IH]; intros g2 H Hne; cbn [String.append] in H.
  - destruct g2 as [|d g2]; [congruence|]. cbn [no_opening] in H.
    apply andb_true_iff in H. apply negb_true_iff. exact (proj1 H).
  - cbn [no_opening] in H. apply andb_true_iff in H.
    exact (IH g2 (proj2 H) Hne).
Qed.

(** No section starts in a text without opening that is followed by a
    section or by nothing. *)
Lemma gap_no_section (g1 g2 tail : string) :
  no_opening (g1 +++ g2) = true -> g2 <> "" ->
  (tail = "" \/ exists t, tail = String "<" t) ->
  exec patentXmlSectionRegularExpression (g2 +++ tail) = None.
Proof.
  intros G Hne Ht.
  destruct (exec patentXmlSectionRegularExpression (g2 +++ tail)) as [r|] eqn:E;
    [|reflexivity].
  exfalso. unfold exec in E. rewrite section_run in E.
  destruct (run_simple_head _ _ _ _ E) as (w & s' & Hw & L).
  pose proof (no_opening_suffix g1 g2 G Hne) as O.
  destruct (opening_shape w L) as (w' & -> & Hlt).
  destruct (append_split g2 (String "<" w') tail s' Hw)
    as [(z & -> & _)|(z & Hz & ->)].
  - unfold opens, exec in O.
    rewrite (run_simple_complete section_open eq_refl _ z Some L) in O.
    discriminate.
  - destruct g2 as [|c g2]; [congruence|]. cbn [String.append] in Hz.
    injection Hz as <- ->.
    destruct z as [|d z].
    + unfold opens, exec in O. rewrite append_nil_r in L.
      rewrite <- (append_nil_r (String "<" g2)) in O.
      rewrite (run_simple_complete section_open eq_refl _ "" Some L) in O.
      discriminate.
    + destruct Ht as [Ht|(t & Ht)]; [discriminate|].
      cbn [String.append] in Ht. injection Ht as -> _.
      rewrite has_append in Hlt. cbn [Str.has] in Hlt.
      rewrite Ascii.eqb_refl, orb_true_r in Hlt. discriminate.
Qed.

(** A section that ends at its first closing tag is matched where it
    stands. *)
Lemma exec_minimal_section (m rest : string) :
  minimal_section m ->
  exec patentXmlSectionRegularExpression (m +++ rest) = Some rest.
Proof.
  intros (o & b & c & -> & Lo & Lc & Hfirst).
  unfold exec. rewrite section_run, !append_assoc.
  rewrite (run_simple_complete section_open eq_refl o _ _ Lo).
  apply lazy_star_skip.
  - intros b1 b2 E Hne. rewrite <- append_assoc.
    apply (exec_simple_none section_close (b2 +++ c) rest eq_refl
             (Hfirst b1 b2 E Hne)).
    rewrite length_append, (lang_width section_close c eq_refl Lc). lia.
  - apply (run_simple_complete section_close eq_refl c rest Some Lc).
Qed.

(** A text the pattern matches to its end is such a section. *)
Lemma minimal_by_exec (m : string) :
  exec patentXmlSectionRegularExpression m = Some "" -> minimal_section m.
Proof.
  intros E. destruct (exec_section m "" E) as (m' & Hm & M).
  rewrite append_nil_r in Hm. subst m'. exact M.
Qed.

(** *** The scan *)

Lemma match_from_skip (r : regex) (x : string) :
  forall y, match_from r (String.length x) (x +++ y) = match_from r 0 y.
Proof.
  induction x as [|c x IH]; intros y; [reflexivity|].
  cbn [String.length String.append match_from]. apply IH.
Qed.

Lemma scan_gap (r : regex) (g : string) :
  forall tail,
    (forall g1 g2, g = g1 +++ g2 -> g2 <> "" -> exec r (g2 +++ tail) = None) ->
    match_from r 0 (g +++ tail) = match_from r 0 tail.
Proof.
  induction g as [|c g IH]; intros tail H; [reflexivity|].
  cbn [String.append match_from].
  pose proof (H EmptyString (String c g) eq_refl ltac:(discriminate)) as N.
  cbn [String.append] in N. rewrite N. apply IH.
  intros g1 g2 E Hne. apply (H (String c g1) g2); [|exact Hne].
  cbn [String.append]. rewrite E. reflexivity.
Qed.

Lemma scan_hit (r : regex) (m tail : string) :
  m <> "" -> exec r (m +++ tail) = Some tail ->
  match_from r 0 (m +++ tail) = m :: match_from r 0 tail.
Proof.
  intros Hne E. destruct m as [|c m]; [congruence|].
  cbn [String.append] in *. cbn [match_from]. rewrite E.
  change (String c (m +++ tail)) with (String c m +++ tail).
  rewrite length_append, Nat.add_sub, substring_append.
  cbn [String.length Nat.pred]. rewrite match_from_skip. reflexivity.
Qed.

Lemma weave_head (l : list Segment) :
  Forall (fun d => minimal_section (seg_text d)) l ->
  weave l = "" \/ exists t, weave l = String "<" t.
Proof.
  intros F. destruct F as [|d l Hd _]; [left; reflexivity|].
  right. destruct (minimal_section_head _ Hd) as (m' & Hm).
  cbn [weave]. rewrite Hm. cbn [String.append]. eauto.
Qed.

(** The sections the pattern finds in a batch file: those of its documents,
    in the order of the text. *)
Lemma batch_sections (lead : string) (l : list Segment) :
  no_opening lead = true ->
  Forall (fun d => minimal_section (seg_text d)) l ->
  Forall (fun d => no_opening (seg_gap d) = true) l ->
  match_from patentXmlSectionRegularExpression 0 (lead +++ weave l)
  = map seg_text l.
Proof.
  intros Hlead Fm Fg.
  rewrite scan_gap.
  - clear Hlead. induction Fm as [|d l Hd Fm IH]; [reflexivity|].
    inversion Fg as [|? ? Gd Gl]; subst. cbn [weave map].
    rewrite scan_hit.
    + f_equal. rewrite scan_gap; [exact (IH Gl)|].
      intros g1 g2 E Hne. apply (gap_no_section g1 g2).
      * rewrite <- E. exact Gd.
      * exact Hne.
      * apply weave_head. exact Fm.
    + destruct (minimal_section_head _ Hd) as (m' & ->). discriminate.
    + apply exec_minimal_section. exact Hd.
  - intros g1 g2 E Hne. apply (gap_no_section g1 g2).
    + rewrite <- E. exact Hlead.
    + exact Hne.
    + apply weave_head. exact Fm.
Qed.

End ScanFacts.

(** ** The object builder and the file system on small inputs *)

Module ModelExamples.
Import Json.

Example element_with_text_only :
  xml2js_node (Elem "p" [] [Text "x"]) = Str "x".
Proof. reflexivity. Qed.

Example element_with_attributes :
  xml2js_node (Elem "p" [("id", "a")] [Text "x"])
  = Obj [ ("_", Str "x"); ("$", Obj [("id", Str "a")]) ].
Proof. reflexivity. Qed.

Example blank_text_is_dropped :
  xml2js_node
    (Elem "a" [] [ Text Demo.nl; Elem "b" [] []; Text Demo.nl;
                   Elem "c" [] [Text "t"]; Elem "b" [] [Text "u"] ])
  = Obj [ ("b", Arr [Str ""; Str "u"]); ("c", Arr [Str "t"]) ].
Proof. reflexivity. Qed.

Example text_around_children_is_joined :
  xml2js_node (Elem "claim-text" []
                 [ Text "1. A widget of "; Elem "claim-ref" [("idref", "c")]
                                             [Text "claim 2"];
                   Text ", wherein:"; Elem "claim-text" [] [Text "a wheel."] ])
  = Obj [ ("_", Str "1. A widget of , wherein:");
          ("claim-ref",
           Arr [ Obj [ ("_", Str "claim 2");
                       ("$", Obj [("idref", Str "c")]) ] ]);
          ("claim-text", Arr [Str "a wheel."]) ].
Proof. reflexivity. Qed.

Example claim_without_nested_text :
  claim_of (Elem "claim-text" [] [Text "2. The widget of claim 1."])
  = Obj [ ("genericClaim", Undefined); ("individualClaims", Undefined) ].
Proof. reflexivity. Qed.

Example paragraph_without_attributes :
  own_text (Elem "p" [] [Text "A widget."]) = Undefined.
Proof. reflexivity. Qed.

Example render_element :
  render (Elem "p" [("id", "a")] [Text "x"; Elem "b" [] []])
  = "<p id=" +++ Demo.q +++ "a" +++ Demo.q +++ ">x<b></b></p>".
Proof. reflexivity. Qed.

(** The first document of the batch is well formed, and its record is that
    of the regular document [Demo.doc1]. *)
Example first_document :
  application (Demo.tree_of Demo.doc1) = true /\
  processedPatentData (xml2js_value (Demo.tree_of Demo.doc1))
  = Ok (patent_data Demo.doc1).
Proof. split; vm_compute; reflexivity. Qed.

Example second_document :
  application (Demo.tree_of Demo.doc2) = true /\
  processedPatentData (xml2js_value (Demo.tree_of Demo.doc2))
  = Ok (patent_data Demo.doc2).
Proof. split; vm_compute; reflexivity. Qed.

(** A document as they come is well formed; its claims reach the record
    in document order, the second without nested texts and the third, bare
    text to xml2js, without any member. *)
Example plain_document :
  application Demo.tree_plain = true /\
  patentStatus (application_data Demo.tree_plain) = Undefined /\
  patentAbstract (application_data Demo.tree_plain)
  = Arr [Str "A gizmo with a ."] /\
  denoted (patentClaims (application_data Demo.tree_plain))
  = Arr [ Obj [ ("genericClaim", Str "1. A gizmo comprising:");
                ("individualClaims",
                 Arr [Str "a lever; and"; Str "a spring."]) ];
          Obj [ ("genericClaim",
                 Str "2. The gizmo of , wherein the lever is bent.") ];
          Obj [] ].
Proof. repeat split. Qed.

Example plain_document_is_a_section :
  minimal_section (render Demo.tree_plain).
Proof. apply ScanFacts.minimal_by_exec. vm_compute. reflexivity. Qed.

Example doctype_is_no_opening : no_opening Demo.prolog = true.
Proof. vm_compute. reflexivity. Qed.

Example opening_in_any_case :
  opens ("<US-Patent-Application" +++ Demo.nl +++ "lang") = true.
Proof. vm_compute. reflexivity. Qed.

Example empty_path_names_nothing :
  existsSync "" Demo.w_fresh = (Demo.w_fresh, Ok false) /\
  mkdirSync "" Demo.w_fresh = (Demo.w_fresh, Err (FsError "ENOENT")) /\
  readdirSync "" Demo.w_fresh = (Demo.w_fresh, Err (FsError "ENOENT")) /\
  writeFileSync "" "x" Demo.w_fresh = (Demo.w_fresh, Err (FsError "ENOENT")).
Proof. repeat split. Qed.

Example below_a_regular_file :
  mkdirSync "cache/ipa050106.zip/x" Demo.w_cached
  = (Demo.w_cached, Err (FsError "ENOTDIR")) /\
  readdirSync "cache/ipa050106.zip/x" Demo.w_cached
  = (Demo.w_cached, Err (FsError "ENOTDIR")) /\
  readFileSync "cache/ipa050106.zip/x/y" Demo.w_cached
  = (Demo.w_cached, Err (FsError "ENOTDIR")) /\
  writeFileSync "cache/ipa050106.zip/x" "t" Demo.w_cached
  = (Demo.w_cached, Err (FsError "ENOTDIR")).
Proof. repeat split. Qed.

Example below_a_missing_directory :
  mkdirSync "cache/a/b" Demo.w_cached
  = (Demo.w_cached, Err (FsError "ENOENT")) /\
  writeFileSync "cache/a/b" "t" Demo.w_cached
  = (Demo.w_cached, Err (FsError "ENOENT")).
Proof. repeat split. Qed.

End ModelExamples.
(* ================================================================== *)
(** * The claims *)

Import Json.
Import LinkFacts DiscoverFacts SyncFacts ExtractFacts.
Import MaterializeFacts ParseFacts OrderFacts BlobFacts PathFacts OutPathFacts.
Import YearFacts StoreFacts.
Import SectionFacts XmlFacts ScanFacts.

(** C1.  The text of the batch file is made of [N] documents, [N] at least
    one: each a section that ends at its first closing tag and that the XML
    library parses to the object of a well-formed document, with no opening
    of a section before, between and after them.  [processUsptoXmlFile]
    returns [N] records, the record of each document in the order of the
    text, the sections parsed in that order.  In the record of a document
    the [patentAbstract] and [patentHeadings] texts parse back to one entry
    for each paragraph of the abstract and for each heading, in document
    order, the own text of the node or [null]; the [patentClaims] text
    parses back to one entry for each claim, in document order, whose
    [individualClaims], when there are any, are the objects of the nested
    [claim-text] elements, in document order. *)
Theorem parseBatch_records_in_source_order
    (xml2js_parseString : string -> result value)
    (bulkXmlFilePath : string) (w : world)
    (lead : string) (docs : list Segment) :
  docs <> [] ->
  assoc (key bulkXmlFilePath) (files w) = Some (File (lead +++ weave docs)) ->
  no_opening lead = true ->
  Forall (fun d =>
            minimal_section (seg_text d) /\
            no_opening (seg_gap d) = true /\
            application (seg_tree d) = true /\
            xml2js_parseString (seg_text d) = Ok (xml2js_value (seg_tree d)))
    docs ->
  exists w' records,
    processUsptoXmlFile xml2js_parseString bulkXmlFilePath w
      = (w', Ok records) /\
    List.length records = List.length docs /\
    parses (trace w') = parses (trace w) ++ map seg_text docs /\
    Forall2 (fun d r =>
               r = processedPatentSchemaData (application_data (seg_tree d)) /\
               (exists a,
                  s_patentAbstract r = Str a /\
                  JSON_parse a
                  = Ok (Arr (map (fun p => denoted (own_text p))
                               (paragraphs (seg_tree d))))) /\
               (exists h,
                  s_patentHeadings r = Str h /\
                  JSON_parse h
                  = Ok (Arr (map (fun x => denoted (own_text x))
                               (headings (seg_tree d))))) /\
               (exists c,
                  s_patentClaims r = Str c /\
                  JSON_parse c
                  = Ok (Arr (map (fun cl =>
                                    denoted (claim_of (child "claim-text" cl)))
                               (claims (seg_tree d))))))
      docs records.
Proof.
  intros Hne Hfile Hlead Hdocs.
  assert (Hmatch : Re.String_match patentXmlSectionRegularExpression
                     (lead +++ weave docs) = Some (map seg_text docs)).
  { unfold Re.String_match. rewrite batch_sections.
    - destruct docs; [congruence | reflexivity].
    - exact Hlead.
    - eapply Forall_impl; [|exact Hdocs]. intros d Hd. apply Hd.
    - eapply Forall_impl; [|exact Hdocs]. intros d Hd. apply Hd. }
  assert (Hloop : forall w0, exists w1,
            for_push (map seg_text docs) (section_body xml2js_parseString) w0
            = (w1, Ok (map (fun d => processedPatentSchemaData
                                       (application_data (seg_tree d))) docs))
            /\ parses (trace w1) = parses (trace w0) ++ map seg_text docs).
  { clear Hmatch Hne Hfile.
    induction Hdocs as [|d ds (_ & _ & Ha & Hp) _ IH]; intros w0.
    - cbn. unfold ret. exists w0. rewrite app_nil_r. auto.
    - cbn [for_push map]. unfold bind at 1. rewrite section_body_run, Hp.
      cbn [rbind]. rewrite (application_value _ Ha). cbn [rbind].
      destruct (IH (mkWorld (files w0) (store w0)
                      (trace w0 ++ [XmlParse (seg_text d)])))
        as (w1 & E & T).
      unfold bind, ret. cbv beta iota. rewrite E. exists w1.
      split; [reflexivity|]. rewrite T. cbn [trace].
      rewrite parses_app, <- app_assoc. reflexivity. }
  destruct (Hloop (mkWorld (files w) (store w)
                     (trace w ++ [FsRead bulkXmlFilePath])))
    as (w1 & Hw1 & T1).
  exists w1,
    (map (fun d => processedPatentSchemaData (application_data (seg_tree d)))
       docs).
  split; [|split; [|split]].
  - unfold processUsptoXmlFile, readFileSync, bind, get_files, emit, ret.
    cbv beta zeta. rewrite Hfile. cbn [files store trace]. rewrite Hmatch.
    exact Hw1.
  - apply length_map.
  - rewrite T1. cbn [trace]. rewrite parses_app. cbn [parses flat_map].
    rewrite app_nil_r. reflexivity.
  - clear - Hdocs. induction Hdocs as [|d ds (_ & _ & Ha & _) _ IH];
      constructor; [|exact IH].
    split; [reflexivity|].
    unfold processedPatentSchemaData, application_data.
    cbn [s_patentAbstract s_patentHeadings s_patentClaims patentAbstract
           patentHeadings patentClaims].
    assert (C : clean (seg_tree d) = true).
    { unfold application in Ha.
      repeat (apply andb_true_iff in Ha; destruct Ha as [Ha ?]).
      assumption. }
    split; [|split].
    + destruct (stringify_denoted (Arr (map own_text (paragraphs (seg_tree d)))))
        as (t & Hs & Ht); [discriminate | apply own_text_tidy |].
      exists t. split; [exact Hs|]. rewrite Ht. cbn [denoted].
      rewrite map_map. reflexivity.
    + destruct (stringify_denoted (Arr (map own_text (headings (seg_tree d)))))
        as (t & Hs & Ht); [discriminate | apply own_text_tidy |].
      exists t. split; [exact Hs|]. rewrite Ht. cbn [denoted].
      rewrite map_map. reflexivity.
    + destruct (stringify_denoted
                  (Arr (map (fun cl => claim_of (child "claim-text" cl))
                          (claims (seg_tree d)))))
        as (t & Hs & Ht); [discriminate | |].
      * apply claims_tidy. apply clean_elements. apply clean_child. exact C.
      * exists t. split; [exact Hs|]. rewrite Ht. cbn [denoted].
        rewrite map_map. reflexivity.
Qed.

(** The batch of two documents gives the records of [US001] and [US002],
    in that order. *)
Lemma parseBatch_records_in_source_order_witness :
  exists w' records,
    processUsptoXmlFile Demo.xml2js "xml/ipa050106.xml" Demo.w_batch
      = (w', Ok records) /\
    map s_documentNumber records = [Str "US001"; Str "US002"].
Proof.
  destruct (parseBatch_records_in_source_order Demo.xml2js
              "xml/ipa050106.xml" Demo.w_batch Demo.prolog
              [ mkSegment Demo.section1 (Demo.tree_of Demo.doc1)
                  (Demo.nl +++ Demo.prolog);
                mkSegment Demo.section2 (Demo.tree_of Demo.doc2) Demo.nl ])
    as (w' & records & Hrun & _ & _ & Hrec).
  - discriminate.
  - vm_compute. reflexivity.
  - vm_compute. reflexivity.
  - constructor; [|constructor; [|constructor]];
      (split; [apply minimal_by_exec; vm_compute; reflexivity|]);
      (split; [vm_compute; reflexivity|]);
      (split; vm_compute; reflexivity).
  - exists w', records. split; [exact Hrun|].
    inversion Hrec as [|? r1 ? rs1 (H1 & _) Hrec1]; subst.
    inversion Hrec1 as [|? r2 ? rs2 (H2 & _) Hrec2]; subst.
    inversion Hrec2; subst. reflexivity.
Defined.

(** A file without any document: the loop over [null] throws. *)
Lemma parseBatch_no_document_throws
    (xml2js_parseString : string -> result value)
    (bulkXmlFilePath xmlData : string) (w : world) :
  assoc (key bulkXmlFilePath) (files w) = Some (File xmlData) ->
  Re.String_match patentXmlSectionRegularExpression xmlData = None ->
  snd (processUsptoXmlFile xml2js_parseString bulkXmlFilePath w)
  = Err TypeError.
Proof.
  intros Hfile Hmatch.
  unfold processUsptoXmlFile, readFileSync, bind, get_files, emit, ret.
  cbv beta zeta. rewrite Hfile. cbn [files store trace]. rewrite Hmatch.
  reflexivity.
Qed.

(** C2.  The record directory holds one file of three records and there is
    no ledger.  The first run of [synchronizeProcessedDataToMongoDB] ends
    without error with three rows in the store and the ledger file holding
    the empty array; the second run, started right after, reads the same
    file again and ends with six rows, the ledger still empty. *)
Theorem syncToStore_never_records_the_file :
  exists w1 w2,
    Demo.syncToStore Demo.w_records = (w1, Ok tt) /\
    List.length (store w1) = 3 /\
    assoc "sync.json" (files w1) = Some (File "[]") /\
    Demo.syncToStore w1 = (w2, Ok tt) /\
    List.length (store w2) = 6 /\
    reads (trace w2)
    = ["records/ipa050106.json"; "sync.json"; "records/ipa050106.json"] /\
    assoc "sync.json" (files w2) = Some (File "[]").
Proof.
  eexists. eexists.
  split; [vm_compute; reflexivity|].
  split; [vm_compute; reflexivity|].
  split; [vm_compute; reflexivity|].
  split; [vm_compute; reflexivity|].
  vm_compute. auto.
Qed.

(** On a run that completes every listed raw file was read, whatever the
    output directory holds. *)
Lemma materialize_reads_every_file
    (xml2js_parseString : string -> result value) (dirname__ : string)
    (usptoXmlFileCacheDir usptoJsonFileCacheDir : option string)
    (w w' : world) (names : list string) :
  readdirSync (xml_cache_dir dirname__ usptoXmlFileCacheDir) w
    = (w, Ok names) ->
  processCachedUsptoXmlData xml2js_parseString dirname__
    usptoXmlFileCacheDir usptoJsonFileCacheDir w = (w', Ok tt) ->
  reads (trace w') = reads (trace w) ++
    map (fun n => Path.join (xml_cache_dir dirname__ usptoXmlFileCacheDir) n)
      names.
Proof.
  intros Hls H. rewrite materialize_unfold in H. unfold bind at 1 in H.
  rewrite Hls in H.
  destruct (materialize_loop _ _ _ _ _ _ H) as (done & rest & _ & _ & Ho).
  apply (Ho eq_refl).
Qed.

(** C3.  The raw directory holds one batch and its output is already there,
    both as [json/ipa050106.json] and where the code writes it
    ([json/xml/ipa050106.json]):
    [processCachedUsptoXmlData] reads the batch, has its two documents
    parsed and writes the output again. *)
Theorem materialize_parses_existing_output :
  is_file (files Demo.w_materialized) "json/ipa050106.json" /\
  is_file (files Demo.w_materialized) "json/xml/ipa050106.json" /\
  exists w',
    processCachedUsptoXmlData Demo.xml2js "/app" (Some "xml") (Some "json")
      Demo.w_materialized = (w', Ok tt) /\
    reads (trace w') = ["xml/ipa050106.xml"] /\
    parses (trace w') = [Demo.section1; Demo.section2] /\
    writes (trace w') = ["json/xml/ipa050106.json"].
Proof.
  split; [eexists; reflexivity|]. split; [eexists; reflexivity|].
  eexists. split; [vm_compute; reflexivity|].
  vm_compute. auto.
Qed.

(** The texts [processUsptoXmlFile] puts in a record parse back to the
    lists of the document. *)
Lemma schema_blobs_roundtrip (d : Document) :
  exists a c h,
    s_patentAbstract (processedPatentSchemaData (patent_data d)) = Str a /\
    s_patentClaims (processedPatentSchemaData (patent_data d)) = Str c /\
    s_patentHeadings (processedPatentSchemaData (patent_data d)) = Str h /\
    JSON_parse a = Ok (Arr (map Str (d_abstract d))) /\
    JSON_parse c = Ok (Arr (map claim_value (d_claims d))) /\
    JSON_parse h = Ok (Arr (map Str (d_headings d))).
Proof.
  unfold processedPatentSchemaData, patent_data.
  cbn [s_patentAbstract s_patentHeadings s_patentClaims patentAbstract
         patentHeadings patentClaims].
  destruct (strings_plain (d_abstract d)) as [Pa Ta].
  destruct (strings_plain (d_headings d)) as [Ph Th].
  destruct (claims_plain (d_claims d)) as [Pc Tc].
  destruct (JSON_roundtrip _ Pa Ta) as (a & -> & Ha).
  destruct (JSON_roundtrip _ Pc Tc) as (c & -> & Hc).
  destruct (JSON_roundtrip _ Ph Th) as (h & -> & Hh).
  exists a, c, h. auto 10.
Qed.

(** What [synchronizeProcessedDataToMongoDB] stores for a text [a] read
    from the processed file is the JSON text of [a]: parsing it gives [a]
    back, a string. *)
Lemma row_blob_is_encoded_text (a : string) :
  exists b, JSON_stringify (Str a) = Str b /\ JSON_parse b = Ok (Str a).
Proof. apply JSON_roundtrip; reflexivity. Qed.

(** C4.  The abstract of the first document is the list of its two
    paragraphs.  The text of it in the record parses back to that list; the
    text [synchronizeProcessedDataToMongoDB] stores in the row is encoded a
    second time, and parsing it gives a string, not the list. *)
Theorem store_row_blob_is_encoded_twice :
  exists w1 row rows a b,
    s_patentAbstract (processedPatentSchemaData (patent_data Demo.doc1))
      = Str a /\
    JSON_parse a = Ok (Arr [Str "A widget."; Str "It turns."]) /\
    Demo.syncToStore Demo.w_records = (w1, Ok tt) /\
    store w1 = row :: rows /\
    doc_documentNumber row = Str "US001" /\
    doc_patentAbstract row = Str b /\
    JSON_parse b = Ok (Str a) /\
    JSON_parse b <> Ok (Arr [Str "A widget."; Str "It turns."]).
Proof.
  eexists. eexists. eexists. eexists. eexists.
  split; [vm_compute; reflexivity|].
  split; [vm_compute; reflexivity|].
  split; [vm_compute; reflexivity|].
  split; [vm_compute; reflexivity|].
  split; [vm_compute; reflexivity|].
  split; [vm_compute; reflexivity|].
  split; [vm_compute; reflexivity|].
  vm_compute. discriminate.
Qed.

(** C5.  With a non-negative [fileLimit], whatever [fetchUsptoZipFileInfos]
    returns is the first [fileLimit] references of the list made of each
    year's zip links, years ascending from [startYear] to [endYear] and
    links in page order, so it has at most [fileLimit] entries; and it does
    return that list when every year's page is fetched and has a link.
    The years are the integers from [startYear] to [endYear], ascending; the
    links of a page are its matches of the zip-link pattern, one after the
    other in the page.  [fileLimit] defaults to 1, [startYear] to 2005 and
    [endYear] to the current year. *)
Theorem discover_first_fileLimit
    (axios_get : string -> option string) (currentYear : Z)
    (fileLimit startYear endYear : option Z) (w : world) :
  (0 <= or_default 1%Z fileLimit)%Z ->
  (forall w' infos,
     fetchUsptoZipFileInfos axios_get currentYear fileLimit startYear endYear w
       = (w', Ok infos) ->
     infos = firstn (Z.to_nat (or_default 1%Z fileLimit))
               (discovered axios_get (or_default 2005%Z startYear)
                  (or_default currentYear endYear)) /\
     (Z.of_nat (List.length infos) <= or_default 1%Z fileLimit)%Z) /\
  ((forall y, In y (years (or_default 2005%Z startYear)
                      (or_default currentYear endYear)) ->
      exists page, axios_get (year_url y) = Some page /\ zip_links page <> []) ->
   exists w',
     fetchUsptoZipFileInfos axios_get currentYear fileLimit startYear endYear w
       = (w', Ok (firstn (Z.to_nat (or_default 1%Z fileLimit))
                    (discovered axios_get (or_default 2005%Z startYear)
                       (or_default currentYear endYear))))) /\
  StronglySorted Z.lt
    (years (or_default 2005%Z startYear) (or_default currentYear endYear)) /\
  (forall y,
     In y (years (or_default 2005%Z startYear)
             (or_default currentYear endYear)) <->
     (or_default 2005%Z startYear <= y <= or_default currentYear endYear)%Z) /\
  (forall page,
     in_order (Re.match_from linkRegularExpression 0 page) page /\
     Forall is_zip_name (zip_links page)).
Proof.
  intros Hlimit.
  split; [|split; [|split; [apply years_ascending|split;
    [intros y; apply In_years
    |intros page; split;
       [apply (match_from_in_order linkRegularExpression page 0)
       |apply zip_links_names]]]]];
    rewrite fetch_unfold; unfold discovered;
    set (ys := years _ _); set (limit := or_default 1%Z fileLimit) in *.
  - intros w' infos H. unfold bind at 1 in H.
    destruct (for_push ys (year_body axios_get) w) as [w1 [rs|e]] eqn:E1;
      [|discriminate].
    unfold bind, lift, ret in H.
    destruct (rmap response_infos rs) as [per|e] eqn:E2; [|discriminate].
    injection H as _ <-.
    pose proof (first_loop_ok _ _ _ _ _ E1) as F.
    rewrite (second_loop_ok _ _ _ F _ E2).
    destruct (slice0_firstn _ (List.concat (map (year_refs axios_get) ys)) Hlimit)
      as [-> L].
    split; [reflexivity|].
    pose proof (firstn_le_length (Z.to_nat limit)
                  (List.concat (map (year_refs axios_get) ys))). lia.
  - intros Hall.
    destruct (first_loop_total axios_get ys
                (fun y Hy => let (p, H) := Hall y Hy in
                             ex_intro _ p (proj1 H)) w)
      as (w1 & rs & E1).
    pose proof (first_loop_ok _ _ _ _ _ E1) as F.
    destruct (second_loop_total _ _ _ F Hall) as (per & E2).
    exists w1. unfold bind at 1. rewrite E1. unfold bind, lift, ret.
    rewrite E2, (second_loop_ok _ _ _ F _ E2).
    destruct (slice0_firstn _ (List.concat (map (year_refs axios_get) ys)) Hlimit)
      as [-> _].
    reflexivity.
Qed.

(** Two years with two links and one link, and a limit of three. *)
Lemma discover_first_fileLimit_witness :
  exists w',
    fetchUsptoZipFileInfos Demo.site 2006 (Some 3%Z) (Some 2005%Z) (Some 2006%Z)
      Demo.w0
    = (w', Ok (firstn 3 (discovered Demo.site 2005 2006))).
Proof.
  apply (discover_first_fileLimit Demo.site 2006
           (Some 3%Z) (Some 2005%Z) (Some 2006%Z) Demo.w0).
  - simpl. lia.
  - intros y [<- | [<- | []]].
    + exists Demo.page_2005. split; [reflexivity | vm_compute; discriminate].
    + exists Demo.page_2006. split; [reflexivity | vm_compute; discriminate].
Defined.

(** A year whose page has no zip link makes the whole call throw, whatever
    the other years list. *)
Lemma zero_link_page_throws
    (axios_get : string -> option string) (currentYear : Z)
    (fileLimit startYear endYear : option Z) (w : world) :
  (forall y, In y (years (or_default 2005%Z startYear)
                     (or_default currentYear endYear)) ->
     exists page, axios_get (year_url y) = Some page) ->
  (exists y page,
     In y (years (or_default 2005%Z startYear)
             (or_default currentYear endYear)) /\
     axios_get (year_url y) = Some page /\ zip_links page = []) ->
  snd (fetchUsptoZipFileInfos axios_get currentYear fileLimit startYear
         endYear w) = Err TypeError.
Proof.
  intros Hall Hnone. rewrite fetch_unfold.
  destruct (first_loop_total axios_get _ Hall w) as (w1 & rs & E1).
  unfold bind at 1. rewrite E1. unfold bind, lift.
  rewrite (second_loop_none _ _ _ (first_loop_ok _ _ _ _ _ E1) Hnone).
  reflexivity.
Qed.

(** C6.  The page of 2005 has no zip link and the page of 2006 has one:
    [fetchUsptoZipFileInfos] throws a [TypeError] instead of returning the
    reference of 2006. *)
Theorem discover_zero_link_page_fails :
  zip_links Demo.page_empty = [] /\
  year_refs Demo.site_gap 2006
  = [mkUsptoZipFileInfo "ipa060105.zip" (year_url 2006 +++ "ipa060105.zip")] /\
  snd (fetchUsptoZipFileInfos Demo.site_gap 2006
         (Some 10%Z) (Some 2005%Z) (Some 2006%Z) Demo.w0)
  = Err TypeError.
Proof. vm_compute. auto. Qed.



(** C8.  When the references before [r] were processed and the fetch of [r],
    whose name the listing lacks, fails, [synchronizeUsptoZipFiles] throws at
    that request: the trace ends with it, so nothing is requested or written
    for the references after [r], the files are those left by the earlier
    references, and every archive written for one of them is still there. *)
Theorem syncArchives_fetch_failure_aborts
    (axios_get : string -> option string) (dirname__ : string)
    (zipFileCacheDir : option string)
    (pre post : list UsptoZipFileInfo) (r : UsptoZipFileInfo)
    (w w1 w2 : world) (cached : list string) :
  ensure_and_list (zip_cache_dir dirname__ zipFileCacheDir) w
    = (w1, Ok cached) ->
  for_of pre
    (sync_body axios_get (zip_cache_dir dirname__ zipFileCacheDir) cached) w1
    = (w2, Ok tt) ->
  includes (name r) cached = false ->
  axios_get (url r) = None ->
  exists w3,
    synchronizeUsptoZipFiles axios_get dirname__ (pre ++ r :: post)
      zipFileCacheDir w = (w3, Err NetworkError) /\
    trace w3 = trace w2 ++
      [ConsoleLog ("Fetching USPTO file at: " +++ url r); HttpGet (url r)] /\
    files w3 = files w2 /\
    fetches (trace w3) = fetches (trace w) ++
      map url (missing cached pre) ++ [url r] /\
    writes (trace w3) = writes (trace w) ++
      map (fun r' => Path.join (zip_cache_dir dirname__ zipFileCacheDir)
                        (name r'))
        (missing cached pre) /\
    (forall r', In r' (missing cached pre) ->
       is_file (files w3)
         (key (Path.join (zip_cache_dir dirname__ zipFileCacheDir) (name r')))).
Proof.
  intros E Hpre Hr Hget. set (dir := zip_cache_dir dirname__ zipFileCacheDir) in *.
  destruct (ensure_and_list_quiet dir w w1 _ E) as (F1 & W1 & _).
  destruct (loop_ok axios_get dir cached pre w1 w2 Hpre) as (F & W & _ & N).
  eexists. split; [|split; [|split; [|split; [|split]]]].
  - rewrite sync_unfold. unfold bind at 1. fold dir. rewrite E.
    rewrite for_of_app, Hpre. cbn [for_of]. unfold bind.
    rewrite (body_missing axios_get dir cached r w2 Hr), Hget. reflexivity.
  - cbn [trace]. rewrite <- app_assoc. reflexivity.
  - reflexivity.
  - cbn [trace]. rewrite !fetches_app, F, F1. cbn.
    rewrite <- !app_assoc. reflexivity.
  - cbn [trace]. rewrite !writes_app, W, W1. cbn. rewrite !app_nil_r.
    reflexivity.
  - exact N.
Qed.

(** The first archive is fetched and written, the fetch of the second
    fails, the third is never asked for. *)
Lemma syncArchives_fetch_failure_aborts_witness :
  exists w3,
    synchronizeUsptoZipFiles Demo.remote_a "/app"
      ([Demo.ref_a] ++ Demo.ref_b :: [Demo.ref_c]) (Some "cache")
      Demo.w_fresh = (w3, Err NetworkError) /\
    fetches (trace w3) = [url Demo.ref_a; url Demo.ref_b] /\
    writes (trace w3) = ["cache/ipa050106.zip"] /\
    is_file (files w3) "cache/ipa050106.zip".
Proof.
  destruct (syncArchives_fetch_failure_aborts Demo.remote_a "/app"
              (Some "cache") [Demo.ref_a] [Demo.ref_c] Demo.ref_b
              Demo.w_fresh Demo.w_fresh
              (mkWorld [("cache", Dir); ("cache/ipa050106.zip", File "PK-a")] []
                 [ConsoleLog ("Fetching USPTO file at: " +++ url Demo.ref_a);
                  HttpGet (url Demo.ref_a); FsWrite "cache/ipa050106.zip"])
              [] eq_refl eq_refl eq_refl eq_refl)
    as (w3 & H & _ & _ & F & W & N).
  exists w3. split; [exact H|]. split; [exact F|]. split; [exact W|].
  apply (N Demo.ref_a). left. reflexivity.
Defined.

(** C9.  Let [names] be the listing of the zip directory when
    [processCachedUsptoZipFiles] reads it.  A call that completes has asked
    the zip library to extract every listed file into the output directory,
    in listing order, whatever the output directory holds, and the files
    after it are those the library left, archive after archive; a call stops
    early only inside an extraction, having asked for a prefix of them; the
    call completes whenever the library extracts each archive in its turn,
    so always when no extraction throws; and with a library that keeps the
    files it finds and leaves the entries of an archive as files, the
    entries of every listed archive are files after the call. *)
Theorem extract_every_archive_every_time
    (AdmZip_extractAllTo : string -> string -> fsys -> result fsys)
    (dirname__ : string) (zipFileCacheDir processedZipFileCacheDir : option string)
    (w w1 : world) (names : list string) :
  ensure_then_list (xml_cache_dir dirname__ processedZipFileCacheDir)
    (zip_cache_dir dirname__ zipFileCacheDir) w = (w1, Ok names) ->
  (forall w',
     processCachedUsptoZipFiles AdmZip_extractAllTo dirname__ zipFileCacheDir
       processedZipFileCacheDir w = (w', Ok tt) ->
     extractions (trace w') =
     extractions (trace w) ++
     map (fun n => (Path.join (zip_cache_dir dirname__ zipFileCacheDir) n,
                    xml_cache_dir dirname__ processedZipFileCacheDir))
       names /\
     extracted AdmZip_extractAllTo
       (xml_cache_dir dirname__ processedZipFileCacheDir)
       (map (fun n => Path.join (zip_cache_dir dirname__ zipFileCacheDir) n)
          names)
       (files w1)
     = Ok (files w')) /\
  (forall w' out,
     processCachedUsptoZipFiles AdmZip_extractAllTo dirname__ zipFileCacheDir
       processedZipFileCacheDir w = (w', out) ->
     exists done rest,
       names = done ++ rest /\
       extractions (trace w') =
       extractions (trace w) ++
       map (fun n => (Path.join (zip_cache_dir dirname__ zipFileCacheDir) n,
                      xml_cache_dir dirname__ processedZipFileCacheDir))
         done) /\
  (forall fs',
     extracted AdmZip_extractAllTo
       (xml_cache_dir dirname__ processedZipFileCacheDir)
       (map (fun n => Path.join (zip_cache_dir dirname__ zipFileCacheDir) n)
          names)
       (files w1)
     = Ok fs' ->
     exists w',
       processCachedUsptoZipFiles AdmZip_extractAllTo dirname__
         zipFileCacheDir processedZipFileCacheDir w = (w', Ok tt) /\
       files w' = fs') /\
  ((forall z fs, exists fs',
      AdmZip_extractAllTo z (xml_cache_dir dirname__ processedZipFileCacheDir) fs
      = Ok fs') ->
   exists w',
     processCachedUsptoZipFiles AdmZip_extractAllTo dirname__ zipFileCacheDir
       processedZipFileCacheDir w = (w', Ok tt)) /\
  (forall contents : string -> list string,
     (forall z fs fs',
        AdmZip_extractAllTo z
          (xml_cache_dir dirname__ processedZipFileCacheDir) fs = Ok fs' ->
        (forall k, is_file fs k -> is_file fs' k) /\
        (forall k, In k (contents z) -> is_file fs' k)) ->
     forall w',
       processCachedUsptoZipFiles AdmZip_extractAllTo dirname__
         zipFileCacheDir processedZipFileCacheDir w = (w', Ok tt) ->
       forall n k,
         In n names ->
         In k (contents
                 (Path.join (zip_cache_dir dirname__ zipFileCacheDir) n)) ->
         is_file (files w') k).
Proof.
  intros E.
  set (zips := zip_cache_dir dirname__ zipFileCacheDir) in *.
  set (outd := xml_cache_dir dirname__ processedZipFileCacheDir) in *.
  pose proof (ensure_then_list_quiet outd zips w w1 _ E) as Q.
  assert (U : forall w' out,
            processCachedUsptoZipFiles AdmZip_extractAllTo dirname__
              zipFileCacheDir processedZipFileCacheDir w = (w', out) <->
            for_of (map (fun n => Path.join zips n) names)
              (fun p => extractAllTo AdmZip_extractAllTo p outd) w1
            = (w', out)).
  { intros w' out. rewrite extract_unfold. unfold bind at 1.
    fold zips outd. rewrite E. reflexivity. }
  split; [|split; [|split; [|split]]].
  - intros w' H. apply U in H. split.
    + rewrite (extract_loop_ok _ _ _ _ _ H), Q, map_map. reflexivity.
    + apply extract_loop_files. exact H.
  - intros w' out H. apply U in H.
    destruct (extract_loop_prefix _ _ _ _ _ _ H) as (done & rest & Hm & Hx).
    apply map_eq_app in Hm. destruct Hm as (d & r & -> & <- & <-).
    exists d, r. split; [reflexivity|].
    rewrite Hx, Q, map_map. reflexivity.
  - intros fs' H.
    destruct (extract_loop_complete AdmZip_extractAllTo outd _ w1 fs' H)
      as (w' & Hrun & Hfs).
    exists w'. split; [apply U; exact Hrun | exact Hfs].
  - intros Hall.
    destruct (extract_loop_total AdmZip_extractAllTo outd
                (map (fun n => Path.join zips n) names) Hall w1) as (w' & H).
    exists w'. apply U. exact H.
  - intros contents Hlib w' H n k Hn Hk. apply U in H.
    apply extract_loop_files in H.
    destruct (extracted_contents AdmZip_extractAllTo outd contents _ Hlib
                _ _ H) as [_ C].
    apply (C (Path.join zips n) k); [|exact Hk].
    apply in_map_iff. exists n. auto.
Qed.

(** Both archives are handed to the library although the file of the first
    is already in the output directory: the file of the second is made, that
    of the first is left as it was found. *)
Lemma extract_every_archive_every_time_witness :
  exists w',
    processCachedUsptoZipFiles Demo.unzip "/app" (Some "zips") (Some "xml")
      Demo.w_extracted = (w', Ok tt) /\
    extractions (trace w') =
    [("zips/ipa050106.zip", "xml"); ("zips/ipa050113.zip", "xml")] /\
    files w' = files Demo.w_extracted ++ [("xml/ipa050113.xml", File "PK-b")].
Proof.
  pose proof (extract_every_archive_every_time Demo.unzip "/app"
                (Some "zips") (Some "xml") Demo.w_extracted Demo.w_extracted
                ["ipa050106.zip"; "ipa050113.zip"] eq_refl)
    as (Hok & _ & Hrun & _).
  destruct (Hrun (files Demo.w_extracted
                    ++ [("xml/ipa050113.xml", File "PK-b")]) eq_refl)
    as (w' & H & Hfs).
  exists w'. split; [exact H|]. split; [|exact Hfs].
  exact (proj1 (Hok w' H)).
Defined.

(** C10, as stated, fails: with the raw directory [.], whose path contains
    a [.], and with the raw directory [/], where the raw file path is not a
    bare name, the records of [f.xml] are written to [out/f.json]. *)
Lemma materialize_output_path_counterexample :
  Str.has "." "." = true /\
  out_path "." "out" "f.xml" = "out/f.json" /\
  Str.has "/" (Path.join "/" "f.xml") = true /\
  out_path "/" "out" "f.xml" = "out/f.json" /\
  Path.join "out" (json_name "f.xml") = "out/f.json".
Proof. vm_compute. auto. Qed.

(** C10, amended.  A call of [processCachedUsptoXmlData] writes, for the
    raw files it gets through and in listing order, to
    [path.join(jsonDir, T + '.json')] where [T] is [path.join(xmlDir,
    fileName)] cut before its first [.], or all of it when it has none.
    When both directories are paths of plain segments, those of [xmlDir]
    without [.], and the file is [stem.ext], that path is [jsonDir], then
    the segments of [xmlDir], then [stem.json]: not [jsonDir/stem.json]. *)
Theorem materialize_output_path
    (xml2js_parseString : string -> result value) (dirname__ : string)
    (usptoXmlFileCacheDir usptoJsonFileCacheDir : option string)
    (w : world) (names : list string) :
  readdirSync (xml_cache_dir dirname__ usptoXmlFileCacheDir) w
    = (w, Ok names) ->
  (forall w' out,
     processCachedUsptoXmlData xml2js_parseString dirname__
       usptoXmlFileCacheDir usptoJsonFileCacheDir w = (w', out) ->
     exists done rest,
       names = done ++ rest /\
       writes (trace w') = writes (trace w) ++
         map (out_path (xml_cache_dir dirname__ usptoXmlFileCacheDir)
                (json_cache_dir dirname__ usptoJsonFileCacheDir)) done /\
       (out = Ok tt -> rest = [])) /\
  (forall a b, Str.has "." a = false ->
     json_name (a +++ "." +++ b) = a +++ ".json" /\
     json_name a = a +++ ".json") /\
  (forall (a1 a2 : bool) (D J : list string) (stem ext : string),
     D <> [] -> J <> [] ->
     Forall (fun s => seg_plain s = true) D ->
     Forall (fun s => seg_ok s = true) J ->
     seg_plain stem = true -> Str.has "/" ext = false ->
     out_path (path_of a1 D) (path_of a2 J) (stem +++ "." +++ ext)
     = path_of a2 (J ++ D ++ [stem +++ ".json"]) /\
     path_of a2 (J ++ D ++ [stem +++ ".json"])
     <> path_of a2 (J ++ [stem +++ ".json"])).
Proof.
  intros Hls. split; [|split].
  - intros w' out H. rewrite materialize_unfold in H. unfold bind at 1 in H.
    rewrite Hls in H.
    destruct (materialize_loop _ _ _ _ _ _ H) as (done & rest & Hm & W & Ho).
    apply map_eq_app in Hm. destruct Hm as (d & r & -> & <- & <-).
    exists d, r. split; [reflexivity|]. split.
    + rewrite W, map_map. reflexivity.
    + intros Hok. destruct (Ho Hok) as (Hr & _).
      apply map_eq_nil in Hr. exact Hr.
  - intros a b Ha. split; [apply json_name_cut | apply json_name_whole];
      exact Ha.
  - apply out_path_plain.
Qed.

(** The records of [xml/ipa050106.xml] go to [json/xml/ipa050106.json]. *)
Lemma materialize_output_path_witness :
  exists w',
    processCachedUsptoXmlData Demo.xml2js "/app" (Some "xml") (Some "json")
      Demo.w_materialized = (w', Ok tt) /\
    writes (trace w') = ["json/xml/ipa050106.json"].
Proof.
  destruct (materialize_output_path Demo.xml2js "/app" (Some "xml")
              (Some "json") Demo.w_materialized ["ipa050106.xml"] eq_refl)
    as (Hrun & _ & _).
  eexists. split; [vm_compute; reflexivity|].
  destruct (Hrun _ (Ok tt) ltac:(vm_compute; reflexivity))
    as (done & rest & Hn & W & Hr).
  rewrite (Hr eq_refl), app_nil_r in Hn. subst done. exact W.
Defined.

(* ================================================================== *)
(** * Further properties of the code *)

Import StrFacts ReFacts LinkFacts DiscoverFacts SyncFacts ExtractFacts.
Import MaterializeFacts ParseFacts OrderFacts BlobFacts PathFacts.
Import OutPathFacts YearFacts StoreFacts FootprintFacts FetchFacts KeyFacts.
Import FsFacts WayFacts NameFacts SyncMore ExtractMore BatchFacts RecordFacts.
Import PushFacts LedgerFacts StageFacts SectionFacts CollisionFacts.

(** X1.  Taking the link targets out of the matches of a page,
    [linkText.split(q)[1].split(q)[0]] with [q] the double quote, never
    fails: every match has a second piece, and that piece is a zip name. *)
Theorem link_targets_extracted (page : string) :
  rmap link_target (Re.match_from linkRegularExpression 0 page)
  = Ok (zip_links page) /\
  Forall is_zip_name (zip_links page).
Proof.
  split; [|apply zip_links_names].
  apply rmap_link_target. apply match_from_sound.
Qed.

(** X2.  When the page of a year is not served while the pages of the years
    before it are, [fetchUsptoZipFileInfos] fails with the network error, has
    asked for the pages up to that year and for none after it, and has
    touched neither files nor store. *)
Theorem discover_page_failure_aborts
    (axios_get : string -> option string) (currentYear : Z)
    (fileLimit startYear endYear : option Z) (w : world)
    (pre : list Z) (y : Z) (post : list Z) :
  years (or_default 2005%Z startYear) (or_default currentYear endYear)
  = pre ++ y :: post ->
  forallb (served axios_get) pre = true ->
  served axios_get y = false ->
  snd (fetchUsptoZipFileInfos axios_get currentYear fileLimit startYear
         endYear w) = Err NetworkError /\
  fetches (trace (fst (fetchUsptoZipFileInfos axios_get currentYear fileLimit
                         startYear endYear w)))
  = fetches (trace w) ++ map year_url (pre ++ [y]) /\
  files (fst (fetchUsptoZipFileInfos axios_get currentYear fileLimit
                startYear endYear w)) = files w /\
  store (fst (fetchUsptoZipFileInfos axios_get currentYear fileLimit
                startYear endYear w)) = store w.
Proof.
  intros Hys Hpre Hy. rewrite fetch_world, Hys.
  destruct (requested_stop axios_get pre y post Hpre Hy) as [Hreq Hall].
  rewrite fetch_unfold, Hys. unfold bind at 1.
  destruct (for_push (pre ++ y :: post) (year_body axios_get) w)
    as [w1 out] eqn:E.
  destruct (first_loop_run axios_get _ _ _ _ E) as (F & S & T & _ & Herr).
  rewrite (Herr Hall). cbn [fst snd]. rewrite <- Hreq. auto.
Qed.

(** The pages of 2005 to 2007, that of 2006 not served. *)
Lemma discover_page_failure_aborts_witness :
  snd (fetchUsptoZipFileInfos DemoFetch.site_down 2007 None None None Demo.w0)
  = Err NetworkError /\
  fetches (trace (fst (fetchUsptoZipFileInfos DemoFetch.site_down 2007
                         None None None Demo.w0)))
  = fetches (trace Demo.w0) ++ map year_url ([2005%Z] ++ [2006%Z]).
Proof.
  refine ((fun H => conj (proj1 H) (proj1 (proj2 H)))
            (discover_page_failure_aborts DemoFetch.site_down 2007
               None None None Demo.w0 [2005%Z] 2006%Z [2007%Z] _ _ _));
    reflexivity.
Defined.

(** X3.  A call of [fetchUsptoZipFileInfos] that returns has asked for the
    page of every year of the range, once each and in ascending order,
    whatever the limit, and has touched neither files nor store. *)
Theorem discover_requests_every_year
    (axios_get : string -> option string) (currentYear : Z)
    (fileLimit startYear endYear : option Z) (w w' : world)
    (infos : list UsptoZipFileInfo) :
  fetchUsptoZipFileInfos axios_get currentYear fileLimit startYear endYear w
  = (w', Ok infos) ->
  fetches (trace w')
  = fetches (trace w)
    ++ map year_url
         (years (or_default 2005%Z startYear) (or_default currentYear endYear))
  /\ files w' = files w /\ store w' = store w.
Proof.
  intros H.
  destruct (fetch_result axios_get _ _ _ _ _ _ _ H) as [_ Hall].
  pose proof (fetch_world axios_get currentYear fileLimit startYear endYear w)
    as Hw.
  rewrite H in Hw. cbn [fst] in Hw.
  destruct (for_push _ (year_body axios_get) w) as [w1 out] eqn:E.
  cbn [fst] in Hw. subst w1.
  destruct (first_loop_run axios_get _ _ _ _ E) as (F & S & T & _).
  rewrite T, (requested_all axios_get _ Hall). auto.
Qed.

(** Two years and a limit of one: both pages are asked for. *)
Lemma discover_requests_every_year_witness :
  fetches (trace (fst (fetchUsptoZipFileInfos Demo.site 2006 None None None
                         Demo.w0)))
  = fetches (trace Demo.w0) ++ map year_url (years 2005 2006).
Proof.
  refine (proj1 (discover_requests_every_year Demo.site 2006 None None None
                   Demo.w0 _ [Demo.ref_a] _)).
  reflexivity.
Defined.

(** X4.  With a negative limit, [slice(0, fileLimit)] drops that many
    references from the end of the list instead of limiting it. *)
Theorem discover_negative_limit
    (axios_get : string -> option string) (currentYear : Z)
    (fileLimit startYear endYear : option Z) (w w' : world)
    (infos : list UsptoZipFileInfo) :
  (or_default 1%Z fileLimit < 0)%Z ->
  fetchUsptoZipFileInfos axios_get currentYear fileLimit startYear endYear w
  = (w', Ok infos) ->
  infos = firstn
            (List.length (discovered axios_get (or_default 2005%Z startYear)
                            (or_default currentYear endYear))
             - Z.to_nat (- or_default 1%Z fileLimit))
            (discovered axios_get (or_default 2005%Z startYear)
               (or_default currentYear endYear)).
Proof.
  intros Hneg H.
  destruct (fetch_result axios_get _ _ _ _ _ _ _ H) as [-> _].
  unfold slice0. cbv zeta.
  destruct (Z.ltb_spec (or_default 1%Z fileLimit) 0); [|lia].
  f_equal. lia.
Qed.

(** Three references and a limit of -1: the first two are returned. *)
Lemma discover_negative_limit_witness :
  [Demo.ref_a; Demo.ref_b]
  = firstn (List.length (discovered Demo.site 2005 2006) - Z.to_nat (- -1))
      (discovered Demo.site 2005 2006).
Proof.
  refine (discover_negative_limit Demo.site 2006 (Some (-1)%Z) None None
            Demo.w0 _ [Demo.ref_a; Demo.ref_b] _ _).
  - reflexivity.
  - reflexivity.
Defined.

(** X5.  When the end year lies before the start year,
    [fetchUsptoZipFileInfos] returns the empty list without any request. *)
Theorem discover_empty_range
    (axios_get : string -> option string) (currentYear : Z)
    (fileLimit startYear endYear : option Z) (w : world) :
  (or_default currentYear endYear < or_default 2005%Z startYear)%Z ->
  fetchUsptoZipFileInfos axios_get currentYear fileLimit startYear endYear w
  = (w, Ok []).
Proof.
  intros H. rewrite fetch_unfold, (years_empty _ _ H).
  unfold bind, lift, ret. cbn [for_push]. unfold ret.
  change (rmap response_infos []) with (Ok (@nil (list UsptoZipFileInfo))).
  unfold slice0. cbn [List.length List.concat]. cbv zeta.
  rewrite firstn_nil. reflexivity.
Qed.

Lemma discover_empty_range_witness :
  fetchUsptoZipFileInfos Demo.site 2006 None (Some 2010%Z) (Some 2005%Z) Demo.w0
  = (Demo.w0, Ok []).
Proof.
  apply (discover_empty_range Demo.site 2006 None (Some 2010%Z) (Some 2005%Z)
           Demo.w0).
  reflexivity.
Defined.

(** X6.  Every reference [fetchUsptoZipFileInfos] returns has a zip name,
    and its url is the url of the page of a year of the range followed by
    that name. *)
Theorem discover_refs_wellformed
    (axios_get : string -> option string) (currentYear : Z)
    (fileLimit startYear endYear : option Z) (w w' : world)
    (infos : list UsptoZipFileInfo) :
  fetchUsptoZipFileInfos axios_get currentYear fileLimit startYear endYear w
  = (w', Ok infos) ->
  Forall (ref_of_years
            (years (or_default 2005%Z startYear)
               (or_default currentYear endYear))) infos.
Proof.
  intros H.
  destruct (fetch_result axios_get _ _ _ _ _ _ _ H) as [-> _].
  apply Forall_slice0. apply discovered_wf.
Qed.

Lemma discover_refs_wellformed_witness :
  Forall (ref_of_years (years 2005 2006)) [Demo.ref_a; Demo.ref_b; Demo.ref_c].
Proof.
  refine (discover_refs_wellformed Demo.site 2006 (Some 5%Z) None None
            Demo.w0 _ _ _).
  reflexivity.
Defined.

(** X7.  A name taken from a zip link is one clean path segment, so the
    path [synchronizeUsptoZipFiles] writes an archive to, the join of the
    cache directory and the name, lies directly in the cache directory. *)
Theorem archive_path_inside_cache
    (a : bool) (D : list string) (page n : string) :
  D <> [] -> Forall (fun s => seg_ok s = true) D ->
  In n (zip_links page) ->
  Path.join (path_of a D) n = path_of a (D ++ [n]) /\
  Path.dirname (path_of a (D ++ [n])) = path_of a D /\
  Path.basename (path_of a (D ++ [n])) = n.
Proof.
  intros HD F Hn.
  assert (Hok : seg_ok n = true).
  { apply zip_name_seg_ok.
    exact (proj1 (Forall_forall _ _) (zip_links_names page) n Hn). }
  destruct (dirname_path_of a D n HD F Hok) as (Hd & Hb & _).
  repeat split; auto.
  change n with (path_of false [n]) at 1.
  apply (join_paths a false D [n]); auto; discriminate.
Qed.

Lemma archive_path_inside_cache_witness :
  Path.join (path_of true ["app"; "uspto_zip_file_cache"]) "ipa050113.zip"
  = path_of true (["app"; "uspto_zip_file_cache"] ++ ["ipa050113.zip"]).
Proof.
  refine (proj1 (archive_path_inside_cache true ["app"; "uspto_zip_file_cache"]
                   Demo.page_2005 "ipa050113.zip" _ _ _)).
  - discriminate.
  - repeat constructor.
  - vm_compute. right. left. reflexivity.
Defined.

(** X8.  When the cache directory is not there and its parent is,
    [synchronizeUsptoZipFiles] makes it, and a call that completes has
    fetched every reference, in reference order, and written each under its
    name in the new directory. *)
Theorem syncArchives_fresh_directory
    (axios_get : string -> option string) (dirname__ : string)
    (refs : list UsptoZipFileInfo) (zipFileCacheDir : option string)
    (w w' : world) :
  fs_wf (files w) = true ->
  exists_in (files w) (key (zip_cache_dir dirname__ zipFileCacheDir)) = false ->
  is_dir (files w)
    (Path.dirname (key (zip_cache_dir dirname__ zipFileCacheDir))) = true ->
  synchronizeUsptoZipFiles axios_get dirname__ refs zipFileCacheDir w
  = (w', Ok tt) ->
  is_dir (files w') (key (zip_cache_dir dirname__ zipFileCacheDir)) = true /\
  fetches (trace w') = fetches (trace w) ++ map url refs /\
  writes (trace w')
  = writes (trace w)
    ++ map (fun r => Path.join (zip_cache_dir dirname__ zipFileCacheDir)
                       (name r)) refs.
Proof.
  intros W E P H. rewrite sync_unfold in H.
  set (dir := zip_cache_dir dirname__ zipFileCacheDir) in *.
  unfold bind at 1 in H. rewrite (ensure_and_list_absent dir w E) in H.
  unfold can_create in H. rewrite P, andb_true_r in H.
  destruct (String.eqb (key dir) ""); cbn [negb] in H; [discriminate|].
  rewrite (children_fresh _ _ W E) in H.
  pose proof (sync_loop_grows axios_get dir [] refs _ _ _ H) as [GD _].
  destruct (loop_ok axios_get dir [] refs _ _ H) as (T & Wr & _).
  cbn [files trace] in *. rewrite missing_nil in T, Wr.
  rewrite fetches_app in T. rewrite writes_app in Wr.
  cbn [fetches writes flat_map] in T, Wr. rewrite app_nil_r in T, Wr.
  repeat split; auto.
  apply GD. unfold is_dir, exists_in in *.
  destruct (is_root (key dir)); [reflexivity|]. cbn [orb] in *.
  rewrite assoc_app. destruct (assoc (key dir) (files w)); [discriminate|].
  cbn [assoc]. rewrite String.eqb_refl. reflexivity.
Qed.

(** Only [data] is there; two references for [data/zips]. *)
Lemma syncArchives_fresh_directory_witness :
  fetches (trace (fst (synchronizeUsptoZipFiles DemoSync.remote "/app"
                         [Demo.ref_a; Demo.ref_b] (Some "data/zips")
                         DemoSync.w_parent)))
  = fetches (trace DemoSync.w_parent) ++ map url [Demo.ref_a; Demo.ref_b].
Proof.
  refine (proj1 (proj2 (syncArchives_fresh_directory DemoSync.remote "/app"
                   [Demo.ref_a; Demo.ref_b] (Some "data/zips")
                   DemoSync.w_parent _ _ _ _ _)));
    reflexivity.
Defined.

(** X9.  [synchronizeUsptoZipFiles] makes the cache directory without its
    parents.  When the directory is missing and its parent is not a
    directory, the call fails at [mkdirSync] and nothing is fetched or
    changed: with [ENOENT] when no name on the way is a regular file, with
    [ENOTDIR] when the first name on the way that is not a directory is a
    regular file.  The directory is a path of clean segments. *)
Theorem syncArchives_missing_parent
    (axios_get : string -> option string) (dirname__ : string)
    (refs : list UsptoZipFileInfo) (zipFileCacheDir : option string)
    (a : bool) (D : list string) (w : world) :
  D <> [] -> Forall (fun s => seg_ok s = true) D ->
  zip_cache_dir dirname__ zipFileCacheDir = path_of a D ->
  exists_in (files w) (path_of a D) = false ->
  is_dir (files w) (Path.dirname (path_of a D)) = false ->
  exists e,
    synchronizeUsptoZipFiles axios_get dirname__ refs zipFileCacheDir w
    = (w, Err e) /\
    (no_file_on_way (files w) a D -> e = FsError "ENOENT") /\
    (stopped_by_file (files w) a D -> e = FsError "ENOTDIR").
Proof.
  intros HD FD Hdir E P. exists (missing_error (files w) (path_of a D)).
  split; [|apply missing_error_cases; assumption].
  rewrite sync_unfold, Hdir. unfold bind at 1.
  pose proof (key_path_of a D HD FD) as K.
  rewrite <- K in E. rewrite (ensure_and_list_absent _ w E), K.
  rewrite (can_create_path_of _ a D HD FD), P. reflexivity.
Qed.

(** A regular file [data] stands where the grandparent of the cache
    directory should be. *)
Lemma syncArchives_missing_parent_witness :
  synchronizeUsptoZipFiles DemoSync.remote "/app" [Demo.ref_a]
    (Some "data/cache/zips") DemoSync.w_blocked
  = (DemoSync.w_blocked, Err (FsError "ENOTDIR")).
Proof.
  destruct (syncArchives_missing_parent DemoSync.remote "/app" [Demo.ref_a]
              (Some "data/cache/zips") false ["data"; "cache"; "zips"]
              DemoSync.w_blocked)
    as (e & H & _ & B).
  - discriminate.
  - repeat constructor.
  - reflexivity.
  - reflexivity.
  - reflexivity.
  - rewrite H. f_equal. f_equal. apply B.
    exists [], ["data"], [["data"; "cache"]], "notes".
    repeat split. constructor.
Defined.

(** X10.  After a call of [synchronizeUsptoZipFiles] that completed, the
    same call fetches and writes nothing: every reference is then listed in
    the cache directory.  The directory is a path of clean segments and the
    names are clean segments, as zip names are. *)
Theorem syncArchives_second_run_is_quiet
    (axios_get : string -> option string) (dirname__ : string)
    (refs : list UsptoZipFileInfo) (zipFileCacheDir : option string)
    (a : bool) (D : list string) (w w' : world) :
  D <> [] -> Forall (fun s => seg_ok s = true) D ->
  zip_cache_dir dirname__ zipFileCacheDir = path_of a D ->
  Forall (fun r => seg_ok (name r) = true) refs ->
  synchronizeUsptoZipFiles axios_get dirname__ refs zipFileCacheDir w
  = (w', Ok tt) ->
  synchronizeUsptoZipFiles axios_get dirname__ refs zipFileCacheDir w'
  = (w', Ok tt).
Proof.
  intros HD FD Hdir Fn H. rewrite sync_unfold in H. rewrite sync_unfold.
  rewrite Hdir in *. set (dir := path_of a D) in *.
  assert (Kd : key dir = dir) by (apply key_path_of; assumption).
  unfold bind at 1 in H.
  destruct (ensure_and_list dir w) as [w1 [cached|e]] eqn:E1; [|discriminate].
  destruct (ensure_and_list_ok dir w w1 cached E1) as [Dw1 Hc].
  destruct (sync_loop_grows axios_get dir cached refs _ _ _ H) as [GD GC].
  destruct (loop_ok axios_get dir cached refs _ _ H) as (_ & _ & _ & Hfile).
  unfold bind at 1. rewrite (ensure_and_list_present dir w' (GD _ Dw1)).
  apply loop_all_present. apply Forall_forall. intros r Hr.
  pose proof (proj1 (Forall_forall _ _) Fn r Hr) as Hn. cbn beta in Hn.
  destruct (includes (name r) cached) eqn:I.
  - apply JsFacts.includes_In in I. rewrite Hc in I. apply GC. exact I.
  - assert (Hm : In r (missing cached refs)).
    { apply filter_In. rewrite I. auto. }
    destruct (Hfile r Hm) as [data Hdata].
    unfold dir in Hdata. rewrite (key_join a D (name r) HD FD Hn) in Hdata.
    destruct (dirname_path_of a D (name r) HD FD Hn) as (Hd & Hb & Hroot).
    pose proof (children_In _ _ _ Hdata Hroot) as Hin.
    rewrite Hd, Hb in Hin. rewrite Kd. exact Hin.
Qed.

(** An empty cache directory and two served references. *)
Lemma syncArchives_second_run_is_quiet_witness :
  synchronizeUsptoZipFiles DemoSync.remote "/app" [Demo.ref_a; Demo.ref_b]
    (Some "cache")
    (fst (synchronizeUsptoZipFiles DemoSync.remote "/app"
            [Demo.ref_a; Demo.ref_b] (Some "cache") Demo.w_fresh))
  = (fst (synchronizeUsptoZipFiles DemoSync.remote "/app"
            [Demo.ref_a; Demo.ref_b] (Some "cache") Demo.w_fresh), Ok tt).
Proof.
  refine (syncArchives_second_run_is_quiet DemoSync.remote "/app"
            [Demo.ref_a; Demo.ref_b] (Some "cache") false ["cache"]
            Demo.w_fresh _ _ _ _ _ _).
  - discriminate.
  - repeat constructor.
  - reflexivity.
  - repeat constructor.
  - reflexivity.
Defined.

(** X11.  [processCachedUsptoZipFiles] makes the output directory before it
    lists the zip directory.  When the output directory is missing below a
    directory and the zip directory, another path, is missing too, the call
    makes the output directory and fails at [readdirSync], nothing
    extracted: with [ENOENT] when no name on the way to the zip directory is
    a regular file, with [ENOTDIR] when the first name on the way that is
    not a directory is a regular file.  Both directories are paths of clean
    segments. *)
Theorem extract_missing_zip_directory
    (AdmZip_extractAllTo : string -> string -> fsys -> result fsys)
    (dirname__ : string) (zipFileCacheDir processedZipFileCacheDir : option string)
    (az ao : bool) (Dz Do : list string) (w : world) :
  Dz <> [] -> Forall (fun s => seg_ok s = true) Dz ->
  zip_cache_dir dirname__ zipFileCacheDir = path_of az Dz ->
  Do <> [] -> Forall (fun s => seg_ok s = true) Do ->
  xml_cache_dir dirname__ processedZipFileCacheDir = path_of ao Do ->
  path_of az Dz <> path_of ao Do ->
  exists_in (files w) (path_of ao Do) = false ->
  is_dir (files w) (Path.dirname (path_of ao Do)) = true ->
  exists_in (files w) (path_of az Dz) = false ->
  exists e,
    processCachedUsptoZipFiles AdmZip_extractAllTo dirname__ zipFileCacheDir
      processedZipFileCacheDir w
    = (mkWorld (files w ++ [(path_of ao Do, Dir)]) (store w)
         (trace w ++ [FsMkdir (path_of ao Do)]),
       Err e) /\
    (no_file_on_way (files w) az Dz -> e = FsError "ENOENT") /\
    (stopped_by_file (files w) az Dz -> e = FsError "ENOTDIR").
Proof.
  intros HDz FDz Hzip HDo FDo Hout Hne Eo Po Ez.
  set (fs' := files w ++ [(path_of ao Do, Dir)]).
  exists (missing_error fs' (path_of az Dz)).
  destruct (missing_error_cases fs' az Dz HDz FDz) as [Cn Cs].
  split; [|split].
  - rewrite extract_unfold, Hzip, Hout. unfold bind at 1.
    unfold ensure_then_list, existsSync, mkdirSync, readdirSync, bind,
      get_files, set_files, emit, ret, throw.
    rewrite (key_path_of ao Do HDo FDo), (key_path_of az Dz HDz FDz).
    rewrite Eo. cbn [negb]. cbv zeta. rewrite Eo.
    rewrite (can_create_path_of _ ao Do HDo FDo), Po.
    cbn [files store trace]. fold fs'.
    assert (Ez' : exists_in fs' (path_of az Dz) = false).
    { unfold fs', exists_in in *.
      destruct (is_root (path_of az Dz)); [discriminate|].
      cbn [orb] in *. rewrite assoc_app.
      destruct (assoc (path_of az Dz) (files w)); [discriminate|].
      cbn [assoc].
      destruct (String.eqb_spec (path_of ao Do) (path_of az Dz)); congruence. }
    assert (Dz' : is_dir fs' (path_of az Dz) = false).
    { destruct (is_dir fs' (path_of az Dz)) eqn:D; [|reflexivity].
      apply is_dir_exists in D. congruence. }
    rewrite Dz', Ez'. reflexivity.
  - intros N. apply Cn. apply no_file_on_way_app. exact N.
  - intros S. apply Cs. apply stopped_by_file_app. exact S.
Qed.

(** The output directory [out/xml] is missing below [out]; the zip
    directory is asked below the regular file [data]. *)
Lemma extract_missing_zip_directory_witness :
  processCachedUsptoZipFiles Demo.unzip "/app" (Some "data/zips")
    (Some "out/xml") DemoExtract.w_blocked
  = (mkWorld (files DemoExtract.w_blocked ++ [("out/xml", Dir)]) []
       [FsMkdir "out/xml"],
     Err (FsError "ENOTDIR")).
Proof.
  destruct (extract_missing_zip_directory Demo.unzip "/app"
              (Some "data/zips") (Some "out/xml") false false
              ["data"; "zips"] ["out"; "xml"] DemoExtract.w_blocked)
    as (e & H & _ & B).
  - discriminate.
  - repeat constructor.
  - reflexivity.
  - discriminate.
  - repeat constructor.
  - reflexivity.
  - vm_compute. discriminate.
  - reflexivity.
  - reflexivity.
  - reflexivity.
  - rewrite H. f_equal. f_equal. apply B.
    exists [], ["data"], [], "notes". repeat split. constructor.
Defined.

(** X12.  When the archives listed before [n] were extracted and the zip
    library fails on the archive [n], [processCachedUsptoZipFiles] fails with
    the error of the library: the files are those the earlier extractions
    left, and no archive listed after [n] is handed to the library. *)
Theorem extract_failure_aborts
    (AdmZip_extractAllTo : string -> string -> fsys -> result fsys)
    (dirname__ : string) (zipFileCacheDir processedZipFileCacheDir : option string)
    (pre post : list string) (n : string) (w w1 w2 : world) (e : error) :
  ensure_then_list (xml_cache_dir dirname__ processedZipFileCacheDir)
    (zip_cache_dir dirname__ zipFileCacheDir) w
  = (w1, Ok (pre ++ n :: post)) ->
  for_of (map (fun zipFileName =>
                 Path.join (zip_cache_dir dirname__ zipFileCacheDir) zipFileName)
            pre)
    (fun p => extractAllTo AdmZip_extractAllTo p
                (xml_cache_dir dirname__ processedZipFileCacheDir)) w1
  = (w2, Ok tt) ->
  AdmZip_extractAllTo
    (Path.join (zip_cache_dir dirname__ zipFileCacheDir) n)
    (xml_cache_dir dirname__ processedZipFileCacheDir) (files w2) = Err e ->
  exists w3,
    processCachedUsptoZipFiles AdmZip_extractAllTo dirname__ zipFileCacheDir
      processedZipFileCacheDir w = (w3, Err e) /\
    files w3 = files w2 /\
    extractions (trace w3)
    = extractions (trace w)
      ++ map (fun x => (Path.join (zip_cache_dir dirname__ zipFileCacheDir) x,
                        xml_cache_dir dirname__ processedZipFileCacheDir))
           (pre ++ [n]).
Proof.
  intros E Hpre Herr.
  set (out := xml_cache_dir dirname__ processedZipFileCacheDir) in *.
  set (zip := zip_cache_dir dirname__ zipFileCacheDir) in *.
  pose proof (ensure_then_list_quiet out zip w w1 _ E) as Q.
  pose proof (extract_loop_ok AdmZip_extractAllTo out _ w1 w2 Hpre) as L.
  eexists. split; [|split].
  - rewrite extract_unfold. fold out zip. unfold bind at 1. rewrite E.
    rewrite map_app, for_of_app, Hpre. cbn [map for_of]. unfold bind.
    rewrite (extractAllTo_err AdmZip_extractAllTo _ out w2 e Herr).
    reflexivity.
  - reflexivity.
  - cbn [trace]. rewrite extractions_app, L, Q, map_app, !map_map.
    cbn. rewrite <- app_assoc. reflexivity.
Qed.

(** The first archive is extracted, the second cannot be read, the third is
    never opened. *)
Lemma extract_failure_aborts_witness :
  exists w3,
    processCachedUsptoZipFiles DemoExtract.unzip_b "/app" (Some "zips")
      (Some "xml") DemoExtract.w_zips = (w3, Err ZipError) /\
    extractions (trace w3)
    = [("zips/ipa050106.zip", "xml"); ("zips/ipa050113.zip", "xml")].
Proof.
  destruct (extract_failure_aborts DemoExtract.unzip_b "/app" (Some "zips")
              (Some "xml") ["ipa050106.zip"] ["ipa060105.zip"] "ipa050113.zip"
              DemoExtract.w_zips DemoExtract.w_zips
              (mkWorld (files DemoExtract.w_zips
                          ++ [("xml/ipa050106.xml", File "PK-a")])
                 [] [ZipExtract "zips/ipa050106.zip" "xml"])
              ZipError eq_refl eq_refl eq_refl)
    as (w3 & H & _ & X).
  exists w3. split; [exact H | exact X].
Defined.

(** X13.  On a file in which the section pattern matches nothing,
    [processUsptoXmlFile] throws a [TypeError] when it loops over the [null]
    that [match] returned: the file was read and nothing was handed to the
    XML library. *)
Theorem parseBatch_without_section
    (xml2js_parseString : string -> result value)
    (bulkXmlFilePath xmlData : string) (w : world) :
  assoc (key bulkXmlFilePath) (files w) = Some (File xmlData) ->
  Re.String_match patentXmlSectionRegularExpression xmlData = None ->
  processUsptoXmlFile xml2js_parseString bulkXmlFilePath w
  = (mkWorld (files w) (store w) (trace w ++ [FsRead bulkXmlFilePath]),
     Err TypeError).
Proof.
  intros Hfile Hmatch.
  rewrite (processUsptoXmlFile_run xml2js_parseString _ _ _ Hfile), Hmatch.
  reflexivity.
Qed.

(** A page of HTML among the raw files. *)
Lemma parseBatch_without_section_witness :
  processUsptoXmlFile Demo.xml2js "xml/index.html" DemoParse.w_html
  = (mkWorld (files DemoParse.w_html) [] [FsRead "xml/index.html"],
     Err TypeError).
Proof.
  apply (parseBatch_without_section Demo.xml2js "xml/index.html"
           "<html></html>" DemoParse.w_html); reflexivity.
Defined.

(** X14.  [processUsptoXmlFile] is all or nothing: when the sections before
    [s] give their records and [s] does not, because the XML library rejects
    it or because its object lacks what the record reads, the call throws
    that error and returns no record; the sections up to [s] were parsed,
    those after it were not, and files and store are untouched. *)
Theorem parseBatch_all_or_nothing
    (xml2js_parseString : string -> result value)
    (bulkXmlFilePath xmlData : string) (w : world)
    (pre post : list string) (s : string) (e : error) :
  assoc (key bulkXmlFilePath) (files w) = Some (File xmlData) ->
  Re.String_match patentXmlSectionRegularExpression xmlData
  = Some (pre ++ s :: post) ->
  Forall (fun x => exists r, section_record xml2js_parseString x = Ok r) pre ->
  section_record xml2js_parseString s = Err e ->
  processUsptoXmlFile xml2js_parseString bulkXmlFilePath w
  = (mkWorld (files w) (store w)
       (trace w ++ FsRead bulkXmlFilePath :: map XmlParse (pre ++ [s])),
     Err e).
Proof.
  intros Hfile Hmatch Hpre Hs.
  rewrite (processUsptoXmlFile_run xml2js_parseString _ _ _ Hfile), Hmatch.
  destruct (upto_error_stop (section_record xml2js_parseString) pre post s e
              Hpre Hs) as [-> ->].
  reflexivity.
Qed.

(** The batch of two documents and a library that knows the first only. *)
Lemma parseBatch_all_or_nothing_witness :
  processUsptoXmlFile DemoParse.xml2js_1 "xml/ipa050106.xml" Demo.w_batch
  = (mkWorld (files Demo.w_batch) []
       [FsRead "xml/ipa050106.xml"; XmlParse Demo.section1;
        XmlParse Demo.section2],
     Err XmlError).
Proof.
  refine (parseBatch_all_or_nothing DemoParse.xml2js_1 "xml/ipa050106.xml"
            Demo.batch Demo.w_batch [Demo.section1] [] Demo.section2 XmlError
            _ _ _ _).
  - reflexivity.
  - vm_compute. reflexivity.
  - constructor; [|constructor]. eexists. vm_compute. reflexivity.
  - vm_compute. reflexivity.
Defined.

(** X15.  A call of [processUsptoXmlFile] that returns has read the file,
    has handed every section the pattern matches in it to the XML library,
    once each and in text order, returns one record per section, and has
    changed neither files nor store. *)
Theorem parseBatch_parses_each_section_once
    (xml2js_parseString : string -> result value)
    (bulkXmlFilePath : string) (w w' : world)
    (records : list UsptoPatentSchemaData) :
  processUsptoXmlFile xml2js_parseString bulkXmlFilePath w = (w', Ok records) ->
  exists xmlData sections,
    assoc (key bulkXmlFilePath) (files w) = Some (File xmlData) /\
    Re.String_match patentXmlSectionRegularExpression xmlData = Some sections /\
    trace w' = trace w ++ FsRead bulkXmlFilePath :: map XmlParse sections /\
    rmap (section_record xml2js_parseString) sections = Ok records /\
    List.length records = List.length sections /\
    files w' = files w /\ store w' = store w.
Proof.
  intros H.
  destruct (processUsptoXmlFile_ok xml2js_parseString _ _ _ _ H)
    as (xmlData & Hfile).
  rewrite (processUsptoXmlFile_run xml2js_parseString _ _ _ Hfile) in H.
  destruct (Re.String_match patentXmlSectionRegularExpression xmlData)
    as [sections|] eqn:Hm; [|discriminate].
  injection H as <- Hr.
  destruct (upto_error_all _ _ _ Hr) as [Hu Hl].
  exists xmlData, sections. rewrite Hu. cbn [files store trace].
  repeat split; auto.
Qed.

Lemma parseBatch_parses_each_section_once_witness :
  exists xmlData sections,
    assoc (key "xml/ipa050106.xml") (files Demo.w_batch) = Some (File xmlData) /\
    Re.String_match patentXmlSectionRegularExpression xmlData = Some sections /\
    trace (fst (processUsptoXmlFile Demo.xml2js "xml/ipa050106.xml" Demo.w_batch))
    = trace Demo.w_batch
      ++ FsRead "xml/ipa050106.xml" :: map XmlParse sections.
Proof.
  destruct (parseBatch_parses_each_section_once Demo.xml2js
              "xml/ipa050106.xml" Demo.w_batch
              (fst (processUsptoXmlFile Demo.xml2js "xml/ipa050106.xml"
                      Demo.w_batch))
              (map (fun d => processedPatentSchemaData (patent_data d))
                 [Demo.doc1; Demo.doc2]))
    as (xmlData & sections & H1 & H2 & H3 & _).
  - vm_compute. reflexivity.
  - exists xmlData, sections. auto.
Defined.


(** X17.  A claim whose [claim-text] is text only reaches the record as an
    object with both properties [undefined]: the text of the claim is not in
    the record, whose [patentClaims] holds one empty object per claim. *)
Theorem text_only_claims_lose_their_text
    (attrs : list (string * value)) (ps hs ts : list string) (t i dn : string) :
  exists p,
    processedPatentData
      (xml2js_application attrs (map text_node ps) (map text_only_claim ts)
         (map text_node hs) (title_node t i) (Str dn)) = Ok p /\
    patentClaims p
    = Arr (map (fun _ => Obj [ ("genericClaim", Undefined);
                               ("individualClaims", Undefined) ]) ts) /\
    s_patentClaims (processedPatentSchemaData p)
    = Str ("[" +++ String.concat "," (map (fun _ => "{}") ts) +++ "]").
Proof.
  eexists. split; [|split].
  - unfold processedPatentData, xml2js_application, title_node, upa, biblio.
    cbn [nav get get0 assoc String.eqb Ascii.eqb Bool.eqb rbind map_].
    rewrite !rmap_text. cbn [rbind].
    rewrite rmap_text_only. cbn [rbind map_].
    rewrite rmap_text_claim. reflexivity.
  - reflexivity.
  - cbn [processedPatentSchemaData s_patentClaims patentClaims].
    apply ser_empty_claims.
Qed.

(** X18.  A document whose root element lacks its attributes or one of the
    four children the record reads makes [processedPatentData] throw a
    [TypeError], whatever else the document holds. *)
Theorem document_without_child_throws
    (fields : list (string * value)) (k : string) :
  In k root_children -> assoc k fields = None ->
  processedPatentData (Obj [("us-patent-application", Obj fields)])
  = Err TypeError.
Proof.
  intros Hin Hk.
  destruct (processedPatentData (Obj [("us-patent-application", Obj fields)]))
    as [p|e] eqn:H.
  - exfalso. unfold processedPatentData, biblio in H.
    repeat (apply rbind_ok in H; destruct H as (? & ? & H)).
    repeat match goal with
    | Hn : rbind (rbind _ _) _ = Ok _ |- _ =>
        apply rbind_ok in Hn; destruct Hn as (? & ? & ?)
    | Hn : rbind (nav _ _) _ = Ok _ |- _ =>
        apply rbind_ok in Hn; destruct Hn as (? & ? & ?)
    end.
    unfold root_children in Hin. cbn [In] in Hin.
    repeat (destruct Hin as [<- | Hin]);
      try match goal with
      | Hn : nav (upa :: K ?k :: _) _ = Ok _, Hm : assoc ?k _ = None |- _ =>
          rewrite (nav_missing k _ _ _ Hm) in Hn; discriminate
      end.
    exact Hin.
  - f_equal. exact (te_processedPatentData _ e H).
Qed.

(** A document without an abstract. *)
Lemma document_without_child_throws_witness :
  processedPatentData
    (Obj [("us-patent-application",
           Obj [ ("$", Obj [("lang", Str "EN")]);
                 ("claims", Arr [ Obj [ ("claim", Arr []) ] ]) ])])
  = Err TypeError.
Proof.
  apply (document_without_child_throws
           [ ("$", Obj [("lang", Str "EN")]);
             ("claims", Arr [ Obj [ ("claim", Arr []) ] ]) ] "abstract").
  - right. left. reflexivity.
  - reflexivity.
Defined.

(** X19.  [processCachedUsptoXmlData] makes no directory.  When the first
    listed raw file gives its records, its output path is missing and the
    parent of that path is not a directory, the call fails at the first
    write: the file was read and parsed, nothing is written.  The error is
    [ENOENT] when no name on the way to the output path is a regular file,
    [ENOTDIR] when the first name on the way that is not a directory is a
    regular file.  The raw directory and the output path are paths of clean
    segments. *)
Theorem materialize_needs_output_directory
    (xml2js_parseString : string -> result value) (dirname__ : string)
    (usptoXmlFileCacheDir usptoJsonFileCacheDir : option string)
    (ax a : bool) (Dx P : list string)
    (w w1 : world) (n : string) (rest : list string)
    (records : list UsptoPatentSchemaData) :
  Dx <> [] -> Forall (fun s => seg_ok s = true) Dx ->
  xml_cache_dir dirname__ usptoXmlFileCacheDir = path_of ax Dx ->
  P <> [] -> Forall (fun s => seg_ok s = true) P ->
  out_path (xml_cache_dir dirname__ usptoXmlFileCacheDir)
    (json_cache_dir dirname__ usptoJsonFileCacheDir) n = path_of a P ->
  readdirSync (xml_cache_dir dirname__ usptoXmlFileCacheDir) w
  = (w, Ok (n :: rest)) ->
  processUsptoXmlFile xml2js_parseString
    (Path.join (xml_cache_dir dirname__ usptoXmlFileCacheDir) n) w
  = (w1, Ok records) ->
  exists_in (files w) (path_of a P) = false ->
  is_dir (files w) (Path.dirname (path_of a P)) = false ->
  exists e,
    processCachedUsptoXmlData xml2js_parseString dirname__
      usptoXmlFileCacheDir usptoJsonFileCacheDir w
    = (w1, Err e) /\
    files w1 = files w /\ writes (trace w1) = writes (trace w) /\
    (no_file_on_way (files w) a P -> e = FsError "ENOENT") /\
    (stopped_by_file (files w) a P -> e = FsError "ENOTDIR").
Proof.
  intros _ _ _ HP FP Hout Hls Hrec Hex Hdir.
  destruct (processUsptoXmlFile_trace xml2js_parseString _ _ _ _ Hrec)
    as (F & _ & Wr & _).
  exists (missing_error (files w) (path_of a P)).
  destruct (missing_error_cases (files w) a P HP FP) as [Cn Cs].
  repeat split; auto.
  rewrite materialize_unfold. unfold bind at 1. rewrite Hls.
  cbn [map for_of]. unfold bind at 1. unfold materialize_body at 1.
  unfold bind at 1. rewrite Hrec.
  unfold out_path in Hout. rewrite Hout.
  unfold write_json, Json.JSON_stringify. cbn [Json.ser].
  unfold writeFileSync, bind, get_files, throw. cbv zeta. rewrite F.
  rewrite (key_path_of a P HP FP).
  unfold exists_in in Hex.
  destruct (is_root (path_of a P)); [discriminate|]. cbn [orb] in Hex.
  destruct (assoc (path_of a P) (files w)); [discriminate|].
  rewrite (can_create_path_of _ a P HP FP), Hdir. reflexivity.
Qed.

(** A regular file [json] stands where the output directory should be. *)
Lemma materialize_needs_output_directory_witness :
  processCachedUsptoXmlData Demo.xml2js "/app" (Some "xml") (Some "json")
    DemoMaterialize.w_blocked
  = (mkWorld (files DemoMaterialize.w_blocked) []
       [FsRead "xml/ipa050106.xml";
        XmlParse Demo.section1; XmlParse Demo.section2],
     Err (FsError "ENOTDIR")).
Proof.
  pose (r := processUsptoXmlFile Demo.xml2js (Path.join "xml" "ipa050106.xml")
               DemoMaterialize.w_blocked).
  destruct (materialize_needs_output_directory Demo.xml2js "/app"
              (Some "xml") (Some "json") false false ["xml"]
              ["json"; "xml"; "ipa050106.json"] DemoMaterialize.w_blocked
              (fst r) "ipa050106.xml" []
              (match snd r with Ok records => records | Err _ => [] end))
    as (e & H & _ & _ & _ & B).
  - discriminate.
  - repeat constructor.
  - reflexivity.
  - discriminate.
  - repeat constructor.
  - reflexivity.
  - reflexivity.
  - vm_compute. reflexivity.
  - reflexivity.
  - reflexivity.
  - rewrite H. f_equal. f_equal. apply B.
    exists [], ["json"], [["json"; "xml"]], "notes".
    repeat split. constructor.
Defined.

(** X20.  What [processCachedUsptoXmlData] writes for the records of
    well-formed documents, [synchronizeProcessedDataToMongoDB] reads back:
    the text parses, and its elements give one row per document, in order,
    the scalar fields as in the document and the three list fields the JSON
    text of the JSON text in the record. *)
Theorem processed_file_reads_back (docs : list Document) :
  exists text,
    Json.JSON_stringify (Arr (map schema_object (map record_of docs)))
    = Str text /\
    Json.JSON_parse text = Ok (Arr (map schema_object (map record_of docs))) /\
    file_rows text = Ok (map row_of docs).
Proof.
  destruct (records_plain docs) as [P T].
  destruct (JSON_roundtrip _ P T) as (text & Hs & Hp).
  exists text. split; [exact Hs|]. split; [exact Hp|].
  unfold file_rows. rewrite Hp. cbn [rbind iterate].
  apply rmap_usptoData.
Qed.

(** X21.  The only file [synchronizeProcessedDataToMongoDB] ever writes is
    an empty ledger: however the call ends, the files are those it found,
    with the ledger holding [[]] added when it was not there and could be
    made, its path not empty and its directory there.  No name is ever put
    into the ledger. *)
Theorem syncToStore_writes_only_the_empty_ledger
    (connect : option string -> bool) (model_save : UsptoData -> bool)
    (env : option string) (dirname__ : string)
    (connectionString dir ledger : option string) (w : world) :
  files (fst (synchronizeProcessedDataToMongoDB connect model_save env
                dirname__ connectionString dir ledger w))
  = if exists_in (files w) (key (ledger_path dirname__ ledger)) then files w
    else if can_create (files w) (key (ledger_path dirname__ ledger))
         then files w ++ [(key (ledger_path dirname__ ledger), File "[]")]
         else files w.
Proof.
  rewrite <- read_ledger_files, store_unfold. unfold bind at 1.
  destruct (read_ledger (ledger_path dirname__ ledger) w) as [w1 [names0|e]];
    [|reflexivity].
  cbn [fst].
  match goal with
  | |- files (fst (?m w1)) = _ =>
      destruct (m w1) as [w' out] eqn:E;
      exact (push_keeps_files connect model_save
               (connection_uri env connectionString)
               (json_cache_dir dirname__ dir) names0 w1 w' out E)
  end.
Qed.

(** X22.  When the ledger parses to an array that holds the name of every
    file of the record directory, [synchronizeProcessedDataToMongoDB] reads
    the ledger, opens the connection, the argument's or else the
    environment's, and ends: no record file is read and nothing is
    inserted. *)
Theorem syncToStore_listed_files_are_skipped
    (connect : option string -> bool) (model_save : UsptoData -> bool)
    (env : option string) (dirname__ : string)
    (connectionString dir ledger : option string) (w : world)
    (text : string) (l : list value) :
  assoc (key (ledger_path dirname__ ledger)) (files w) = Some (File text) ->
  Json.JSON_parse text = Ok (Arr l) ->
  is_dir (files w) (key (json_cache_dir dirname__ dir)) = true ->
  Forall (fun n => In (Str n) l)
    (children (files w) (key (json_cache_dir dirname__ dir))) ->
  connect (connection_uri env connectionString) = true ->
  synchronizeProcessedDataToMongoDB connect model_save env dirname__
    connectionString dir ledger w
  = (mkWorld (files w) (store w)
       (trace w ++ [FsRead (ledger_path dirname__ ledger);
                    StoreConnect (connection_uri env connectionString)]),
     Ok tt).
Proof.
  intros Hf Hp Hd Hall Hc. rewrite store_unfold.
  unfold bind at 1, read_ledger, existsSync, bind at 1.
  assert (He : exists_in (files w) (key (ledger_path dirname__ ledger)) = true).
  { unfold exists_in. rewrite Hf. apply orb_true_r. }
  rewrite He. unfold readFileSync, bind at 1, bind at 1, get_files. cbv zeta.
  rewrite Hf. unfold bind at 1, emit, ret at 1, lift at 1. rewrite Hp.
  unfold bind at 1, readdirSync, bind at 1, get_files. cbv zeta.
  cbn [files store trace]. rewrite Hd.
  unfold ret at 1, bind at 1, lift at 1.
  rewrite (filter_out_all l _ Hall).
  unfold bind at 1, createConnection, bind at 1, emit. rewrite Hc.
  cbn [files store trace for_of]. unfold ret. rewrite <- app_assoc.
  reflexivity.
Qed.

(** The record directory with a ledger that lists its one file. *)
Lemma syncToStore_listed_files_are_skipped_witness :
  Demo.syncToStore DemoStore.w_listed
  = (mkWorld (files DemoStore.w_listed) []
       [FsRead "sync.json"; StoreConnect (Some "mongodb://localhost/uspto")],
     Ok tt).
Proof.
  refine (syncToStore_listed_files_are_skipped Demo.connect Demo.accept None
            "/app" (Some "mongodb://localhost/uspto") (Some "records")
            (Some "sync.json") DemoStore.w_listed _ [Str "ipa050106.json"]
            _ _ _ _ _).
  - reflexivity.
  - vm_compute. reflexivity.
  - reflexivity.
  - constructor; [left; reflexivity | constructor].
  - reflexivity.
Defined.

(** X23.  Let the ledger be read, the connection be accepted, and every
    record file the ledger does not hold be there with rows that can be made
    of its elements.  Then [synchronizeProcessedDataToMongoDB] adds to the
    store the rows of these files, in listing order and, within a file, in
    record order, up to the first row the store rejects: it ends without
    error when every row is taken and with the error of the store
    otherwise, the rows taken before staying in the store; the inserts it
    asked for are the rows taken and the rejected one. *)
Theorem syncToStore_pushes_rows_in_order
    (connect : option string -> bool) (model_save : UsptoData -> bool)
    (env : option string) (dirname__ : string)
    (connectionString dir ledger : option string) (w w1 : world)
    (synchronizedFileNames : value) (todo : list string)
    (rowss : list (list UsptoData)) :
  read_ledger (ledger_path dirname__ ledger) w
  = (w1, Ok synchronizedFileNames) ->
  is_dir (files w1) (key (json_cache_dir dirname__ dir)) = true ->
  filter_out_included synchronizedFileNames
    (children (files w1) (key (json_cache_dir dirname__ dir))) = Ok todo ->
  connect (connection_uri env connectionString) = true ->
  Forall2 (fun f rows => exists text,
             assoc (key (Path.join (json_cache_dir dirname__ dir) f))
               (files w1) = Some (File text) /\
             file_rows text = Ok rows) todo rowss ->
  exists w',
    synchronizeProcessedDataToMongoDB connect model_save env dirname__
      connectionString dir ledger w
    = (w', if forallb model_save (List.concat rowss)
           then Ok tt else Err StoreError) /\
    files w' = files w1 /\
    store w' = store w ++ accepted model_save (List.concat rowss) /\
    saves (trace w')
    = saves (trace w)
      ++ firstn (S (List.length (accepted model_save (List.concat rowss))))
           (List.concat rowss).
Proof.
  intros Hl Hd Hf Hc Hrows.
  destruct (read_ledger_quiet _ _ _ _ Hl) as [S1 T1].
  set (w2 := mkWorld (files w1) (store w1)
               (trace w1 ++ [StoreConnect (connection_uri env connectionString)])).
  destruct (push_files_run model_save (json_cache_dir dirname__ dir) todo
              rowss w2 Hrows) as (w' & Hrun & F & S & T).
  exists w'. split; [|split; [exact F | split]].
  - rewrite store_unfold. unfold bind at 1. rewrite Hl.
    unfold bind at 1, readdirSync, bind at 1, get_files. cbv zeta.
    rewrite Hd. unfold ret at 1, bind at 1, lift at 1. rewrite Hf.
    unfold bind at 1, createConnection, bind at 1, emit. rewrite Hc.
    unfold ret at 1. exact Hrun.
  - rewrite S. cbn [store w2]. rewrite S1. reflexivity.
  - rewrite T. cbn [trace w2]. rewrite saves_app, app_nil_r, T1. reflexivity.
Qed.

(** Three records and a store that rejects the second: the first row is in
    the store, the third was never offered. *)
Lemma syncToStore_pushes_rows_in_order_witness :
  exists w',
    synchronizeProcessedDataToMongoDB Demo.connect DemoStore.reject_2 None
      "/app" None (Some "records") (Some "sync.json") Demo.w_records
    = (w', Err StoreError) /\
    store w' = [row_of Demo.doc1] /\
    saves (trace w') = [row_of Demo.doc1; row_of Demo.doc2].
Proof.
  destruct (syncToStore_pushes_rows_in_order Demo.connect DemoStore.reject_2
              None "/app" None (Some "records") (Some "sync.json")
              Demo.w_records
              (mkWorld (files Demo.w_records ++ [("sync.json", File "[]")]) []
                 [FsWrite "sync.json"])
              (Arr []) ["ipa050106.json"]
              [map row_of [Demo.doc1; Demo.doc2; Demo.doc3]])
    as (w' & H & _ & S & T).
  - reflexivity.
  - reflexivity.
  - reflexivity.
  - reflexivity.
  - constructor; [|constructor]. exists Demo.records_text.
    split; [reflexivity | vm_compute; reflexivity].
  - exists w'. split; [exact H|]. split; [exact S | exact T].
Defined.

(** X24.  The stages after [synchronizeUsptoZipFiles] call nothing but what
    they are for: [processCachedUsptoZipFiles] only makes a directory and
    extracts, [processCachedUsptoXmlData] only reads, parses and writes
    files, it makes no directory, and
    [synchronizeProcessedDataToMongoDB] only reads and writes files, connects
    and inserts.  None of them sends a request. *)
Theorem later_stages_footprint
    (AdmZip_extractAllTo : string -> string -> fsys -> result fsys)
    (xml2js_parseString : string -> result value)
    (connect : option string -> bool) (model_save : UsptoData -> bool)
    (env : option string) (dirname__ : string)
    (zipDir xmlDir jsonDir connectionString ledger : option string) :
  emits_only [KMkdir; KZip]
    (processCachedUsptoZipFiles AdmZip_extractAllTo dirname__ zipDir xmlDir) /\
  emits_only [KRead; KXml; KWrite]
    (processCachedUsptoXmlData xml2js_parseString dirname__ xmlDir jsonDir) /\
  emits_only [KRead; KWrite; KConnect; KSave]
    (synchronizeProcessedDataToMongoDB connect model_save env dirname__
       connectionString jsonDir ledger).
Proof.
  split; [apply emits_extract|]. split; [apply emits_materialize|].
  apply emits_store.
Qed.

(** X25.  The store changes in [synchronizeProcessedDataToMongoDB] only: the
    four stages before it leave it as it was, however they end. *)
Theorem store_untouched_before_push
    (axios_get : string -> option string)
    (AdmZip_extractAllTo : string -> string -> fsys -> result fsys)
    (xml2js_parseString : string -> result value)
    (currentYear : Z) (dirname__ : string)
    (fileLimit startYear endYear : option Z)
    (refs : list UsptoZipFileInfo) (zipDir xmlDir jsonDir : option string) :
  keeps_store
    (fetchUsptoZipFileInfos axios_get currentYear fileLimit startYear endYear)
  /\ keeps_store (synchronizeUsptoZipFiles axios_get dirname__ refs zipDir)
  /\ keeps_store
       (processCachedUsptoZipFiles AdmZip_extractAllTo dirname__ zipDir xmlDir)
  /\ keeps_store
       (processCachedUsptoXmlData xml2js_parseString dirname__ xmlDir jsonDir).
Proof.
  split; [apply store_fetch|]. split; [apply store_sync|].
  split; [apply store_extract | apply store_materialize].
Qed.

(** X26.  One run of [synchronize] asks for the index pages of the years
    from 2005 to the current year, up to the first page that is not served,
    and then for at most one archive, since the limit defaults to one:
    whatever the remote lists, however the run ends. *)
Theorem synchronize_fetches_at_most_one_archive
    (axios_get : string -> option string)
    (xml2js_parseString : string -> result value)
    (AdmZip_extractAllTo : string -> string -> fsys -> result fsys)
    (mongoose_createConnection : option string -> bool)
    (model_save : UsptoData -> bool)
    (currentYear : Z) (env_CONNECTION_STRING : option string)
    (dirname__ : string) (w : world) :
  exists archives,
    fetches (trace (fst (synchronize axios_get xml2js_parseString
                           AdmZip_extractAllTo mongoose_createConnection
                           model_save currentYear env_CONNECTION_STRING
                           dirname__ w)))
    = fetches (trace w)
      ++ requested axios_get (years 2005 currentYear) ++ archives /\
    List.length archives <= 1.
Proof.
  unfold synchronize. unfold bind at 1.
  pose proof (fetch_world axios_get currentYear None None None w) as Hw.
  destruct (fetchUsptoZipFileInfos axios_get currentYear None None None w)
    as [w1 [infos|e]] eqn:E1; cbn [fst] in Hw.
  - destruct (for_push _ (year_body axios_get) w) as [w0 out0] eqn:E0.
    cbn [fst] in Hw. subst w0.
    destruct (first_loop_run axios_get _ _ _ _ E0) as (_ & _ & T1 & _).
    cbn [or_default] in T1.
    assert (L1 : List.length infos <= 1).
    { destruct (fetch_result axios_get _ _ _ _ _ _ _ E1) as [-> _].
      destruct (slice0_firstn 1 (discovered axios_get 2005 currentYear))
        as [_ L]; [lia|]. cbn [or_default]. lia. }
    unfold bind at 1.
    destruct (synchronizeUsptoZipFiles axios_get dirname__ infos None w1)
      as [w2 out2] eqn:E2.
    destruct (sync_fetches_bound axios_get dirname__ infos None w1 w2 out2 E2)
      as (archives & T2 & L2).
    exists archives. split; [|lia].
    rewrite app_assoc, <- T1, <- T2.
    destruct out2 as [[]|e]; [|reflexivity].
    match goal with
    | |- fetches (trace (fst (?m w2))) = _ =>
        destruct (m w2) as [w' out] eqn:E3;
        assert (Hm : emits_only
                       [KRead; KXml; KWrite; KMkdir; KZip; KConnect; KSave] m)
    end.
    { apply emits_bind.
      - eapply emits_weaken; [|apply emits_extract].
        intros k Hk. cbn in *. tauto.
      - intros _. apply emits_bind.
        + eapply emits_weaken; [|apply emits_materialize].
          intros k Hk. cbn in *. tauto.
        + intros _. eapply emits_weaken; [|apply emits_store].
          intros k Hk. cbn in *. tauto. }
    cbn [fst]. refine (emits_no_http _ _ _ Hm w2 w' out E3).
    cbn. intros H. repeat (destruct H as [H|H]; [discriminate|]). exact H.
  - destruct (for_push _ (year_body axios_get) w) as [w0 out0] eqn:E0.
    cbn [fst] in Hw. subst w0.
    destruct (first_loop_run axios_get _ _ _ _ E0) as (_ & _ & T1 & _).
    cbn [or_default] in T1.
    exists []. rewrite app_nil_r. cbn [fst]. split; [exact T1 | cbn; lia].
Qed.

(** X27.  Every section [processUsptoXmlFile] cuts out of a file ends at
    the first closing tag after its opening: it is an opening tag with one
    white-space character, a body, and a closing tag, and no closing tag
    starts inside the body.  So no section spans two documents. *)
Theorem sections_end_at_first_closing_tag (xmlData : string) :
  Forall minimal_section
    (Re.match_from patentXmlSectionRegularExpression 0 xmlData).
Proof. apply match_from_all. exact exec_section. Qed.

(** X28.  [synchronizeProcessedDataToMongoDB] reads every entry of the
    record directory that the ledger does not hold as a file: when the first
    of them is a directory the call fails with [EISDIR] right after
    connecting, nothing inserted. *)
Theorem syncToStore_subdirectory_fails
    (connect : option string -> bool) (model_save : UsptoData -> bool)
    (env : option string) (dirname__ : string)
    (connectionString dir ledger : option string) (w w1 : world)
    (synchronizedFileNames : value) (d : string) (rest : list string) :
  read_ledger (ledger_path dirname__ ledger) w
  = (w1, Ok synchronizedFileNames) ->
  is_dir (files w1) (key (json_cache_dir dirname__ dir)) = true ->
  filter_out_included synchronizedFileNames
    (children (files w1) (key (json_cache_dir dirname__ dir)))
  = Ok (d :: rest) ->
  connect (connection_uri env connectionString) = true ->
  assoc (key (Path.join (json_cache_dir dirname__ dir) d)) (files w1)
  = Some Dir ->
  synchronizeProcessedDataToMongoDB connect model_save env dirname__
    connectionString dir ledger w
  = (mkWorld (files w1) (store w1)
       (trace w1 ++ [StoreConnect (connection_uri env connectionString)]),
     Err (FsError "EISDIR")).
Proof.
  intros Hl Hd Hf Hc Hdir.
  rewrite store_unfold. unfold bind at 1. rewrite Hl.
  unfold bind at 1, readdirSync, bind at 1, get_files. cbv zeta.
  rewrite Hd. unfold ret at 1, bind at 1, lift at 1. rewrite Hf.
  unfold bind at 1, createConnection, bind at 1, emit. rewrite Hc.
  unfold ret at 1. cbn [for_of]. unfold bind at 1, push_file. cbv zeta.
  unfold bind at 1, readFileSync, bind at 1, get_files. cbv zeta.
  cbn [files]. rewrite Hdir. reflexivity.
Qed.

(** The default directories under [/app], after
    [processCachedUsptoXmlData] ran: the record directory lists the directory
    [app], below which the records were written. *)
Lemma syncToStore_subdirectory_fails_witness :
  is_file (files DemoPipeline.w_written)
    "/app/uspto_json_file_cache/app/uspto_xml_file_cache/ipa050106.json" /\
  snd (synchronizeProcessedDataToMongoDB Demo.connect Demo.accept None "/app"
         None None None DemoPipeline.w_written)
  = Err (FsError "EISDIR").
Proof.
  split; [eexists; vm_compute; reflexivity|].
  refine (f_equal snd
            (syncToStore_subdirectory_fails Demo.connect Demo.accept None "/app"
               None None None DemoPipeline.w_written _ (Arr []) "app" []
               _ _ _ _ _)).
  - vm_compute. reflexivity.
  - vm_compute. reflexivity.
  - vm_compute. reflexivity.
  - reflexivity.
  - vm_compute. reflexivity.
Defined.

(** X29.  The output path [processCachedUsptoXmlData] computes for a raw
    file depends on its name only up to the first [.]: two raw files
    [stem.ext1] and [stem.ext2] of the same directory have the same output
    path. *)
Theorem materialize_same_stem_same_output
    (a1 a2 : bool) (D J : list string) (stem ext1 ext2 : string) :
  D <> [] -> J <> [] ->
  Forall (fun s => seg_plain s = true) D ->
  Forall (fun s => seg_ok s = true) J ->
  seg_plain stem = true ->
  Str.has "/" ext1 = false -> Str.has "/" ext2 = false ->
  out_path (path_of a1 D) (path_of a2 J) (stem +++ "." +++ ext1)
  = out_path (path_of a1 D) (path_of a2 J) (stem +++ "." +++ ext2).
Proof.
  intros HD HJ FD FJ Hs H1 H2.
  rewrite (proj1 (out_path_plain a1 a2 D J stem ext1 HD HJ FD FJ Hs H1)).
  rewrite (proj1 (out_path_plain a1 a2 D J stem ext2 HD HJ FD FJ Hs H2)).
  reflexivity.
Qed.

Lemma materialize_same_stem_same_output_witness :
  out_path (path_of false ["xml"]) (path_of false ["json"])
    ("ipa050106" +++ "." +++ "xml")
  = out_path (path_of false ["xml"]) (path_of false ["json"])
      ("ipa050106" +++ "." +++ "v2.xml").
Proof.
  apply (materialize_same_stem_same_output false false ["xml"] ["json"]
           "ipa050106" "xml" "v2.xml");
    try reflexivity; try discriminate; repeat constructor.
Defined.

(** X30.  When a segment of the raw directory has a [.] in it, the cut
    before the first [.] of the raw path falls inside the directory: every
    raw file of the directory, whatever its name, has the same output path,
    the join of the record directory and the directory path cut there with
    [.json] added. *)
Theorem materialize_dotted_directory_one_output
    (a : bool) (D1 D2 : list string) (p q jsonDir f : string) :
  Forall (fun s => seg_plain s = true) D1 -> seg_plain p = true ->
  Str.has "/" q = false ->
  Forall (fun s => seg_ok s = true) D2 -> seg_ok f = true ->
  out_path (path_of a (D1 ++ [p +++ "." +++ q] ++ D2)) jsonDir f
  = Path.join jsonDir (path_of a (D1 ++ [p]) +++ ".json").
Proof.
  intros F1 Hp Hq F2 Hf. unfold out_path.
  rewrite (json_name_dotted a D1 D2 p q f F1 Hp Hq F2 Hf). reflexivity.
Qed.

(** An installation under [/srv/uspto-1.0]: the two batches of its raw
    directory both go to [json/srv/uspto-1.json]. *)
Lemma materialize_dotted_directory_one_output_witness :
  out_path "/srv/uspto-1.0/uspto_xml_file_cache" "json" "ipa050106.xml"
  = "json/srv/uspto-1.json" /\
  out_path "/srv/uspto-1.0/uspto_xml_file_cache" "json" "ipa050113.xml"
  = "json/srv/uspto-1.json".
Proof.
  split.
  - refine (eq_trans
              (materialize_dotted_directory_one_output true ["srv"]
                 ["uspto_xml_file_cache"] "uspto-1" "0" "json" "ipa050106.xml"
                 _ _ _ _ _) _);
      try reflexivity; repeat constructor.
  - vm_compute. reflexivity.
Defined.
